(* ===== verification/_CoqProject ===== *)
-Q . S2P
Prelude.v
GoLib.v
GoJSON.v
Sha256.v
Domain.v
ContractJSON.v
JSONDecode.v
JSONDecodeProps.v
Bus.v
MessageBus.v
BusConcurrency.v
Supervisor.v
SupervisorProps.v
WorkerPool.v
EnvelopeStream.v
WorkerPoolProps.v
SubmissionScheduler.v
SubmissionSchedulerProps.v
SchedulerConcurrency.v
TaskPolicy.v
Config.v
Policy.v
StateMonad.v
AgentRegistry.v
RuntimeManager.v
RuntimeViews.v
RuntimeManagerProps.v
AdaptiveRuntime.v
AdaptiveRuntimeProps.v
ExecutionSlots.v
ExecutionSlotsProps.v
TraceParser.v
TraceParserProps.v
LiveRealtime.v
LiveRealtimeProps.v
Router.v
RouterProps.v
ModelInventory.v
ModelRegistry.v
ModelRegistryProps.v
Planner.v
PlannerProps.v
ModelSelector.v
ModelSelectorProps.v
PlanScheduling.v
PlanSchedulingProps.v
ExecutionEffects.v
Reasoning.v
ReasoningProps.v
ExecutionRecords.v
PeerExecution.v
PeerExecutionProps.v
PeerDeliveryProps.v
ModelBudget.v
ModelBudgetProps.v
CacheGuard.v
Workflows.v
CodingDelegate.v
JournalProps.v
WorkflowProps.v
Submission.v
SubmissionProps.v
AsyncWorkflow.v
AsyncWorkflowProps.v
DispatchProps.v
Waiters.v
AgentEnvelope.v
AgentEnvelopeProps.v
PlanExecutor.v
PlanExecutorProps.v
PlanStorageProps.v
