(* ===== verification/Prelude.v ===== *)
(** * SourceVCode orchestrator: a verification library

    The orchestrator (Go, [src/go-core/internal]) takes tasks, plans them, routes every task to
    an agent, delivers it over a message bus with acknowledgements, retries and dead letters, and
    runs plans of several tasks in parallel with durable checkpoints.  This library models that
    core as executable definitions and proves what makes each part correct.  Names of definitions
    are those of the source; a name that several Go types share is qualified by its file or says
    which type it belongs to.

    ** Layers and files

    - Go itself.  [Prelude]: record update, tactics, invariants of step relations, list lemmas.
      [GoLib]: 64-bit integers, byte strings, times, sorting, [float64] as the kernel's primitive
      floats.  [GoJSON], [Sha256]: [any] values, JSON text and the digest taken of it.
      [StateMonad]: methods of one object that call each other.  [Domain]: the records and
      enumerations of [internal/domain]; [ContractJSON]: what [json.Marshal] sees of them;
      [JSONDecode], [JSONDecodeProps]: what [json.Unmarshal] makes of it, and what survives the round trip.
    - Delivery ([internal/delivery]).  [Bus] is the interface of a message bus as a class, with
      the laws about its acknowledgement ledger that clients rely on; [MessageBus] is the in-memory
      bus and an instance of the laws; [BusConcurrency] interleaves publishers and streaming
      consumers at the granularity of the lock and the signal channels.  [Supervisor] and
      [SupervisorProps] track each delivery from dispatch to a terminal state, against the
      interface; [WorkerPool] and [WorkerPoolProps] consume mailboxes, call the handlers and
      retry or dead-letter; [EnvelopeStream]: the workers on the stream of the in-memory bus.
    - Submission ([kernel/orchestrator.go]).  [SubmissionScheduler], [SubmissionSchedulerProps]: the
      queues per group and the choice of the next task; [SchedulerConcurrency]: producers, workers
      and the wake channel as a step relation.  [ExecutionSlots], [ExecutionSlotsProps]: the places a
      task takes while its agent works, and the load reported.  [Config]: what is read from the
      environment.
    - Routing.  [TaskPolicy] ([kernel/task_policy.go]): the capability a task needs.
      [AgentRegistry] ([kernel/registry.go]); [RuntimeManager] ([kernel/runtime_manager.go]): health
      of the lanes, cached weights, pressure, probes; [RuntimeViews]: reading the manager as an
      equivalence on runtimes; [RuntimeManagerProps]: the lanes as circuit breakers.
      [LiveRealtime], [LiveRealtimeProps] ([kernel/realtime_metrics_live.go]): session metrics.
      [Router], [RouterProps] ([kernel/router.go]).
    - Adaptation.  [Policy] ([kernel/policy.go], [kernel/execution_profile.go]): the signals of a lane
      and what they forbid; [AdaptiveRuntime], [AdaptiveRuntimeProps] ([kernel/adaptive_runtime.go]):
      the diagnosis made before a task is planned, on the state of the runtime manager.
    - Model inventory ([kernel/model_registry.go], [kernel/model_catalog.go]).  [ModelInventory]: the
      configuration of a provider, the rows read from its answers and the catalog;
      [ModelRegistry], [ModelRegistryProps]: rounds of registrations and probes, and the snapshots
      whose models the runtime manager may use.  [ModelSelector], [ModelSelectorProps]
      ([kernel/model_selector.go]): the policy of a task, the scores of the healthy models and the
      choice, an instance of the planner's selector interface.
    - Planning ([kernel/planner.go], [kernel/advanced_planner.go]).  [Planner], [PlannerProps]: the
      steps of a plan; [PlanScheduling], [PlanSchedulingProps]: artifacts, readiness and conflicts;
      [PlanExecutor], [PlanExecutorProps]: the executor as a step relation; [PlanStorageProps]: what
      is stored and loaded.
    - Execution ([kernel/orchestrator.go]).  [TraceParser], [TraceParserProps]
      ([selflearn/trace_parser.go]): the incremental reader of tagged answers.  [Reasoning],
      [ReasoningProps]: asking one agent, with rounds of reasoning and criticism or as a stream.
      [PeerExecution], [PeerExecutionProps]: a task's attempts at one agent after the other, each sent
      through the supervisor, on the runtime manager and the router; [PeerDeliveryProps]: what
      these deliveries do to the mailboxes of the in-memory bus.  [ExecutionEffects],
      [ExecutionRecords]: the effects execution has on the world around it and the records it writes to
      memory and store, among them those of self learning.
    - Workflows ([kernel/orchestrator.go]), around the kernel of the execution layer.  [Workflows]: the
      stored workflows behind the class [StoreLaws], with the file store as an instance, and the
      sessions of the coding runtime.  [CacheGuard] ([memory/manager.go], [state/file_store.go]): the
      hard stops of a session; [ModelBudget], [ModelBudgetProps]: the agents tried until a model is
      within budget; [CodingDelegate] ([kernel/opencode_delegate.go]): the tasks given to the external
      coding runtime, an interface.  [JournalProps], [WorkflowProps]: what these computations leave as
      it was.  [Submission], [SubmissionProps]: [SubmitTask], direct and through the queue.
      [AsyncWorkflow]: the dispatch of a queued task, the handling of a result, and the turns of
      the workers; [AsyncWorkflowProps], [DispatchProps]: where they lead.  [AgentEnvelope],
      [AgentEnvelopeProps]: what an agent's worker makes of an envelope, and the round from the envelope to the
      handled result.  [Waiters]: the calls that wait for a workflow and those that tell them, as a
      step relation.

    ** What the theorems show

    - Delivery: timeout sweeps, as close together as one likes, settle every delivery once enough of them come
      an acknowledgement timeout apart, on a bus that does not manage redelivery itself; a tampered payload is
      never handled; a failing handler is retried the right number of times by the workers on the stream of
      the in-memory bus, in any order of their moves, and its task dead-lettered by them once, and a second time
      by a later sweep (a finding); the ledger,
      the unacked table, the metrics and the health counters agree with the records; topics are
      lossless FIFO queues with bounded hops; no wakeup of a streaming consumer is lost.
    - Submission: tasks of a group run in order and within the limit, the best eligible head is
      chosen, queues, counters and cursor stay consistent, and the scheduler can always progress;
      the wake channel, however, can leave one idle worker asleep (a finding).  Running tasks
      stay within the limits of the execution slots, which never deadlock and never leak.
    - Workflows: a submission, direct or queued, and the dispatch of a queued task change no workflow but
      their own, return what they stored, and close, queue or send the task as the case may be; when
      budgets are exceeded the task goes to the best agent within budget or is blocked.  A result notes, passes on
      or closes its workflow, and when every agent fails the workflow is closed after at most as
      many results as there are agents.  An envelope is always answered by one result, and a round of a task
      ends with what its agent answered.  Whoever registered before the notification of a closed workflow
      returns, unless a record of the workflow that was still open has filled its channel (a finding).  One failed
      answer, however, locks its session for ever, a budget failure of a direct submission leaves its workflow
      open, a late failure reopens a completed workflow, a task without a type never leaves the
      queue, and a call that registers too late waits for ever (findings).
    - Routing: the runtime manager refines one circuit breaker per agent; routing, although it
      writes states back while it reads, equals a reference that decides on the state at the
      start, returns the best agent that may take the task, and finds none only if there is none;
      an expired suppression is not noticed by the cached weights (a finding).  Histograms equal what one computes
      from the event stream, and so do the session counters as long as no completed session is started again
      under another model (a finding).
    - Adaptation: a decision suppresses exactly the failing lanes, and its parallelism stays
      within the bounds of plan and mode; the assignment policy blocks what the manager refuses.
      A lane that fails too often is suppressed again for ever (a finding).
    - Model inventory: a round queues and probes exactly the due models within its limits, waits
      for the retry time of a failed one, and makes a model routable only by a probe of its own;
      the status of a snapshot agrees with its models.  Confirmed models are dropped by the next
      refresh, and a negative probe limit ends the process (findings).  The selector names a
      healthy candidate that no other outranks, and its policy's target only when there is none.
    - Planning: plans are dependency orders with one root, branches partition the files, schedules
      are maximal and free of conflicts; every run of a plan ends, runs each task at most once after
      its dependencies and never next to a conflicting one, and what is stored at any moment
      is loaded as the state in memory, up to what JSON does to values of type [any] and to invalid UTF-8.
    - Execution: an answer is read the same however it is cut into chunks, and what was written with
      tags is read back; the rounds end within their number of calls and keep the best answer; a
      task is tried once at distinct agents until one answers or routing finds nobody left, and
      its hints list who failed.  A delivery takes the oldest message of the mailbox, so one
      that is left over spoils the following ones, an answer ends at its first stray bracket, and a late
      round without structure discards the earlier answer (findings).

    ** Modelling choices

    - Every method that holds a lock is one function from state to state.  Where the interleaving
      of goroutines matters (bus consumers, submission workers, the plan executor) a step relation
      lists the possible steps; elsewhere operations run one after the other.
    - The clock is an argument [now], or a function when an operation reads it several times.  A
      time is a number of nanoseconds from Go's zero time, durations wrap at 64 bits.
    - [float64] is the kernel's binary64 with rounding to nearest, as on amd64 without fused
      multiply-add.  [int] is [Z] with explicit wrap-around where a value can overflow; counters that
      grow by one per event are not wrapped.
    - [sort.Slice] is a stable insertion sort; the callers pass strict weak orders, so on distinct keys
      every sort gives the same result.  Go maps are [gmap]s; where a map's iteration order is
      visible it is an argument.
    - [strings.ToLower] and [strings.EqualFold] treat letters beyond ASCII only as far as they
      fold into ASCII: results are compared with ASCII words.
    - Checkpoints are stored as the maps the kernel builds and decoded as [decodeSessionState] does.  The decoders
      work on the value whose text they would read and parse no JSON text, apart from times.  The laws of the
      storage class say that a map read back decodes as the one written, not that it is the same: a storage may keep
      JSON.  They ask for maps with whole numbers that a float64 holds, no negative zeros and keys that are valid UTF-8.
    - Code behind an interface of the source (model selector, stores, handlers, route memory,
      retriever, provider catalogs, probes) and library functions with large definitions
      ([strconv.ParseFloat], [url.Parse], [time.ParseDuration], [http.StatusText], [json.Unmarshal]
      of network answers and of the task in an envelope) are parameters or arguments; statements hold for
      all of them unless a law is named.  An answer of the network is an argument of the operation that
      asks for it.
    - Agents are functions of the number of the call and the task, retriever and evaluator of the query
      or record and the moment, so each may answer differently every time.  During the execution of a
      task the clocks of supervisor and kernel count their own readings, what others change
      meanwhile (loads, memory, route memory) is a function of the moment, and the execution slots
      appear as one task sees them: they are granted, or its context ends first.
    - What the kernel tells the world (events, records for memory and store, waiters to wake, the event pump
      of a coding session) is appended to a journal in the order in which it happens; the cache guard
      reads the hard stops back from it.  Other components do not read these records.  The stores of workflows fail or
      succeed by the moment of the call; a theorem that needs them to succeed says so.
    - In [AsyncWorkflow] and [AgentEnvelope] the workers on the in-memory bus take turns one at a time, each with the task or result at the
      front of its queue; how the scheduler chooses among several tasks is the subject of
      [SchedulerConcurrency].
    - A run-time panic the code can reach is the result [None] (the probe limit of a refresh).
    - Recursion: loops over lists are structural.  Fuel is used for [TrimSpace] (the length of the
      string: each round removes a byte), JSON escaping (one byte a round) and the
      clusters of a plan (one cluster a round); the lemmas next to them show it suffices.

    ** Not modelled

    Storage backends, the RabbitMQ client, HTTP and WebSocket endpoints, the clients of model
    providers, the memory and its embeddings, process control, deployment commands and the training
    part of self learning: they are I/O around the core, and the core sees them through the interfaces
    above.  Of the kernel, the managed coding runtime is left out, which the orchestrator sees as an
    interface, and of [orchestrator.go] the telemetry and the construction.  Cancelled contexts are
    modelled for the execution slots, streaming agents and waiters only. *)

From stdpp Require Export base tactics list gmap strings relations pretty.
From Stdlib Require Export ZArith Lia.
#[global] Set Warnings "-notation-overridden,-postfix-notation-not-level-1".
#[global] Open Scope Z_scope.

(** ** Record update

    Go assigns single fields of a struct.  [r <| f := v |>] is [r] with field [f] replaced
    by [v]; the update of every field is derived from one eta expansion per record. *)
Class Updatable (R : Type) : Type := eta_fields : R -> R.

Class FieldUpdate {R F : Type} (proj : R -> F) : Type := field_map : (F -> F) -> R -> R.
Arguments field_map {R F} proj {_} f r.

Ltac derive_update :=
  lazymatch goal with
  | |- @FieldUpdate ?R ?F ?proj =>
      let inst := constr:(_ : Updatable R) in
      let body := eval hnf in inst in
      lazymatch eval pattern proj in body with
      | ?rebuild proj =>
          let upd := constr:(fun h : F -> F => rebuild (fun r => h (proj r))) in
          let upd := eval cbv beta in upd in
          exact upd
      end
  end.
#[export] Hint Extern 1 (FieldUpdate _) => derive_update : typeclass_instances.

Declare Scope orch_scope.
Delimit Scope orch_scope with orch.
#[global] Open Scope orch_scope.
Notation "r <| p := v |>" := (field_map p (fun _ => v) r)
  (at level 12, left associativity, p at next level, v at level 200) : orch_scope.
Notation "r <| p ::= f |>" := (field_map p f r)
  (at level 12, left associativity, p at next level, f at level 200) : orch_scope.

(** ** Hint databases

    [orch] carries the lemmas that close routine side conditions, [orch_rw] the rewrite rules
    of the components. *)
Create HintDb orch.
Create Rewrite HintDb orch_rw.

Ltac orch_simpl := autorewrite with orch_rw in *; simplify_eq/=.
Ltac orch := eauto with orch lia.

(** Case analysis on every [if]/[match] of the goal, closing absurd branches. *)
Ltac split_cases := repeat (case_match; simplify_eq/=); try done.

(** ** Step relations

    A component's concurrent behaviour is a relation [R] on its states; an invariant that
    holds initially and is preserved by [R] holds in every reachable state. *)
Section Reachability.
  Context {S : Type} (init : S -> Prop) (R : S -> S -> Prop).

Definition reachable (s : S) : Prop := exists s0, init s0 /\ rtc R s0 s.

Definition inductive_invariant (I : S -> Prop) : Prop :=
    (forall s, init s -> I s) /\ (forall s s', I s -> R s s' -> I s').

Lemma invariant_rtc (I : S -> Prop) s s' :
    (forall s s', I s -> R s s' -> I s') -> rtc R s s' -> I s -> I s'.
  Proof. intros Hstep Hrtc. induction Hrtc; eauto. Qed.

Lemma invariant_reachable (I : S -> Prop) s :
    inductive_invariant I -> reachable s -> I s.
  Proof. intros [Hi Hs] (s0 & H0 & Hr). eapply invariant_rtc; eauto. Qed.

Lemma reachable_step s s' : reachable s -> R s s' -> reachable s'.
  Proof. intros (s0 & ? & ?) ?. exists s0. split; [done|]. by eapply rtc_r. Qed.
End Reachability.

(** ** Lists *)
(** Sum of a measure over a list. *)
Fixpoint list_sum_with {A} (f : A -> nat) (l : list A) : nat :=
  match l with [] => 0%nat | x :: l => (f x + list_sum_with f l)%nat end.

Lemma list_sum_with_app {A} (f : A -> nat) l k :
  list_sum_with f (l ++ k) = (list_sum_with f l + list_sum_with f k)%nat.
Proof. induction l as [|x l IH]; cbn; [done|]. rewrite IH. lia. Qed.

Lemma list_sum_with_perm {A} (f : A -> nat) l k :
  l ≡ₚ k -> list_sum_with f l = list_sum_with f k.
Proof. induction 1; cbn; lia. Qed.

Lemma list_sum_with_ext {A} (f g : A -> nat) l :
  Forall (fun x => f x = g x) l -> list_sum_with f l = list_sum_with g l.
Proof. induction 1; cbn; congruence. Qed.

Lemma list_sum_with_insert {A} (f : A -> nat) i x y l : l !! i = Some x ->
  (list_sum_with f (<[i := y]> l) + f x = list_sum_with f l + f y)%nat.
Proof.
  revert i. induction l as [|z l IH]; intros [|i] Hi; [done|done| |].
  - injection Hi as ->. change (<[0%nat := y]> (x :: l)) with (y :: l). cbn [list_sum_with]. lia.
  - change (<[S i := y]> (z :: l)) with (z :: <[i := y]> l). cbn [list_sum_with]. specialize (IH i Hi). lia.
Qed.

(** Adding [k] to the measure of one element. *)
Lemma list_sum_with_bump `{EqDecision A} (f f' : A -> nat) (x : A) (k : nat) l :
  NoDup l -> (forall y, f' y = f y + (if decide (y = x) then k else 0))%nat ->
  list_sum_with f' l = (list_sum_with f l + (if decide (x ∈ l) then k else 0))%nat.
Proof.
  intros Hnd Hf. induction Hnd as [|y l Hy Hnd IH]; cbn.
  - by rewrite decide_False by apply not_elem_of_nil.
  - rewrite IH, Hf. destruct (decide (y = x)) as [->|Hne].
    + rewrite decide_False, decide_True by (done || left). lia.
    + destruct (decide (x ∈ l)).
      * rewrite decide_True by by right. lia.
      * rewrite decide_False; [lia|]. by intros [?|?]%elem_of_cons.
Qed.
