(* ===== verification/GoLib.v ===== *)
(** * Go language and standard library

    The parts of Go that the modelled sources rely on: machine integers, byte strings with
    [strings.TrimSpace], [strings.ToLower], [strings.Contains] and [strings.Join],
    [strconv.Itoa]-style decimal printing, [time.Time] values and [sort.Slice]. *)
From S2P Require Import Prelude.
From Stdlib Require Import PrimFloat Uint63 SpecFloat FloatAxioms FloatOps.
Local Open Scope Z_scope.

(** ** [int]: 64-bit two's complement *)
Module Int.
Definition min : Z := - 2 ^ 63.
Definition max : Z := 2 ^ 63 - 1.
Definition wrap (z : Z) : Z := (z + 2 ^ 63) `mod` 2 ^ 64 - 2 ^ 63.
Definition add (a b : Z) : Z := wrap (a + b).
Definition sub (a b : Z) : Z := wrap (a - b).
Definition in_range (z : Z) : Prop := min <= z <= max.

Lemma wrap_range z : in_range (wrap z).
  Proof. unfold in_range, wrap, min, max. pose proof (Z.mod_pos_bound (z + 2^63) (2^64)). lia. Qed.

Lemma wrap_id z : in_range z -> wrap z = z.
  Proof. unfold in_range, wrap, min, max. intros. rewrite Z.mod_small; lia. Qed.

Lemma wrap_wrap_add a b : wrap (wrap a + b) = wrap (a + b).
  Proof.
    unfold wrap.
    replace ((a + 2^63) `mod` 2^64 - 2^63 + b + 2^63) with ((a + 2^63) `mod` 2^64 + b) by lia.
    rewrite Zplus_mod_idemp_l. do 2 f_equal. lia.
  Qed.

Lemma add_id a b : in_range (a + b) -> add a b = a + b.
  Proof. apply wrap_id. Qed.

Lemma add_wrap_l a b : add (wrap a) b = wrap (a + b).
  Proof. apply wrap_wrap_add. Qed.
End Int.
#[global] Arguments Int.wrap : simpl never.
#[global] Arguments Int.add : simpl never.
#[global] Arguments Int.sub : simpl never.
#[export] Hint Resolve Int.wrap_range : orch.

(** [len(x)] as a Go [int]. *)
Definition len {A} (l : list A) : Z := Z.of_nat (length l).
Lemma len_nonneg {A} (l : list A) : 0 <= len l.
Proof. unfold len. lia. Qed.
#[export] Hint Resolve len_nonneg : orch.

(** ** Strings: Go strings are byte sequences *)

(** [strings.TrimSpace] removes the runes of [unicode.IsSpace]; these are their UTF-8
    encodings.  A byte sequence that starts (ends) with one of them starts (ends) with that rune. *)
Definition bytes (l : list N) : string :=
  foldr (fun b s => String (Ascii.ascii_of_N b) s) "" l.
Definition space_runes : list string :=
  map bytes
    [[9]; [10]; [11]; [12]; [13]; [32]; [0xC2; 0x85]; [0xC2; 0xA0]; [0xE1; 0x9A; 0x80];
     [0xE2; 0x80; 0x80]; [0xE2; 0x80; 0x81]; [0xE2; 0x80; 0x82]; [0xE2; 0x80; 0x83];
     [0xE2; 0x80; 0x84]; [0xE2; 0x80; 0x85]; [0xE2; 0x80; 0x86]; [0xE2; 0x80; 0x87];
     [0xE2; 0x80; 0x88]; [0xE2; 0x80; 0x89]; [0xE2; 0x80; 0x8A]; [0xE2; 0x80; 0xA8];
     [0xE2; 0x80; 0xA9]; [0xE2; 0x80; 0xAF]; [0xE2; 0x81; 0x9F]; [0xE3; 0x80; 0x80]]%N.

Fixpoint strip_prefix (p s : string) : option string :=
  match p, s with
  | "", s => Some s
  | String a p, String b s => if Ascii.eqb a b then strip_prefix p s else None
  | String _ _, "" => None
  end.

Fixpoint strip_any (ps : list string) (s : string) : option string :=
  match ps with
  | [] => None
  | p :: ps => match strip_prefix p s with Some r => Some r | None => strip_any ps s end
  end.

(** Each round removes at least one byte, so [String.length s] rounds are enough. *)
Fixpoint trim_fuel (fuel : nat) (ps : list string) (s : string) : string :=
  match fuel with
  | O => s
  | S n => match strip_any ps s with Some r => trim_fuel n ps r | None => s end
  end.
Definition trim_left (s : string) : string := trim_fuel (String.length s) space_runes s.
Definition trim_right (s : string) : string :=
  String.rev (trim_fuel (String.length s) (map String.rev space_runes) (String.rev s)).
Definition TrimSpace (s : string) : string := trim_right (trim_left s).

(** What [TrimSpace] returns never starts with a space. *)
Lemma strip_prefix_app p s r : strip_prefix p s = Some r -> s = p +:+ r.
Proof.
  revert s. induction p as [|a p IH]; intros s; cbn.
  - by intros [=->].
  - destruct s as [|b s]; [done|]. destruct (Ascii.eqb_spec a b) as [->|]; [|done].
    intros H%IH. by subst.
Qed.
Lemma strip_any_app ps s r :
  strip_any ps s = Some r -> exists p, p ∈ ps /\ s = p +:+ r.
Proof.
  induction ps as [|p ps IH]; cbn; [done|]. destruct (strip_prefix p s) as [r'|] eqn:Hp.
  - intros [=->]. exists p. split; [by left|by apply strip_prefix_app].
  - intros (p' & ? & ?)%IH. exists p'. split; [by right|done].
Qed.
Lemma string_app_assoc (a b c : string) : (a +:+ b) +:+ c = a +:+ (b +:+ c).
Proof.
  induction a as [|x a IH]; [done|].
  change (String x ((a +:+ b) +:+ c) = String x (a +:+ (b +:+ c))). by rewrite IH.
Qed.
Lemma trim_fuel_suffix n ps s : exists x, s = x +:+ trim_fuel n ps s.
Proof.
  revert s. induction n as [|n IH]; intros s; cbn; [by exists ""|].
  destruct (strip_any ps s) as [r|] eqn:Hr; [|by exists ""].
  apply strip_any_app in Hr as (p & _ & ->). destruct (IH r) as [x Hx].
  exists (p +:+ x). rewrite string_app_assoc. by rewrite <- Hx.
Qed.
Lemma string_length_app (a b : string) : String.length (a +:+ b) = (String.length a + String.length b)%nat.
Proof. induction a as [|c a IH]; [done|]. change (S (String.length (a +:+ b)) = S (String.length a + String.length b)). by rewrite IH. Qed.
Lemma trim_fuel_done n ps s :
  (forall p, p ∈ ps -> p <> "") -> (String.length s <= n)%nat ->
  strip_any ps (trim_fuel n ps s) = None \/ trim_fuel n ps s = "".
Proof.
  intros Hps. revert s. induction n as [|n IH]; intros s Hn; cbn.
  - right. destruct s; [done|cbn in Hn; lia].
  - destruct (strip_any ps s) as [r|] eqn:Hr; [|by left].
    apply strip_any_app in Hr as (p & Hp & ->). apply IH.
    rewrite string_length_app in Hn. destruct p; [by apply Hps in Hp|cbn in Hn; lia].
Qed.
Lemma rev_app_spec a b : String.rev_app a b = String.rev a +:+ b.
Proof.
  unfold String.rev. revert b. induction a as [|c a IH]; intros b; [done|]. cbn.
  rewrite (IH (String c b)), (IH (String c "")), string_app_assoc. done.
Qed.
Lemma string_app_nil_r (a : string) : a +:+ "" = a.
Proof. induction a as [|c a IH]; [done|]. change (String c (a +:+ "") = String c a). by rewrite IH. Qed.
Lemma string_rev_cons c a : String.rev (String c a) = String.rev a +:+ String c "".
Proof. exact (rev_app_spec a (String c "")). Qed.
Lemma string_rev_app a b : String.rev (a +:+ b) = String.rev b +:+ String.rev a.
Proof.
  induction a as [|c a IH]; [symmetry; apply string_app_nil_r|].
  change (String.rev (String c (a +:+ b)) = String.rev b +:+ String.rev (String c a)).
  by rewrite !string_rev_cons, IH, string_app_assoc.
Qed.
Lemma string_rev_involutive a : String.rev (String.rev a) = a.
Proof. induction a as [|c a IH]; [done|]. by rewrite string_rev_cons, string_rev_app, IH. Qed.

Lemma TrimSpace_prefix s : exists x, trim_left s = TrimSpace s +:+ x.
Proof.
  unfold TrimSpace, trim_right. set (t := trim_left s).
  destruct (trim_fuel_suffix (String.length t) (map String.rev space_runes) (String.rev t)) as [x Hx].
  exists (String.rev x). rewrite <- string_rev_app, <- Hx. symmetry. apply string_rev_involutive.
Qed.

(** The space character. *)
Definition blank : Ascii.ascii := Ascii.ascii_of_N 32.
Lemma TrimSpace_no_space s r : TrimSpace s <> String blank r.
Proof.
  intros Ht. destruct (TrimSpace_prefix s) as [x Hx]. rewrite Ht in Hx.
  destruct (trim_fuel_done (String.length s) space_runes s) as [H|H].
  - intros p Hp ->. revert Hp. apply (bool_decide_unpack (_ ∉ _)). vm_compute. exact I.
  - lia.
  - fold (trim_left s) in H. rewrite Hx in H. discriminate H.
  - fold (trim_left s) in H. rewrite Hx in H. discriminate H.
Qed.

(** [strings.ToLower].  ASCII letters are mapped byte-wise; among the other runes only U+0130
    and the Kelvin sign U+212A have an ASCII lower case, and they are mapped to it.  The
    remaining non-ASCII letters are left as they are: every caller compares the result with
    ASCII words only. *)
Definition lower_byte (c : Ascii.ascii) : Ascii.ascii :=
  let n := Ascii.N_of_ascii c in
  if (65 <=? n)%N && (n <=? 90)%N then Ascii.ascii_of_N (n + 32) else c.
Definition byte_is (c : Ascii.ascii) (n : N) : bool := (Ascii.N_of_ascii c =? n)%N.
Fixpoint ToLower (s : string) : string :=
  match s with
  | "" => ""
  | String a r1 =>
      match r1 with
      | "" => String (lower_byte a) ""
      | String b r2 =>
          if byte_is a 0xC4 && byte_is b 0xB0 then String (Ascii.ascii_of_N 105) (ToLower r2)
          else match r2 with
               | String c r3 =>
                   if byte_is a 0xE2 && byte_is b 0x84 && byte_is c 0xAA
                   then String (Ascii.ascii_of_N 107) (ToLower r3)
                   else String (lower_byte a) (ToLower r1)
               | "" => String (lower_byte a) (ToLower r1)
               end
      end
  end.

(** [strings.EqualFold]: equality up to case.  ASCII letters fold to lower case; so do the Kelvin
    sign U+212A and the long s U+017F, the only other runes that fold to ASCII.  Letters beyond
    ASCII are compared as they are: provider, model and agent names are ASCII. *)
Fixpoint fold_case (s : string) : string :=
  match s with
  | "" => ""
  | String a r1 =>
      match r1 with
      | "" => String (lower_byte a) ""
      | String b r2 =>
          if byte_is a 0xC5 && byte_is b 0xBF then String (Ascii.ascii_of_N 115) (fold_case r2)
          else match r2 with
               | String c r3 =>
                   if byte_is a 0xE2 && byte_is b 0x84 && byte_is c 0xAA
                   then String (Ascii.ascii_of_N 107) (fold_case r3)
                   else String (lower_byte a) (fold_case r1)
               | "" => String (lower_byte a) (fold_case r1)
               end
      end
  end.
Definition EqualFold (s t : string) : bool := String.eqb (fold_case s) (fold_case t).

(** The order of strings, byte by byte. *)
Lemma string_ltb_irrefl s : String.ltb s s = false.
Proof.
  unfold String.ltb. pose proof (String.compare_antisym s s) as H. by destruct (String.compare s s).
Qed.
Lemma string_ltb_asym s t : String.ltb s t = true -> String.ltb t s = false.
Proof. unfold String.ltb. rewrite (String.compare_antisym t s). by destruct (String.compare s t). Qed.
Lemma string_ltb_negtrans s t u :
  String.ltb s t = false -> String.ltb t u = false -> String.ltb s u = false.
Proof.
  unfold String.ltb. revert t u.
  induction s as [|a s IH]; intros [|b t] [|c u]; cbn; try done.
  unfold Ascii.compare.
  destruct (N.compare_spec (Ascii.N_of_ascii a) (Ascii.N_of_ascii b)) as [E1| |],
    (N.compare_spec (Ascii.N_of_ascii b) (Ascii.N_of_ascii c)) as [E2| |],
    (N.compare_spec (Ascii.N_of_ascii a) (Ascii.N_of_ascii c)) as [E3| |]; try done; try lia.
  apply IH.
Qed.

(** [strings.Contains] *)
Definition has_prefix (p s : string) : bool :=
  match strip_prefix p s with Some _ => true | None => false end.
Fixpoint Contains (s sub : string) : bool :=
  has_prefix sub s || match s with String _ r => Contains r sub | "" => false end.

(** [strings.Join] *)
Definition Join (parts : list string) (sep : string) : string := String.concat sep parts.

(** [fmt.Sprintf("%d", n)] *)
Definition itoa (n : Z) : string := pretty n.

(** ** [time.Time] and [time.Duration], in nanoseconds

    Instants count from Go's zero time, so [IsZero] is [= 0]; [Sub] saturates at the limits of
    a 64-bit duration. *)
Definition Time := Z.
Definition zero_time : Time := 0.
Definition IsZero (t : Time) : bool := t =? 0.
Definition time_sub (a b : Time) : Z := Z.max Int.min (Z.min Int.max (a - b)).
Definition second : Z := 1000000000.
Definition millisecond : Z := 1000000.

(** ** [sort.Slice] and [sort.SliceStable]

    Both return an ordering of the slice by [less]; the stable one keeps equal elements in
    order.  Insertion from the right is a stable sort for every strict weak order, which all
    callers pass. *)
Section Sort.
  Context {A : Type} (less : A -> A -> bool).

Fixpoint sort_insert (x : A) (l : list A) : list A :=
    match l with
    | [] => [x]
    | y :: l => if less y x then y :: sort_insert x l else x :: y :: l
    end.
Definition sort_slice (l : list A) : list A := foldr sort_insert [] l.

Lemma sort_insert_perm x l : sort_insert x l ≡ₚ x :: l.
  Proof.
    induction l as [|y l IH]; cbn; [done|]. destruct (less y x); [|done].
    rewrite IH. apply Permutation_swap.
  Qed.

Lemma sort_slice_perm l : sort_slice l ≡ₚ l.
  Proof.
    induction l as [|x l IH]; cbn; [done|]. rewrite sort_insert_perm. by f_equiv.
  Qed.

Lemma sort_slice_elem x l : x ∈ sort_slice l <-> x ∈ l.
  Proof. by rewrite sort_slice_perm. Qed.

Lemma sort_slice_length l : length (sort_slice l) = length l.
  Proof. by rewrite sort_slice_perm. Qed.

Lemma sort_slice_nil l : sort_slice l = [] <-> l = [].
  Proof.
    rewrite <- !length_zero_iff_nil. by rewrite sort_slice_length.
  Qed.

(** The first element of a sorted slice is not above any other. *)
Lemma sort_slice_head (ok : A -> Prop) x rest l :
    (forall a b, less a b = true -> less b a = false) ->
    (forall a b c, ok a -> ok b -> ok c -> less a b = false -> less b c = false -> less a c = false) ->
    (forall a, less a a = false) -> Forall ok l ->
    sort_slice l = x :: rest -> forall y, y ∈ l -> less y x = false.
  Proof.
    intros Hasym Htrans Hirr Hok. revert x rest. induction Hok as [|a l Ha Hok IH]; intros x rest Hs y Hy.
    { by apply not_elem_of_nil in Hy. }
    cbn in Hs. fold (sort_slice l) in Hs. destruct (sort_slice l) as [|h tl] eqn:Hl.
    { apply sort_slice_nil in Hl as ->. cbn in Hs. injection Hs as <- _.
      apply list_elem_of_singleton in Hy as ->. apply Hirr. }
    assert (ok h) as Hh.
    { rewrite Forall_forall in Hok. apply Hok. rewrite <- (sort_slice_elem h), Hl. by left. }
    cbn in Hs. destruct (less h a) eqn:Hha; injection Hs as <- _.
    - apply elem_of_cons in Hy as [->|Hy]; [by apply Hasym|apply (IH _ _ eq_refl y Hy)].
    - apply elem_of_cons in Hy as [->|Hy]; [done|].
      rewrite Forall_forall in Hok. apply (Htrans y h a); auto. apply (IH _ _ eq_refl y Hy).
  Qed.
End Sort.
#[export] Hint Resolve sort_slice_perm : orch.

(** ** Helpers of several packages *)

(** [strings.TrimSpace(s) != ] the empty string. *)
Definition non_blank (s : string) : bool := negb (String.eqb (TrimSpace s) "").
(** delivery/worker_pool.go and kernel/orchestrator.go: [firstNonEmptyString]. *)
Fixpoint firstNonEmptyString (values : list string) : string :=
  match values with
  | [] => ""
  | v :: rest => if String.eqb v "" then firstNonEmptyString rest else v
  end.

(** kernel/task_policy.go: [compactStrings]. *)
Fixpoint compactStrings (values : list string) : list string :=
  match values with
  | [] => []
  | v :: rest =>
      let v := TrimSpace v in
      if String.eqb v "" then compactStrings rest else v :: compactStrings rest
  end.

(** ** [float64] conversions: [float64(n)] of an [int] and [Duration.Seconds] *)
Definition float_of_int (z : Z) : float :=
  if z =? Int.min then (- 9223372036854775808)%float
  else if z <? 0 then (- PrimFloat.of_uint63 (Uint63.of_Z (- z)))%float
  else PrimFloat.of_uint63 (Uint63.of_Z z).
Definition duration_seconds (d : Z) : float :=
  (float_of_int (Z.quot d second) + float_of_int (Z.rem d second) / 1e9)%float.

(** [int(v)] of a [float64] as compiled for amd64: truncation, and the least integer when the
    value does not fit. *)
Definition int_of_float (f : float) : Z :=
  match Prim2SF f with
  | S754_zero _ => 0
  | S754_finite s m e =>
      let a := if 0 <=? e then Z.pos m * 2 ^ e else Z.pos m / 2 ^ (- e) in
      let z := if s then - a else a in
      if (Int.min <=? z) && (z <=? Int.max) then z else Int.min
  | _ => Int.min
  end.

(** The order of [float64] is transitive, NaN included. *)
Lemma SFltb_trans x y z : SFltb x y = true -> SFltb y z = true -> SFltb x z = true.
Proof.
  assert (forall a b, SFltb a b = true <-> SFcompare a b = Some Lt) as Hlt.
  { intros a b. unfold SFltb. destruct (SFcompare a b) as [[]|]; split; congruence. }
  assert (forall m n, Pos.compare_cont Eq m n = Pos.compare m n) as Hpc by done.
  rewrite !Hlt. destruct x as [[]|[]| |[] m1 e1], y as [[]|[]| |[] m2 e2], z as [[]|[]| |[] m3 e3];
    cbn -[Z.compare Pos.compare_cont]; try congruence; rewrite ?Hpc, <- ?Pos.compare_antisym;
    destruct (Z.compare_spec e1 e2), (Z.compare_spec e2 e3), (Z.compare_spec e1 e3);
    try congruence; try lia; intros [=Ha] [=Hb]; f_equal;
    rewrite ?Pos.compare_lt_iff in *; lia.
Qed.
Lemma float_ltb_trans x y z : (x <? y)%float = true -> (y <? z)%float = true -> (x <? z)%float = true.
Proof. rewrite !ltb_spec. apply SFltb_trans. Qed.
Lemma SFltb_irrefl x : SFltb x x = false.
Proof.
  unfold SFltb. destruct x as [[]|[]| |[] m e]; cbn -[Z.compare Pos.compare_cont]; try done;
    rewrite Z.compare_refl; change (Pos.compare_cont Eq m m) with (Pos.compare m m);
    by rewrite Pos.compare_refl.
Qed.
Lemma float_ltb_irrefl x : (x <? x)%float = false.
Proof. rewrite ltb_spec. apply SFltb_irrefl. Qed.
Lemma float_ltb_asym x y : (x <? y)%float = true -> (y <? x)%float = false.
Proof.
  intros Hxy. destruct (y <? x)%float eqn:Hyx; [|done].
  pose proof (float_ltb_trans _ _ _ Hxy Hyx) as Hxx. by rewrite float_ltb_irrefl in Hxx.
Qed.

(** [x <= y] in terms of the comparison, and its interplay with [<]. *)
Lemma SFltb_leb x y : SFltb x y = true -> SFleb y x = false.
Proof.
  assert (forall m n, Pos.compare_cont Eq m n = CompOpp (Pos.compare_cont Eq n m)) as Hpc
    by (intros; apply Pos.compare_antisym).
  unfold SFltb, SFleb. destruct x as [[]|[]| |[] m1 e1], y as [[]|[]| |[] m2 e2];
    cbn -[Z.compare Pos.compare_cont]; try (intros; done);
    rewrite (Z.compare_antisym e1 e2), (Hpc m2 m1); destruct (Z.compare e1 e2), (Pos.compare_cont Eq m1 m2); done.
Qed.
Lemma float_ltb_leb x y : (x <? y)%float = true -> (y <=? x)%float = false.
Proof. rewrite ltb_spec, leb_spec. apply SFltb_leb. Qed.

(** Equal values compare alike; only the two zeros are equal without being the same. *)
Lemma SFcompare_eq_r x y z : SFcompare y z = Some Eq -> SFcompare x y = SFcompare x z.
Proof.
  assert (forall m n, Pos.compare_cont Eq m n = Eq -> m = n) as Hpc
    by (intros m n; exact (proj1 (Pos.compare_eq_iff m n))).
  assert (forall m n, CompOpp (Pos.compare_cont Eq m n) = Eq -> m = n) as Hpc'
    by (intros m n H; apply Hpc; by destruct (Pos.compare_cont Eq m n)).
  destruct y as [[]|[]| |[] m2 e2], z as [[]|[]| |[] m3 e3];
    cbn -[Z.compare Pos.compare_cont]; try (intros; done); try (intros; by destruct x as [[]|[]| |[] m1 e1]);
    destruct (Z.compare_spec e2 e3) as [->| |]; intros [=Heq]; (apply Hpc in Heq || apply Hpc' in Heq); by subst.
Qed.
Lemma SFltb_leb_trans x y z : SFltb x y = true -> SFleb y z = true -> SFltb x z = true.
Proof.
  intros Hxy Hyz. unfold SFleb in Hyz. destruct (SFcompare y z) as [[]|] eqn:E; try done.
  - unfold SFltb in *. by rewrite <- (SFcompare_eq_r x y z E).
  - eapply SFltb_trans; [exact Hxy|]. unfold SFltb. by rewrite E.
Qed.
Lemma float_ltb_leb_trans x y z : (x <? y)%float = true -> (y <=? z)%float = true -> (x <? z)%float = true.
Proof. rewrite !ltb_spec, leb_spec. apply SFltb_leb_trans. Qed.

Lemma SFcompare_antisym x y :
  SFcompare x y = match SFcompare y x with Some c => Some (CompOpp c) | None => None end.
Proof.
  assert (forall m n, Pos.compare_cont Eq m n = CompOpp (Pos.compare_cont Eq n m)) as Hpc
    by (intros; apply Pos.compare_antisym).
  destruct x as [[]|[]| |[] m1 e1], y as [[]|[]| |[] m2 e2]; cbn -[Z.compare Pos.compare_cont]; try done;
    rewrite (Z.compare_antisym e1 e2), (Hpc m2 m1);
    destruct (Z.compare e1 e2), (Pos.compare_cont Eq m1 m2); done.
Qed.

(** How two numbers other than NaN compare. *)
Definition float_order (x y : float) : option comparison := SFcompare (Prim2SF x) (Prim2SF y).
Lemma float_ltb_order x y : (x <? y)%float = true <-> float_order x y = Some Lt.
Proof. rewrite ltb_spec. unfold SFltb, float_order. destruct (SFcompare _ _) as [[]|]; split; congruence. Qed.
Lemma float_eqb_order x y : (x =? y)%float = true <-> float_order x y = Some Eq.
Proof. rewrite eqb_spec. unfold SFeqb, float_order. destruct (SFcompare _ _) as [[]|]; split; congruence. Qed.
Lemma float_order_total x y :
  (x =? x)%float = true -> (y =? y)%float = true -> exists c, float_order x y = Some c.
Proof.
  rewrite !eqb_spec. unfold SFeqb, float_order.
  destruct (Prim2SF x) as [[]|[]| |[] m1 e1]; cbn -[Z.compare Pos.compare_cont]; try done;
    destruct (Prim2SF y) as [[]|[]| |[] m2 e2]; cbn -[Z.compare Pos.compare_cont]; try done; eauto;
    repeat case_match; eauto.
Qed.

(** [minFloat] and [maxInt] of the kernel. *)
Definition minFloat (a b : float) : float := if (a <? b)%float then a else b.
Definition maxInt (a b : Z) : Z := if b <? a then a else b.

(** [math.Max] and [math.Min] on [float64], with their treatment of infinities, NaN and signed
    zeros. *)
Definition float_is_nan (x : float) : bool := negb (x =? x)%float.
Definition float_signbit (x : float) : bool := PrimFloat.get_sign x.
Definition math_Max (x y : float) : float :=
  (if (x =? infinity) || (y =? infinity) then infinity
   else if float_is_nan x || float_is_nan y then nan
   else if (x =? 0) && (y =? 0) then if float_signbit x then y else x
   else if y <? x then x else y)%float.
Definition math_Min (x y : float) : float :=
  (if (x =? neg_infinity) || (y =? neg_infinity) then neg_infinity
   else if float_is_nan x || float_is_nan y then nan
   else if (x =? 0) && (y =? 0) then if float_signbit x then x else y
   else if x <? y then x else y)%float.
