(* ===== verification/GoJSON.v ===== *)
(** * [any] values, [encoding/json] and [crypto/sha256]

    Go's [map[string]any] trees, what [json.Marshal] writes for them and the SHA-256 digest the
    delivery layer and the checkpoint store take of that text. *)
From S2P Require Import Prelude GoLib.
From Stdlib Require Import PrimFloat SpecFloat FloatOps.

(** ** [any]

    An [AMap] lists the entries of a map (keys distinct; Go leaves the order open), an
    [AStruct] the encoded fields of a struct in declaration order.  [AStrings []] is the nil
    slice: the sources build the [[]string] values they store with [append([]string(nil), ...)].
    [AMaps] is a [[]map[string]any]. *)
#[warnings="-register-all"]
Inductive any : Type :=
  | ANil
  | ABool (b : bool)
  | AInt (z : Z)
  | AFloat (f : float)
  | AString (s : string)
  | AStrings (l : list string)
  | AList (l : list any)
  | AMaps (l : list (list (string * any)))
  | AMap (m : list (string * any))
  | AStruct (fields : list (string * any)).

(** Reading and writing a [map[string]any]. *)
Definition anymap := list (string * any).
Fixpoint aget (m : anymap) (k : string) : option any :=
  match m with
  | [] => None
  | (k', v) :: m => if String.eqb k k' then Some v else aget m k
  end.
Fixpoint aset (m : anymap) (k : string) (v : any) : anymap :=
  match m with
  | [] => [(k, v)]
  | (k', v') :: m => if String.eqb k k' then (k, v) :: m else (k', v') :: aset m k v
  end.
Fixpoint adel (m : anymap) (k : string) : anymap :=
  match m with
  | [] => []
  | (k', v') :: m => if String.eqb k k' then adel m k else (k', v') :: adel m k
  end.
Definition aget_any (m : anymap) (k : string) : any := default ANil (aget m k).

Lemma aget_aset_eq m k v : aget (aset m k v) k = Some v.
Proof.
  induction m as [|[k' v'] m IH]; cbn; [by rewrite String.eqb_refl|].
  destruct (String.eqb k k') eqn:E; cbn; [by rewrite String.eqb_refl|by rewrite E].
Qed.

Lemma aget_aset_ne m k k' v : k <> k' -> aget (aset m k v) k' = aget m k'.
Proof.
  intros Hne. induction m as [|[k2 v2] m IH]; cbn.
  - destruct (String.eqb_spec k' k); congruence.
  - destruct (String.eqb_spec k k2); cbn.
    + subst. by destruct (String.eqb_spec k' k2); [congruence|].
    + by rewrite IH.
Qed.
#[export] Hint Rewrite aget_aset_eq : orch_rw.
#[export] Hint Rewrite aget_aset_ne using discriminate : orch_rw.

(** ** JSON text *)
Definition dquote : string := bytes [34]%N.
Definition hex_digit (n : N) : string :=
  bytes [if (n <? 10)%N then 48 + n else 87 + n]%N.
Definition u_escape (n : N) : string :=
  bytes [92; 117]%N +:+ hex_digit ((n / 4096) `mod` 16)%N +:+ hex_digit ((n / 256) `mod` 16)%N
    +:+ hex_digit ((n / 16) `mod` 16)%N +:+ hex_digit (n `mod` 16)%N.

(** Length of the valid UTF-8 sequence at the start of the bytes, 0 when there is none
    ([utf8.DecodeRuneInString] returning [RuneError] of width 1). *)
Definition cont (c : N) : bool := ((0x80 <=? c) && (c <=? 0xBF))%N.
Definition utf8_len (l : list N) : nat :=
  match l with
  | a :: b :: rest =>
      if ((0xC2 <=? a) && (a <=? 0xDF) && cont b)%N then 2
      else match rest with
           | c :: rest =>
               let lo := (if a =? 0xE0 then 0xA0 else 0x80)%N in
               let hi := (if a =? 0xED then 0x9F else 0xBF)%N in
               if ((0xE0 <=? a) && (a <=? 0xEF) && (lo <=? b) && (b <=? hi) && cont c)%N then 3
               else match rest with
                    | d :: _ =>
                        let lo := (if a =? 0xF0 then 0x90 else 0x80)%N in
                        let hi := (if a =? 0xF4 then 0x8F else 0xBF)%N in
                        if ((0xF0 <=? a) && (a <=? 0xF4) && (lo <=? b) && (b <=? hi)
                            && cont c && cont d)%N then 4 else 0
                    | [] => 0
                    end
           | [] => 0
           end
  | _ => 0
  end%nat.

Definition string_bytes (s : string) : list N :=
  map Ascii.N_of_ascii (String.list_ascii_of_string s).

(** The escapes of [json.Marshal] with HTML escaping on. *)
Definition escape_ascii (c : N) : string :=
  (if (c =? 34) || (c =? 92) then bytes [92; c]
   else if c =? 8 then bytes [92; 98] else if c =? 12 then bytes [92; 102]
   else if c =? 10 then bytes [92; 110] else if c =? 13 then bytes [92; 114]
   else if c =? 9 then bytes [92; 116]
   else if (c <? 32) || (c =? 60) || (c =? 62) || (c =? 38) then u_escape c
   else bytes [c])%N.
Fixpoint escape_bytes (fuel : nat) (l : list N) : string :=
  match fuel, l with
  | S n, c :: rest =>
      if (c <? 0x80)%N then escape_ascii c +:+ escape_bytes n rest
      else match utf8_len l with
           | O => u_escape 0xFFFD +:+ escape_bytes n rest
           | S k =>
               let seq := take (S k) l in
               (if decide (seq = [0xE2; 0x80; 0xA8]%N) then u_escape 0x2028
                else if decide (seq = [0xE2; 0x80; 0xA9]%N) then u_escape 0x2029
                else bytes seq) +:+ escape_bytes n (drop (S k) l)
           end
  | _, _ => ""
  end.
Definition json_string (s : string) : string :=
  let l := string_bytes s in dquote +:+ escape_bytes (length l) l +:+ dquote.

(** [strconv.AppendFloat(f, 'f' or 'e', -1, 64)]: the shortest decimal that reads back as the
    same float.  [decimal m e p] rounds [m * 2^e] to [p] significant digits. *)
Definition pow10 (n : Z) : Z := 10 ^ n.
Definition scaled (m e x : Z) : Z * Z :=  (* m * 2^e / 10^x as a fraction *)
  (m * 2 ^ Z.max e 0 * pow10 (Z.max (- x) 0), 2 ^ Z.max (- e) 0 * pow10 (Z.max x 0)).
Definition round_frac (f : Z * Z) : Z :=
  let '(n, d) := f in
  let q := n / d in let r := n - q * d in
  if 2 * r <? d then q else if d <? 2 * r then q + 1 else if Z.even q then q else q + 1.
Fixpoint digits10 (fuel : nat) (n d : Z) (k : Z) : Z :=  (* least k >= 0 with n/d < 10^k *)
  match fuel with
  | O => k
  | S f => if n <? d * pow10 k then k else digits10 f n d (k + 1)
  end.
Fixpoint digits10_neg (fuel : nat) (n d : Z) (k : Z) : Z :=  (* number of zeros after the point *)
  match fuel with
  | O => k
  | S f => if n * pow10 (k + 1) <? d then digits10_neg f n d (k + 1) else k
  end.
(** Decimal exponent [x] with 10^(x-1) <= m*2^e < 10^x. *)
Definition dec_exp (m e : Z) : Z :=
  let '(n, d) := scaled m e 0 in
  if d <=? n then digits10 400 n d 1 else - digits10_neg 400 n d 0.
Definition frac_le (a b : Z * Z) : bool := a.1 * b.2 <=? b.1 * a.2.
Definition frac_lt (a b : Z * Z) : bool := a.1 * b.2 <? b.1 * a.2.
Definition reads_back (m e d x : Z) : bool :=
  let v := (d * pow10 (Z.max x 0), pow10 (Z.max (- x) 0)) in
  let hi := scaled (2 * m + 1) (e - 1) 0 in
  let lo := if (m =? 2 ^ 52) && (-1074 <? e) then scaled (4 * m - 1) (e - 2) 0
            else scaled (2 * m - 1) (e - 1) 0 in
  if Z.even m then frac_le lo v && frac_le v hi else frac_lt lo v && frac_lt v hi.
Fixpoint shortest (fuel : nat) (p m e : Z) : Z * Z :=
  let x := dec_exp m e - p in
  let d := round_frac (scaled m e x) in
  match fuel with
  | O => (d, x)
  | S f => if reads_back m e d x then (d, x) else shortest f (p + 1) m e
  end.
Fixpoint strip_zeros (fuel : nat) (d x : Z) : Z * Z :=
  match fuel with
  | O => (d, x)
  | S f => if (d `mod` 10 =? 0) && (0 <? d) then strip_zeros f (d / 10) (x + 1) else (d, x)
  end.
Fixpoint zeros (n : nat) : string := match n with O => "" | S n => "0" +:+ zeros n end.
Definition format_f (d x : Z) : string :=
  let ds := itoa d in
  let n := Z.of_nat (String.length ds) in
  if 0 <=? x then ds +:+ zeros (Z.to_nat x)
  else if 0 <? n + x
       then String.substring 0 (Z.to_nat (n + x)) ds +:+ "." +:+
            String.substring (Z.to_nat (n + x)) (Z.to_nat (- x)) ds
       else "0." +:+ zeros (Z.to_nat (- (n + x))) +:+ ds.
(** 'e' format with the exponent's leading zero removed from negative exponents. *)
Definition format_e (d x : Z) : string :=
  let ds := itoa d in
  let n := Z.of_nat (String.length ds) in
  let ex := x + n - 1 in
  let mant := if n =? 1 then ds
              else String.substring 0 1 ds +:+ "." +:+ String.substring 1 (Z.to_nat (n - 1)) ds in
  mant +:+ "e" +:+ (if ex <? 0 then "-" +:+ itoa (- ex)
                    else "+" +:+ (if ex <? 10 then "0" else "") +:+ itoa ex).
Definition json_float (f : float) : option string :=
  match Prim2SF f with
  | S754_zero s => Some (if s then "-0" else "0")
  | S754_finite s m e =>
      let '(d, x) := shortest 16 1 (Z.pos m) e in
      let '(d, x) := strip_zeros 20 d x in
      let top := x + Z.of_nat (String.length (itoa d)) in
      Some ((if s then "-" else "") +:+
            (if (top <=? -6) || (21 <? top) then format_e d x else format_f d x))
  | _ => None
  end.

Definition key_less (a b : string * string) : bool := String.ltb a.1 b.1.
Definition json_fields (l : list (string * string)) : string :=
  "{" +:+ Join (map (fun kv => json_string kv.1 +:+ ":" +:+ kv.2) l) "," +:+ "}".
Definition json_array (l : list string) : string := "[" +:+ Join l "," +:+ "]".

(** [json.Marshal]; [None] is its error (a NaN or infinite float). *)
Fixpoint Marshal (v : any) : option string :=
  match v with
  | ANil => Some "null"
  | ABool b => Some (if b then "true" else "false")
  | AInt z => Some (itoa z)
  | AFloat f => json_float f
  | AString s => Some (json_string s)
  | AStrings [] => Some "null"
  | AStrings l => Some (json_array (map json_string l))
  | AList l => json_array <$> mapM Marshal l
  | AMaps [] => Some "null"
  | AMaps l =>
      json_array <$> mapM (fun m => (fun l => json_fields (sort_slice key_less l)) <$>
        mapM (fun kv => (fun t => (kv.1, t)) <$> Marshal kv.2) m) l
  | AMap m =>
      (fun l => json_fields (sort_slice key_less l)) <$>
        mapM (fun kv => (fun t => (kv.1, t)) <$> Marshal kv.2) m
  | AStruct m => json_fields <$> mapM (fun kv => (fun t => (kv.1, t)) <$> Marshal kv.2) m
  end.

(** [fmt.Sprint] of a value: strings as they are, floats in the %g format of [%v]. *)
Definition sprint_float (f : float) : string :=
  match Prim2SF f with
  | S754_nan => "NaN"
  | S754_infinity s => if s then "-Inf" else "+Inf"
  | S754_zero s => if s then "-0" else "0"
  | S754_finite s m e =>
      let '(d, x) := shortest 16 1 (Z.pos m) e in
      let '(d, x) := strip_zeros 20 d x in
      let ds := itoa d in
      let n := Z.of_nat (String.length ds) in
      let ex := x + n - 1 in
      (if s then "-" else "") +:+
        (if (ex <? -4) || (6 <=? ex) then
           (if n =? 1 then ds
            else String.substring 0 1 ds +:+ "." +:+ String.substring 1 (Z.to_nat (n - 1)) ds) +:+
           "e" +:+ (if ex <? 0 then "-" else "+") +:+
           (if Z.abs ex <? 10 then "0" else "") +:+ itoa (Z.abs ex)
         else format_f d x)
  end.
Fixpoint Sprint (v : any) : string :=
  match v with
  | ANil => "<nil>"
  | ABool b => if b then "true" else "false"
  | AInt z => itoa z
  | AFloat f => sprint_float f
  | AString s => s
  | AStrings l => "[" +:+ Join l " " +:+ "]"
  | AList l => "[" +:+ Join (map Sprint l) " " +:+ "]"
  | AMaps l =>
      "[" +:+ Join (map (fun m => "map[" +:+ Join (map (fun kv => kv.1 +:+ ":" +:+ kv.2)
        (sort_slice key_less (map (fun kv => (kv.1, Sprint kv.2)) m))) " " +:+ "]") l) " " +:+ "]"
  | AMap m =>
      "map[" +:+ Join (map (fun kv => kv.1 +:+ ":" +:+ kv.2)
        (sort_slice key_less (map (fun kv => (kv.1, Sprint kv.2)) m))) " " +:+ "]"
  | AStruct m => "{" +:+ Join (map (fun kv => Sprint kv.2) m) " " +:+ "}"
  end.

(** ** [time.Time] in JSON

    RFC 3339 with nanoseconds, for times in UTC.  [civil] gives year, month and day of a number of days
    from the first of January of the year 1; years count from March inside. *)
Definition civil (days : Z) : Z * Z * Z :=
  let z := days + 306 in
  let era := z / 146097 in
  let doe := z mod 146097 in
  let yoe := (doe - doe / 1460 + doe / 36524 - doe / 146096) / 365 in
  let doy := doe - (365 * yoe + yoe / 4 - yoe / 100) in
  let mp := (5 * doy + 2) / 153 in
  let day := doy - (153 * mp + 2) / 5 + 1 in
  let month := if mp <? 10 then mp + 3 else mp - 9 in
  (yoe + era * 400 + (if month <=? 2 then 1 else 0), month, day).
Definition padded (width : nat) (n : Z) : string :=
  let ds := itoa n in zeros (width - String.length ds) +:+ ds.
Definition trim_zeros (s : string) : string :=
  String.rev (trim_fuel (String.length s) ["0"] (String.rev s)).
Definition format_time (t : Time) : string :=
  let nanos := t mod second in
  let secs := t / second in
  let '(year, month, day) := civil (secs / 86400) in
  let clock := secs mod 86400 in
  padded 4 year +:+ "-" +:+ padded 2 month +:+ "-" +:+ padded 2 day +:+ "T" +:+
  padded 2 (clock / 3600) +:+ ":" +:+ padded 2 (clock / 60 mod 60) +:+ ":" +:+ padded 2 (clock mod 60) +:+
  (if nanos =? 0 then "" else "." +:+ trim_zeros (padded 9 nanos)) +:+ "Z".
(** A time as a value; the years the orchestrator stamps have four digits. *)
Definition time_any (t : Time) : any := AString (format_time t).

Example time_epoch : format_time (62135596800 * second) = "1970-01-01T00:00:00Z".
Proof. vm_compute. reflexivity. Qed.
Example time_leap : format_time ((62135596800 + 1709209845) * second + 120000000) = "2024-02-29T12:30:45.12Z".
Proof. vm_compute. reflexivity. Qed.
