(* ===== verification/Sha256.v ===== *)
(** * [crypto/sha256.Sum256] and [hex.EncodeToString] (FIPS 180-4), on byte values in [Z] *)
From S2P Require Import Prelude GoLib GoJSON.

Definition m32 (x : Z) : Z := Z.land x 0xFFFFFFFF.
Definition rotr (n x : Z) : Z := Z.lor (Z.shiftr x n) (m32 (Z.shiftl x (32 - n))).
Definition ch (x y z : Z) : Z := Z.lxor (Z.land x y) (Z.land (Z.lxor x 0xFFFFFFFF) z).
Definition maj (x y z : Z) : Z := Z.lxor (Z.land x y) (Z.lxor (Z.land x z) (Z.land y z)).
Definition bsig0 x := Z.lxor (rotr 2 x) (Z.lxor (rotr 13 x) (rotr 22 x)).
Definition bsig1 x := Z.lxor (rotr 6 x) (Z.lxor (rotr 11 x) (rotr 25 x)).
Definition ssig0 x := Z.lxor (rotr 7 x) (Z.lxor (rotr 18 x) (Z.shiftr x 3)).
Definition ssig1 x := Z.lxor (rotr 17 x) (Z.lxor (rotr 19 x) (Z.shiftr x 10)).

(** The constants of the algorithm by their definition: the first 32 bits of the fractional
    parts of the cube roots of the first 64 primes, and of the square roots of the first 8. *)
Definition is_prime (n : Z) : bool :=
  forallb (fun d => negb (n `mod` Z.of_nat d =? 0)) (seq 2 (Z.to_nat n - 2)).
Definition first_primes (k : nat) : list Z :=
  take k (List.filter is_prime (map Z.of_nat (seq 2 310))).
(** The largest [r < 2^bits] with [r^e <= n], bit by bit from the top. *)
Fixpoint int_root (bits : nat) (e n r : Z) : Z :=
  match bits with
  | O => r
  | S b =>
      let r' := r + 2 ^ Z.of_nat b in
      int_root b e n (if r' ^ e <=? n then r' else r)
  end.
Definition root_fraction (e p : Z) : Z := m32 (int_root 40 e (p * 2 ^ (32 * e)) 0).
Definition round_constants : list Z := Eval vm_compute in map (root_fraction 3) (first_primes 64).
Definition initial_hash : list Z := Eval vm_compute in map (root_fraction 2) (first_primes 8).

(** Message schedule: the last 16 words, newest first, give the next one. *)
Fixpoint schedule (n : nat) (recent : list Z) : list Z :=
  match n with
  | O => rev recent
  | S n =>
      let w k := nth k recent 0 in
      schedule n (m32 (ssig1 (w 1%nat) + w 6%nat + ssig0 (w 14%nat) + w 15%nat) :: recent)
  end.

Definition compress_round (h : list Z) (kw : Z * Z) : list Z :=
  match h with
  | [a; b; c; d; e; f; g; hh] =>
      let t1 := hh + bsig1 e + ch e f g + kw.1 + kw.2 in
      let t2 := bsig0 a + maj a b c in
      [m32 (t1 + t2); a; b; c; m32 (d + t1); e; f; g]
  | _ => h
  end.
Definition compress (h : list Z) (block : list Z) : list Z :=
  let w := schedule 48 (rev block) in
  let h' := fold_left compress_round (combine round_constants w) h in
  map (fun p => m32 (p.1 + p.2)) (combine h h').

Fixpoint be_bytes (n : nat) (x : Z) : list Z :=
  match n with O => [] | S n => be_bytes n (Z.shiftr x 8) ++ [Z.land x 0xFF] end.
Definition pad (msg : list Z) : list Z :=
  let l := Z.of_nat (length msg) in
  msg ++ [0x80] ++ repeat 0 (Z.to_nat ((55 - l) `mod` 64)) ++ be_bytes 8 (8 * l).
Fixpoint words (fuel : nat) (l : list Z) : list Z :=
  match fuel, l with
  | S n, a :: b :: c :: d :: l =>
      Z.shiftl a 24 + Z.shiftl b 16 + Z.shiftl c 8 + d :: words n l
  | _, _ => []
  end.
Fixpoint blocks (fuel : nat) (h : list Z) (l : list Z) : list Z :=
  match fuel, l with
  | S n, _ :: _ => blocks n (compress h (take 16 l)) (drop 16 l)
  | _, _ => h
  end.
Definition Sum256 (msg : list Z) : list Z :=
  let p := pad msg in
  let ws := words (length p) p in
  flat_map (be_bytes 4) (blocks (length ws) initial_hash ws).

Definition EncodeToString (l : list Z) : string :=
  foldr (fun b s => hex_digit (Z.to_N (Z.shiftr b 4)) +:+ hex_digit (Z.to_N (Z.land b 15)) +:+ s) "" l.

(** The hex digest of a string, as [hex.EncodeToString(sum[:])] with [sum = sha256.Sum256]. *)
Definition sha256_hex (s : string) : string := EncodeToString (Sum256 (map Z.of_N (string_bytes s))).

Example sha256_abc :
  sha256_hex "abc" = "ba7816bf8f01cfea414140de5dae2223b00361a396177a9cb410ff61f20015ad".
Proof. vm_compute. reflexivity. Qed.
Example sha256_empty :
  sha256_hex "" = "e3b0c44298fc1c149afbf4c8996fb92427ae41e4649b934ca495991b7852b855".
Proof. vm_compute. reflexivity. Qed.
