(* ===== verification/Domain.v ===== *)
(** * Domain contracts (internal/domain)

    The records and enumerations the kernel, the delivery layer and the transport exchange.
    Go's enumerations are strings: each inductive lists the constants the sources declare and
    an [...Other] constructor for any further string, the empty (zero) value included.  Numbers
    of type [int] are [Z] in 64-bit range, pointers to a time are options, maps of [any] are
    [anymap]. *)
From S2P Require Import Prelude GoLib GoJSON.
From Stdlib Require Import PrimFloat.

(** ** domain/delivery.go *)
Inductive AckStatus : Type :=
  | AckStatusSent | AckStatusQueued | AckStatusReceived | AckStatusValidated
  | AckStatusRetrying | AckStatusAccepted | AckStatusDeadLettered | AckStatusFailed
  | AckStatusOther (s : string).
#[export] Instance AckStatus_eq_dec : EqDecision AckStatus.
Proof. solve_decision. Defined.

Definition ack_status_string (s : AckStatus) : string :=
  match s with
  | AckStatusSent => "sent" | AckStatusQueued => "queued" | AckStatusReceived => "received"
  | AckStatusValidated => "validated" | AckStatusRetrying => "retrying"
  | AckStatusAccepted => "accepted" | AckStatusDeadLettered => "dead_lettered"
  | AckStatusFailed => "failed" | AckStatusOther s => s
  end.

Record TaskPayload : Type := mkTaskPayload {
  Objective : string;
  InputData : anymap;
  PayloadContext : anymap;
  PayloadAcceptanceCriteria : list string;
  ExpectedOutputFormat : string;
  PayloadArtifacts : list string }.

Record TaskEnvelope : Type := mkTaskEnvelope {
  ProtocolVersion : string;
  EnvTaskID : string;
  EnvParentTaskID : string;
  TraceID : string;
  CorrelationID : string;
  SourceAgent : string;
  TargetAgent : string;
  TargetCapability : string;
  EnvPriority : string;
  QOSClass : string;
  TTL : Z;
  Deadline : option Time;
  HopCount : Z;
  MaxHops : Z;
  RetryCount : Z;
  MaxRetries : Z;
  SecurityPolicy : string;
  ContextScope : string;
  EnvDependencies : list string;
  Payload : TaskPayload;
  IsDeadLetter : bool;
  EnvCreatedAt : Time }.
#[export] Instance eta_TaskEnvelope : Updatable TaskEnvelope := fun e =>
  mkTaskEnvelope (ProtocolVersion e) (EnvTaskID e) (EnvParentTaskID e) (TraceID e)
    (CorrelationID e) (SourceAgent e) (TargetAgent e) (TargetCapability e) (EnvPriority e)
    (QOSClass e) (TTL e) (Deadline e) (HopCount e) (MaxHops e) (RetryCount e) (MaxRetries e)
    (SecurityPolicy e) (ContextScope e) (EnvDependencies e) (Payload e) (IsDeadLetter e)
    (EnvCreatedAt e).

Record MessageAck : Type := mkMessageAck {
  MessageID : string;
  AckStatusOf : AckStatus;
  AckReceivedBy : string;
  AckReason : string }.

Definition zero_payload : TaskPayload := mkTaskPayload "" [] [] [] "" [].
Definition zero_envelope : TaskEnvelope :=
  mkTaskEnvelope "" "" "" "" "" "" "" "" "" "" 0 None 0 0 0 0 "" "" [] zero_payload false zero_time.
Definition zero_ack : MessageAck := mkMessageAck "" (AckStatusOther "") "" "".

(** ** domain/types.go *)
Inductive AgentStatus : Type :=
  | AgentStatusReady | AgentStatusBusy | AgentStatusDegraded | AgentStatusOffline
  | AgentStatusMaintenance | AgentStatusOther (s : string).
Inductive TaskType : Type :=
  | TaskTypePlan | TaskTypeCode | TaskTypeReview | TaskTypeTest | TaskTypeDocs | TaskTypeFix
  | TaskTypeResearch | TaskTypeOther (s : string).
Inductive Priority : Type :=
  | PriorityLow | PriorityNormal | PriorityHigh | PriorityCritical | PriorityOther (s : string).
Inductive TaskStatus : Type :=
  | TaskStatusQueued | TaskStatusAccepted | TaskStatusRejected | TaskStatusWaitingInput
  | TaskStatusRunning | TaskStatusCompleted | TaskStatusDeadLettered | TaskStatusDone
  | TaskStatusFailed | TaskStatusOther (s : string).
Inductive Complexity : Type :=
  | ComplexityLow | ComplexityMedium | ComplexityHigh | ComplexityCritical
  | ComplexityOther (s : string).
#[export] Instance AgentStatus_eq_dec : EqDecision AgentStatus.
Proof. solve_decision. Defined.
#[export] Instance TaskType_eq_dec : EqDecision TaskType.
Proof. solve_decision. Defined.
#[export] Instance Priority_eq_dec : EqDecision Priority.
Proof. solve_decision. Defined.
#[export] Instance TaskStatus_eq_dec : EqDecision TaskStatus.
Proof. solve_decision. Defined.
#[export] Instance Complexity_eq_dec : EqDecision Complexity.
Proof. solve_decision. Defined.

Definition task_status_string (s : TaskStatus) : string :=
  match s with
  | TaskStatusQueued => "queued" | TaskStatusAccepted => "accepted"
  | TaskStatusRejected => "rejected" | TaskStatusWaitingInput => "waiting_input"
  | TaskStatusRunning => "running" | TaskStatusCompleted => "completed"
  | TaskStatusDeadLettered => "dead_lettered" | TaskStatusDone => "done"
  | TaskStatusFailed => "failed" | TaskStatusOther s => s
  end.

Definition task_type_string (t : TaskType) : string :=
  match t with
  | TaskTypePlan => "plan" | TaskTypeCode => "code" | TaskTypeReview => "review"
  | TaskTypeTest => "test" | TaskTypeDocs => "docs" | TaskTypeFix => "fix"
  | TaskTypeResearch => "research" | TaskTypeOther s => s
  end.
Definition priority_string (p : Priority) : string :=
  match p with
  | PriorityLow => "low" | PriorityNormal => "normal" | PriorityHigh => "high"
  | PriorityCritical => "critical" | PriorityOther s => s
  end.
Definition complexity_string (c : Complexity) : string :=
  match c with
  | ComplexityLow => "low" | ComplexityMedium => "medium" | ComplexityHigh => "high"
  | ComplexityCritical => "critical" | ComplexityOther s => s
  end.

Record TaskInput : Type := mkTaskInput {
  Description : string;
  InputFiles : list string;
  Constraints : list string;
  AcceptanceCriteria : list string }.
Record TaskContext : Type := mkTaskContext {
  Project : string;
  RepoPath : string;
  ContextBranch : string }.

Record Task : Type := mkTask {
  ID : string;
  SessionID : string;
  ParentTaskID : string;
  Type_ : TaskType;
  Priority_ : Priority;
  RequiredCapability : string;
  AssignedProvider : string;
  AssignedModel : string;
  Complexity_ : Complexity;
  MemoryScope : string;
  MemoryKeys : list string;
  CachePolicy : string;
  Input : TaskInput;
  Context_ : TaskContext;
  Dependencies : list string;
  BranchID : string;
  DraftLayer : string;
  CheckpointPolicy : string;
  ReviewDepth : Z;
  ResumeToken : string;
  EstimatedCost : float;
  ExecutionContract : anymap;
  RepoFingerprint : string;
  RoutingHints : anymap;
  CreatedAt : Time }.
#[export] Instance eta_Task : Updatable Task := fun t =>
  mkTask (ID t) (SessionID t) (ParentTaskID t) (Type_ t) (Priority_ t) (RequiredCapability t)
    (AssignedProvider t) (AssignedModel t) (Complexity_ t) (MemoryScope t) (MemoryKeys t)
    (CachePolicy t) (Input t) (Context_ t) (Dependencies t) (BranchID t) (DraftLayer t)
    (CheckpointPolicy t) (ReviewDepth t) (ResumeToken t) (EstimatedCost t) (ExecutionContract t)
    (RepoFingerprint t) (RoutingHints t) (CreatedAt t).
#[export] Instance eta_TaskInput : Updatable TaskInput := fun i =>
  mkTaskInput (Description i) (InputFiles i) (Constraints i) (AcceptanceCriteria i).
Definition zero_task : Task :=
  mkTask "" "" "" (TaskTypeOther "") (PriorityOther "") "" "" "" (ComplexityOther "") "" [] ""
    (mkTaskInput "" [] [] []) (mkTaskContext "" "" "") [] "" "" "" 0 "" 0%float [] "" [] zero_time.

Record SupportLane : Type := mkSupportLane {
  LaneProvider : string;
  LaneModelName : string;
  Role : string;
  MaxComplexity : Complexity;
  LaneCapabilities : list string;
  SupportedTaskTypes : list TaskType;
  LaneReason : string }.

Record ModelSelection : Type := mkModelSelection {
  SelProvider : string;
  SelModelName : string;
  SelComplexity : Complexity;
  SelRequiresSecondaryReview : bool;
  SelReason : string;
  DetectedKeywords : list string;
  MatchedHighRiskRules : list string;
  MatchedLowRiskExemptions : list string;
  SupportLanes : list SupportLane;
  SelectionTrace : anymap }.

Record PlanStep : Type := mkPlanStep {
  StepID : string;
  StepTitle : string;
  StepCapability : string;
  StepWorkerClass : string;
  StepClusterID : string;
  StepContextBudget : Z;
  StepConflictKeys : list string;
  StepDependencies : list string;
  StepFiles : list string }.

Record ExecutionPlan : Type := mkExecutionPlan {
  PlanTaskID : string;
  PlanComplexity : Complexity;
  PrimaryCapability : string;
  Selection : ModelSelection;
  Steps : list PlanStep;
  PlanCreatedAt : Time }.

Record PlanTaskArtifact : Type := mkPlanTaskArtifact {
  ArtTaskID : string;
  ArtTitle : string;
  ArtCapability : string;
  ArtWorkerClass : string;
  ArtClusterID : string;
  ArtContextBudget : Z;
  ArtConflictKeys : list string;
  ArtProvider : string;
  ArtModelName : string;
  ArtFiles : list string;
  ArtDependencies : list string;
  ArtBranchID : string;
  ArtDraftLayer : string;
  ArtEstimatedCost : float;
  Weight : float;
  ArtExecutionContract : anymap }.

Record PlanArtifact : Type := mkPlanArtifact {
  ArtRootTaskID : string;
  ArtPrimaryCapability : string;
  TaskCount : Z;
  Tasks : list PlanTaskArtifact;
  ParallelGroups : list (list string);
  Handoffs : list anymap;
  ArtCreatedAt : Time }.

Record TaskAcceptance : Type := mkTaskAcceptance {
  AccTaskID : string;
  AccStatus : TaskStatus;
  AccAgentID : string;
  AccComplexity : Complexity;
  AccReason : string;
  AccCapability : string;
  AccProvider : string;
  AccModelName : string;
  AccRequiresSecondaryReview : bool;
  AcceptedAt : Time }.
#[export] Instance eta_TaskAcceptance : Updatable TaskAcceptance := fun a =>
  mkTaskAcceptance (AccTaskID a) (AccStatus a) (AccAgentID a) (AccComplexity a) (AccReason a)
    (AccCapability a) (AccProvider a) (AccModelName a) (AccRequiresSecondaryReview a)
    (AcceptedAt a).

Record ResultOutput : Type := mkResultOutput {
  Summary : string;
  FilesChanged : list string;
  CommandsRun : list string;
  TestResults : list anymap;
  OutputArtifacts : anymap }.
Record AgentResult : Type := mkAgentResult {
  ResTaskID : string;
  ResAgentID : string;
  ResStatus : TaskStatus;
  Confidence : float;
  Errors : list string;
  NextRecommendations : list string;
  ResProvider : string;
  ResModelName : string;
  Output : ResultOutput;
  CompletedAtResult : Time }.

#[export] Instance eta_ResultOutput : Updatable ResultOutput := fun o =>
  mkResultOutput (Summary o) (FilesChanged o) (CommandsRun o) (TestResults o) (OutputArtifacts o).
#[export] Instance eta_AgentResult : Updatable AgentResult := fun r =>
  mkAgentResult (ResTaskID r) (ResAgentID r) (ResStatus r) (Confidence r) (Errors r) (NextRecommendations r)
    (ResProvider r) (ResModelName r) (Output r) (CompletedAtResult r).

Record WorkflowRecord : Type := mkWorkflowRecord {
  WfTask : Task;
  WfPlan : ExecutionPlan;
  Acceptance : TaskAcceptance;
  Result : option AgentResult;
  WfUpdatedAt : Time }.

#[export] Instance eta_WorkflowRecord : Updatable WorkflowRecord := fun w =>
  mkWorkflowRecord (WfTask w) (WfPlan w) (Acceptance w) (Result w) (WfUpdatedAt w).

Record TaskResultEnvelope : Type := mkTaskResultEnvelope {
  ReTaskID : string;
  ReParentTaskID : string;
  ReTraceID : string;
  ReCorrelationID : string;
  ReSourceAgent : string;
  ReTargetAgent : string;
  ReStatus : TaskStatus;
  ReResult : AgentResult;
  ReCreatedAt : Time }.

(** ** Checkpoints and runs of execution plans (domain/types.go) *)
Inductive ParallelPlanStatus : Type :=
  | ParallelPlanStatusPlanned | ParallelPlanStatusRunning | ParallelPlanStatusBlocked
  | ParallelPlanStatusFailed | ParallelPlanStatusCompleted | ParallelPlanStatusOther (s : string).
#[export] Instance ParallelPlanStatus_eq_dec : EqDecision ParallelPlanStatus.
Proof. solve_decision. Defined.

Definition plan_status_string (s : ParallelPlanStatus) : string :=
  match s with
  | ParallelPlanStatusPlanned => "planned" | ParallelPlanStatusRunning => "running"
  | ParallelPlanStatusBlocked => "blocked" | ParallelPlanStatusFailed => "failed"
  | ParallelPlanStatusCompleted => "completed" | ParallelPlanStatusOther s => s
  end.

Record ParallelPlanCheckpoint : Type := mkParallelPlanCheckpoint {
  CkKind : string;
  CkRootTaskID : string;
  CkSessionID : string;
  CkBranch : string;
  RootTask : Task;
  CkPlan : ExecutionPlan;
  CkPlanArtifact : PlanArtifact;
  PendingTaskIDs : list string;
  CompletedTaskIDs : list string;
  ResultsByTaskID : anymap;
  BatchNo : Z;
  CkStatus : ParallelPlanStatus;
  CkUpdatedAt : Time }.
#[export] Instance eta_ParallelPlanCheckpoint : Updatable ParallelPlanCheckpoint := fun c =>
  mkParallelPlanCheckpoint (CkKind c) (CkRootTaskID c) (CkSessionID c) (CkBranch c) (RootTask c)
    (CkPlan c) (CkPlanArtifact c) (PendingTaskIDs c) (CompletedTaskIDs c) (ResultsByTaskID c)
    (BatchNo c) (CkStatus c) (CkUpdatedAt c).

Record ExecutionPlanPreview : Type := mkExecutionPlanPreview {
  PreviewTask : Task;
  PreviewPlan : ExecutionPlan;
  PreviewArtifact : PlanArtifact;
  PreviewPending : list string;
  CheckpointBranch : string;
  PreviewCreatedAt : Time }.

Record ExecutionPlanRun : Type := mkExecutionPlanRun {
  RunTask : Task;
  RunPlan : ExecutionPlan;
  RunPlanArtifact : PlanArtifact;
  RunCheckpoint : ParallelPlanCheckpoint;
  Workflows : list WorkflowRecord;
  RunStartedAt : Time;
  RunCompletedAt : Time }.

Definition zero_selection : ModelSelection :=
  mkModelSelection "" "" (ComplexityOther "") false "" [] [] [] [] [].
Definition zero_plan : ExecutionPlan :=
  mkExecutionPlan "" (ComplexityOther "") "" zero_selection [] zero_time.
Definition zero_artifact : PlanArtifact := mkPlanArtifact "" "" 0 [] [] [] zero_time.
Definition zero_checkpoint : ParallelPlanCheckpoint :=
  mkParallelPlanCheckpoint "" "" "" "" zero_task zero_plan zero_artifact [] [] [] 0
    (ParallelPlanStatusOther "") zero_time.

(** ** Agents, providers and their runtime state (domain/types.go) *)
Record AgentInfo : Type := mkAgentInfo {
  InfoID : string;
  InfoType : string;
  InfoProvider : string;
  InfoModelName : string;
  Capabilities : list string;
  InfoStatus : AgentStatus }.
#[export] Instance eta_AgentInfo : Updatable AgentInfo := fun i =>
  mkAgentInfo (InfoID i) (InfoType i) (InfoProvider i) (InfoModelName i) (Capabilities i) (InfoStatus i).

Record AgentRuntimeState : Type := mkAgentRuntimeState {
  AgentID : string;
  StProvider : string;
  Status : AgentStatus;
  PriorityScore : float;
  InFlight : Z;
  AgentSlotUsage : float;
  ModelSlotUsage : float;
  GlobalSlotUsage : float;
  ErrorRate : float;
  DisabledReason : string;
  LastError : string;
  LastProbeStatus : string;
  LastProbeError : string;
  LastProbeLatencyMS : Z;
  SuppressedUntil : option Time;
  StUpdatedAt : Time }.
#[export] Instance eta_AgentRuntimeState : Updatable AgentRuntimeState := fun s =>
  mkAgentRuntimeState (AgentID s) (StProvider s) (Status s) (PriorityScore s) (InFlight s)
    (AgentSlotUsage s) (ModelSlotUsage s) (GlobalSlotUsage s) (ErrorRate s) (DisabledReason s)
    (LastError s) (LastProbeStatus s) (LastProbeError s) (LastProbeLatencyMS s)
    (SuppressedUntil s) (StUpdatedAt s).
Definition zero_runtime_state : AgentRuntimeState :=
  mkAgentRuntimeState "" "" (AgentStatusOther "") 0 0 0 0 0 0 "" "" "" "" 0 None zero_time.

Inductive RuntimeTransportMode : Type :=
  | RuntimeTransportBuffered | RuntimeTransportPseudoRealtime | RuntimeTransportNativeStream
  | RuntimeTransportOther (s : string).

Record ProviderRuntimeCapabilities : Type := mkProviderRuntimeCapabilities {
  Connected : bool;
  NativeStreaming : bool;
  ToolStreaming : bool;
  PatchStreaming : bool;
  TestStreaming : bool;
  MaxParallelRequests : Z;
  SupportsCancellation : bool;
  TransportMode : RuntimeTransportMode;
  CapsObservedAt : Time }.

Record ProviderHealth : Type := mkProviderHealth {
  HealthProvider : string;
  Configured : bool;
  Available : bool;
  HealthStatus : string;
  HealthBaseURL : string;
  HealthError : string;
  HealthObservedAt : Time;
  ProbeQueued : bool;
  CooldownUntil : option Time;
  RefreshAfter : option Time;
  HealthCapabilities : option ProviderRuntimeCapabilities }.

Record ProviderAPIError : Type := mkProviderAPIError {
  ApiProvider : string;
  ApiModel : string;
  Operation : string;
  Endpoint : string;
  EndpointKind : string;
  HTTPStatus : Z;
  UpstreamCode : string;
  UpstreamType : string;
  Message : string;
  Retryable : bool;
  Category : string;
  RequestID : string;
  ApiObservedAt : Time;
  LatencyMS : Z }.

Record ProviderModelStatus : Type := mkProviderModelStatus {
  ModelProvider : string;
  ModelName : string;
  ModelAvailable : bool;
  ModelStatus : string;
  ModelReason : string;
  InventoryStatus : string;
  TransportStatus : string;
  VerificationStatus : string;
  Transport : string;
  ModelObservedAt : Time;
  IsDefault : bool;
  ModelMetadata : anymap;
  LastHTTPStatus : Z;
  ModelProbeLatencyMS : Z;
  FirstSeenAt : option Time;
  VerificationStartedAt : option Time;
  LastStateChangeAt : option Time;
  LastSuccessAt : option Time;
  NextVerificationAt : option Time;
  ExpiresAt : option Time;
  ConsecutiveFailures : Z;
  ConsecutiveSuccesses : Z;
  RegistrationAttempts : Z;
  PendingCycles : Z;
  QueueStatus : string;
  QueuePosition : Z;
  VerificationIntervalSec : Z;
  ModelLastError : option ProviderAPIError }.
#[export] Instance eta_ProviderModelStatus : Updatable ProviderModelStatus := fun s =>
  mkProviderModelStatus (ModelProvider s) (ModelName s) (ModelAvailable s) (ModelStatus s)
    (ModelReason s) (InventoryStatus s) (TransportStatus s) (VerificationStatus s) (Transport s)
    (ModelObservedAt s) (IsDefault s) (ModelMetadata s) (LastHTTPStatus s) (ModelProbeLatencyMS s)
    (FirstSeenAt s) (VerificationStartedAt s) (LastStateChangeAt s) (LastSuccessAt s)
    (NextVerificationAt s) (ExpiresAt s) (ConsecutiveFailures s) (ConsecutiveSuccesses s)
    (RegistrationAttempts s) (PendingCycles s) (QueueStatus s) (QueuePosition s)
    (VerificationIntervalSec s) (ModelLastError s).

Record ProviderCatalogSnapshot : Type := mkProviderCatalogSnapshot {
  SnapProvider : string;
  SnapProviderID : string;
  SnapConfigured : bool;
  SnapAvailable : bool;
  SnapStatus : string;
  SnapBaseURL : string;
  ModelsEndpoint : string;
  ChatCompletionsEndpoint : string;
  ResponsesEndpoint : string;
  MessagesEndpoint : string;
  MessagesCountTokensEndpoint : string;
  CodexEndpoint : string;
  DefaultModel : string;
  Models : list ProviderModelStatus;
  SnapError : string;
  SnapObservedAt : Time;
  RefreshIntervalSec : Z;
  SnapCapabilities : option ProviderRuntimeCapabilities }.
#[export] Instance eta_ProviderCatalogSnapshot : Updatable ProviderCatalogSnapshot := fun s =>
  mkProviderCatalogSnapshot (SnapProvider s) (SnapProviderID s) (SnapConfigured s)
    (SnapAvailable s) (SnapStatus s) (SnapBaseURL s) (ModelsEndpoint s)
    (ChatCompletionsEndpoint s) (ResponsesEndpoint s) (MessagesEndpoint s)
    (MessagesCountTokensEndpoint s) (CodexEndpoint s) (DefaultModel s) (Models s) (SnapError s)
    (SnapObservedAt s) (RefreshIntervalSec s) (SnapCapabilities s).
Definition zero_snapshot : ProviderCatalogSnapshot :=
  mkProviderCatalogSnapshot "" "" false false "" "" "" "" "" "" "" "" "" [] "" zero_time 0 None.

Record ModuleInfo : Type := mkModuleInfo {
  ModuleName : string;
  Kind : string;
  ModuleMetadata : anymap }.

(** ** Streaming deltas (domain/types.go) *)
Inductive AgentDeltaKind : Type :=
  | AgentDeltaStarted | AgentDeltaToken | AgentDeltaThoughtSummary | AgentDeltaToolCallStarted
  | AgentDeltaToolCallFinished | AgentDeltaFilePatch | AgentDeltaCommandStarted
  | AgentDeltaCommandFinished | AgentDeltaPartialResult | AgentDeltaFinalResult
  | AgentDeltaHeartbeat | AgentDeltaError | AgentDeltaPatchPreview | AgentDeltaPatchChunk
  | AgentDeltaPatchApplyStart | AgentDeltaPatchApplyFinish | AgentDeltaToolStarted
  | AgentDeltaToolStdout | AgentDeltaToolStderr | AgentDeltaToolFinished | AgentDeltaTestStarted
  | AgentDeltaTestCase | AgentDeltaTestFinished | AgentDeltaOther (s : string).

Definition delta_kind_string (k : AgentDeltaKind) : string :=
  match k with
  | AgentDeltaStarted => "started" | AgentDeltaToken => "token"
  | AgentDeltaThoughtSummary => "thought_summary" | AgentDeltaToolCallStarted => "tool_call_started"
  | AgentDeltaToolCallFinished => "tool_call_finished" | AgentDeltaFilePatch => "file_patch"
  | AgentDeltaCommandStarted => "command_started" | AgentDeltaCommandFinished => "command_finished"
  | AgentDeltaPartialResult => "partial_result" | AgentDeltaFinalResult => "final_result"
  | AgentDeltaHeartbeat => "heartbeat" | AgentDeltaError => "error"
  | AgentDeltaPatchPreview => "patch.preview" | AgentDeltaPatchChunk => "patch.chunk"
  | AgentDeltaPatchApplyStart => "patch.apply.started" | AgentDeltaPatchApplyFinish => "patch.apply.finished"
  | AgentDeltaToolStarted => "tool.started" | AgentDeltaToolStdout => "tool.stdout"
  | AgentDeltaToolStderr => "tool.stderr" | AgentDeltaToolFinished => "tool.finished"
  | AgentDeltaTestStarted => "test.started" | AgentDeltaTestCase => "test.case"
  | AgentDeltaTestFinished => "test.finished"
  | AgentDeltaOther s => s
  end.

Record AgentDelta : Type := mkAgentDelta {
  DeltaSessionID : string;
  DeltaTaskID : string;
  DeltaAgentID : string;
  DeltaProvider : string;
  DeltaModelName : string;
  DeltaKind : AgentDeltaKind;
  Sequence : Z;
  Content : string;
  Timestamp : Time;
  DeltaMetadata : anymap }.
