(* ===== verification/ContractJSON.v ===== *)
(** * The contracts as JSON values (domain/types.go)

    What [json.Marshal] sees of the records of [Domain]: the fields in declaration order under their
    JSON tags, those tagged [omitempty] left out when they are empty. *)
From S2P Require Import Prelude GoLib GoJSON Domain.
From Stdlib Require Import PrimFloat.

Definition is_nil {A} (l : list A) : bool := match l with [] => true | _ => false end.
Definition omit_empty (k s : string) : anymap := if String.eqb s "" then [] else [(k, AString s)].
Definition omit_nil_map (k : string) (m : anymap) : anymap :=
  if is_nil m then [] else [(k, AMap m)].
Definition omit_nil_list (k : string) (l : list string) : anymap :=
  if is_nil l then [] else [(k, AStrings l)].
Definition omit_zero_int (k : string) (n : Z) : anymap := if n =? 0 then [] else [(k, AInt n)].
Definition omit_zero_float (k : string) (f : float) : anymap := if (f =? 0)%float then [] else [(k, AFloat f)].
Definition omit_false (k : string) (b : bool) : anymap := if negb b then [] else [(k, ABool b)].
(** A slice of anything else. *)
Definition omit_nil_slice (k : string) (l : list any) : anymap := if is_nil l then [] else [(k, AList l)].

(** ** Tasks *)
Definition input_any (i : TaskInput) : any :=
  AStruct ([("description", AString (Description i))] ++ omit_nil_list "files" (InputFiles i) ++
    omit_nil_list "constraints" (Constraints i) ++ omit_nil_list "acceptance_criteria" (AcceptanceCriteria i)).
Definition context_any (c : TaskContext) : any :=
  AStruct ([("project", AString (Project c))] ++ omit_empty "repo_path" (RepoPath c) ++ omit_empty "branch" (ContextBranch c)).
Definition task_any (t : Task) : any :=
  AStruct ([("id", AString (ID t))] ++ omit_empty "session_id" (SessionID t) ++
    omit_empty "parent_task_id" (ParentTaskID t) ++
    [("type", AString (task_type_string (Type_ t))); ("priority", AString (priority_string (Priority_ t)))] ++
    omit_empty "required_capability" (RequiredCapability t) ++ omit_empty "assigned_provider" (AssignedProvider t) ++
    omit_empty "assigned_model" (AssignedModel t) ++ omit_empty "complexity" (complexity_string (Complexity_ t)) ++
    omit_empty "memory_scope" (MemoryScope t) ++ omit_nil_list "memory_keys" (MemoryKeys t) ++
    omit_empty "cache_policy" (CachePolicy t) ++
    [("input", input_any (Input t)); ("context", context_any (Context_ t))] ++
    omit_nil_list "dependencies" (Dependencies t) ++ omit_empty "branch_id" (BranchID t) ++
    omit_empty "draft_layer" (DraftLayer t) ++ omit_empty "checkpoint_policy" (CheckpointPolicy t) ++
    omit_zero_int "review_depth" (ReviewDepth t) ++ omit_empty "resume_token" (ResumeToken t) ++
    omit_zero_float "estimated_cost" (EstimatedCost t) ++ omit_nil_map "execution_contract" (ExecutionContract t) ++
    omit_empty "repo_fingerprint" (RepoFingerprint t) ++ omit_nil_map "routing_hints" (RoutingHints t) ++
    [("created_at", time_any (CreatedAt t))]).

(** ** Plans *)
Definition support_lane_any (l : SupportLane) : any :=
  AStruct ([("provider", AString (LaneProvider l))] ++ omit_empty "model_name" (LaneModelName l) ++
    [("role", AString (Role l))] ++ omit_empty "max_complexity" (complexity_string (MaxComplexity l)) ++
    omit_nil_list "capabilities" (LaneCapabilities l) ++
    omit_nil_list "supported_task_types" (map task_type_string (SupportedTaskTypes l)) ++
    omit_empty "reason" (LaneReason l)).
Definition selection_any (s : ModelSelection) : any :=
  AStruct ([("provider", AString (SelProvider s)); ("model_name", AString (SelModelName s));
     ("complexity", AString (complexity_string (SelComplexity s)))] ++
    omit_false "requires_secondary_review" (SelRequiresSecondaryReview s) ++ omit_empty "reason" (SelReason s) ++
    omit_nil_list "detected_keywords" (DetectedKeywords s) ++
    omit_nil_list "matched_high_risk_rules" (MatchedHighRiskRules s) ++
    omit_nil_list "matched_low_risk_exemptions" (MatchedLowRiskExemptions s) ++
    omit_nil_slice "support_lanes" (map support_lane_any (SupportLanes s)) ++
    omit_nil_map "selection_trace" (SelectionTrace s)).
Definition plan_step_any (s : PlanStep) : any :=
  AStruct ([("id", AString (StepID s)); ("title", AString (StepTitle s)); ("capability", AString (StepCapability s))] ++
    omit_empty "worker_class" (StepWorkerClass s) ++ omit_empty "cluster_id" (StepClusterID s) ++
    omit_zero_int "context_budget" (StepContextBudget s) ++ omit_nil_list "conflict_keys" (StepConflictKeys s) ++
    omit_nil_list "dependencies" (StepDependencies s) ++ omit_nil_list "files" (StepFiles s)).
Definition plan_any (p : ExecutionPlan) : any :=
  AStruct ([("task_id", AString (PlanTaskID p)); ("complexity", AString (complexity_string (PlanComplexity p)))] ++
    omit_empty "primary_capability" (PrimaryCapability p) ++
    [("selection", selection_any (Selection p)); ("steps", AList (map plan_step_any (Steps p)));
     ("created_at", time_any (PlanCreatedAt p))]).
Definition plan_task_any (a : PlanTaskArtifact) : any :=
  AStruct ([("task_id", AString (ArtTaskID a)); ("title", AString (ArtTitle a)); ("capability", AString (ArtCapability a))] ++
    omit_empty "worker_class" (ArtWorkerClass a) ++ omit_empty "cluster_id" (ArtClusterID a) ++
    omit_zero_int "context_budget" (ArtContextBudget a) ++ omit_nil_list "conflict_keys" (ArtConflictKeys a) ++
    omit_empty "provider" (ArtProvider a) ++ omit_empty "model_name" (ArtModelName a) ++
    omit_nil_list "files" (ArtFiles a) ++ omit_nil_list "dependencies" (ArtDependencies a) ++
    omit_empty "branch_id" (ArtBranchID a) ++ omit_empty "draft_layer" (ArtDraftLayer a) ++
    omit_zero_float "estimated_cost" (ArtEstimatedCost a) ++ omit_zero_float "weight" (Weight a) ++
    omit_nil_map "execution_contract" (ArtExecutionContract a)).
Definition plan_artifact_any (a : PlanArtifact) : any :=
  AStruct ([("root_task_id", AString (ArtRootTaskID a))] ++ omit_empty "primary_capability" (ArtPrimaryCapability a) ++
    [("task_count", AInt (TaskCount a)); ("tasks", AList (map plan_task_any (Tasks a)))] ++
    omit_nil_slice "parallel_groups" (map AStrings (ParallelGroups a)) ++
    (if is_nil (Handoffs a) then [] else [("handoffs", AMaps (Handoffs a))]) ++
    [("created_at", time_any (ArtCreatedAt a))]).
