(* ===== verification/JSONDecode.v ===== *)
(** * Reading JSON back

    What [json.Unmarshal] makes of the text [json.Marshal] writes for a value: decoding into [any] turns
    every number into a float64, every slice into a [[]any], every struct into a map and every
    time into its text; decoding into a struct converts field by field.  The decoders work on the
    value whose text they would read, so the text itself is not parsed, apart from the times; the
    texts of errors are not modelled ([None] is an error).  A decoder reads the shapes [Marshal] writes for
    the orchestrator's own values. *)
From S2P Require Import Prelude GoLib GoJSON Domain ContractJSON.
From Stdlib Require Import PrimFloat.

(** ** Text

    A byte that begins no valid UTF-8 sequence is written as the escape of U+FFFD and read back as
    that rune. *)
Fixpoint clean_bytes (fuel : nat) (l : list N) : list N :=
  match fuel, l with
  | S n, c :: rest =>
      if (c <? 0x80)%N then c :: clean_bytes n rest
      else match utf8_len l with
           | O => [0xEF; 0xBF; 0xBD]%N ++ clean_bytes n rest
           | S k => take (S k) l ++ clean_bytes n (drop (S k) l)
           end
  | _, _ => []
  end.
Definition clean_text (s : string) : string := let l := string_bytes s in bytes (clean_bytes (length l) l).

(** ** Into [any] *)
Fixpoint generic (v : any) : any :=
  match v with
  | ANil => ANil
  | ABool b => ABool b
  | AInt z => AFloat (float_of_int z)
  | AFloat f => AFloat f
  | AString s => AString (clean_text s)
  | AStrings [] => ANil
  | AStrings l => AList (map (fun s => AString (clean_text s)) l)
  | AList l => AList (map generic l)
  | AMaps [] => ANil
  | AMaps l => AList (map (fun m => AMap (map (fun kv => (clean_text kv.1, generic kv.2)) m)) l)
  | AMap m => AMap (map (fun kv => (clean_text kv.1, generic kv.2)) m)
  | AStruct m => AMap (map (fun kv => (clean_text kv.1, generic kv.2)) m)
  end.
Definition generic_map (m : anymap) : anymap := map (fun kv => (clean_text kv.1, generic kv.2)) m.

(** ** Times: RFC 3339 in UTC *)
Definition digit (c : Ascii.ascii) : option Z :=
  let n := Z.of_N (Ascii.N_of_ascii c) in if (48 <=? n) && (n <=? 57) then Some (n - 48) else None.
(** The number a string of digits stands for, after the number [acc]. *)
Fixpoint number (acc : Z) (s : string) : option Z :=
  match s with
  | "" => Some acc
  | String c s => match digit c with Some d => number (acc * 10 + d) s | None => None end
  end.
Fixpoint split_at (n : nat) (s : string) : string * string :=
  match n, s with
  | S n, String c s => let '(a, b) := split_at n s in (String c a, b)
  | _, _ => ("", s)
  end.
(** The number in the next [w] characters. *)
Definition take_number (w : nat) (s : string) : option (Z * string) :=
  let '(a, b) := split_at w s in
  if (String.length a =? w)%nat then (fun n => (n, b)) <$> number 0 a else None.
Definition expect (p s : string) : option string := strip_prefix p s.
Fixpoint span_digits (s : string) : string * string :=
  match s with
  | String c r => match digit c with Some _ => let '(a, b) := span_digits r in (String c a, b) | None => ("", s) end
  | "" => ("", "")
  end.
(** The fraction of a second, in nanoseconds. *)
Definition take_fraction (s : string) : option (Z * string) :=
  match expect "." s with
  | None => Some (0, s)
  | Some s =>
      let '(a, b) := span_digits s in
      let w := String.length a in
      if ((w =? 0) || (9 <? w))%nat then None else (fun n => (n * 10 ^ Z.of_nat (9 - w), b)) <$> number 0 a
  end.
(** Days from the first of January of the year 1: the inverse of [civil]. *)
Definition days_of (year month day : Z) : Z :=
  let y := if month <=? 2 then year - 1 else year in
  let mp := if month <=? 2 then month + 9 else month - 3 in
  let yoe := y mod 400 in
  let doe := yoe * 365 + yoe / 4 - yoe / 100 + ((153 * mp + 2) / 5 + day - 1) in
  y / 400 * 146097 + doe - 306.
Definition parse_time (s : string) : option Time :=
  '(year, s) ← take_number 4 s; s ← expect "-" s; '(month, s) ← take_number 2 s; s ← expect "-" s;
  '(day, s) ← take_number 2 s; s ← expect "T" s; '(hour, s) ← take_number 2 s; s ← expect ":" s;
  '(minute, s) ← take_number 2 s; s ← expect ":" s; '(sec, s) ← take_number 2 s;
  '(nanos, s) ← take_fraction s; s ← expect "Z" s;
  if String.eqb s "" then Some ((days_of year month day * 86400 + hour * 3600 + minute * 60 + sec) * second + nanos)
  else None.

(** ** Into fields *)
Definition dec_string (v : any) : option string := match v with AString s => Some (clean_text s) | _ => None end.
Definition dec_bool (v : any) : option bool := match v with ABool b => Some b | _ => None end.
Definition dec_int (v : any) : option Z :=
  match v with
  | AInt z => Some z
  | AFloat f =>  (* the digits of an integral float *)
      text ← json_float f;
      n ← match strip_prefix "-" text with Some text => Z.opp <$> number 0 text | None => number 0 text end;
      if (Int.min <=? n) && (n <=? Int.max) then Some n else None
  | _ => None
  end.
Definition dec_float (v : any) : option float :=
  match v with AFloat f => Some f | AInt z => Some (float_of_int z) | _ => None end.
Definition dec_time (v : any) : option Time := match v with AString s => parse_time s | _ => None end.
(** An element that is null is the zero value. *)
Definition dec_element {A} (dec : any -> option A) (zero : A) (v : any) : option A :=
  match v with ANil => Some zero | _ => dec v end.
Definition dec_slice {A} (dec : any -> option A) (zero : A) (v : any) : option (list A) :=
  match v with
  | AStrings l => mapM (fun s => dec (AString s)) l
  | AList l => mapM (dec_element dec zero) l
  | AMaps l => mapM (fun m => dec (AMap m)) l
  | _ => None
  end.
Definition dec_strings : any -> option (list string) := dec_slice dec_string "".
Definition dec_fields (v : any) : option anymap := match v with AMap m | AStruct m => Some m | _ => None end.
Definition dec_map (v : any) : option anymap := generic_map <$> dec_fields v.
(** A field that is missing or null keeps its zero value. *)
Definition field {A} (dec : any -> option A) (zero : A) (k : string) (m : anymap) : option A :=
  match aget m k with None => Some zero | Some v => dec_element dec zero v end.
Notation text_field := (field dec_string "").
Notation list_field := (field dec_strings []).
Notation map_field := (field dec_map []).
Notation time_field := (field dec_time zero_time).

(** Enumerations are strings. *)
Definition task_type_of (s : string) : TaskType :=
  if String.eqb s "plan" then TaskTypePlan else if String.eqb s "code" then TaskTypeCode
  else if String.eqb s "review" then TaskTypeReview else if String.eqb s "test" then TaskTypeTest
  else if String.eqb s "docs" then TaskTypeDocs else if String.eqb s "fix" then TaskTypeFix
  else if String.eqb s "research" then TaskTypeResearch else TaskTypeOther s.
Definition priority_of (s : string) : Priority :=
  if String.eqb s "low" then PriorityLow else if String.eqb s "normal" then PriorityNormal
  else if String.eqb s "high" then PriorityHigh else if String.eqb s "critical" then PriorityCritical else PriorityOther s.
Definition complexity_of (s : string) : Complexity :=
  if String.eqb s "low" then ComplexityLow else if String.eqb s "medium" then ComplexityMedium
  else if String.eqb s "high" then ComplexityHigh else if String.eqb s "critical" then ComplexityCritical else ComplexityOther s.
Definition plan_status_of (s : string) : ParallelPlanStatus :=
  if String.eqb s "planned" then ParallelPlanStatusPlanned else if String.eqb s "running" then ParallelPlanStatusRunning
  else if String.eqb s "blocked" then ParallelPlanStatusBlocked else if String.eqb s "failed" then ParallelPlanStatusFailed
  else if String.eqb s "completed" then ParallelPlanStatusCompleted else ParallelPlanStatusOther s.

(** ** Into the contracts *)
Definition zero_input : TaskInput := mkTaskInput "" [] [] [].
Definition zero_context : TaskContext := mkTaskContext "" "" "".
Definition dec_input (v : any) : option TaskInput :=
  m ← dec_fields v; description ← text_field "description" m; files ← list_field "files" m;
  constraints ← list_field "constraints" m; criteria ← list_field "acceptance_criteria" m;
  Some (mkTaskInput description files constraints criteria).
Definition dec_context (v : any) : option TaskContext :=
  m ← dec_fields v; project ← text_field "project" m; repo ← text_field "repo_path" m; branch ← text_field "branch" m;
  Some (mkTaskContext project repo branch).
Definition dec_task (v : any) : option Task :=
  m ← dec_fields v; id ← text_field "id" m; session ← text_field "session_id" m; parent ← text_field "parent_task_id" m;
  type ← text_field "type" m; priority ← text_field "priority" m; capability ← text_field "required_capability" m;
  provider ← text_field "assigned_provider" m; model ← text_field "assigned_model" m;
  complexity ← text_field "complexity" m; scope ← text_field "memory_scope" m; keys ← list_field "memory_keys" m;
  cache ← text_field "cache_policy" m; input ← field dec_input zero_input "input" m;
  context ← field dec_context zero_context "context" m; dependencies ← list_field "dependencies" m;
  branch ← text_field "branch_id" m; layer ← text_field "draft_layer" m; policy ← text_field "checkpoint_policy" m;
  depth ← field dec_int 0 "review_depth" m; token ← text_field "resume_token" m;
  cost ← field dec_float 0%float "estimated_cost" m; contract ← map_field "execution_contract" m;
  fingerprint ← text_field "repo_fingerprint" m; hints ← map_field "routing_hints" m; created ← time_field "created_at" m;
  Some (mkTask id session parent (task_type_of type) (priority_of priority) capability provider model
          (complexity_of complexity) scope keys cache input context dependencies branch layer policy depth token cost
          contract fingerprint hints created).
Definition zero_lane : SupportLane := mkSupportLane "" "" "" (ComplexityOther "") [] [] "".
Definition dec_lane (v : any) : option SupportLane :=
  m ← dec_fields v; provider ← text_field "provider" m; model ← text_field "model_name" m; role ← text_field "role" m;
  complexity ← text_field "max_complexity" m; capabilities ← list_field "capabilities" m;
  types ← list_field "supported_task_types" m; reason ← text_field "reason" m;
  Some (mkSupportLane provider model role (complexity_of complexity) capabilities (map task_type_of types) reason).
Definition dec_selection (v : any) : option ModelSelection :=
  m ← dec_fields v; provider ← text_field "provider" m; model ← text_field "model_name" m;
  complexity ← text_field "complexity" m; review ← field dec_bool false "requires_secondary_review" m;
  reason ← text_field "reason" m; keywords ← list_field "detected_keywords" m;
  high ← list_field "matched_high_risk_rules" m; low ← list_field "matched_low_risk_exemptions" m;
  lanes ← field (dec_slice dec_lane zero_lane) [] "support_lanes" m; trace ← map_field "selection_trace" m;
  Some (mkModelSelection provider model (complexity_of complexity) review reason keywords high low lanes trace).
Definition zero_step : PlanStep := mkPlanStep "" "" "" "" "" 0 [] [] [].
Definition dec_step (v : any) : option PlanStep :=
  m ← dec_fields v; id ← text_field "id" m; title ← text_field "title" m; capability ← text_field "capability" m;
  class ← text_field "worker_class" m; cluster ← text_field "cluster_id" m; budget ← field dec_int 0 "context_budget" m;
  conflicts ← list_field "conflict_keys" m; dependencies ← list_field "dependencies" m; files ← list_field "files" m;
  Some (mkPlanStep id title capability class cluster budget conflicts dependencies files).
Definition dec_plan (v : any) : option ExecutionPlan :=
  m ← dec_fields v; id ← text_field "task_id" m; complexity ← text_field "complexity" m;
  capability ← text_field "primary_capability" m; selection ← field dec_selection zero_selection "selection" m;
  steps ← field (dec_slice dec_step zero_step) [] "steps" m; created ← time_field "created_at" m;
  Some (mkExecutionPlan id (complexity_of complexity) capability selection steps created).
Definition zero_plan_task : PlanTaskArtifact :=
  mkPlanTaskArtifact "" "" "" "" "" 0 [] "" "" [] [] "" "" 0%float 0%float [].
Definition dec_plan_task (v : any) : option PlanTaskArtifact :=
  m ← dec_fields v; id ← text_field "task_id" m; title ← text_field "title" m; capability ← text_field "capability" m;
  class ← text_field "worker_class" m; cluster ← text_field "cluster_id" m; budget ← field dec_int 0 "context_budget" m;
  conflicts ← list_field "conflict_keys" m; provider ← text_field "provider" m; model ← text_field "model_name" m;
  files ← list_field "files" m; dependencies ← list_field "dependencies" m; branch ← text_field "branch_id" m;
  layer ← text_field "draft_layer" m; cost ← field dec_float 0%float "estimated_cost" m;
  weight ← field dec_float 0%float "weight" m; contract ← map_field "execution_contract" m;
  Some (mkPlanTaskArtifact id title capability class cluster budget conflicts provider model files dependencies branch
          layer cost weight contract).
Definition dec_plan_artifact (v : any) : option PlanArtifact :=
  m ← dec_fields v; id ← text_field "root_task_id" m; capability ← text_field "primary_capability" m;
  count ← field dec_int 0 "task_count" m; tasks ← field (dec_slice dec_plan_task zero_plan_task) [] "tasks" m;
  groups ← field (dec_slice dec_strings []) [] "parallel_groups" m;
  handoffs ← field (dec_slice dec_map []) [] "handoffs" m; created ← time_field "created_at" m;
  Some (mkPlanArtifact id capability count tasks groups handoffs created).
Definition dec_checkpoint (v : any) : option ParallelPlanCheckpoint :=
  m ← dec_fields v; kind ← text_field "kind" m; root ← text_field "root_task_id" m; session ← text_field "session_id" m;
  branch ← text_field "branch" m; task ← field dec_task zero_task "root_task" m; plan ← field dec_plan zero_plan "plan" m;
  artifact ← field dec_plan_artifact zero_artifact "plan_artifact" m; pending ← list_field "pending_task_ids" m;
  completed ← list_field "completed_task_ids" m; results ← map_field "results_by_task_id" m;
  batch ← field dec_int 0 "batch_no" m; status ← text_field "status" m; updated ← time_field "updated_at" m;
  Some (mkParallelPlanCheckpoint kind root session branch task plan artifact pending completed results batch
          (plan_status_of status) updated).

(** [decodeSessionState] into a checkpoint: [Marshal], whose error is that of a float that has no text, then
    [Unmarshal]. *)
Definition decodeSessionState (state : anymap) : string + ParallelPlanCheckpoint :=
  match Marshal (AMap state) with
  | None => inl "json: unsupported value"
  | Some _ =>
      match dec_checkpoint (AMap state) with
      | None => inl "json: cannot unmarshal"
      | Some checkpoint => inr checkpoint
      end
  end.
