(* ===== verification/JSONDecodeProps.v ===== *)
(** * What survives JSON

    Every contract read back from its JSON value is its canonical form: the typed fields as they were (texts
    with invalid bytes replaced, enumerations by their names), the fields of type [any] in the types
    [json.Unmarshal] gives them. *)
From S2P Require Import Prelude GoLib GoJSON Domain ContractJSON JSONDecode.
From Stdlib Require Import PrimFloat.

(** ** Times *)
Lemma digit_char d : (d < 10)%N -> digit (pretty_N_char d) = Some (Z.of_N d).
Proof.
  intros Hd. assert (d ∈ [0;1;2;3;4;5;6;7;8;9]%N) as Hin by (rewrite !elem_of_cons; lia).
  repeat (apply elem_of_cons in Hin as [->|Hin]; [reflexivity|]). by apply not_elem_of_nil in Hin.
Qed.
Lemma number_app acc a b : number acc (a +:+ b) = number acc a ≫= fun n => number n b.
Proof.
  revert acc. induction a as [|c a IH]; intros acc; [done|].
  change (number acc (String c a +:+ b)) with (match digit c with Some d => number (acc * 10 + d) (a +:+ b) | None => None end).
  cbn. destruct (digit c); [apply IH|done].
Qed.
Lemma number_pretty x s : number 0 (pretty_N_go x s) = number (Z.of_N x) s.
Proof.
  revert s. induction (N.lt_wf_0 x) as [x _ IH]. intros s. destruct (decide (0 < x)%N) as [Hx|Hx].
  - rewrite pretty_N_go_step, IH by (done || by apply N.div_lt). cbn.
    rewrite digit_char by by apply N.mod_lt. f_equal. pose proof (N.div_mod x 10). lia.
  - assert (x = 0%N) as -> by lia. by rewrite pretty_N_go_0.
Qed.
Lemma number_itoa n : 0 <= n -> number 0 (itoa n) = Some n.
Proof.
  intros Hn. unfold itoa, pretty. destruct n as [|p|p]; [reflexivity| |lia].
  change (number 0 (pretty_N_go (N.pos p) "") = Some (Z.pos p)). by rewrite number_pretty.
Qed.
Lemma number_zeros j n : number n (zeros j) = Some (n * 10 ^ Z.of_nat j).
Proof.
  revert n. induction j as [|j IH]; intros n; [cbn; f_equal; lia|].
  change (number n (zeros (S j))) with (number (n * 10 + 0) (zeros j)). rewrite IH. f_equal.
  rewrite Nat2Z.inj_succ, Z.pow_succ_r by lia. lia.
Qed.
Lemma zeros_length j : String.length (zeros j) = j.
Proof. induction j as [|j IH]; [done|]. change (S (String.length (zeros j)) = S j). by rewrite IH. Qed.
Lemma number_padded w n : 0 <= n -> number 0 (padded w n) = Some n.
Proof. intros Hn. unfold padded. rewrite number_app, number_zeros. by apply number_itoa. Qed.

Lemma pretty_length w : forall x s, (x < 10 ^ N.of_nat w)%N -> (String.length (pretty_N_go x s) <= w + String.length s)%nat.
Proof.
  induction w as [|w IH]; intros x s Hx.
  - assert (x = 0%N) as -> by (cbn in Hx; lia). by rewrite pretty_N_go_0.
  - destruct (decide (0 < x)%N) as [H0|H0].
    + rewrite pretty_N_go_step by done. rewrite Nat2N.inj_succ, N.pow_succ_r' in Hx.
      etransitivity; [apply IH; apply N.Div0.div_lt_upper_bound; lia|]. cbn. lia.
    + assert (x = 0%N) as -> by lia. rewrite pretty_N_go_0. lia.
Qed.
Lemma padded_length w n : (0 < w)%nat -> 0 <= n < 10 ^ Z.of_nat w -> String.length (padded w n) = w.
Proof.
  intros Hw [Hn Hlt]. unfold padded. rewrite string_length_app, zeros_length.
  assert (String.length (itoa n) <= w)%nat as Hl; [|lia]. unfold itoa, pretty. destruct n as [|p|p]; [cbn; lia| |lia].
  change (String.length (pretty_N_go (N.pos p) "") <= w)%nat.
  etransitivity; [apply (pretty_length w)|cbn; lia]. apply N2Z.inj_lt. rewrite N2Z.inj_pow, nat_N_Z. exact Hlt.
Qed.
Lemma split_at_app a b : split_at (String.length a) (a +:+ b) = (a, b).
Proof. induction a as [|c a IH]; [by destruct b|].
  change (split_at (String.length (String c a)) (String c a +:+ b))
    with (let '(x, y) := split_at (String.length a) (a +:+ b) in (String c x, y)). by rewrite IH.
Qed.
Lemma take_number_padded w n rest : (0 < w)%nat -> 0 <= n < 10 ^ Z.of_nat w ->
  take_number w (padded w n +:+ rest) = Some (n, rest).
Proof.
  intros Hw Hn. unfold take_number. pose proof (padded_length w n Hw Hn) as Hl.
  rewrite <- Hl at 1. rewrite split_at_app, Hl, Nat.eqb_refl, number_padded by lia. done.
Qed.

Lemma trim_fuel_zeros fuel s : exists j, s = zeros j +:+ trim_fuel fuel ["0"] s.
Proof.
  revert s. induction fuel as [|fuel IH]; intros s; [by exists 0%nat|]. cbn [trim_fuel].
  destruct (strip_any ["0"] s) as [r|] eqn:Hr; [|by exists 0%nat].
  apply strip_any_app in Hr as (p & ->%list_elem_of_singleton & ->). destruct (IH r) as [j Hj]. exists (S j).
  change ("0" +:+ r = "0" +:+ (zeros j +:+ trim_fuel fuel ["0"] r)). by rewrite <- Hj.
Qed.
Lemma zeros_rev j : String.rev (zeros j) = zeros j.
Proof.
  assert (forall k, zeros k +:+ "0" = "0" +:+ zeros k) as Hs.
  { induction k as [|k IH]; [done|]. change ("0" +:+ (zeros k +:+ "0") = "0" +:+ ("0" +:+ zeros k)). by rewrite IH. }
  induction j as [|j IH]; [done|]. change (zeros (S j)) with ("0" +:+ zeros j).
  by rewrite string_rev_app, IH, Hs.
Qed.
Lemma trim_zeros_app s : exists j, s = trim_zeros s +:+ zeros j.
Proof.
  destruct (trim_fuel_zeros (String.length s) (String.rev s)) as [j Hj]. exists j. unfold trim_zeros.
  rewrite <- (zeros_rev j), <- string_rev_app, <- Hj. symmetry. apply string_rev_involutive.
Qed.
Lemma span_digits_app acc a n c b : number acc a = Some n -> digit c = None ->
  span_digits (a +:+ String c b) = (a, String c b).
Proof.
  intros Ha Hc. revert acc Ha. induction a as [|d a IH]; intros acc Ha.
  - change (match digit c with Some _ => let '(x, y) := span_digits b in (String c x, y) | None => ("", String c b) end
      = ("", String c b)). by rewrite Hc.
  - cbn in Ha. destruct (digit d) as [m|] eqn:Hd; [|done].
    change (match digit d with Some _ => let '(x, y) := span_digits (a +:+ String c b) in (String d x, y)
      | None => ("", String d (a +:+ String c b)) end = (String d a, String c b)).
    by rewrite Hd, (IH _ Ha).
Qed.
Lemma take_fraction_padded n : 0 < n < 10 ^ 9 ->
  take_fraction ("." +:+ (trim_zeros (padded 9 n) +:+ "Z")) = Some (n, "Z").
Proof.
  intros Hn. destruct (trim_zeros_app (padded 9 n)) as [j Hj]. set (a := trim_zeros (padded 9 n)) in *.
  assert (String.length a + j = 9)%nat as Hlen
    by (rewrite <- (zeros_length j), <- string_length_app, <- Hj; apply padded_length; lia).
  pose proof (number_padded 9 n ltac:(lia)) as Hnum. rewrite Hj, number_app in Hnum.
  destruct (number 0 a) as [m|] eqn:Ha; [|done]. cbn in Hnum. rewrite number_zeros in Hnum. injection Hnum as Hm.
  unfold take_fraction, expect. change (strip_prefix "." ("." +:+ (a +:+ "Z"))) with (Some (a +:+ "Z")). cbn match.
  rewrite (span_digits_app 0 a m) by done.
  assert (String.length a <> 0)%nat by (destruct a; [cbn in Ha; injection Ha as <-; lia|done]).
  rewrite (proj2 (Nat.eqb_neq _ _)), (proj2 (Nat.ltb_ge _ _)) by lia. cbn [orb].
  rewrite Ha. cbn. do 2 f_equal. rewrite <- Hm. do 3 f_equal. lia.
Qed.

(** [days_of] undoes [civil]. *)
Lemma civil_bounds d : 0 <= d -> let '(year, month, day) := civil d in
  0 <= year <= d / 365 + 1 /\ 1 <= month <= 12 /\ 1 <= day <= 31.
Proof.
  intros Hd. unfold civil. cbn zeta.
  repeat match goal with |- context [if ?b then _ else _] => destruct b eqn:? end.
  all: Z.to_euclidean_division_equations.
  all: lia.
Qed.
Lemma year_of_era doe : 0 <= doe < 146097 ->
  let yoe := (doe - doe / 1460 + doe / 36524 - doe / 146096) / 365 in
  0 <= yoe < 400 /\ 0 <= doe - (365 * yoe + yoe / 4 - yoe / 100) <= 366.
Proof. intros H. cbn zeta. Z.to_euclidean_division_equations. lia. Qed.
Lemma civil_year d : 0 <= d < 3652059 -> let '(year, month, day) := civil d in year <= 9999.
Proof.
  intros Hd. unfold civil. cbn zeta.
  set (era := (d + 306) / 146097). set (doe := (d + 306) mod 146097).
  set (yoe := (doe - doe / 1460 + doe / 36524 - doe / 146096) / 365).
  set (doy := doe - (365 * yoe + yoe / 4 - yoe / 100)).
  set (mp := (5 * doy + 2) / 153).
  assert (d = era * 146097 + doe - 306 /\ 0 <= doe < 146097) as [Hdd H1]
    by (subst era doe; Z.to_euclidean_division_equations; lia).
  destruct (year_of_era doe H1) as [H2 H3]. fold yoe in H2, H3. fold doy in H3.
  clearbody era. assert (era <= 23 \/ era = 24 /\ doe <= 146036) as [He|[He Hdoe]] by lia.
  - destruct (_ <=? 2); lia.
  - destruct (Z.eq_dec yoe 399) as [Hy|Hy]; [|destruct (_ <=? 2); lia].
    assert (mp <= 9) as Hm.
    { subst mp doy. rewrite Hy. change (365 * 399 + 399 / 4 - 399 / 100) with 145731.
      clearbody doe. Z.to_euclidean_division_equations. lia. }
    rewrite (proj2 (Z.ltb_lt mp 10)) by lia. destruct (Z.leb_spec (mp + 3) 2) as [Hle|]; [|lia].
    assert (0 <= mp); [|lia]. subst mp. apply Z.div_pos; lia.
Qed.
Lemma days_of_civil d : 0 <= d -> let '(year, month, day) := civil d in days_of year month day = d.
Proof.
  intros Hd. unfold civil. cbn zeta.
  set (era := (d + 306) / 146097). set (doe := (d + 306) mod 146097).
  set (yoe := (doe - doe / 1460 + doe / 36524 - doe / 146096) / 365).
  set (doy := doe - (365 * yoe + yoe / 4 - yoe / 100)).
  set (mp := (5 * doy + 2) / 153).
  assert (d = era * 146097 + doe - 306 /\ 0 <= doe < 146097) as [Hdd H1]
    by (subst era doe; Z.to_euclidean_division_equations; lia).
  clearbody era. 
  destruct (year_of_era doe H1) as [H2 H3]. fold yoe in H2, H3. fold doy in H3.
  assert (doe = 365 * yoe + yoe / 4 - yoe / 100 + doy) as Hdoe by (subst doy; lia).
  clearbody doy. clearbody yoe.
  assert (0 <= mp <= 11) as H4 by (subst mp; Z.to_euclidean_division_equations; lia).
  unfold days_of.
  assert (forall y m, y = yoe + era * 400 -> m = mp ->
    y / 400 * 146097 + (y mod 400 * 365 + y mod 400 / 4 - y mod 400 / 100 + ((153 * m + 2) / 5 + (doy - (153 * mp + 2) / 5 + 1) - 1)) - 306 = d) as Hgoal.
  { intros y m -> ->. rewrite Z.div_add, Z.mod_add, Z.div_small, Z.mod_small by lia. lia. }
  destruct (Z.ltb_spec mp 10).
  - rewrite (proj2 (Z.leb_gt (mp + 3) 2)) by lia. apply Hgoal; lia.
  - rewrite (proj2 (Z.leb_le (mp - 9) 2)) by lia. apply Hgoal; lia.
Qed.

(** The instants whose year has four digits. *)
Definition printable (t : Time) : Prop := 0 <= t < 315537897600 * second.
#[export] Instance printable_dec t : Decision (printable t).
Proof. unfold printable. apply _. Defined.

Lemma expect_app p s : expect p (p +:+ s) = Some s.
Proof.
  unfold expect. induction p as [|c p IH]; [done|].
  change ((if Ascii.eqb c c then strip_prefix p (p +:+ s) else None) = Some s). by rewrite Ascii.eqb_refl.
Qed.
Lemma parse_format_time t : printable t -> parse_time (format_time t) = Some t.
Proof.
  intros [H0 H1]. unfold format_time. cbn zeta. set (nanos := t mod second). set (secs := t / second).
  assert (t = secs * second + nanos /\ 0 <= nanos < 10 ^ 9 /\ 0 <= secs < 315537897600) as (Ht & Hn & Hs).
  { subst nanos secs. unfold second in *. Z.to_euclidean_division_equations. lia. }
  clearbody nanos secs. subst t. clear H0 H1.
  set (day := secs / 86400). set (clock := secs mod 86400).
  assert (secs = day * 86400 + clock /\ 0 <= clock < 86400 /\ 0 <= day < 3652059) as (Hsecs & Hc & Hd)
    by (subst day clock; Z.to_euclidean_division_equations; lia).
  clearbody day clock. subst secs. pose proof (civil_bounds day ltac:(lia)) as Hb. pose proof (civil_year day Hd) as Hy.
  pose proof (days_of_civil day ltac:(lia)) as Hdays. destruct (civil day) as [[y m] d].
  assert (clock = clock / 3600 * 3600 + clock / 60 mod 60 * 60 + clock mod 60 /\ 0 <= clock / 3600 < 24 /\
    0 <= clock / 60 mod 60 < 60 /\ 0 <= clock mod 60 < 60) as (Hclock & B1 & B2 & B3)
    by (Z.to_euclidean_division_equations; lia).
  unfold parse_time.
  repeat (rewrite take_number_padded by lia; cbn [mbind option_bind]; try rewrite expect_app; cbn [mbind option_bind]).
  assert (take_fraction ((if nanos =? 0 then "" else "." +:+ trim_zeros (padded 9 nanos)) +:+ "Z") = Some (nanos, "Z")) as ->.
  { destruct (Z.eqb_spec nanos 0) as [->|]; [reflexivity|]. rewrite string_app_assoc. apply take_fraction_padded. lia. }
  cbn [mbind option_bind]. change (expect "Z" "Z") with (Some ""). cbn [mbind option_bind].
  rewrite Hdays. cbn [String.eqb]. f_equal. rewrite Hclock at 4. unfold second. lia.
Qed.

(** ** Text *)
Lemma clean_text_nil : clean_text "" = "".
Proof. reflexivity. Qed.
Lemma clean_text_empty s : clean_text s = "" -> s = "".
Proof.
  destruct s as [|c s]; [done|]. unfold clean_text. cbn zeta. cbn [string_bytes String.list_ascii_of_string map length clean_bytes].
  set (l := map Ascii.N_of_ascii _). intros H. exfalso. revert H.
  destruct (_ <? _)%N; [done|]. destruct (utf8_len _); [done|]. cbn [take]. done.
Qed.

(** ** Fields of a struct

    A struct is a list of fields, each with its key, whether it is left out and its value. *)
Definition entry : Type := string * (bool * any).
Fixpoint present (l : list entry) : anymap :=
  match l with [] => [] | (k, (omitted, v)) :: l => (if omitted then [] else [(k, v)]) ++ present l end.
Fixpoint seek (l : list entry) (k : string) : option (bool * any) :=
  match l with [] => None | (k', e) :: l => if String.eqb k k' then Some e else seek l k end.
Definition entry_field {A} (dec : any -> option A) (zero : A) (e : option (bool * any)) : option A :=
  match e with Some (false, v) => dec_element dec zero v | _ => Some zero end.

Lemma aget_absent l k : k ∉ l.*1 -> aget (present l) k = None.
Proof.
  induction l as [|[k' [[] v]] l IH]; cbn; [done|..]; intros Hk; apply not_elem_of_cons in Hk as [Hk Hl]; [by apply IH|].
  rewrite (proj2 (String.eqb_neq _ _) Hk). by apply IH.
Qed.
Lemma aget_present l k : NoDup l.*1 ->
  aget (present l) k = match seek l k with Some (false, v) => Some v | _ => None end.
Proof.
  induction l as [|[k' [o v]] l IH]; cbn; [done|]. intros [Hk Hl]%NoDup_cons.
  destruct (String.eqb_spec k k') as [->|Hne]; destruct o; cbn.
  - by apply aget_absent.
  - by rewrite String.eqb_refl.
  - by apply IH.
  - rewrite (proj2 (String.eqb_neq _ _) Hne). by apply IH.
Qed.
Lemma field_present {A} (dec : any -> option A) zero l k : NoDup l.*1 ->
  field dec zero k (present l) = entry_field dec zero (seek l k).
Proof. intros Hl. unfold field. rewrite aget_present by done. by destruct (seek l k) as [[[] v]|]. Qed.

Section Fields.
Context {A : Type} (dec : any -> option A) (zero : A).

(** A slice of encoded elements. *)
Lemma decode_elements {B} (enc : B -> any) (canon : B -> A) l :
  Forall (fun x => dec_element dec zero (enc x) = Some (canon x)) l ->
  dec_slice dec zero (AList (map enc l)) = Some (map canon l).
Proof. induction 1 as [|x l Hx Hl IH]; [done|]. cbn in *. by rewrite Hx; cbn; rewrite IH. Qed.
Lemma entry_slice {B} (enc : B -> any) (canon : B -> A) l omitted :
  omitted = false \/ omitted = is_nil (map enc l) ->
  Forall (fun x => dec_element dec zero (enc x) = Some (canon x)) l ->
  entry_field (dec_slice dec zero) [] (Some (omitted, AList (map enc l))) = Some (map canon l).
Proof.
  intros [->| ->] Hl; cbn [entry_field].
  - unfold dec_element. by apply decode_elements.
  - destruct l as [|x l]; [done|]. cbn [is_nil map]. by apply (decode_elements enc canon (x :: l)).
Qed.
End Fields.

Lemma entry_text s : entry_field dec_string "" (Some (String.eqb s "", AString s)) = Some (clean_text s).
Proof. by destruct (String.eqb_spec s "") as [->|]. Qed.
Lemma entry_word s : entry_field dec_string "" (Some (false, AString s)) = Some (clean_text s).
Proof. done. Qed.
Lemma entry_texts l : entry_field dec_strings [] (Some (false, AStrings l)) = Some (map clean_text l).
Proof. cbn. induction l as [|s l IH]; [done|]. cbn. by rewrite IH. Qed.
Lemma entry_list l : entry_field dec_strings [] (Some (is_nil l, AStrings l)) = Some (map clean_text l).
Proof. destruct l; [done|]. apply entry_texts. Qed.
Lemma entry_int n : entry_field dec_int 0 (Some (n =? 0, AInt n)) = Some n.
Proof. by destruct (Z.eqb_spec n 0) as [->|]. Qed.
Lemma entry_count n : entry_field dec_int 0 (Some (false, AInt n)) = Some n.
Proof. done. Qed.
(** A negative zero is left out like a zero. *)
Definition canon_float (f : float) : float := if (f =? 0)%float then 0%float else f.
Lemma entry_float f : entry_field dec_float 0%float (Some ((f =? 0)%float, AFloat f)) = Some (canon_float f).
Proof. unfold canon_float. by destruct (f =? 0)%float. Qed.
Lemma entry_bool b : entry_field dec_bool false (Some (negb b, ABool b)) = Some b.
Proof. by destruct b. Qed.
Lemma entry_map m : entry_field dec_map [] (Some (is_nil m, AMap m)) = Some (generic_map m).
Proof. by destruct m. Qed.
Lemma entry_value m : entry_field dec_map [] (Some (false, AMap m)) = Some (generic_map m).
Proof. done. Qed.
Lemma entry_time t : printable t -> entry_field dec_time zero_time (Some (false, time_any t)) = Some t.
Proof. apply parse_format_time. Qed.
Lemma entry_groups l : entry_field (dec_slice dec_strings []) [] (Some (is_nil (map AStrings l), AList (map AStrings l)))
  = Some (map (map clean_text) l).
Proof. apply entry_slice; [by right|]. apply Forall_forall. intros x _. apply entry_texts. Qed.
Lemma entry_maps l : entry_field (dec_slice dec_map []) [] (Some (is_nil l, AMaps l)) = Some (map generic_map l).
Proof.
  assert (mapM (fun m => dec_map (AMap m)) l = Some (map generic_map l)) as H.
  { induction l as [|m l IH]; [done|]. cbn in *. by rewrite IH. }
  destruct l as [|m l]; [done|exact H].
Qed.
#[export] Hint Rewrite entry_text entry_word entry_texts entry_list entry_int entry_count entry_float entry_bool
  entry_map entry_value entry_groups entry_maps : decode.
#[export] Hint Rewrite entry_time using done : decode.

(** Read every field of [present l]. *)
Ltac read_fields :=
  repeat match goal with
  | |- context [field ?dec ?zero ?k (present ?l)] =>
      rewrite (field_present dec zero l k) by (apply (bool_decide_unpack (NoDup _)); vm_compute; exact I);
      let e := eval cbv [seek String.eqb Ascii.eqb Bool.eqb] in (seek l k) in change (seek l k) with e
  end; autorewrite with decode; cbn [mbind option_bind].


(** Take the fields of the struct in the goal to be [entries]. *)
Ltac as_entries entries :=
  match goal with |- context [AStruct ?l] =>
    replace l with (present entries) by (cbn [present]; rewrite ?app_nil_r; reflexivity)
  end; cbn [dec_fields mbind option_bind]; read_fields.

(** ** The contracts read back *)
Definition canon_type (t : TaskType) : TaskType := task_type_of (clean_text (task_type_string t)).
Definition canon_priority (p : Priority) : Priority := priority_of (clean_text (priority_string p)).
Definition canon_complexity (c : Complexity) : Complexity := complexity_of (clean_text (complexity_string c)).
Definition canon_status (s : ParallelPlanStatus) : ParallelPlanStatus := plan_status_of (clean_text (plan_status_string s)).

Definition canon_input (i : TaskInput) : TaskInput :=
  mkTaskInput (clean_text (Description i)) (map clean_text (InputFiles i)) (map clean_text (Constraints i))
    (map clean_text (AcceptanceCriteria i)).
Lemma input_back i : entry_field dec_input zero_input (Some (false, input_any i)) = Some (canon_input i).
Proof.
  change (dec_input (input_any i) = Some (canon_input i)). unfold dec_input, input_any.
  as_entries
    [("description", (false, AString (Description i)));
     ("files", (is_nil (InputFiles i), AStrings (InputFiles i)));
     ("constraints", (is_nil (Constraints i), AStrings (Constraints i)));
     ("acceptance_criteria", (is_nil (AcceptanceCriteria i), AStrings (AcceptanceCriteria i)))]. done.
Qed.
Definition canon_context (c : TaskContext) : TaskContext :=
  mkTaskContext (clean_text (Project c)) (clean_text (RepoPath c)) (clean_text (ContextBranch c)).
Lemma context_back c : entry_field dec_context zero_context (Some (false, context_any c)) = Some (canon_context c).
Proof.
  change (dec_context (context_any c) = Some (canon_context c)). unfold dec_context, context_any.
  as_entries
    [("project", (false, AString (Project c)));
     ("repo_path", (String.eqb (RepoPath c) "", AString (RepoPath c)));
     ("branch", (String.eqb (ContextBranch c) "", AString (ContextBranch c)))]. done.
Qed.
#[export] Hint Rewrite input_back context_back : decode.

Definition canon_task (t : Task) : Task :=
  mkTask (clean_text (ID t)) (clean_text (SessionID t)) (clean_text (ParentTaskID t)) (canon_type (Type_ t))
    (canon_priority (Priority_ t)) (clean_text (RequiredCapability t)) (clean_text (AssignedProvider t))
    (clean_text (AssignedModel t)) (canon_complexity (Complexity_ t)) (clean_text (MemoryScope t))
    (map clean_text (MemoryKeys t)) (clean_text (CachePolicy t)) (canon_input (Input t)) (canon_context (Context_ t))
    (map clean_text (Dependencies t)) (clean_text (BranchID t)) (clean_text (DraftLayer t))
    (clean_text (CheckpointPolicy t)) (ReviewDepth t) (clean_text (ResumeToken t)) (canon_float (EstimatedCost t))
    (generic_map (ExecutionContract t)) (clean_text (RepoFingerprint t)) (generic_map (RoutingHints t)) (CreatedAt t).
Lemma task_back t : printable (CreatedAt t) ->
  entry_field dec_task zero_task (Some (false, task_any t)) = Some (canon_task t).
Proof.
  intros Ht. change (dec_task (task_any t) = Some (canon_task t)). unfold dec_task, task_any.
  as_entries
    [("id", (false, AString (ID t)));
     ("session_id", (String.eqb (SessionID t) "", AString (SessionID t)));
     ("parent_task_id", (String.eqb (ParentTaskID t) "", AString (ParentTaskID t)));
     ("type", (false, AString (task_type_string (Type_ t))));
     ("priority", (false, AString (priority_string (Priority_ t))));
     ("required_capability", (String.eqb (RequiredCapability t) "", AString (RequiredCapability t)));
     ("assigned_provider", (String.eqb (AssignedProvider t) "", AString (AssignedProvider t)));
     ("assigned_model", (String.eqb (AssignedModel t) "", AString (AssignedModel t)));
     ("complexity", (String.eqb (complexity_string (Complexity_ t)) "", AString (complexity_string (Complexity_ t))));
     ("memory_scope", (String.eqb (MemoryScope t) "", AString (MemoryScope t)));
     ("memory_keys", (is_nil (MemoryKeys t), AStrings (MemoryKeys t)));
     ("cache_policy", (String.eqb (CachePolicy t) "", AString (CachePolicy t)));
     ("input", (false, input_any (Input t)));
     ("context", (false, context_any (Context_ t)));
     ("dependencies", (is_nil (Dependencies t), AStrings (Dependencies t)));
     ("branch_id", (String.eqb (BranchID t) "", AString (BranchID t)));
     ("draft_layer", (String.eqb (DraftLayer t) "", AString (DraftLayer t)));
     ("checkpoint_policy", (String.eqb (CheckpointPolicy t) "", AString (CheckpointPolicy t)));
     ("review_depth", (ReviewDepth t =? 0, AInt (ReviewDepth t)));
     ("resume_token", (String.eqb (ResumeToken t) "", AString (ResumeToken t)));
     ("estimated_cost", ((EstimatedCost t =? 0)%float, AFloat (EstimatedCost t)));
     ("execution_contract", (is_nil (ExecutionContract t), AMap (ExecutionContract t)));
     ("repo_fingerprint", (String.eqb (RepoFingerprint t) "", AString (RepoFingerprint t)));
     ("routing_hints", (is_nil (RoutingHints t), AMap (RoutingHints t)));
     ("created_at", (false, time_any (CreatedAt t)))]. done.
Qed.

Definition canon_lane (l : SupportLane) : SupportLane :=
  mkSupportLane (clean_text (LaneProvider l)) (clean_text (LaneModelName l)) (clean_text (Role l))
    (canon_complexity (MaxComplexity l)) (map clean_text (LaneCapabilities l)) (map canon_type (SupportedTaskTypes l))
    (clean_text (LaneReason l)).
Lemma lane_back l : dec_element dec_lane zero_lane (support_lane_any l) = Some (canon_lane l).
Proof.
  change (dec_lane (support_lane_any l) = Some (canon_lane l)). unfold dec_lane, support_lane_any.
  as_entries
    [("provider", (false, AString (LaneProvider l)));
     ("model_name", (String.eqb (LaneModelName l) "", AString (LaneModelName l)));
     ("role", (false, AString (Role l)));
     ("max_complexity", (String.eqb (complexity_string (MaxComplexity l)) "", AString (complexity_string (MaxComplexity l))));
     ("capabilities", (is_nil (LaneCapabilities l), AStrings (LaneCapabilities l)));
     ("supported_task_types", (is_nil (map task_type_string (SupportedTaskTypes l)), AStrings (map task_type_string (SupportedTaskTypes l))));
     ("reason", (String.eqb (LaneReason l) "", AString (LaneReason l)))]. by rewrite !map_map.
Qed.
Definition canon_selection (s : ModelSelection) : ModelSelection :=
  mkModelSelection (clean_text (SelProvider s)) (clean_text (SelModelName s)) (canon_complexity (SelComplexity s))
    (SelRequiresSecondaryReview s) (clean_text (SelReason s)) (map clean_text (DetectedKeywords s))
    (map clean_text (MatchedHighRiskRules s)) (map clean_text (MatchedLowRiskExemptions s))
    (map canon_lane (SupportLanes s)) (generic_map (SelectionTrace s)).
Lemma selection_back s : entry_field dec_selection zero_selection (Some (false, selection_any s)) = Some (canon_selection s).
Proof.
  change (dec_selection (selection_any s) = Some (canon_selection s)). unfold dec_selection, selection_any.
  as_entries
    [("provider", (false, AString (SelProvider s)));
     ("model_name", (false, AString (SelModelName s)));
     ("complexity", (false, AString (complexity_string (SelComplexity s))));
     ("requires_secondary_review", (negb (SelRequiresSecondaryReview s), ABool (SelRequiresSecondaryReview s)));
     ("reason", (String.eqb (SelReason s) "", AString (SelReason s)));
     ("detected_keywords", (is_nil (DetectedKeywords s), AStrings (DetectedKeywords s)));
     ("matched_high_risk_rules", (is_nil (MatchedHighRiskRules s), AStrings (MatchedHighRiskRules s)));
     ("matched_low_risk_exemptions", (is_nil (MatchedLowRiskExemptions s), AStrings (MatchedLowRiskExemptions s)));
     ("support_lanes", (is_nil (map support_lane_any (SupportLanes s)), AList (map support_lane_any (SupportLanes s))));
     ("selection_trace", (is_nil (SelectionTrace s), AMap (SelectionTrace s)))].
  rewrite (entry_slice dec_lane zero_lane support_lane_any canon_lane); [done|by right|].
  apply Forall_forall. intros l _. apply lane_back.
Qed.
Definition canon_step (s : PlanStep) : PlanStep :=
  mkPlanStep (clean_text (StepID s)) (clean_text (StepTitle s)) (clean_text (StepCapability s))
    (clean_text (StepWorkerClass s)) (clean_text (StepClusterID s)) (StepContextBudget s)
    (map clean_text (StepConflictKeys s)) (map clean_text (StepDependencies s)) (map clean_text (StepFiles s)).
Lemma step_back s : dec_element dec_step zero_step (plan_step_any s) = Some (canon_step s).
Proof.
  change (dec_step (plan_step_any s) = Some (canon_step s)). unfold dec_step, plan_step_any.
  as_entries
    [("id", (false, AString (StepID s)));
     ("title", (false, AString (StepTitle s)));
     ("capability", (false, AString (StepCapability s)));
     ("worker_class", (String.eqb (StepWorkerClass s) "", AString (StepWorkerClass s)));
     ("cluster_id", (String.eqb (StepClusterID s) "", AString (StepClusterID s)));
     ("context_budget", (StepContextBudget s =? 0, AInt (StepContextBudget s)));
     ("conflict_keys", (is_nil (StepConflictKeys s), AStrings (StepConflictKeys s)));
     ("dependencies", (is_nil (StepDependencies s), AStrings (StepDependencies s)));
     ("files", (is_nil (StepFiles s), AStrings (StepFiles s)))]. done.
Qed.
Definition canon_plan (p : ExecutionPlan) : ExecutionPlan :=
  mkExecutionPlan (clean_text (PlanTaskID p)) (canon_complexity (PlanComplexity p)) (clean_text (PrimaryCapability p))
    (canon_selection (Selection p)) (map canon_step (Steps p)) (PlanCreatedAt p).
Lemma plan_back p : printable (PlanCreatedAt p) ->
  entry_field dec_plan zero_plan (Some (false, plan_any p)) = Some (canon_plan p).
Proof.
  intros Hp. change (dec_plan (plan_any p) = Some (canon_plan p)). unfold dec_plan, plan_any.
  as_entries
    [("task_id", (false, AString (PlanTaskID p)));
     ("complexity", (false, AString (complexity_string (PlanComplexity p))));
     ("primary_capability", (String.eqb (PrimaryCapability p) "", AString (PrimaryCapability p)));
     ("selection", (false, selection_any (Selection p)));
     ("steps", (false, AList (map plan_step_any (Steps p))));
     ("created_at", (false, time_any (PlanCreatedAt p)))]. rewrite selection_back. cbn [mbind option_bind].
  rewrite (entry_slice dec_step zero_step plan_step_any canon_step); [done|by left|].
  apply Forall_forall. intros s _. apply step_back.
Qed.
Definition canon_plan_task (a : PlanTaskArtifact) : PlanTaskArtifact :=
  mkPlanTaskArtifact (clean_text (ArtTaskID a)) (clean_text (ArtTitle a)) (clean_text (ArtCapability a))
    (clean_text (ArtWorkerClass a)) (clean_text (ArtClusterID a)) (ArtContextBudget a)
    (map clean_text (ArtConflictKeys a)) (clean_text (ArtProvider a)) (clean_text (ArtModelName a))
    (map clean_text (ArtFiles a)) (map clean_text (ArtDependencies a)) (clean_text (ArtBranchID a))
    (clean_text (ArtDraftLayer a)) (canon_float (ArtEstimatedCost a)) (canon_float (Weight a))
    (generic_map (ArtExecutionContract a)).
Lemma plan_task_back a : dec_element dec_plan_task zero_plan_task (plan_task_any a) = Some (canon_plan_task a).
Proof.
  change (dec_plan_task (plan_task_any a) = Some (canon_plan_task a)). unfold dec_plan_task, plan_task_any.
  as_entries
    [("task_id", (false, AString (ArtTaskID a)));
     ("title", (false, AString (ArtTitle a)));
     ("capability", (false, AString (ArtCapability a)));
     ("worker_class", (String.eqb (ArtWorkerClass a) "", AString (ArtWorkerClass a)));
     ("cluster_id", (String.eqb (ArtClusterID a) "", AString (ArtClusterID a)));
     ("context_budget", (ArtContextBudget a =? 0, AInt (ArtContextBudget a)));
     ("conflict_keys", (is_nil (ArtConflictKeys a), AStrings (ArtConflictKeys a)));
     ("provider", (String.eqb (ArtProvider a) "", AString (ArtProvider a)));
     ("model_name", (String.eqb (ArtModelName a) "", AString (ArtModelName a)));
     ("files", (is_nil (ArtFiles a), AStrings (ArtFiles a)));
     ("dependencies", (is_nil (ArtDependencies a), AStrings (ArtDependencies a)));
     ("branch_id", (String.eqb (ArtBranchID a) "", AString (ArtBranchID a)));
     ("draft_layer", (String.eqb (ArtDraftLayer a) "", AString (ArtDraftLayer a)));
     ("estimated_cost", ((ArtEstimatedCost a =? 0)%float, AFloat (ArtEstimatedCost a)));
     ("weight", ((Weight a =? 0)%float, AFloat (Weight a)));
     ("execution_contract", (is_nil (ArtExecutionContract a), AMap (ArtExecutionContract a)))]. done.
Qed.
Definition canon_artifact (a : PlanArtifact) : PlanArtifact :=
  mkPlanArtifact (clean_text (ArtRootTaskID a)) (clean_text (ArtPrimaryCapability a)) (TaskCount a)
    (map canon_plan_task (Tasks a)) (map (map clean_text) (ParallelGroups a)) (map generic_map (Handoffs a))
    (ArtCreatedAt a).
Lemma artifact_back a : printable (ArtCreatedAt a) ->
  entry_field dec_plan_artifact zero_artifact (Some (false, plan_artifact_any a)) = Some (canon_artifact a).
Proof.
  intros Ha. change (dec_plan_artifact (plan_artifact_any a) = Some (canon_artifact a)).
  unfold dec_plan_artifact, plan_artifact_any. as_entries
    [("root_task_id", (false, AString (ArtRootTaskID a)));
     ("primary_capability", (String.eqb (ArtPrimaryCapability a) "", AString (ArtPrimaryCapability a)));
     ("task_count", (false, AInt (TaskCount a)));
     ("tasks", (false, AList (map plan_task_any (Tasks a))));
     ("parallel_groups", (is_nil (map AStrings (ParallelGroups a)), AList (map AStrings (ParallelGroups a))));
     ("handoffs", (is_nil (Handoffs a), AMaps (Handoffs a)));
     ("created_at", (false, time_any (ArtCreatedAt a)))].
  rewrite (entry_slice dec_plan_task zero_plan_task plan_task_any canon_plan_task);
    [done|by left|].
  apply Forall_forall. intros x _. apply plan_task_back.
Qed.
