(* ===== verification/Bus.v ===== *)
(** * The message bus interface (internal/delivery/bus.go)

    [Bus B] is the Go interface as seen by the supervisor and the worker pool: the operations
    of [delivery.Bus], the answer of [BrokerManagedBus] and the settling closures of an
    [EnvelopeDelivery].  [BusLaws] states what the in-memory bus and the RabbitMQ bus both
    promise about the acknowledgement ledger; the supervisor's theorems use only these laws. *)
From S2P Require Import Prelude GoLib GoJSON Domain.

Definition AgentTopic (agentID : string) : string :=
  if String.eqb agentID "" then "orchestrator.inbox" else "agent." +:+ agentID +:+ ".inbox".

Class Bus (B : Type) : Type := {
  bus_Publish : string -> TaskEnvelope -> B -> B;
  bus_Consume : string -> B -> option TaskEnvelope * B;
  bus_SendEnvelope : TaskEnvelope -> B -> MessageAck * B;
  bus_ReceiveForAgent : string -> B -> option TaskEnvelope * B;
  bus_Ack : string -> AckStatus -> string -> string -> B -> MessageAck * B;
  bus_AckHistory : string -> B -> list MessageAck;
  bus_Depth : string -> B -> Z;
  bus_MarkDeadLetterEnvelope : TaskEnvelope -> string -> B -> MessageAck * B;
  bus_DeadLetters : B -> list TaskEnvelope;
  bus_BrokerManaged : bool;
  (** [EnvelopeDelivery.Ack] and [.Nack requeue] of an envelope streamed from a topic *)
  bus_DeliveryAck : string -> TaskEnvelope -> B -> B;
  bus_DeliveryNack : string -> TaskEnvelope -> bool -> B -> B;
  (** the name dead letters are acknowledged under *)
  bus_DeadLetterReceiver : string
}.

(** The guard at the top of [SendEnvelope]. *)
Definition hops_exceeded (e : TaskEnvelope) : bool := (0 <? MaxHops e) && (MaxHops e <=? HopCount e).

Definition sent_acks (id : string) : list MessageAck :=
  [mkMessageAck id AckStatusSent "" ""; mkMessageAck id AckStatusQueued "" ""].

(** The ledger of [b'] is the ledger of [b] with [new] appended for message [id]. *)
Definition ledger_appends {B} `{Bus B} (b b' : B) (id : string) (new : list MessageAck) : Prop :=
  forall i, bus_AckHistory i b' = bus_AckHistory i b ++ (if decide (i = id) then new else []).

Class BusLaws (B : Type) `{Bus B} : Prop := {
  law_Ack_result id st who why b :
    (bus_Ack id st who why b).1 = mkMessageAck id st who why;
  law_Ack_ledger id st who why b :
    ledger_appends b (bus_Ack id st who why b).2 id [mkMessageAck id st who why];
  law_Mark_result e why b :
    (bus_MarkDeadLetterEnvelope e why b).1 =
      mkMessageAck (EnvTaskID e) AckStatusDeadLettered bus_DeadLetterReceiver why;
  law_Mark_ledger e why b :
    ledger_appends b (bus_MarkDeadLetterEnvelope e why b).2 (EnvTaskID e)
      [mkMessageAck (EnvTaskID e) AckStatusDeadLettered bus_DeadLetterReceiver why];
  law_Mark_dead e why b :
    bus_DeadLetters (bus_MarkDeadLetterEnvelope e why b).2 =
      bus_DeadLetters b ++ [e <| IsDeadLetter := true |>];
  law_Send_dead e b : hops_exceeded e = true ->
    bus_SendEnvelope e b = bus_MarkDeadLetterEnvelope e "max_hops_exceeded" b;
  law_Send_result e b : hops_exceeded e = false ->
    (bus_SendEnvelope e b).1 = mkMessageAck (EnvTaskID e) AckStatusQueued "" "";
  law_Send_ledger e b : hops_exceeded e = false ->
    ledger_appends b (bus_SendEnvelope e b).2 (EnvTaskID e) (sent_acks (EnvTaskID e));
  law_Receive_ledger agent b i :
    bus_AckHistory i (bus_ReceiveForAgent agent b).2 = bus_AckHistory i b;
  law_DeliveryAck_ledger t e b i : bus_AckHistory i (bus_DeliveryAck t e b) = bus_AckHistory i b;
  law_DeliveryNack_ledger t e q b i : bus_AckHistory i (bus_DeliveryNack t e q b) = bus_AckHistory i b;
  law_Ack_dead id st who why b :
    bus_DeadLetters (bus_Ack id st who why b).2 = bus_DeadLetters b
}.

Section LedgerFacts.
  Context {B : Type} `{Bus B}.

Lemma ledger_appends_eq b b' id new :
    ledger_appends b b' id new -> bus_AckHistory id b' = bus_AckHistory id b ++ new.
  Proof. intros Ha. rewrite Ha. by rewrite decide_True. Qed.

Lemma ledger_appends_ne b b' id new i :
    ledger_appends b b' id new -> i <> id -> bus_AckHistory i b' = bus_AckHistory i b.
  Proof. intros Ha ?. rewrite Ha. rewrite decide_False by done. by rewrite app_nil_r. Qed.
End LedgerFacts.
#[export] Hint Resolve ledger_appends_eq ledger_appends_ne : orch.
