(* ===== verification/MessageBus.v ===== *)
(** * The in-memory message bus (internal/delivery/message_bus.go)

    A map of topic queues, the task and result queues, the acknowledgement ledger, the unacked
    table and the dead letters.  Each channel of capacity one that signals a queue is the
    boolean "holds a token". *)
From S2P Require Import Prelude GoLib GoJSON Domain Bus.

Record MessageBus : Type := mkMessageBus {
  queues : gmap string (list TaskEnvelope);
  tasks : list Task;
  results : list TaskResultEnvelope;
  acks : gmap string (list MessageAck);
  unacked : gmap string TaskEnvelope;
  deadLetters : list TaskEnvelope;
  queueSignals : gmap string bool;
  taskSignal : bool;
  resultSignal : bool }.
#[export] Instance eta_MessageBus : Updatable MessageBus := fun b =>
  mkMessageBus (queues b) (tasks b) (results b) (acks b) (unacked b) (deadLetters b)
    (queueSignals b) (taskSignal b) (resultSignal b).

Definition NewMessageBus : MessageBus := mkMessageBus ∅ [] [] ∅ ∅ [] ∅ false false.

(** Reading a missing key of a Go map of slices gives the nil slice. *)
Definition queue_of (t : string) (b : MessageBus) : list TaskEnvelope := default [] (queues b !! t).
Definition history_of (id : string) (b : MessageBus) : list MessageAck := default [] (acks b !! id).

(** [queueSignal] creates the topic's channel on first use; [notifySignal] fills it if empty. *)
Definition queueSignal (t : string) (b : MessageBus) : MessageBus :=
  match queueSignals b !! t with
  | Some _ => b
  | None => b <| queueSignals := <[t := false]> (queueSignals b) |>
  end.
Definition notifySignal (t : string) (b : MessageBus) : MessageBus :=
  b <| queueSignals := <[t := true]> (queueSignals b) |>.

(** [Publish] and [requeueFront] change the queue under the lock and signal after releasing it. *)
Definition Publish_locked (t : string) (e : TaskEnvelope) (b : MessageBus) : MessageBus :=
  queueSignal t (b <| queues := <[t := queue_of t b ++ [e]]> (queues b) |>).
Definition Publish (t : string) (e : TaskEnvelope) (b : MessageBus) : MessageBus :=
  notifySignal t (Publish_locked t e b).

Definition requeueFront_locked (t : string) (e : TaskEnvelope) (b : MessageBus) : MessageBus :=
  queueSignal t (b <| queues := <[t := e :: queue_of t b]> (queues b) |>).
Definition requeueFront (t : string) (e : TaskEnvelope) (b : MessageBus) : MessageBus :=
  notifySignal t (requeueFront_locked t e b).

Definition Consume (t : string) (b : MessageBus) : option TaskEnvelope * MessageBus :=
  match queue_of t b with
  | [] => (None, b)
  | item :: rest => (Some item, b <| queues := <[t := rest]> (queues b) |>)
  end.

(** The settling closures of [ConsumeEnvelopeDeliveries]. *)
Definition DeliveryAck (t : string) (e : TaskEnvelope) (b : MessageBus) : MessageBus := b.
Definition DeliveryNack (t : string) (e : TaskEnvelope) (requeue : bool) (b : MessageBus) : MessageBus :=
  if requeue then requeueFront t e b else b.

Definition EnqueueTask (task : Task) (b : MessageBus) : MessageBus :=
  b <| tasks := tasks b ++ [task] |> <| taskSignal := true |>.
Definition requeueTaskFront (task : Task) (b : MessageBus) : MessageBus :=
  b <| tasks := task :: tasks b |> <| taskSignal := true |>.
(** The critical section of [ConsumeTaskDeliveries]. *)
Definition takeTask (b : MessageBus) : option Task * MessageBus :=
  match tasks b with
  | [] => (None, b)
  | task :: rest => (Some task, b <| tasks := rest |>)
  end.

Definition PublishResult (r : TaskResultEnvelope) (b : MessageBus) : MessageBus :=
  b <| results := results b ++ [r] |> <| resultSignal := true |>.
Definition requeueResultFront (r : TaskResultEnvelope) (b : MessageBus) : MessageBus :=
  b <| results := r :: results b |> <| resultSignal := true |>.
(** The critical section of [ConsumeResultDeliveries]. *)
Definition takeResult (b : MessageBus) : option TaskResultEnvelope * MessageBus :=
  match results b with
  | [] => (None, b)
  | r :: rest => (Some r, b <| results := rest |>)
  end.

Definition append_acks (id : string) (new : list MessageAck) (b : MessageBus) : MessageBus :=
  b <| acks := <[id := history_of id b ++ new]> (acks b) |>.

(** The statuses on which [Ack] settles a message. *)
Definition settles (st : AckStatus) : bool :=
  match st with
  | AckStatusAccepted | AckStatusFailed | AckStatusDeadLettered => true
  | _ => false
  end.

Definition Ack (id : string) (st : AckStatus) (receivedBy reason : string) (b : MessageBus)
  : MessageAck * MessageBus :=
  let ack := mkMessageAck id st receivedBy reason in
  let b := append_acks id [ack] b in
  (ack, if settles st then b <| unacked := delete id (unacked b) |> else b).

Definition MarkDeadLetterEnvelope (e : TaskEnvelope) (reason : string) (b : MessageBus)
  : MessageAck * MessageBus :=
  let e := e <| IsDeadLetter := true |> in
  let b := b <| deadLetters := deadLetters b ++ [e] |>
             <| unacked := delete (EnvTaskID e) (unacked b) |> in
  Ack (EnvTaskID e) AckStatusDeadLettered "dead_letter_queue" reason b.

Definition SendEnvelope (e : TaskEnvelope) (b : MessageBus) : MessageAck * MessageBus :=
  if hops_exceeded e then MarkDeadLetterEnvelope e "max_hops_exceeded" b
  else
    let e := e <| HopCount := Int.add (HopCount e) 1 |> in
    let b := Publish (AgentTopic (TargetAgent e)) e b in
    let sentAck := mkMessageAck (EnvTaskID e) AckStatusSent "" "" in
    let queuedAck := mkMessageAck (EnvTaskID e) AckStatusQueued "" "" in
    let b := b <| unacked := <[EnvTaskID e := e]> (unacked b) |> in
    (queuedAck, append_acks (EnvTaskID e) [sentAck; queuedAck] b).

Definition ReceiveForAgent (agentID : string) (b : MessageBus) : option TaskEnvelope * MessageBus :=
  Consume (AgentTopic agentID) b.
Definition AckHistory (id : string) (b : MessageBus) : list MessageAck := history_of id b.
Definition Depth (t : string) (b : MessageBus) : Z := len (queue_of t b).
Definition DeadLetters (b : MessageBus) : list TaskEnvelope := deadLetters b.

#[export] Instance message_bus : Bus MessageBus := {
  bus_Publish := Publish;
  bus_Consume := Consume;
  bus_SendEnvelope := SendEnvelope;
  bus_ReceiveForAgent := ReceiveForAgent;
  bus_Ack := Ack;
  bus_AckHistory := AckHistory;
  bus_Depth := Depth;
  bus_MarkDeadLetterEnvelope := MarkDeadLetterEnvelope;
  bus_DeadLetters := DeadLetters;
  bus_BrokerManaged := false;
  bus_DeliveryAck := DeliveryAck;
  bus_DeliveryNack := DeliveryNack;
  bus_DeadLetterReceiver := "dead_letter_queue"
}.

(** ** Frame lemmas: what each operation does to the queues, the ledger and the tables *)
Lemma queueSignal_queues t b : queues (queueSignal t b) = queues b.
Proof. unfold queueSignal. by case_match. Qed.
Lemma queueSignal_acks t b : acks (queueSignal t b) = acks b.
Proof. unfold queueSignal. by case_match. Qed.
Lemma queueSignal_unacked t b : unacked (queueSignal t b) = unacked b.
Proof. unfold queueSignal. by case_match. Qed.
Lemma queueSignal_dead t b : deadLetters (queueSignal t b) = deadLetters b.
Proof. unfold queueSignal. by case_match. Qed.

Lemma Publish_queues t e b : queues (Publish t e b) = <[t := queue_of t b ++ [e]]> (queues b).
Proof. unfold Publish, Publish_locked. cbn. by rewrite queueSignal_queues. Qed.
Lemma Publish_acks t e b : acks (Publish t e b) = acks b.
Proof. unfold Publish, Publish_locked. cbn. by rewrite queueSignal_acks. Qed.
Lemma Publish_unacked t e b : unacked (Publish t e b) = unacked b.
Proof. unfold Publish, Publish_locked. cbn. by rewrite queueSignal_unacked. Qed.
Lemma Publish_dead t e b : deadLetters (Publish t e b) = deadLetters b.
Proof. unfold Publish, Publish_locked. cbn. by rewrite queueSignal_dead. Qed.

Lemma requeueFront_queues t e b :
  queues (requeueFront t e b) = <[t := e :: queue_of t b]> (queues b).
Proof. unfold requeueFront, requeueFront_locked. cbn. by rewrite queueSignal_queues. Qed.
Lemma requeueFront_acks t e b : acks (requeueFront t e b) = acks b.
Proof. unfold requeueFront, requeueFront_locked. cbn. by rewrite queueSignal_acks. Qed.
Lemma requeueFront_unacked t e b : unacked (requeueFront t e b) = unacked b.
Proof. unfold requeueFront, requeueFront_locked. cbn. by rewrite queueSignal_unacked. Qed.
Lemma requeueFront_dead t e b : deadLetters (requeueFront t e b) = deadLetters b.
Proof. unfold requeueFront, requeueFront_locked. cbn. by rewrite queueSignal_dead. Qed.
#[export] Hint Rewrite queueSignal_queues queueSignal_acks queueSignal_unacked queueSignal_dead
  Publish_queues Publish_acks Publish_unacked Publish_dead requeueFront_queues
  requeueFront_acks requeueFront_unacked requeueFront_dead : orch_rw.

Lemma queue_of_queues t b b' : queues b = queues b' -> queue_of t b = queue_of t b'.
Proof. unfold queue_of. by intros ->. Qed.
Lemma history_of_acks i b b' : acks b = acks b' -> history_of i b = history_of i b'.
Proof. unfold history_of. by intros ->. Qed.

Lemma queue_of_insert t t' q b b' :
  queues b' = <[t := q]> (queues b) -> queue_of t' b' = if decide (t' = t) then q else queue_of t' b.
Proof.
  unfold queue_of. intros ->. destruct (decide (t' = t)) as [->|Hne].
  - by rewrite lookup_insert_eq.
  - by rewrite lookup_insert_ne.
Qed.

Lemma Publish_queue_of t t' e b :
  queue_of t' (Publish t e b) = queue_of t' b ++ (if decide (t' = t) then [e] else []).
Proof.
  rewrite (queue_of_insert t t' _ b _ (Publish_queues t e b)).
  destruct (decide (t' = t)) as [->|]; [done|]. by rewrite app_nil_r.
Qed.
Lemma requeueFront_queue_of t t' e b :
  queue_of t' (requeueFront t e b) = (if decide (t' = t) then [e] else []) ++ queue_of t' b.
Proof.
  rewrite (queue_of_insert t t' _ b _ (requeueFront_queues t e b)).
  by destruct (decide (t' = t)) as [->|].
Qed.
Lemma Consume_queue_of t t' b :
  queue_of t' b =
    (if decide (t' = t) then option_list (Consume t b).1 else []) ++ queue_of t' (Consume t b).2.
Proof.
  unfold Consume. destruct (queue_of t b) as [|item rest] eqn:Hq; cbn.
  - by destruct (decide (t' = t)).
  - rewrite (queue_of_insert t t' rest b (b <| queues := <[t := rest]> (queues b) |>)) by done.
    destruct (decide (t' = t)) as [Heq|]; [subst t'; by rewrite Hq|done].
Qed.
Lemma Consume_acks t b : acks (Consume t b).2 = acks b.
Proof. unfold Consume. by case_match. Qed.
Lemma Consume_unacked t b : unacked (Consume t b).2 = unacked b.
Proof. unfold Consume. by case_match. Qed.
Lemma Consume_dead t b : deadLetters (Consume t b).2 = deadLetters b.
Proof. unfold Consume. by case_match. Qed.
Lemma Consume_None t b : (Consume t b).1 = None <-> queue_of t b = [].
Proof. unfold Consume. by case_match. Qed.
#[export] Hint Rewrite Consume_acks Consume_unacked Consume_dead : orch_rw.

Lemma append_acks_history id new b i :
  history_of i (append_acks id new b) = history_of i b ++ (if decide (i = id) then new else []).
Proof.
  unfold history_of at 1. cbn. destruct (decide (i = id)) as [->|Hne].
  - by rewrite lookup_insert_eq.
  - rewrite lookup_insert_ne by done. by rewrite app_nil_r.
Qed.
Lemma Ack_queues id st who why b : queues (Ack id st who why b).2 = queues b.
Proof. unfold Ack. cbn. by case_match. Qed.
Lemma Ack_dead id st who why b : deadLetters (Ack id st who why b).2 = deadLetters b.
Proof. unfold Ack. cbn. by case_match. Qed.
Lemma Ack_history id st who why b i :
  history_of i (Ack id st who why b).2 =
    history_of i b ++ (if decide (i = id) then [mkMessageAck id st who why] else []).
Proof.
  rewrite <- append_acks_history. apply history_of_acks. unfold Ack. cbn. by case_match.
Qed.
Lemma Ack_unacked id st who why b :
  unacked (Ack id st who why b).2 = if settles st then delete id (unacked b) else unacked b.
Proof. unfold Ack. cbn. by case_match. Qed.
Lemma Mark_queues e why b : queues (MarkDeadLetterEnvelope e why b).2 = queues b.
Proof. done. Qed.
Lemma Mark_dead e why b :
  deadLetters (MarkDeadLetterEnvelope e why b).2 = deadLetters b ++ [e <| IsDeadLetter := true |>].
Proof. done. Qed.
Lemma Mark_history e why b i :
  history_of i (MarkDeadLetterEnvelope e why b).2 =
    history_of i b ++ (if decide (i = EnvTaskID e)
      then [mkMessageAck (EnvTaskID e) AckStatusDeadLettered "dead_letter_queue" why] else []).
Proof. unfold MarkDeadLetterEnvelope. by rewrite Ack_history. Qed.
Lemma Mark_unacked e why b :
  unacked (MarkDeadLetterEnvelope e why b).2 = delete (EnvTaskID e) (unacked b).
Proof. cbn. apply delete_delete_eq. Qed.
#[export] Hint Rewrite Ack_queues Ack_dead Ack_unacked Mark_queues Mark_dead Mark_unacked : orch_rw.

Section Send.
  Context (e : TaskEnvelope) (b : MessageBus) (Hok : hops_exceeded e = false).

Lemma Send_history i :
    history_of i (SendEnvelope e b).2 =
      history_of i b ++ (if decide (i = EnvTaskID e) then sent_acks (EnvTaskID e) else []).
  Proof using Hok.
    unfold SendEnvelope. rewrite Hok. cbn [snd]. rewrite append_acks_history. f_equal.
    apply history_of_acks. cbn -[Publish]. by rewrite Publish_acks.
  Qed.
Lemma Send_queue_of t :
    queue_of t (SendEnvelope e b).2 =
      queue_of t b ++ (if decide (t = AgentTopic (TargetAgent e))
                       then [e <| HopCount := Int.add (HopCount e) 1 |>] else []).
  Proof using Hok.
    unfold SendEnvelope. rewrite Hok. cbn [snd]. by rewrite <- Publish_queue_of.
  Qed.
Lemma Send_unacked :
    unacked (SendEnvelope e b).2 =
      <[EnvTaskID e := e <| HopCount := Int.add (HopCount e) 1 |>]> (unacked b).
  Proof using Hok.
    unfold SendEnvelope. rewrite Hok. cbn -[Publish]. by rewrite Publish_unacked.
  Qed.
Lemma Send_dead : deadLetters (SendEnvelope e b).2 = deadLetters b.
  Proof using Hok. unfold SendEnvelope. rewrite Hok. cbn -[Publish]. by rewrite Publish_dead. Qed.
End Send.

(** The in-memory bus keeps the promises of the interface. *)
#[export] Instance message_bus_laws : BusLaws MessageBus.
Proof.
  split; unfold ledger_appends; cbn [bus_Ack bus_AckHistory bus_MarkDeadLetterEnvelope
    bus_DeadLetters bus_SendEnvelope bus_ReceiveForAgent bus_DeliveryAck bus_DeliveryNack
    bus_DeadLetterReceiver message_bus]; unfold AckHistory, DeadLetters.
  - done.
  - intros. apply Ack_history.
  - done.
  - intros. apply Mark_history.
  - done.
  - intros e b Hh. unfold SendEnvelope. by rewrite Hh.
  - intros e b Hh. unfold SendEnvelope. by rewrite Hh.
  - intros. by apply Send_history.
  - intros. apply history_of_acks. apply Consume_acks.
  - done.
  - intros t e [] b i; cbn; [|done]. apply history_of_acks. apply requeueFront_acks.
  - intros. apply Ack_dead.
Qed.

(** ** Traces of bus operations

    Every operation takes the bus lock, so a concurrent execution is a sequence of operations.
    [bus_exec] runs one and records what it appends to and takes from the topic queues. *)
Inductive BusOp : Type :=
  | OpPublish (t : string) (e : TaskEnvelope)
  | OpConsume (t : string)
  | OpSend (e : TaskEnvelope)
  | OpReceive (agentID : string)
  | OpAck (id : string) (st : AckStatus) (receivedBy reason : string)
  | OpMark (e : TaskEnvelope) (reason : string)
  | OpDeliveryAck (t : string) (e : TaskEnvelope)
  | OpDeliveryNack (t : string) (e : TaskEnvelope) (requeue : bool).

Inductive BusEvent : Type :=
  | Appended (t : string) (e : TaskEnvelope)
  | Requeued (t : string) (e : TaskEnvelope)
  | Taken (t : string) (e : TaskEnvelope).

Definition taken_event (t : string) (r : option TaskEnvelope) : list BusEvent :=
  match r with Some e => [Taken t e] | None => [] end.

Definition bus_exec (op : BusOp) (b : MessageBus) : list BusEvent * MessageBus :=
  match op with
  | OpPublish t e => ([Appended t e], Publish t e b)
  | OpConsume t => let '(r, b') := Consume t b in (taken_event t r, b')
  | OpSend e =>
      ((if hops_exceeded e then [] else
          [Appended (AgentTopic (TargetAgent e)) (e <| HopCount := Int.add (HopCount e) 1 |>)]),
       (SendEnvelope e b).2)
  | OpReceive a => let '(r, b') := ReceiveForAgent a b in (taken_event (AgentTopic a) r, b')
  | OpAck id st who why => ([], (Ack id st who why b).2)
  | OpMark e why => ([], (MarkDeadLetterEnvelope e why b).2)
  | OpDeliveryAck t e => ([], DeliveryAck t e b)
  | OpDeliveryNack t e q => ((if q then [Requeued t e] else []), DeliveryNack t e q b)
  end.

Fixpoint bus_run (ops : list BusOp) (b : MessageBus) : list BusEvent * MessageBus :=
  match ops with
  | [] => ([], b)
  | op :: ops =>
      let '(evs, b1) := bus_exec op b in
      let '(evs', b2) := bus_run ops b1 in (evs ++ evs', b2)
  end.

Fixpoint appended (t : string) (evs : list BusEvent) : list TaskEnvelope :=
  match evs with
  | [] => []
  | Appended t' e :: evs => if decide (t' = t) then e :: appended t evs else appended t evs
  | _ :: evs => appended t evs
  end.
Fixpoint requeued (t : string) (evs : list BusEvent) : list TaskEnvelope :=
  match evs with
  | [] => []
  | Requeued t' e :: evs => if decide (t' = t) then e :: requeued t evs else requeued t evs
  | _ :: evs => requeued t evs
  end.
Fixpoint taken (t : string) (evs : list BusEvent) : list TaskEnvelope :=
  match evs with
  | [] => []
  | Taken t' e :: evs => if decide (t' = t) then e :: taken t evs else taken t evs
  | _ :: evs => taken t evs
  end.

Lemma appended_app t k l : appended t (k ++ l) = appended t k ++ appended t l.
Proof. induction k as [|[] k IH]; cbn; repeat case_decide; cbn; congruence. Qed.
Lemma requeued_app t k l : requeued t (k ++ l) = requeued t k ++ requeued t l.
Proof. induction k as [|[] k IH]; cbn; repeat case_decide; cbn; congruence. Qed.
Lemma taken_app t k l : taken t (k ++ l) = taken t k ++ taken t l.
Proof. induction k as [|[] k IH]; cbn; repeat case_decide; cbn; congruence. Qed.
Lemma appended_taken_event t t' r : appended t (taken_event t' r) = [].
Proof. by destruct r. Qed.
Lemma requeued_taken_event t t' r : requeued t (taken_event t' r) = [].
Proof. by destruct r. Qed.
Lemma taken_taken_event t t' r :
  taken t (taken_event t' r) = if decide (t = t') then option_list r else [].
Proof. destruct r; cbn; repeat case_decide; done || congruence. Qed.
#[export] Hint Rewrite appended_app requeued_app taken_app appended_taken_event
  requeued_taken_event taken_taken_event : orch_rw.

(** The operations that never put an envelope back at the head of a queue. *)
Definition requeue_free (op : BusOp) : bool :=
  match op with OpDeliveryNack _ _ true => false | _ => true end.

Lemma bus_exec_fifo op b t : requeue_free op = true ->
  queue_of t b ++ appended t (bus_exec op b).1 =
  taken t (bus_exec op b).1 ++ queue_of t (bus_exec op b).2.
Proof.
  destruct op as [t' e|t'|e|a|id st who why|e why|t' e|t' e q]; cbn [bus_exec]; intros Hf.
  - cbn -[Publish]. rewrite Publish_queue_of. repeat case_decide; congruence.
  - pose proof (Consume_queue_of t' t b) as Hq. destruct (Consume t' b) as [r b'].
    cbn [fst snd] in *. autorewrite with orch_rw. by rewrite app_nil_r.
  - cbn [fst snd]. destruct (hops_exceeded e) eqn:Hh.
    + unfold SendEnvelope. rewrite Hh. by rewrite app_nil_r.
    + rewrite Send_queue_of by done. cbn -[SendEnvelope]. repeat case_decide; congruence.
  - pose proof (Consume_queue_of (AgentTopic a) t b) as Hq. unfold ReceiveForAgent.
    destruct (Consume (AgentTopic a) b) as [r b'].
    cbn [fst snd] in *. autorewrite with orch_rw. by rewrite app_nil_r.
  - cbn -[Ack]. rewrite app_nil_r.
    by rewrite (queue_of_queues t (Ack id st who why b).2 b (Ack_queues id st who why b)).
  - by rewrite app_nil_r.
  - cbn. by rewrite app_nil_r.
  - destruct q; [done|]. cbn. by rewrite app_nil_r.
Qed.

(** Consuming is the only way out of a queue. *)
Lemma bus_exec_balance op b t :
  queue_of t b ++ appended t (bus_exec op b).1 ++ requeued t (bus_exec op b).1
  ≡ₚ taken t (bus_exec op b).1 ++ queue_of t (bus_exec op b).2.
Proof.
  destruct (requeue_free op) eqn:Hf.
  - rewrite <- (bus_exec_fifo op b t Hf). rewrite app_assoc.
    assert (requeued t (bus_exec op b).1 = []) as ->; [|by rewrite app_nil_r].
    destruct op as [| | | | | | |? ? []]; cbn in *; try done.
    + case_match. apply requeued_taken_event.
    + by destruct (hops_exceeded _).
    + case_match. apply requeued_taken_event.
  - destruct op as [| | | | | | |t' e []]; try done. cbn -[requeueFront].
    rewrite requeueFront_queue_of. repeat case_decide; try congruence.
    + by rewrite Permutation_app_comm.
    + by rewrite app_nil_r.
Qed.

Lemma bus_run_fifo ops b t : forallb requeue_free ops = true ->
  queue_of t b ++ appended t (bus_run ops b).1 =
  taken t (bus_run ops b).1 ++ queue_of t (bus_run ops b).2.
Proof.
  revert b. induction ops as [|op ops IH]; intros b; cbn [bus_run forallb].
  - intros _. cbn. by rewrite app_nil_r.
  - intros [Hf Hfs]%andb_prop. pose proof (bus_exec_fifo op b t Hf) as H1.
    destruct (bus_exec op b) as [evs b1]. specialize (IH b1 Hfs).
    destruct (bus_run ops b1) as [evs' b2]. cbn [fst snd] in *.
    autorewrite with orch_rw. rewrite app_assoc. rewrite H1.
    rewrite <- !app_assoc. by rewrite IH.
Qed.

Lemma bus_run_balance ops b t :
  queue_of t b ++ appended t (bus_run ops b).1 ++ requeued t (bus_run ops b).1
  ≡ₚ taken t (bus_run ops b).1 ++ queue_of t (bus_run ops b).2.
Proof.
  revert b. induction ops as [|op ops IH]; intros b; cbn [bus_run].
  - cbn. by rewrite app_nil_r.
  - pose proof (bus_exec_balance op b t) as H1.
    destruct (bus_exec op b) as [evs b1]. specialize (IH b1).
    destruct (bus_run ops b1) as [evs' b2]. cbn [fst snd] in *.
    autorewrite with orch_rw. rewrite <- (app_assoc (taken t evs)). rewrite <- IH.
    rewrite (app_assoc (taken t evs)), <- H1. solve_Permutation.
Qed.

(** ** The unacknowledged table follows the ledger

    A message is outstanding when it was queued since it was last settled; [unacked] holds
    exactly the outstanding messages as long as clients do not acknowledge with the status
    [queued], which the bus reserves for itself. *)
Fixpoint outstanding (o : bool) (h : list MessageAck) : bool :=
  match h with
  | [] => o
  | a :: h =>
      outstanding (if settles (AckStatusOf a) then false
                   else if decide (AckStatusOf a = AckStatusQueued) then true else o) h
  end.
Lemma outstanding_app o k l : outstanding o (k ++ l) = outstanding (outstanding o k) l.
Proof. revert o. induction k as [|a k IH]; intros o; cbn; [done|]. apply IH. Qed.

Definition unacked_coherent (b : MessageBus) : Prop :=
  forall i, is_Some (unacked b !! i) <-> outstanding false (history_of i b) = true.

Definition client_op (op : BusOp) : bool :=
  match op with OpAck _ st _ _ => bool_decide (st <> AckStatusQueued) | _ => true end.

Lemma coherent_append b b' id new :
  unacked_coherent b ->
  (forall i, history_of i b' = history_of i b ++ (if decide (i = id) then new else [])) ->
  (forall i, i <> id -> unacked b' !! i = unacked b !! i) ->
  (forall o, (is_Some (unacked b !! id) <-> o = true) ->
     is_Some (unacked b' !! id) <-> outstanding o new = true) ->
  unacked_coherent b'.
Proof.
  intros Hc Hh Hne Hid i. rewrite Hh, outstanding_app. destruct (decide (i = id)) as [->|Hi].
  - by apply Hid.
  - rewrite Hne by done. apply Hc.
Qed.

Lemma coherent_frame b b' :
  acks b' = acks b -> unacked b' = unacked b -> unacked_coherent b -> unacked_coherent b'.
Proof. intros Ha Hu Hc i. rewrite Hu, (history_of_acks i b' b Ha). apply Hc. Qed.

Lemma coherent_Ack id st who why b : st <> AckStatusQueued ->
  unacked_coherent b -> unacked_coherent (Ack id st who why b).2.
Proof.
  intros Hst Hc. eapply (coherent_append b _ id); [done|apply Ack_history| |].
  - intros i Hi. rewrite Ack_unacked. destruct (settles st); [|done]. by rewrite lookup_delete_ne.
  - intros o Ho. rewrite Ack_unacked. cbn [outstanding AckStatusOf]. destruct (settles st).
    + rewrite lookup_delete_eq. by rewrite is_Some_alt.
    + by rewrite decide_False.
Qed.

Lemma coherent_Mark e why b :
  unacked_coherent b -> unacked_coherent (MarkDeadLetterEnvelope e why b).2.
Proof.
  intros Hc. eapply (coherent_append b _ (EnvTaskID e)); [done|apply Mark_history| |].
  - intros i Hi. rewrite Mark_unacked. by rewrite lookup_delete_ne.
  - intros o Ho. rewrite Mark_unacked, lookup_delete_eq. by rewrite is_Some_alt.
Qed.

Lemma coherent_Send e b : unacked_coherent b -> unacked_coherent (SendEnvelope e b).2.
Proof.
  intros Hc. destruct (hops_exceeded e) eqn:Hh.
  - unfold SendEnvelope. rewrite Hh. by apply coherent_Mark.
  - eapply (coherent_append b _ (EnvTaskID e)); [done|by apply Send_history| |].
    + intros i Hi. rewrite Send_unacked by done. by rewrite lookup_insert_ne.
    + intros o Ho. rewrite Send_unacked by done. rewrite lookup_insert_eq. cbn.
      rewrite is_Some_alt. done.
Qed.

Lemma coherent_exec op b : client_op op = true ->
  unacked_coherent b -> unacked_coherent (bus_exec op b).2.
Proof.
  intros Hop Hc.
  destruct op as [t e|t|e|a|id st who why|e why|t e|t e q]; cbn [bus_exec fst snd].
  - eapply coherent_frame; [apply Publish_acks|apply Publish_unacked|done].
  - pose proof (Consume_acks t b) as Ha. pose proof (Consume_unacked t b) as Hu.
    destruct (Consume t b). by eapply coherent_frame.
  - by apply coherent_Send.
  - unfold ReceiveForAgent. pose proof (Consume_acks (AgentTopic a) b) as Ha.
    pose proof (Consume_unacked (AgentTopic a) b) as Hu. destruct (Consume _ b). by eapply coherent_frame.
  - apply coherent_Ack; [|done]. by apply bool_decide_eq_true in Hop.
  - by apply coherent_Mark.
  - done.
  - destruct q; cbn [DeliveryNack]; [|done].
    eapply coherent_frame; [apply requeueFront_acks|apply requeueFront_unacked|done].
Qed.

Lemma coherent_run ops b : forallb client_op ops = true ->
  unacked_coherent b -> unacked_coherent (bus_run ops b).2.
Proof.
  revert b. induction ops as [|op ops IH]; intros b; cbn [bus_run forallb]; [done|].
  intros [Hop Hops]%andb_prop Hc. pose proof (coherent_exec op b Hop Hc) as H1.
  destruct (bus_exec op b) as [evs b1]. specialize (IH b1 Hops H1). by destruct (bus_run ops b1).
Qed.

(** ** Hop counts stay within the hop limit *)
Definition within_hops (e : TaskEnvelope) : Prop := 0 < MaxHops e -> HopCount e <= MaxHops e.
Definition typed_hops (e : TaskEnvelope) : Prop :=
  Int.in_range (HopCount e) /\ Int.in_range (MaxHops e).

(** Raw publishing and requeueing bypass the hop guard: they must carry an envelope that already
    respects it.  A sent envelope only has to be a value of the Go type. *)
Definition hop_op (op : BusOp) : Prop :=
  match op with
  | OpPublish _ e | OpDeliveryNack _ e _ => within_hops e
  | OpSend e => typed_hops e
  | _ => True
  end.
Definition queued_within_hops (b : MessageBus) : Prop := forall t, Forall within_hops (queue_of t b).

Lemma hop_increment_within e : typed_hops e -> hops_exceeded e = false ->
  within_hops (e <| HopCount := Int.add (HopCount e) 1 |>).
Proof.
  unfold typed_hops, within_hops, hops_exceeded. intros [[??] [??]] Hh Hpos. cbn in *.
  apply andb_false_iff in Hh as [Hh|Hh]; [lia|]. apply Z.leb_gt in Hh.
  rewrite Int.add_id; unfold Int.in_range, Int.min, Int.max in *; lia.
Qed.

Lemma hops_exec op b : hop_op op -> queued_within_hops b -> queued_within_hops (bus_exec op b).2.
Proof.
  intros Hop Hb t. destruct (requeue_free op) eqn:Hf.
  - pose proof (bus_exec_fifo op b t Hf) as Hq.
    assert (Forall within_hops (appended t (bus_exec op b).1)) as Ha.
    { destruct op as [t' e|t'|e|a|id st who why|e why|t' e|t' e q]; cbn [bus_exec hop_op] in *.
      - cbn. case_decide; auto.
      - destruct (Consume t' b). cbn [fst]. by rewrite appended_taken_event.
      - cbn [fst]. destruct (hops_exceeded e) eqn:Hh; cbn; [done|]. case_decide; [|done].
        apply Forall_singleton. by apply hop_increment_within.
      - unfold ReceiveForAgent. destruct (Consume _ b). cbn [fst]. by rewrite appended_taken_event.
      - done.
      - done.
      - done.
      - by destruct q. }
    assert (Forall within_hops (queue_of t b ++ appended t (bus_exec op b).1)) as Hall.
    { by apply Forall_app. }
    rewrite Hq in Hall. by apply Forall_app in Hall as [_ ?].
  - destruct op as [| | | | | | |t' e []]; try done. cbn -[requeueFront].
    rewrite requeueFront_queue_of. apply Forall_app. split; [|apply Hb].
    case_decide; [by apply Forall_singleton|done].
Qed.

Lemma hops_run ops b : Forall hop_op ops -> queued_within_hops b -> queued_within_hops (bus_run ops b).2.
Proof.
  intros Hops. revert b. induction Hops as [|op ops Hop Hops IH]; intros b Hb; cbn [bus_run]; [done|].
  pose proof (hops_exec op b Hop Hb) as H1. destruct (bus_exec op b) as [evs b1].
  specialize (IH b1 H1). by destruct (bus_run ops b1).
Qed.

(** ** Dead letters *)
Fixpoint dead_lettered_by (ops : list BusOp) : list TaskEnvelope :=
  match ops with
  | [] => []
  | OpMark e _ :: ops => (e <| IsDeadLetter := true |>) :: dead_lettered_by ops
  | OpSend e :: ops =>
      (if hops_exceeded e then [e <| IsDeadLetter := true |>] else []) ++ dead_lettered_by ops
  | _ :: ops => dead_lettered_by ops
  end.

Lemma bus_run_dead ops b : deadLetters (bus_run ops b).2 = deadLetters b ++ dead_lettered_by ops.
Proof.
  revert b. induction ops as [|op ops IH]; intros b; cbn [bus_run dead_lettered_by].
  { by rewrite app_nil_r. }
  assert (deadLetters (bus_exec op b).2 = deadLetters b ++ dead_lettered_by [op]) as H1.
  { destruct op as [t e|t|e|a|id st who why|e why|t e|t e q]; cbn -[Publish Ack Consume].
    - by rewrite Publish_dead, app_nil_r.
    - pose proof (Consume_dead t b) as Hd. destruct (Consume t b). by rewrite app_nil_r.
    - rewrite app_nil_r. unfold SendEnvelope. destruct (hops_exceeded e) eqn:Hh; [done|].
      cbn -[Publish]. by rewrite Publish_dead, app_nil_r.
    - unfold ReceiveForAgent. pose proof (Consume_dead (AgentTopic a) b) as Hd.
      destruct (Consume _ b). by rewrite app_nil_r.
    - by rewrite Ack_dead, app_nil_r.
    - done.
    - by rewrite app_nil_r.
    - rewrite app_nil_r. destruct q; [apply requeueFront_dead|done]. }
  destruct (bus_exec op b) as [evs b1]. specialize (IH b1). destruct (bus_run ops b1) as [evs' b2].
  cbn [fst snd] in *. rewrite IH, H1, <- app_assoc. by destruct op; cbn; rewrite ?app_nil_r.
Qed.

(** ** Properties *)

(** A topic of the in-memory bus is a lossless FIFO queue: over any sequence of bus
    operations in which no delivery is negatively acknowledged for requeueing, the envelopes
    published or sent to a topic are, in order, the ones consumed from it followed by the ones
    still queued; nothing is lost, duplicated or reordered. *)
Theorem bus_topic_fifo ops t : forallb requeue_free ops = true ->
  appended t (bus_run ops NewMessageBus).1 =
  taken t (bus_run ops NewMessageBus).1 ++ queue_of t (bus_run ops NewMessageBus).2.
Proof. apply (bus_run_fifo ops NewMessageBus t). Qed.

Definition sample_envelope (id agent : string) (hops maxHops : Z) : TaskEnvelope :=
  zero_envelope <| EnvTaskID := id |> <| TargetAgent := agent |>
    <| HopCount := hops |> <| MaxHops := maxHops |>.
Definition sample_trace : list BusOp :=
  [OpSend (sample_envelope "t1" "coder" 0 4); OpSend (sample_envelope "t2" "coder" 0 4);
   OpReceive "coder"; OpAck "t1" AckStatusAccepted "coder" "done";
   OpPublish "agent.coder.inbox" (sample_envelope "t3" "coder" 0 0);
   OpSend (sample_envelope "t4" "coder" 4 4)].

Lemma bus_topic_fifo_witness :
  forallb requeue_free sample_trace = true /\
  map EnvTaskID (taken "agent.coder.inbox" (bus_run sample_trace NewMessageBus).1) = ["t1"] /\
  map EnvTaskID (queue_of "agent.coder.inbox" (bus_run sample_trace NewMessageBus).2) = ["t2"; "t3"] /\
  appended "agent.coder.inbox" (bus_run sample_trace NewMessageBus).1 =
  taken "agent.coder.inbox" (bus_run sample_trace NewMessageBus).1 ++
    queue_of "agent.coder.inbox" (bus_run sample_trace NewMessageBus).2.
Proof.
  split; [reflexivity|]. split; [vm_compute; reflexivity|]. split; [vm_compute; reflexivity|].
  apply (bus_topic_fifo sample_trace "agent.coder.inbox"). reflexivity.
Defined.

(** requeueing keeps the bus lossless: whatever the operations (requeues included), the
    envelopes appended or requeued to a topic are a permutation of the ones consumed from it
    and the ones still in its queue. *)
Theorem bus_topic_conservation ops t :
  appended t (bus_run ops NewMessageBus).1 ++ requeued t (bus_run ops NewMessageBus).1
  ≡ₚ taken t (bus_run ops NewMessageBus).1 ++ queue_of t (bus_run ops NewMessageBus).2.
Proof. apply (bus_run_balance ops NewMessageBus t). Qed.

(** The table of unacknowledged envelopes agrees with the acknowledgement ledger: after any
    operations by clients that leave the status [queued] to the bus, a message is in the table
    iff its ledger has a [queued] entry after the last accepted, failed or dead-lettered one. *)
Theorem bus_unacked_iff_outstanding ops i : forallb client_op ops = true ->
  is_Some (unacked (bus_run ops NewMessageBus).2 !! i) <->
  outstanding false (AckHistory i (bus_run ops NewMessageBus).2) = true.
Proof.
  intros Hops. apply coherent_run; [done|]. intros j. cbn. by rewrite is_Some_alt.
Qed.

Lemma bus_unacked_iff_outstanding_witness :
  forallb client_op sample_trace = true /\
  outstanding false (AckHistory "t1" (bus_run sample_trace NewMessageBus).2) = false /\
  outstanding false (AckHistory "t2" (bus_run sample_trace NewMessageBus).2) = true /\
  is_Some (unacked (bus_run sample_trace NewMessageBus).2 !! "t2").
Proof.
  split; [reflexivity|]. split; [vm_compute; reflexivity|]. split; [vm_compute; reflexivity|].
  apply (bus_unacked_iff_outstanding sample_trace "t2"); [reflexivity|vm_compute; reflexivity].
Defined.

(** An envelope never sits in a queue beyond its hop limit: if raw publishes and requeues
    carry envelopes within their limit, every queued envelope with a positive [MaxHops] has
    [HopCount <= MaxHops]; the 64-bit increment of the hop count does not overflow. *)
Theorem bus_hops_bounded ops t e : Forall hop_op ops ->
  e ∈ queue_of t (bus_run ops NewMessageBus).2 -> 0 < MaxHops e -> HopCount e <= MaxHops e.
Proof.
  intros Hops He. assert (queued_within_hops (bus_run ops NewMessageBus).2) as Hq.
  { apply hops_run; [done|]. intros t'. constructor. }
  specialize (Hq t). rewrite Forall_forall in Hq. by apply Hq.
Qed.

Lemma bus_hops_bounded_witness :
  Forall hop_op [OpSend (sample_envelope "t1" "coder" 3 4)] /\
  HopCount (sample_envelope "t1" "coder" 4 4) <= MaxHops (sample_envelope "t1" "coder" 4 4).
Proof.
  assert (Forall hop_op [OpSend (sample_envelope "t1" "coder" 3 4)]) as H.
  { constructor; [|constructor]. unfold hop_op, typed_hops, Int.in_range, Int.min, Int.max. cbn. lia. }
  split; [exact H|].
  apply (bus_hops_bounded [OpSend (sample_envelope "t1" "coder" 3 4)] "agent.coder.inbox");
    [exact H| |cbn; lia].
  vm_compute. apply list_elem_of_here.
Defined.

(** The dead-letter list is exactly the envelopes dead-lettered so far, in order and flagged
    as dead letters: those marked explicitly and those sent with an exhausted hop budget. *)
Theorem bus_dead_letters_exact ops :
  DeadLetters (bus_run ops NewMessageBus).2 = dead_lettered_by ops /\
  Forall (fun e => IsDeadLetter e = true) (DeadLetters (bus_run ops NewMessageBus).2).
Proof.
  unfold DeadLetters. rewrite bus_run_dead. split; [done|]. cbn [app NewMessageBus deadLetters].
  induction ops as [|op ops IH]; [constructor|].
  destruct op; cbn [dead_lettered_by]; try done.
  - destruct (hops_exceeded e); cbn [app]; [by constructor|done].
  - by constructor.
Qed.
