(* ===== verification/BusConcurrency.v ===== *)
(** * Wakeups of the in-memory bus (internal/delivery/message_bus.go)

    [Publish] and [requeueFront] append under the lock and signal the topic's channel of
    capacity one after releasing it; the goroutine of [ConsumeEnvelopeDeliveries] consumes until
    the queue is empty, re-checks it under the lock in [waitForEnvelope] and then blocks on the
    channel.  The small-step system below interleaves any number of publishers and consumers at
    the granularity of these critical sections; cancelled contexts (shutdown) are left out. *)
From S2P Require Import Prelude GoLib GoJSON Domain Bus MessageBus.

(** The critical section of [waitForEnvelope]: [true] when the queue is not empty, otherwise
    the channel is created if needed and the caller blocks on it. *)
Definition waitForEnvelope_check (t : string) (b : MessageBus) : bool * MessageBus :=
  if 0 <? len (queue_of t b) then (true, b) else (false, queueSignal t b).
(** [<-signal]: possible only when the channel holds a token, which it removes. *)
Definition waitForEnvelope_receive (t : string) (b : MessageBus) : option MessageBus :=
  match queueSignals b !! t with
  | Some true => Some (b <| queueSignals := <[t := false]> (queueSignals b) |>)
  | _ => None
  end.

(** Where the goroutine of [ConsumeEnvelopeDeliveries] stands. *)
Inductive ConsumerAt : Type :=
  | AtConsume                   (* about to call Consume *)
  | AtCheck                     (* queue was empty: about to enter waitForEnvelope *)
  | AtWait                      (* blocked on the signal channel *)
  | AtDeliver (e : TaskEnvelope) (* offering the delivery on its output channel *).

Record BusSystem : Type := mkBusSystem {
  bus : MessageBus;
  notifying : list string;              (* publishers between Unlock and notifySignal *)
  consumers : list (string * ConsumerAt) }.

(** The kind of a step: [client] steps come from outside, the others run by themselves. *)
Inductive StepKind : Type := client | internal.

Inductive bus_sys_step : StepKind -> BusSystem -> BusSystem -> Prop :=
  | StPublish t e b ns cs :
      bus_sys_step client (mkBusSystem b ns cs) (mkBusSystem (Publish_locked t e b) (t :: ns) cs)
  | StRequeue t e b ns cs :
      bus_sys_step client (mkBusSystem b ns cs) (mkBusSystem (requeueFront_locked t e b) (t :: ns) cs)
  | StNotify t b ns ns' cs : ns ≡ₚ t :: ns' ->
      bus_sys_step internal (mkBusSystem b ns cs) (mkBusSystem (notifySignal t b) ns' cs)
  | StFetch t b ns cs :
      bus_sys_step client (mkBusSystem b ns cs) (mkBusSystem (Consume t b).2 ns cs)
  | StAck id st who why b ns cs :
      bus_sys_step client (mkBusSystem b ns cs) (mkBusSystem (Ack id st who why b).2 ns cs)
  | StConsumeSome i t e b b' ns cs : cs !! i = Some (t, AtConsume) -> Consume t b = (Some e, b') ->
      bus_sys_step internal (mkBusSystem b ns cs) (mkBusSystem b' ns (<[i := (t, AtDeliver e)]> cs))
  | StConsumeNone i t b b' ns cs : cs !! i = Some (t, AtConsume) -> Consume t b = (None, b') ->
      bus_sys_step internal (mkBusSystem b ns cs) (mkBusSystem b' ns (<[i := (t, AtCheck)]> cs))
  | StCheck i t b r b' ns cs : cs !! i = Some (t, AtCheck) -> waitForEnvelope_check t b = (r, b') ->
      bus_sys_step internal (mkBusSystem b ns cs)
        (mkBusSystem b' ns (<[i := (t, if r : bool then AtConsume else AtWait)]> cs))
  | StWake i t b b' ns cs : cs !! i = Some (t, AtWait) -> waitForEnvelope_receive t b = Some b' ->
      bus_sys_step internal (mkBusSystem b ns cs) (mkBusSystem b' ns (<[i := (t, AtConsume)]> cs))
  | StDelivered i t e b ns cs : cs !! i = Some (t, AtDeliver e) ->
      bus_sys_step internal (mkBusSystem b ns cs) (mkBusSystem b ns (<[i := (t, AtConsume)]> cs)).

Definition bus_sys_steps (s s' : BusSystem) : Prop := exists k, bus_sys_step k s s'.

(** The system starts with an empty bus and any set of consumers that begin their loop. *)
Definition bus_sys_init (s : BusSystem) : Prop :=
  bus s = NewMessageBus /\ notifying s = [] /\ Forall (fun c => c.2 = AtConsume) (consumers s).

Definition token (t : string) (b : MessageBus) : Prop := queueSignals b !! t = Some true.

(** Someone will look at a non-empty queue again: a token is in the channel, a publisher is
    about to put one, or not every consumer of the topic is blocked. *)
Definition attended (t : string) (s : BusSystem) : Prop :=
  token t (bus s) \/ t ∈ notifying s \/
  (exists i c, consumers s !! i = Some (t, c) /\ c <> AtWait) \/
  (forall i c, consumers s !! i <> Some (t, c)).
Definition no_lost_wakeup (s : BusSystem) : Prop :=
  forall t, queue_of t (bus s) <> [] -> attended t s.

(** ** Preservation *)
Lemma queueSignal_token t t' b : token t b -> token t (queueSignal t' b).
Proof.
  unfold token, queueSignal. intros Ht. case_match; [done|]. cbn.
  rewrite lookup_insert_ne; [done|]. congruence.
Qed.
Lemma notifySignal_token t t' b : token t b -> token t (notifySignal t' b).
Proof.
  unfold token, notifySignal. cbn. intros Ht. destruct (decide (t' = t)) as [->|].
  - by rewrite lookup_insert_eq.
  - by rewrite lookup_insert_ne.
Qed.
Lemma Consume_signals t b : queueSignals (Consume t b).2 = queueSignals b.
Proof. unfold Consume. by case_match. Qed.
Lemma Ack_signals id st who why b : queueSignals (Ack id st who why b).2 = queueSignals b.
Proof. unfold Ack. cbn. by case_match. Qed.
Lemma Consume_shrinks t t' b : queue_of t (Consume t' b).2 <> [] -> queue_of t b <> [].
Proof.
  rewrite (Consume_queue_of t' t b). intros Hne [_ Hq]%app_nil. by apply Hne.
Qed.

(** A consumer of topic [t] that is not blocked attends to [t], whatever the others do. *)
Lemma attended_active i t c b ns cs :
  (i < length cs)%nat -> c <> AtWait -> attended t (mkBusSystem b ns (<[i := (t, c)]> cs)).
Proof.
  intros Hi Hc. right; right; left. exists i, c. split; [|done]. apply list_lookup_insert_eq. lia.
Qed.

Lemma attended_frame t s s' :
  (token t (bus s) -> token t (bus s')) ->
  (t ∈ notifying s -> t ∈ notifying s' \/ token t (bus s')) ->
  (forall i c, consumers s !! i = Some (t, c) <-> consumers s' !! i = Some (t, c)) ->
  attended t s -> attended t s'.
Proof.
  intros Ht Hn Hc [?|[Hin|[(i & c & Hi & Hw)|Hno]]].
  - left. auto.
  - destruct (Hn Hin); [right; by left|by left].
  - right; right; left. exists i, c. by rewrite <- Hc.
  - right; right; right. intros i c. rewrite <- Hc. apply Hno.
Qed.

Lemma consumers_other i j t t' c c' c'' (cs : list (string * ConsumerAt)) :
  cs !! i = Some (t, c) -> t' <> t ->
  cs !! j = Some (t', c'') <-> <[i := (t, c')]> cs !! j = Some (t', c'').
Proof.
  intros Hi Ht. destruct (decide (i = j)) as [->|Hij].
  - rewrite list_lookup_insert_eq by eauto using lookup_lt_Some. rewrite Hi. split; congruence.
  - by rewrite list_lookup_insert_ne.
Qed.

(** The step of consumer [i] of topic [t]: other topics keep their attendance, and [t] is
    attended because [i] stays active or because the queue is empty. *)
Lemma consumer_step_preserves i t c c' b b' ns cs :
  cs !! i = Some (t, c) ->
  (forall t', queue_of t' b' <> [] -> queue_of t' b <> []) ->
  (forall t', t' <> t -> token t' b -> token t' b') ->
  (c' = AtWait -> queue_of t b' = []) ->
  no_lost_wakeup (mkBusSystem b ns cs) ->
  no_lost_wakeup (mkBusSystem b' ns (<[i := (t, c')]> cs)).
Proof.
  intros Hi Hq Htok Hwait Hinv t' Hne. cbn in Hne. destruct (decide (t' = t)) as [->|Ht].
  - apply attended_active; [eauto using lookup_lt_Some|]. intros Hc. by apply Hne, Hwait.
  - eapply (attended_frame t' (mkBusSystem b ns cs)); cbn; auto.
    intros j c''. by apply (consumers_other i j t t' c c').
Qed.

(** A step of a publisher or of a client that leaves the consumers where they are. *)
Lemma bus_step_preserves b b' ns ns' cs :
  (forall t, queue_of t b' <> [] -> queue_of t b <> [] \/ t ∈ ns') ->
  (forall t, token t b -> token t b') ->
  (forall t, t ∈ ns -> t ∈ ns' \/ token t b') ->
  no_lost_wakeup (mkBusSystem b ns cs) -> no_lost_wakeup (mkBusSystem b' ns' cs).
Proof.
  intros Hq Htok Hns Hinv t Hne. destruct (Hq t Hne) as [Hb|Hin].
  - eapply (attended_frame t (mkBusSystem b ns cs)); cbn; auto.
  - right; by left.
Qed.

Lemma bus_sys_preserves k s s' : bus_sys_step k s s' -> no_lost_wakeup s -> no_lost_wakeup s'.
Proof.
  destruct 1 as [t e b ns cs|t e b ns cs|t b ns ns' cs Hns|t b ns cs|id st who why b ns cs
    |i t e b b' ns cs Hi Hc|i t b b' ns cs Hi Hc|i t b r b' ns cs Hi Hc|i t b b' ns cs Hi Hc
    |i t e b ns cs Hi].
  - apply bus_step_preserves.
    + intros t' Hne. unfold Publish_locked in Hne.
      rewrite (queue_of_queues t' _ _ (queueSignal_queues _ _)) in Hne.
      rewrite (queue_of_insert t t' (queue_of t b ++ [e]) b) in Hne by done.
      case_decide; [subst; right; left|by left].
    + intros t' Ht. unfold Publish_locked. by apply queueSignal_token.
    + intros t' Ht. left. by right.
  - apply bus_step_preserves.
    + intros t' Hne. unfold requeueFront_locked in Hne.
      rewrite (queue_of_queues t' _ _ (queueSignal_queues _ _)) in Hne.
      rewrite (queue_of_insert t t' (e :: queue_of t b) b) in Hne by done.
      case_decide; [subst; right; left|by left].
    + intros t' Ht. unfold requeueFront_locked. by apply queueSignal_token.
    + intros t' Ht. left. by right.
  - apply bus_step_preserves; [by left|intros; by apply notifySignal_token|].
    intros t'. rewrite Hns. intros [->|?]%elem_of_cons; [right|by left].
    unfold token, notifySignal. cbn. apply lookup_insert_eq.
  - apply bus_step_preserves; [|intros t'; unfold token; by rewrite Consume_signals|by left].
    intros t' Hne. left. by eapply Consume_shrinks.
  - apply bus_step_preserves; [|intros t'; unfold token; by rewrite Ack_signals|by left].
    intros t' Hne. left. by rewrite (queue_of_queues t' _ b (Ack_queues _ _ _ _ b)) in Hne.
  - pose proof (Consume_signals t b) as Hsig. pose proof (Consume_shrinks) as Hsh.
    apply (consumer_step_preserves i t AtConsume); [done| | |done].
    + intros t'. specialize (Hsh t' t b). by rewrite Hc in Hsh.
    + intros t' _. unfold token. rewrite Hc in Hsig. cbn in Hsig. by rewrite Hsig.
  - assert (b' = b) as -> by (unfold Consume in Hc; case_match; simplify_eq; done).
    by apply (consumer_step_preserves i t AtConsume).
  - unfold waitForEnvelope_check in Hc. case_match eqn:Hlen; simplify_eq.
    + by apply (consumer_step_preserves i t AtCheck).
    + apply (consumer_step_preserves i t AtCheck); [done| | |].
      * intros t'. by rewrite (queue_of_queues t' _ b (queueSignal_queues _ _)).
      * intros t' _. apply queueSignal_token.
      * intros _. rewrite (queue_of_queues t _ b (queueSignal_queues _ _)).
        apply Z.ltb_ge in Hlen. unfold len in Hlen. apply nil_length_inv. lia.
  - unfold waitForEnvelope_receive in Hc. repeat case_match; simplify_eq.
    apply (consumer_step_preserves i t AtWait); [done|done| |done].
    intros t' Ht. unfold token. cbn. by rewrite lookup_insert_ne.
  - by apply (consumer_step_preserves i t (AtDeliver e)).
Qed.

Lemma no_lost_wakeup_invariant : inductive_invariant bus_sys_init bus_sys_steps no_lost_wakeup.
Proof.
  split.
  - intros s (Hb & _ & _) t. rewrite Hb. done.
  - intros s s' Hs [k Hk]. by eapply bus_sys_preserves.
Qed.

(** ** A queued envelope gets delivered *)
Definition delivers (t : string) (e : TaskEnvelope) (s : BusSystem) : Prop :=
  exists s' i, rtc (bus_sys_step internal) s s' /\ consumers s' !! i = Some (t, AtDeliver e).

Lemma delivers_step t e s s' : bus_sys_step internal s s' -> delivers t e s' -> delivers t e s.
Proof. intros Hs (s'' & i & Hr & Hi). exists s'', i. split; [by eapply rtc_l|done]. Qed.

Section Deliver.
  Context (t : string) (e : TaskEnvelope) (rest : list TaskEnvelope).

Lemma consumer_delivers i b ns cs : queue_of t b = e :: rest ->
    cs !! i = Some (t, AtConsume) -> delivers t e (mkBusSystem b ns cs).
  Proof.
    intros Hq Hi. exists (mkBusSystem (Consume t b).2 ns (<[i := (t, AtDeliver e)]> cs)), i. split.
    - apply rtc_once. apply StConsumeSome; [done|]. unfold Consume. by rewrite Hq.
    - apply list_lookup_insert_eq. by eapply lookup_lt_Some.
  Qed.

Lemma active_delivers i c b ns cs : queue_of t b = e :: rest ->
    cs !! i = Some (t, c) -> c <> AtWait -> delivers t e (mkBusSystem b ns cs).
  Proof.
    intros Hq Hi Hc. pose proof (lookup_lt_Some _ _ _ Hi) as Hlt.
    destruct c as [| | |e']; [by eapply consumer_delivers| |done|].
    - eapply delivers_step; [eapply (StCheck i t b true b); [done|]|].
      + unfold waitForEnvelope_check. by rewrite Hq.
      + eapply (consumer_delivers i); [done|]. by apply list_lookup_insert_eq.
    - eapply delivers_step; [by eapply (StDelivered i)|].
      eapply (consumer_delivers i); [done|]. by apply list_lookup_insert_eq.
  Qed.

Lemma token_delivers i c b ns cs : queue_of t b = e :: rest -> token t b ->
    cs !! i = Some (t, c) -> delivers t e (mkBusSystem b ns cs).
  Proof.
    intros Hq Ht Hi. pose proof (lookup_lt_Some _ _ _ Hi) as Hlt.
    destruct c as [| | |e']; try (by eapply active_delivers).
    eapply delivers_step; [eapply (StWake i t b); [done|]|].
    - unfold waitForEnvelope_receive. by rewrite Ht.
    - eapply (consumer_delivers i); [done|]. by apply list_lookup_insert_eq.
  Qed.
End Deliver.

(** C2: no wakeup of the in-memory bus is lost.  In every interleaving of publishers, requeues,
    mailbox fetches, acknowledgements and streaming consumers of capacity-one signal channels, if
    an envelope is at the head of a topic that has a consumer, then that envelope can still be
    delivered without any further publish: there are steps of the consumers and pending signals
    alone that hand it to a consumer of that topic. *)
Theorem bus_no_lost_wakeup s t e rest i c : reachable bus_sys_init bus_sys_steps s ->
  queue_of t (bus s) = e :: rest -> consumers s !! i = Some (t, c) -> delivers t e s.
Proof.
  intros Hr Hq Hi. pose proof (invariant_reachable _ _ _ s no_lost_wakeup_invariant Hr t) as Ha.
  destruct s as [b ns cs]. cbn in *. destruct Ha as [Ht|[Hn|[(j & c' & Hj & Hc)|Hno]]].
  - congruence.
  - by eapply token_delivers.
  - apply elem_of_Permutation in Hn as [ns' Hns].
    eapply delivers_step; [by apply (StNotify t b ns ns')|].
    eapply (token_delivers t e rest i); [by rewrite <- Hq| |done].
    unfold token, notifySignal. cbn. apply lookup_insert_eq.
  - by eapply active_delivers.
  - by destruct (Hno i c).
Qed.

Definition wakeup_example : BusSystem :=
  mkBusSystem (Publish_locked "agent.coder.inbox" (sample_envelope "t1" "coder" 0 4)
                 (queueSignal "agent.coder.inbox" NewMessageBus))
    ["agent.coder.inbox"] [("agent.coder.inbox", AtWait)].

Lemma wakeup_example_reachable : reachable bus_sys_init bus_sys_steps wakeup_example.
Proof.
  exists (mkBusSystem NewMessageBus [] [("agent.coder.inbox", AtConsume)]). split.
  { split; [done|]. split; [done|]. by apply Forall_singleton. }
  eapply rtc_l; [exists internal; by eapply (StConsumeNone 0%nat)|].
  eapply rtc_l; [exists internal; by eapply (StCheck 0%nat)|].
  apply rtc_once. exists client. apply StPublish.
Qed.

Lemma bus_no_lost_wakeup_witness :
  delivers "agent.coder.inbox" (sample_envelope "t1" "coder" 0 4) wakeup_example.
Proof.
  apply (bus_no_lost_wakeup wakeup_example "agent.coder.inbox" _ [] 0%nat AtWait).
  - exact wakeup_example_reachable.
  - vm_compute. reflexivity.
  - reflexivity.
Defined.
