(* ===== verification/Supervisor.v ===== *)
(** * The delivery supervisor (internal/delivery/supervisor.go)

    Tracks one record per task envelope on top of a message bus: dispatch, payload confirmation
    by checksum, acknowledgement, timeout inspection with retries and dead-lettering, and the
    snapshots.  The file is written against the [Bus] interface.

    [nowFn] is the clock: its n-th call returns [nowFn n], and the supervisor carries the number
    of calls made.  [audit] has no effect; where its argument evaluates a snapshot, the clock
    calls of that snapshot are kept.  A record pointer is modelled by its key: the maps' entries
    are only replaced by [Dispatch], so the model is exact for executions in which no operation
    on a task overlaps a second [Dispatch] of the same task id. *)
From S2P Require Import Prelude GoLib GoJSON Sha256 Domain ContractJSON Bus.

Record DeliveryRecord : Type := mkDeliveryRecord {
  Envelope : TaskEnvelope;
  Status : AckStatus;
  SentAt : Time;
  LastProgressAt : Time;
  ReceivedAt : option Time;
  CompletedAt : option Time;
  ReceivedBy : string;
  LastReason : string;
  RecRetryCount : Z;
  LastAuditedStatus : string;
  HandshakeState : string;
  PayloadChecksum : string;
  PayloadValidated : bool }.
#[export] Instance eta_DeliveryRecord : Updatable DeliveryRecord := fun r =>
  mkDeliveryRecord (Envelope r) (Status r) (SentAt r) (LastProgressAt r) (ReceivedAt r)
    (CompletedAt r) (ReceivedBy r) (LastReason r) (RecRetryCount r) (LastAuditedStatus r)
    (HandshakeState r) (PayloadChecksum r) (PayloadValidated r).

Record Supervisor (B : Type) : Type := mkSupervisor {
  messageBus : B;
  records : gmap string DeliveryRecord;
  ackTimeout : Z;
  clock : nat }.
Arguments mkSupervisor {B}. Arguments messageBus {B}. Arguments records {B}.
Arguments ackTimeout {B}. Arguments clock {B}.
#[export] Instance eta_Supervisor {B} : Updatable (Supervisor B) := fun s =>
  mkSupervisor (messageBus s) (records s) (ackTimeout s) (clock s).

(** The map returned by [Refresh] and [Snapshot]; a missing record gives the empty map, [None]. *)
Record DeliverySnapshot : Type := mkDeliverySnapshot {
  snap_task_id : string;
  snap_target_agent : string;
  snap_status : string;
  snap_retry_count : Z;
  snap_max_retries : Z;
  snap_received_by : string;
  snap_last_reason : string;
  snap_sent_at : Time;
  snap_ack_history : list string;
  snap_queue_depth : Z;
  snap_handshake_state : string;
  snap_payload_validated : bool;
  snap_payload_checksum : string;
  snap_received_at : option Time;
  snap_completed_at : option Time }.

(** ** Pure helpers *)
(** [domain.TaskPayload] with its JSON tags. *)
Definition payload_struct (p : TaskPayload) : any :=
  AStruct (omit_empty "objective" (Objective p) ++ omit_nil_map "input_data" (InputData p) ++
    omit_nil_map "context" (PayloadContext p) ++
    omit_nil_list "acceptance_criteria" (PayloadAcceptanceCriteria p) ++
    omit_empty "expected_output_format" (ExpectedOutputFormat p) ++
    omit_nil_list "artifacts" (PayloadArtifacts p)).
Definition payloadChecksum (e : TaskEnvelope) : string :=
  sha256_hex (default "" (Marshal (payload_struct (Payload e)))).

Definition maxRetries (e : TaskEnvelope) : Z := if MaxRetries e <=? 0 then 3 else MaxRetries e.

Definition isTerminalStatus (st : AckStatus) : bool :=
  match st with
  | AckStatusAccepted | AckStatusFailed | AckStatusDeadLettered => true
  | _ => false
  end.

(** [if p == nil { p = &now }] *)
Definition or_now (p : option Time) (now : Time) : option Time :=
  match p with Some t => Some t | None => Some now end.

(** One iteration of [applyHistory]. *)
Definition apply_ack (now : Time) (r : DeliveryRecord) (a : MessageAck) : DeliveryRecord :=
  match AckStatusOf a with
  | AckStatusSent => r <| Status := AckStatusSent |>
  | AckStatusQueued => r <| Status := AckStatusQueued |>
  | AckStatusReceived =>
      let r := r <| Status := AckStatusReceived |> <| ReceivedBy := AckReceivedBy a |>
                 <| LastProgressAt := now |> <| ReceivedAt := or_now (ReceivedAt r) now |> in
      if String.eqb (HandshakeState r) "syn" then r <| HandshakeState := "syn_ack" |> else r
  | AckStatusValidated =>
      r <| Status := AckStatusValidated |> <| ReceivedBy := AckReceivedBy a |>
        <| LastReason := AckReason a |> <| LastProgressAt := now |>
        <| PayloadValidated := true |> <| HandshakeState := "ack_valid" |>
  | AckStatusRetrying =>
      r <| Status := AckStatusRetrying |> <| ReceivedBy := AckReceivedBy a |>
        <| LastReason := AckReason a |> <| LastProgressAt := now |>
        <| HandshakeState := "retrying" |>
  | AckStatusAccepted =>
      let r := r <| Status := AckStatusAccepted |> <| ReceivedBy := AckReceivedBy a |>
        <| LastReason := AckReason a |> <| LastProgressAt := now |>
        <| CompletedAt := or_now (CompletedAt r) now |> in
      if PayloadValidated r then r <| HandshakeState := "established" |> else r
  | AckStatusDeadLettered =>
      r <| Status := AckStatusDeadLettered |> <| ReceivedBy := AckReceivedBy a |>
        <| LastReason := AckReason a |> <| LastProgressAt := now |>
        <| HandshakeState := "dead_letter" |> <| CompletedAt := or_now (CompletedAt r) now |>
  | AckStatusFailed =>
      r <| Status := AckStatusFailed |> <| ReceivedBy := AckReceivedBy a |>
        <| LastReason := AckReason a |> <| LastProgressAt := now |>
        <| CompletedAt := or_now (CompletedAt r) now |>
  | AckStatusOther _ => r
  end.

(** The record [Dispatch] files for an envelope, once the bus answered [ack]. *)
Definition dispatched_record (e : TaskEnvelope) (now progress completed : Time) (ack : MessageAck)
  : DeliveryRecord :=
  let r := mkDeliveryRecord e AckStatusSent now now None None "" "" (RetryCount e) "" "syn"
             (payloadChecksum e) false in
  let r := r <| Status := AckStatusOf ack |> <| LastProgressAt := progress |> in
  let r := if String.eqb (AckReason ack) "" then r else r <| LastReason := AckReason ack |> in
  if isTerminalStatus (AckStatusOf ack) then
    let r := r <| CompletedAt := Some completed |> in
    match AckStatusOf ack with
    | AckStatusDeadLettered => r <| HandshakeState := "dead_letter" |>
    | AckStatusFailed => r <| HandshakeState := "failed" |>
    | _ => r
    end
  else r.

(** [metrics[...]] of one agent in [DeliveryHealthSnapshot]. *)
Record AgentHealth : Type := mkAgentHealth {
  ah_queue_depth : Z; ah_pending : Z; ah_accepted : Z; ah_failed : Z; ah_dead_lettered : Z }.
#[export] Instance eta_AgentHealth : Updatable AgentHealth := fun a =>
  mkAgentHealth (ah_queue_depth a) (ah_pending a) (ah_accepted a) (ah_failed a) (ah_dead_lettered a).
(** [max_lag_sec] is kept in nanoseconds: [Duration.Seconds] is monotone. *)
Record DeliveryHealth : Type := mkDeliveryHealth {
  dh_tracked : Z; dh_pending : Z; dh_accepted : Z; dh_failed : Z; dh_dead_lettered : Z;
  dh_max_lag : Z; dh_by_agent : gmap string AgentHealth }.
#[export] Instance eta_DeliveryHealth : Updatable DeliveryHealth := fun h =>
  mkDeliveryHealth (dh_tracked h) (dh_pending h) (dh_accepted h) (dh_failed h)
    (dh_dead_lettered h) (dh_max_lag h) (dh_by_agent h).
Record TimeoutReport : Type := mkTimeoutReport {
  tr_broker_managed : bool; tr_overdue : Z; tr_retried : Z; tr_dead_lettered : Z }.
#[export] Instance eta_TimeoutReport : Updatable TimeoutReport := fun t =>
  mkTimeoutReport (tr_broker_managed t) (tr_overdue t) (tr_retried t) (tr_dead_lettered t).
Record Mailbox : Type := mkMailbox {
  mb_agent_id : string; mb_queue_depth : Z; mb_tracked_task_ids : list string }.

Section Operations.
Context {B : Type} `{Bus B} (nowFn : nat -> Time).

Definition NewSupervisor (bus : B) (timeout : Z) : Supervisor B :=
  mkSupervisor bus ∅ (if timeout <=? 0 then 30 * second else timeout) 0.

Definition now_ (s : Supervisor B) : Time * Supervisor B :=
  (nowFn (clock s), s <| clock ::= S |>).
Definition put_record (id : string) (r : DeliveryRecord) (s : Supervisor B) : Supervisor B :=
  s <| records := <[id := r]> (records s) |>.

(** [applyHistory] calls [nowFn] once per entry, from clock [n] on. *)
Fixpoint applyHistory (n : nat) (r : DeliveryRecord) (h : list MessageAck) : DeliveryRecord :=
  match h with
  | [] => r
  | a :: h => applyHistory (S n) (apply_ack (nowFn n) r a) h
  end.

Definition snapshotLocked (s : Supervisor B) (r : DeliveryRecord) (h : list MessageAck)
  : DeliverySnapshot :=
  mkDeliverySnapshot (EnvTaskID (Envelope r)) (TargetAgent (Envelope r))
    (ack_status_string (Status r)) (RecRetryCount r) (maxRetries (Envelope r)) (ReceivedBy r)
    (LastReason r) (SentAt r) (map (fun a => ack_status_string (AckStatusOf a)) h)
    (bus_Depth (AgentTopic (TargetAgent (Envelope r))) (messageBus s)) (HandshakeState r)
    (PayloadValidated r) (PayloadChecksum r) (ReceivedAt r) (CompletedAt r).

Definition Snapshot (taskID : string) (s : Supervisor B) : option DeliverySnapshot * Supervisor B :=
  match records s !! taskID with
  | None => (None, s)
  | Some record =>
      let history := bus_AckHistory taskID (messageBus s) in
      let snapshotRecord := applyHistory (clock s) record history in
      (Some (snapshotLocked s snapshotRecord history),
       s <| clock ::= Nat.add (length history) |>)
  end.
Definition Refresh (taskID : string) (s : Supervisor B) : option DeliverySnapshot * Supervisor B :=
  match records s !! taskID with
  | None => (None, s)
  | Some record =>
      let history := bus_AckHistory taskID (messageBus s) in
      let snapshotRecord := applyHistory (clock s) record history in
      (Some (snapshotLocked s snapshotRecord history),
       s <| clock ::= Nat.add (length history) |>)
  end.

(** [if envelope.CreatedAt.IsZero() { envelope.CreatedAt = s.nowFn() }] *)
Definition created_at (envelope : TaskEnvelope) (s : Supervisor B) : Time * Supervisor B :=
  if IsZero (EnvCreatedAt envelope) then now_ s else (EnvCreatedAt envelope, s).
Definition Dispatch (envelope : TaskEnvelope) (s : Supervisor B)
  : option DeliverySnapshot * Supervisor B :=
  let '(created, s) := created_at envelope s in
  let envelope := envelope <| EnvCreatedAt := created |> in
  let '(now, s) := now_ s in
  let '(ack, bus) := bus_SendEnvelope envelope (messageBus s) in
  let s := s <| messageBus := bus |> in
  let '(progress, s) := now_ s in
  let '(completed, s) := if isTerminalStatus (AckStatusOf ack) then now_ s else (progress, s) in
  Refresh (EnvTaskID envelope)
    (put_record (EnvTaskID envelope) (dispatched_record envelope now progress completed ack) s).

(** One iteration of the loop of [FetchAgentMailbox]. *)
Definition fetch_one (agentID : string) (s : Supervisor B) : option TaskEnvelope * Supervisor B :=
  match bus_ReceiveForAgent agentID (messageBus s) with
  | (None, bus) => (None, s <| messageBus := bus |>)
  | (Some envelope, bus) =>
      let s := s <| messageBus := bus |> in
      let '(now, s) := now_ s in
      let history := bus_AckHistory (EnvTaskID envelope) (messageBus s) in
      (Some envelope,
       match records s !! EnvTaskID envelope with
       | None => s
       | Some record =>
           let record := record <| ReceivedBy := agentID |> <| ReceivedAt := Some now |>
             <| LastProgressAt := now |> <| HandshakeState := "syn_ack" |> in
           put_record (EnvTaskID envelope) (applyHistory (clock s) record history)
             (s <| clock ::= Nat.add (length history) |>)
       end)
  end.
Fixpoint fetch_loop (agentID : string) (n : nat) (s : Supervisor B)
  : list TaskEnvelope * Supervisor B :=
  match n with
  | O => ([], s)
  | S n =>
      match fetch_one agentID s with
      | (None, s) => ([], s)
      | (Some envelope, s) => let '(items, s) := fetch_loop agentID n s in (envelope :: items, s)
      end
  end.
Definition FetchAgentMailbox (agentID : string) (limit : Z) (s : Supervisor B)
  : list TaskEnvelope * Supervisor B :=
  fetch_loop agentID (Z.to_nat (if limit <=? 0 then 1 else limit)) s.

(** The effect of [Ack] on the record of the task. *)
Definition ack_record (now : Time) (st : AckStatus) (receivedBy reason : string)
  (r : DeliveryRecord) : DeliveryRecord :=
  let r := r <| Status := st |> <| ReceivedBy := receivedBy |> <| LastReason := reason |>
             <| LastProgressAt := now |> in
  let r := match st with
    | AckStatusReceived =>
        let r := r <| ReceivedAt := or_now (ReceivedAt r) now |> in
        if String.eqb (HandshakeState r) "syn" then r <| HandshakeState := "syn_ack" |> else r
    | AckStatusValidated => r <| PayloadValidated := true |> <| HandshakeState := "ack_valid" |>
    | AckStatusRetrying => r <| HandshakeState := "retrying" |>
    | AckStatusDeadLettered => r <| HandshakeState := "dead_letter" |>
    | _ => r
    end in
  if isTerminalStatus st then r <| CompletedAt := Some now |> else r.

Definition Ack (taskID : string) (st : AckStatus) (receivedBy reason : string) (s : Supervisor B)
  : MessageAck * Supervisor B :=
  let '(ack, bus) := bus_Ack taskID st receivedBy reason (messageBus s) in
  let '(now, s) := now_ (s <| messageBus := bus |>) in
  match records s !! taskID with
  | None => (ack, s)
  | Some record =>
      (ack, (Snapshot taskID (put_record taskID (ack_record now st receivedBy reason record) s)).2)
  end.

Definition ConfirmPayload (taskID agentID : string) (envelope : TaskEnvelope) (s : Supervisor B)
  : bool * Supervisor B :=
  match records s !! taskID with
  | None => (false, s)
  | Some record =>
      if decide (payloadChecksum envelope <> PayloadChecksum record) then
        (false, put_record taskID (record <| PayloadValidated := false |>
           <| HandshakeState := "invalid" |> <| LastReason := "payload_checksum_mismatch" |>) s)
      else
        let '(now, s) := now_ s in
        let s := put_record taskID (record <| PayloadValidated := true |>
           <| HandshakeState := "ack_valid" |> <| LastProgressAt := now |>) s in
        let '(_, s) := Ack taskID AckStatusValidated agentID "payload_checksum_ok" s in
        (true, (Snapshot taskID s).2)
  end.

Definition EstablishDelivery (taskID agentID : string) (s : Supervisor B)
  : MessageAck * Supervisor B :=
  match records s !! taskID with
  | None => (zero_ack, s)
  | Some record =>
      if PayloadValidated record then
        let '(ack, bus) := bus_Ack taskID AckStatusReceived agentID "delivery_established" (messageBus s) in
        let '(now, s) := now_ (s <| messageBus := bus |>) in
        let s := put_record taskID (record <| HandshakeState := "established" |>
                                           <| LastProgressAt := now |>) s in
        (ack, (Refresh taskID s).2)
      else
        let '(ack, bus) := bus_Ack taskID AckStatusFailed agentID "payload_not_validated" (messageBus s) in
        let '(now, s) := now_ (s <| messageBus := bus |>) in
        let s := put_record taskID (record <| Status := AckStatusFailed |>
           <| LastReason := "payload_not_validated" |> <| HandshakeState := "invalid" |>
           <| CompletedAt := Some now |> <| LastProgressAt := now |>) s in
        (ack, (Refresh taskID s).2)
  end.

(** Go ranges over a map in an unspecified order: the operations below take the [order] of the
    task ids, which the theorems let range over the permutations of the keys. *)
Definition MailboxSnapshot (order : list string) (agentID : string) (s : Supervisor B) : Mailbox :=
  let tracked := List.filter (fun taskID =>
    match records s !! taskID with
    | Some record => String.eqb (TargetAgent (Envelope record)) agentID &&
                     negb (isTerminalStatus (Status record))
    | None => false
    end) order in
  mkMailbox agentID (bus_Depth (AgentTopic agentID) (messageBus s)) tracked.

(** One iteration of the second loop of [InspectTimeouts]. *)
Definition inspect_one (now : Time) (taskID : string) (acc : TimeoutReport * Supervisor B)
  : TimeoutReport * Supervisor B :=
  let '(report, s) := acc in
  match records s !! taskID with
  | None => (report, s)
  | Some record =>
      if isTerminalStatus (Status record) then (report, s)
      else if time_sub now (LastProgressAt record) <? ackTimeout s then (report, s)
      else
        let report := report <| tr_overdue ::= Z.add 1 |> in
        if bus_BrokerManaged then
          let s := put_record taskID (record <| LastProgressAt := now |>
                     <| HandshakeState := "broker_managed_timeout" |>) s in
          (report, (Snapshot taskID s).2)
        else if RecRetryCount record <? maxRetries (Envelope record) then
          let envelope := Envelope record <| RetryCount ::= fun n => Int.add n 1 |> in
          let record := record <| Envelope := envelope |> <| RecRetryCount := RetryCount envelope |>
                          <| LastProgressAt := now |> <| HandshakeState := "retrying" |> in
          let s := put_record taskID record s in
          let '(_, s) := Ack taskID AckStatusRetrying (TargetAgent envelope) "ack_timeout" s in
          let '(_, bus) := bus_SendEnvelope envelope (messageBus s) in
          let s := s <| messageBus := bus |> in
          (report <| tr_retried ::= Z.add 1 |>, (Snapshot taskID s).2)
        else
          let '(_, bus) := bus_MarkDeadLetterEnvelope (Envelope record) "ack_timeout" (messageBus s) in
          let s := s <| messageBus := bus |> in
          let s := put_record taskID (record <| Status := AckStatusDeadLettered |>
                     <| LastReason := "ack_timeout" |> <| HandshakeState := "dead_letter" |>
                     <| CompletedAt := Some now |> <| LastProgressAt := now |>) s in
          (report <| tr_dead_lettered ::= Z.add 1 |>, (Snapshot taskID s).2)
  end.
Fixpoint inspect_loop (now : Time) (order : list string) (acc : TimeoutReport * Supervisor B)
  : TimeoutReport * Supervisor B :=
  match order with
  | [] => acc
  | taskID :: order => inspect_loop now order (inspect_one now taskID acc)
  end.
Definition InspectTimeouts (order : list string) (s : Supervisor B) : TimeoutReport * Supervisor B :=
  let '(now, s) := now_ s in
  inspect_loop now order (mkTimeoutReport bus_BrokerManaged 0 0 0, s).

(** One iteration of [DeliveryHealthSnapshot]: the counters are those of the status the ledger
    gives the record. *)
Definition count_status (st : AckStatus) (m : AgentHealth) : AgentHealth :=
  match st with
  | AckStatusAccepted => m <| ah_accepted ::= Z.add 1 |>
  | AckStatusFailed => m <| ah_failed ::= Z.add 1 |>
  | AckStatusDeadLettered => m <| ah_dead_lettered ::= Z.add 1 |>
  | _ => m <| ah_pending ::= Z.add 1 |>
  end.
Definition health_one (now : Time) (record : DeliveryRecord) (acc : DeliveryHealth * Supervisor B)
  : DeliveryHealth * Supervisor B :=
  let '(h, s) := acc in
  let history := bus_AckHistory (EnvTaskID (Envelope record)) (messageBus s) in
  let record := applyHistory (clock s) record history in
  let s := s <| clock ::= Nat.add (length history) |> in
  let h := h <| dh_tracked ::= Z.add 1 |> in
  let h := match Status record with
    | AckStatusAccepted => h <| dh_accepted ::= Z.add 1 |>
    | AckStatusFailed => h <| dh_failed ::= Z.add 1 |>
    | AckStatusDeadLettered => h <| dh_dead_lettered ::= Z.add 1 |>
    | _ => h <| dh_pending ::= Z.add 1 |>
             <| dh_max_lag ::= Z.max (time_sub now (LastProgressAt record)) |>
    end in
  let agentID := TargetAgent (Envelope record) in
  let metrics := default (mkAgentHealth (bus_Depth (AgentTopic agentID) (messageBus s)) 0 0 0 0)
                   (dh_by_agent h !! agentID) in
  (h <| dh_by_agent := <[agentID := count_status (Status record) metrics]> (dh_by_agent h) |>, s).
Fixpoint health_loop (now : Time) (order : list DeliveryRecord) (acc : DeliveryHealth * Supervisor B)
  : DeliveryHealth * Supervisor B :=
  match order with
  | [] => acc
  | record :: order => health_loop now order (health_one now record acc)
  end.
Definition DeliveryHealthSnapshot (order : list string) (s : Supervisor B)
  : DeliveryHealth * Supervisor B :=
  let cloned := omap (fun taskID => records s !! taskID) order in
  let '(now, s) := now_ s in
  health_loop now cloned (mkDeliveryHealth 0 0 0 0 0 0 ∅, s).

Fixpoint RecordsSnapshot (order : list string) (s : Supervisor B)
  : gmap string (option DeliverySnapshot) * Supervisor B :=
  match order with
  | [] => (∅, s)
  | taskID :: order =>
      let '(snap, s) := Snapshot taskID s in
      let '(items, s) := RecordsSnapshot order s in
      (<[taskID := snap]> items, s)
  end.
End Operations.

(** ** The status a ledger gives a message: its last recognised entry *)
Fixpoint ledger_status (st : AckStatus) (h : list MessageAck) : AckStatus :=
  match h with
  | [] => st
  | a :: h => ledger_status (match AckStatusOf a with AckStatusOther _ => st | st' => st' end) h
  end.
Lemma ledger_status_app st k l : ledger_status st (k ++ l) = ledger_status (ledger_status st k) l.
Proof. revert st. induction k as [|a k IH]; intros st; cbn; [done|]. apply IH. Qed.

(** A record whose life ended carries its completion time. *)
Definition completed_ok (r : DeliveryRecord) : Prop :=
  isTerminalStatus (Status r) = true -> is_Some (CompletedAt r).

Lemma or_now_Some p now : is_Some (or_now p now).
Proof. destruct p; cbn; eauto. Qed.
#[export] Hint Resolve or_now_Some : orch.

Section DispatchedRecord.
  Context (e : TaskEnvelope) (now progress completed : Time) (ack : MessageAck).
Local Abbreviation dr := (dispatched_record e now progress completed ack).
Local Ltac by_ack := unfold dispatched_record; repeat case_match; done.

Lemma dispatched_Envelope : Envelope dr = e.
  Proof. by_ack. Qed.
Lemma dispatched_checksum : PayloadChecksum dr = payloadChecksum e.
  Proof. by_ack. Qed.
Lemma dispatched_Status : Status dr = AckStatusOf ack.
  Proof. by_ack. Qed.
Lemma dispatched_progress : LastProgressAt dr = progress.
  Proof. by_ack. Qed.
Lemma dispatched_retries : RecRetryCount dr = RetryCount e.
  Proof. by_ack. Qed.
Lemma dispatched_completed : completed_ok dr.
  Proof.
    unfold completed_ok. rewrite dispatched_Status. intros Ht. unfold dispatched_record.
    rewrite Ht. repeat case_match; cbn; eauto.
  Qed.
End DispatchedRecord.

Section ApplyAck.
  Context (now : Time) (r : DeliveryRecord) (a : MessageAck).
Local Ltac by_status := unfold apply_ack; repeat case_match; cbn in *; try done.

Lemma apply_ack_Envelope : Envelope (apply_ack now r a) = Envelope r.
  Proof. by_status. Qed.
Lemma apply_ack_checksum : PayloadChecksum (apply_ack now r a) = PayloadChecksum r.
  Proof. by_status. Qed.
Lemma apply_ack_retries : RecRetryCount (apply_ack now r a) = RecRetryCount r.
  Proof. by_status. Qed.
Lemma apply_ack_Status :
    Status (apply_ack now r a) = match AckStatusOf a with AckStatusOther _ => Status r | st => st end.
  Proof. by_status. Qed.
Lemma apply_ack_progress :
    LastProgressAt (apply_ack now r a) = LastProgressAt r \/ LastProgressAt (apply_ack now r a) = now.
  Proof. by_status; auto. Qed.
Lemma apply_ack_completed : completed_ok r -> completed_ok (apply_ack now r a).
  Proof. unfold completed_ok. by_status; eauto with orch. Qed.
End ApplyAck.

Section ApplyHistory.
  Context (nowFn : nat -> Time).

Lemma applyHistory_Envelope h n r : Envelope (applyHistory nowFn n r h) = Envelope r.
  Proof.
    revert n r. induction h as [|a h IH]; intros n r; cbn; [done|].
    by rewrite IH, apply_ack_Envelope.
  Qed.
Lemma applyHistory_checksum h n r : PayloadChecksum (applyHistory nowFn n r h) = PayloadChecksum r.
  Proof.
    revert n r. induction h as [|a h IH]; intros n r; cbn; [done|].
    by rewrite IH, apply_ack_checksum.
  Qed.
Lemma applyHistory_retries h n r : RecRetryCount (applyHistory nowFn n r h) = RecRetryCount r.
  Proof.
    revert n r. induction h as [|a h IH]; intros n r; cbn; [done|].
    by rewrite IH, apply_ack_retries.
  Qed.
Lemma applyHistory_Status h n r :
    Status (applyHistory nowFn n r h) = ledger_status (Status r) h.
  Proof.
    revert n r. induction h as [|a h IH]; intros n r; cbn; [done|].
    by rewrite IH, apply_ack_Status.
  Qed.
Lemma applyHistory_completed h n r : completed_ok r -> completed_ok (applyHistory nowFn n r h).
  Proof.
    revert n r. induction h as [|a h IH]; intros n r Hr; cbn; [done|].
    by apply IH, apply_ack_completed.
  Qed.
Lemma applyHistory_progress h n r :
    LastProgressAt (applyHistory nowFn n r h) = LastProgressAt r \/
    exists k, (k < n + length h)%nat /\ LastProgressAt (applyHistory nowFn n r h) = nowFn k.
  Proof.
    revert n r. induction h as [|a h IH]; intros n r; cbn; [by left|].
    destruct (IH (S n) (apply_ack (nowFn n) r a)) as [->|(k & ? & ->)].
    - destruct (apply_ack_progress (nowFn n) r a) as [->| ->]; [by left|]. right. exists n. split; [lia|done].
    - right. exists k. split; [lia|done].
  Qed.
End ApplyHistory.
#[export] Hint Rewrite applyHistory_Envelope applyHistory_checksum applyHistory_retries
  applyHistory_Status : orch_rw.

(** ** Frame lemmas of the operations *)
Section Frame.
  Context {B : Type} `{Bus B} (nowFn : nat -> Time).
  Implicit Types (s : Supervisor B).

  (** The states that differ from [s] only by clock readings. *)
Definition later (s s' : Supervisor B) : Prop :=
    messageBus s' = messageBus s /\ records s' = records s /\
    ackTimeout s' = ackTimeout s /\ (clock s <= clock s')%nat.

Lemma later_refl s : later s s.
  Proof. repeat split; lia. Qed.
Lemma later_now s : later s (now_ nowFn s).2.
  Proof. repeat split; cbn; lia. Qed.
Lemma later_trans s1 s2 s3 : later s1 s2 -> later s2 s3 -> later s1 s3.
  Proof. intros (?&?&?&?) (?&?&?&?). repeat split; try congruence; lia. Qed.
Lemma Snapshot_later id s : later s (Snapshot nowFn id s).2.
  Proof. unfold Snapshot. destruct (records s !! id); [|apply later_refl]. repeat split; cbn; lia. Qed.
Lemma Refresh_later id s : later s (Refresh nowFn id s).2.
  Proof. apply Snapshot_later. Qed.

  (** The snapshot of a tracked task reports the status of the ledger. *)
Lemma Snapshot_spec id s r : records s !! id = Some r ->
    exists snap, (Snapshot nowFn id s).1 = Some snap /\
      snap_status snap = ack_status_string (ledger_status (Status r) (bus_AckHistory id (messageBus s))) /\
      snap_ack_history snap =
        map (fun a => ack_status_string (AckStatusOf a)) (bus_AckHistory id (messageBus s)) /\
      snap_task_id snap = EnvTaskID (Envelope r) /\
      snap_retry_count snap = RecRetryCount r /\
      snap_payload_checksum snap = PayloadChecksum r.
  Proof.
    intros Hr. unfold Snapshot. rewrite Hr. eexists. split; [done|]. cbn.
    by rewrite applyHistory_Status, applyHistory_Envelope, applyHistory_retries, applyHistory_checksum.
  Qed.

  (** [Ack] is one bus acknowledgement, one update of the task's record and clock readings. *)
Lemma Ack_later id st who why s :
    later (mkSupervisor (bus_Ack id st who why (messageBus s)).2
             match records s !! id with
             | Some r => <[id := ack_record (nowFn (clock s)) st who why r]> (records s)
             | None => records s
             end (ackTimeout s) (S (clock s)))
          (Ack nowFn id st who why s).2.
  Proof.
    unfold Ack. destruct (bus_Ack id st who why (messageBus s)) as [ack b'].
    cbn [now_ fst snd]. cbn -[Snapshot]. destruct (records s !! id); cbn [fst snd].
    - eapply later_trans; [|apply Snapshot_later]. repeat split; cbn; lia.
    - repeat split; cbn; lia.
  Qed.
Lemma Ack_messageBus id st who why s :
    messageBus (Ack nowFn id st who why s).2 = (bus_Ack id st who why (messageBus s)).2.
  Proof. apply (Ack_later id st who why s). Qed.
Lemma Ack_records id st who why s :
    records (Ack nowFn id st who why s).2 =
      match records s !! id with
      | Some r => <[id := ack_record (nowFn (clock s)) st who why r]> (records s)
      | None => records s
      end.
  Proof. apply (Ack_later id st who why s). Qed.
Lemma Ack_clock id st who why s : (clock s < clock (Ack nowFn id st who why s).2)%nat.
  Proof. apply (Ack_later id st who why s). Qed.
Lemma Ack_timeout id st who why s : ackTimeout (Ack nowFn id st who why s).2 = ackTimeout s.
  Proof. apply (Ack_later id st who why s). Qed.
Lemma Ack_result id st who why s :
    (Ack nowFn id st who why s).1 = (bus_Ack id st who why (messageBus s)).1.
  Proof.
    unfold Ack. destruct (bus_Ack id st who why (messageBus s)) as [ack b']. cbn -[Snapshot].
    by destruct (records s !! id).
  Qed.

Lemma ack_record_Envelope now st who why r : Envelope (ack_record now st who why r) = Envelope r.
  Proof. unfold ack_record. repeat case_match; done. Qed.
Lemma ack_record_checksum now st who why r :
    PayloadChecksum (ack_record now st who why r) = PayloadChecksum r.
  Proof. unfold ack_record. repeat case_match; done. Qed.
Lemma ack_record_retries now st who why r :
    RecRetryCount (ack_record now st who why r) = RecRetryCount r.
  Proof. unfold ack_record. repeat case_match; done. Qed.
Lemma ack_record_Status now st who why r : Status (ack_record now st who why r) = st.
  Proof. unfold ack_record. repeat case_match; done. Qed.
Lemma ack_record_progress now st who why r : LastProgressAt (ack_record now st who why r) = now.
  Proof. unfold ack_record. repeat case_match; done. Qed.
Lemma ack_record_completed now st who why r : completed_ok (ack_record now st who why r).
  Proof.
    unfold completed_ok. rewrite ack_record_Status. intros Ht. unfold ack_record. rewrite Ht.
    cbn. eauto.
  Qed.
End Frame.
#[export] Hint Rewrite @ack_record_Envelope @ack_record_checksum @ack_record_retries
  @ack_record_Status @ack_record_progress : orch_rw.
#[export] Hint Resolve ack_record_completed applyHistory_completed : orch.

(** ** The supervisor's operations as one step function *)
Inductive SupervisorOp : Type :=
  | SopDispatch (e : TaskEnvelope)
  | SopRefresh (taskID : string)
  | SopSnapshot (taskID : string)
  | SopFetch (agentID : string) (limit : Z)
  | SopConfirm (taskID agentID : string) (e : TaskEnvelope)
  | SopAck (taskID : string) (st : AckStatus) (receivedBy reason : string)
  | SopEstablish (taskID agentID : string)
  | SopInspect (order : list string).

Section WellFormed.
  Context {B : Type} `{Bus B} (nowFn : nat -> Time).
  Implicit Types (s : Supervisor B).

Definition sup_exec (op : SupervisorOp) s : Supervisor B :=
    match op with
    | SopDispatch e => (Dispatch nowFn e s).2
    | SopRefresh id => (Refresh nowFn id s).2
    | SopSnapshot id => (Snapshot nowFn id s).2
    | SopFetch agent limit => (FetchAgentMailbox nowFn agent limit s).2
    | SopConfirm id agent e => (ConfirmPayload nowFn id agent e s).2
    | SopAck id st who why => (Ack nowFn id st who why s).2
    | SopEstablish id agent => (EstablishDelivery nowFn id agent s).2
    | SopInspect order => (InspectTimeouts nowFn order s).2
    end.
Fixpoint sup_run (ops : list SupervisorOp) s : Supervisor B :=
    match ops with [] => s | op :: ops => sup_run ops (sup_exec op s) end.

  (** A record is filed under its task id, keeps the checksum of the payload it was dispatched
      with, counts the retries of its envelope, was last touched at an earlier clock reading, and
      is complete when terminal. *)
Record record_wf (n : nat) (id : string) (r : DeliveryRecord) : Prop := {
    wf_key : EnvTaskID (Envelope r) = id;
    wf_checksum : PayloadChecksum r = payloadChecksum (Envelope r);
    wf_completed : completed_ok r;
    wf_retries : RecRetryCount r = RetryCount (Envelope r);
    wf_progress : exists k, (k < n)%nat /\ LastProgressAt r = nowFn k }.
Definition sup_wf s : Prop := forall id r, records s !! id = Some r -> record_wf (clock s) id r.

Lemma record_wf_mono n m id r : (n <= m)%nat -> record_wf n id r -> record_wf m id r.
  Proof. intros Hnm [? ? ? ? (k & ? & ?)]. split; [done..|]. exists k. split; [lia|done]. Qed.

Lemma sup_wf_frame s s' :
    records s' = records s -> (clock s <= clock s')%nat -> sup_wf s -> sup_wf s'.
  Proof.
    intros Hr Hc Hs id r. rewrite Hr. intros Hid. eapply record_wf_mono; [done|by apply Hs].
  Qed.
Lemma sup_wf_later s s' : later s s' -> sup_wf s -> sup_wf s'.
  Proof. intros (_ & Hr & _ & Hc). by apply sup_wf_frame. Qed.
Lemma sup_wf_put s s' id r :
    records s' = <[id := r]> (records s) -> (clock s <= clock s')%nat ->
    record_wf (clock s') id r -> sup_wf s -> sup_wf s'.
  Proof.
    intros Hrs Hc Hr Hs i r'. rewrite Hrs. intros [[-> ->]|[? Hi]]%lookup_insert_Some; [done|].
    eapply record_wf_mono; [done|by apply Hs].
  Qed.

  (** A new record that keeps envelope and checksum and was touched at the current clock. *)
Lemma record_wf_touch n m id r r' :
    record_wf n id r -> Payload (Envelope r') = Payload (Envelope r) ->
    EnvTaskID (Envelope r') = EnvTaskID (Envelope r) ->
    PayloadChecksum r' = PayloadChecksum r -> RecRetryCount r' = RetryCount (Envelope r') ->
    completed_ok r' ->
    (exists k, (k < m)%nat /\ LastProgressAt r' = nowFn k) -> record_wf m id r'.
  Proof.
    intros [Hk Hc _ _ _] Hp Hid Hcs Hrc Hd Hm. split; [congruence| |done..].
    rewrite Hcs, Hc. unfold payloadChecksum. by rewrite Hp.
  Qed.

Lemma record_wf_history n m id r h :
    record_wf n id r -> (n + length h <= m)%nat -> record_wf m id (applyHistory nowFn n r h).
  Proof.
    intros Hw Hm. eapply record_wf_touch; [exact Hw| | | | | |].
    - by rewrite applyHistory_Envelope.
    - by rewrite applyHistory_Envelope.
    - by rewrite applyHistory_checksum.
    - rewrite applyHistory_retries, applyHistory_Envelope. apply Hw.
    - apply applyHistory_completed, Hw.
    - destruct (applyHistory_progress nowFn h n r) as [->|(k & ? & ->)].
      + destruct (wf_progress _ _ _ Hw) as (k & ? & ?). exists k. split; [lia|done].
      + exists k. split; [lia|done].
  Qed.

Lemma Ack_wf id st who why s : sup_wf s -> sup_wf (Ack nowFn id st who why s).2.
  Proof.
    intros Hs. eapply sup_wf_later; [apply Ack_later|]. destruct (records s !! id) as [r|] eqn:Hr.
    - eapply (sup_wf_put s); [done|cbn; lia| |done].
      eapply record_wf_touch; [exact (Hs _ _ Hr)|by autorewrite with orch_rw..| |auto with orch|].
      { autorewrite with orch_rw. apply (Hs _ _ Hr). }
      rewrite ack_record_progress. exists (clock s). cbn. split; [lia|done].
    - eapply sup_wf_frame; [| |exact Hs]; cbn; [done|lia].
  Qed.

  (** [Dispatch] is one send, one new record and clock readings. *)
Lemma Dispatch_later e s : exists created now progress completed k,
    let sent := e <| EnvCreatedAt := created |> in
    (clock s < k)%nat /\ (exists j, (j < k)%nat /\ progress = nowFn j) /\
    later (mkSupervisor (bus_SendEnvelope sent (messageBus s)).2
             (<[EnvTaskID e := dispatched_record sent now progress completed
                                 (bus_SendEnvelope sent (messageBus s)).1]> (records s))
             (ackTimeout s) k)
      (Dispatch nowFn e s).2.
  Proof.
    destruct (created_at nowFn e s) as [created s1] eqn:Hc.
    assert (exists c1, (clock s <= c1)%nat /\ s1 = s <| clock := c1 |>) as (c1 & Hc1 & ->).
    { unfold created_at, now_ in Hc. destruct (IsZero (EnvCreatedAt e)); inversion Hc; subst.
      - exists (S (clock s)). split; [lia|done].
      - exists (clock s1). split; [lia|]. by destruct s1. }
    exists created, (nowFn c1), (nowFn (S c1)). cbn zeta. unfold Dispatch. rewrite Hc.
    set (e' := e <| EnvCreatedAt := created |>).
    cbn -[Refresh dispatched_record e' EnvTaskID].
    destruct (bus_SendEnvelope e' (messageBus s)) as [ack b'].
    destruct (isTerminalStatus (AckStatusOf ack)); cbn -[Refresh dispatched_record e' EnvTaskID].
    - exists (nowFn (S (S c1))), (S (S (S c1))). split; [lia|].
      split; [exists (S c1); split; [lia|done]|].
      eapply later_trans; [|apply Refresh_later]. repeat split; cbn; lia.
    - exists (nowFn (S c1)), (S (S c1)). split; [lia|].
      split; [exists (S c1); split; [lia|done]|].
      eapply later_trans; [|apply Refresh_later]. repeat split; cbn; lia.
  Qed.

Lemma Dispatch_wf e s : sup_wf s -> sup_wf (Dispatch nowFn e s).2.
  Proof.
    intros Hs. destruct (Dispatch_later e s) as (created & now & progress & completed & k & Hk & Hp & Hl).
    eapply sup_wf_later; [exact Hl|]. eapply (sup_wf_put s); [done|cbn; lia| |done].
    split; rewrite ?dispatched_Envelope, ?dispatched_checksum, ?dispatched_retries;
      [done|done|apply dispatched_completed|done|].
    by rewrite dispatched_progress.
  Qed.

Lemma fetch_one_wf agent s : sup_wf s -> sup_wf (fetch_one nowFn agent s).2.
  Proof.
    intros Hs. unfold fetch_one. destruct (bus_ReceiveForAgent agent (messageBus s)) as [[e|] b'].
    - cbn. destruct (records s !! EnvTaskID e) as [r|] eqn:Hr.
      + eapply (sup_wf_put s); [done|cbn; lia| |done]. cbn.
        apply (record_wf_history (S (clock s))); [|lia].
        eapply record_wf_touch; [exact (Hs _ _ Hr)|done..|first [done|exact (wf_retries _ _ _ (Hs _ _ Hr))]| |].
        * exact (wf_completed _ _ _ (Hs _ _ Hr)).
        * cbn. eexists. split; [|done]. cbn. lia.
      + eapply sup_wf_frame; [| |exact Hs]; cbn; [done|lia].
    - eapply sup_wf_frame; [| |exact Hs]; cbn; [done|lia].
  Qed.
Lemma fetch_loop_wf agent n s : sup_wf s -> sup_wf (fetch_loop nowFn agent n s).2.
  Proof.
    revert s. induction n as [|n IH]; intros s Hs; cbn; [done|].
    pose proof (fetch_one_wf agent s Hs) as H1. destruct (fetch_one nowFn agent s) as [[e|] s1]; [|done].
    specialize (IH s1 H1). by destruct (fetch_loop nowFn agent n s1).
  Qed.

Lemma ConfirmPayload_wf id agent e s : sup_wf s -> sup_wf (ConfirmPayload nowFn id agent e s).2.
  Proof.
    intros Hs. unfold ConfirmPayload. destruct (records s !! id) as [r|] eqn:Hr; [|done].
    case_decide.
    - eapply (sup_wf_put s); [done|cbn; lia| |done].
      eapply record_wf_touch; [exact (Hs _ _ Hr)|done..|first [done|exact (wf_retries _ _ _ (Hs _ _ Hr))]| |].
      + exact (wf_completed _ _ _ (Hs _ _ Hr)).
      + exact (wf_progress _ _ _ (Hs _ _ Hr)).
    - cbn -[Ack]. match goal with |- context [Ack nowFn id ?st ?w ?y ?s'] =>
        pose proof (Ack_wf id st w y s') as Ha; destruct (Ack nowFn id st w y s') as [a s2] end.
      cbn -[Snapshot]. eapply sup_wf_later; [apply Snapshot_later|]. apply Ha.
      eapply (sup_wf_put s); [done|cbn; lia| |done].
      eapply record_wf_touch; [exact (Hs _ _ Hr)|done..|first [done|exact (wf_retries _ _ _ (Hs _ _ Hr))]| |].
      + exact (wf_completed _ _ _ (Hs _ _ Hr)).
      + cbn. eexists. split; [|done]. cbn. lia.
  Qed.

Lemma EstablishDelivery_wf id agent s : sup_wf s -> sup_wf (EstablishDelivery nowFn id agent s).2.
  Proof.
    intros Hs. unfold EstablishDelivery. destruct (records s !! id) as [r|] eqn:Hr; [|done].
    destruct (PayloadValidated r);
    (match goal with |- context [bus_Ack ?i ?st ?w ?y ?b] =>
       destruct (bus_Ack i st w y b) as [ack b'] end); cbn -[Refresh];
    (eapply sup_wf_later; [apply Refresh_later|]);
    (eapply (sup_wf_put s); [done|cbn; lia| |done]);
    (eapply record_wf_touch; [exact (Hs _ _ Hr)|done..|first [done|exact (wf_retries _ _ _ (Hs _ _ Hr))]| |eexists; split; [|done]; cbn; lia]).
    - exact (wf_completed _ _ _ (Hs _ _ Hr)).
    - unfold completed_ok. cbn. eauto.
  Qed.

Lemma inspect_one_wf k id rep s :
    (k < clock s)%nat -> sup_wf s -> sup_wf (inspect_one nowFn (nowFn k) id (rep, s)).2.
  Proof.
    intros Hk Hs. unfold inspect_one. destruct (records s !! id) as [r|] eqn:Hr; [|done].
    destruct (isTerminalStatus (Status r)) eqn:Ht; [done|]. case_match; [done|].
    destruct bus_BrokerManaged; [|case_match].
    - cbn -[Snapshot]. eapply sup_wf_later; [apply Snapshot_later|].
      eapply (sup_wf_put s); [done|cbn; lia| |done].
      eapply record_wf_touch; [exact (Hs _ _ Hr)|done..|first [done|exact (wf_retries _ _ _ (Hs _ _ Hr))]| |exists k; split; [cbn; lia|done]].
      unfold completed_ok. cbn. congruence.
    - match goal with |- context [Ack nowFn id ?st ?w ?y ?s'] =>
        pose proof (Ack_wf id st w y s') as Ha; destruct (Ack nowFn id st w y s') as [a s2] end.
      match goal with |- context [bus_SendEnvelope ?x ?b] =>
        destruct (bus_SendEnvelope x b) as [ack b'] end.
      cbn -[Snapshot]. eapply sup_wf_later; [apply Snapshot_later|].
      eapply (sup_wf_frame s2); [done|cbn; lia|]. apply Ha.
      eapply (sup_wf_put s); [done|cbn; lia| |done].
      eapply record_wf_touch; [exact (Hs _ _ Hr)|done..|first [done|exact (wf_retries _ _ _ (Hs _ _ Hr))]| |exists k; split; [cbn; lia|done]].
      unfold completed_ok. cbn. congruence.
    - match goal with |- context [bus_MarkDeadLetterEnvelope ?x ?y ?b] =>
        destruct (bus_MarkDeadLetterEnvelope x y b) as [ack b'] end.
      cbn -[Snapshot]. eapply sup_wf_later; [apply Snapshot_later|].
      eapply (sup_wf_put s); [done|cbn; lia| |done].
      eapply record_wf_touch; [exact (Hs _ _ Hr)|done..|first [done|exact (wf_retries _ _ _ (Hs _ _ Hr))]| |exists k; split; [cbn; lia|done]].
      unfold completed_ok. cbn. eauto.
  Qed.

Lemma inspect_one_clock now id rep s : (clock s <= clock (inspect_one nowFn now id (rep, s)).2)%nat.
  Proof.
    unfold inspect_one. destruct (records s !! id) as [r|] eqn:Hr; [|done].
    destruct (isTerminalStatus (Status r)); [done|]. case_match; [done|].
    destruct bus_BrokerManaged; [|case_match].
    - cbn -[Snapshot]. etransitivity; [|apply Snapshot_later]. done.
    - match goal with |- context [Ack nowFn id ?st ?w ?y ?s'] =>
        pose proof (Ack_clock nowFn id st w y s') as Ha; destruct (Ack nowFn id st w y s') as [a s2] end.
      match goal with |- context [bus_SendEnvelope ?x ?b] =>
        destruct (bus_SendEnvelope x b) as [ack b'] end.
      cbn -[Snapshot] in *. etransitivity; [|apply Snapshot_later]. cbn. lia.
    - match goal with |- context [bus_MarkDeadLetterEnvelope ?x ?y ?b] =>
        destruct (bus_MarkDeadLetterEnvelope x y b) as [ack b'] end.
      cbn -[Snapshot]. etransitivity; [|apply Snapshot_later]. done.
  Qed.

Lemma inspect_loop_wf k order rep s :
    (k < clock s)%nat -> sup_wf s -> sup_wf (inspect_loop nowFn (nowFn k) order (rep, s)).2.
  Proof.
    revert rep s. induction order as [|id order IH]; intros rep s Hk Hs; [done|].
    cbn [inspect_loop].
    pose proof (inspect_one_wf k id rep s Hk Hs). pose proof (inspect_one_clock (nowFn k) id rep s).
    destruct (inspect_one nowFn (nowFn k) id (rep, s)) as [rep' s']. cbn in *. apply IH; [lia|done].
  Qed.

Lemma sup_exec_wf op s : sup_wf s -> sup_wf (sup_exec op s).
  Proof.
    intros Hs. destruct op; cbn [sup_exec].
    - by apply Dispatch_wf.
    - eapply sup_wf_later; [apply Refresh_later|done].
    - eapply sup_wf_later; [apply Snapshot_later|done].
    - by apply fetch_loop_wf.
    - by apply ConfirmPayload_wf.
    - by apply Ack_wf.
    - by apply EstablishDelivery_wf.
    - unfold InspectTimeouts. cbn -[inspect_loop]. apply inspect_loop_wf; [cbn; lia|].
      eapply sup_wf_frame; [| |exact Hs]; cbn; [done|lia].
  Qed.
Lemma sup_run_wf ops s : sup_wf s -> sup_wf (sup_run ops s).
  Proof. revert s. induction ops as [|op ops IH]; intros s Hs; cbn; [done|]. by apply IH, sup_exec_wf. Qed.
Lemma NewSupervisor_wf bus timeout : sup_wf (NewSupervisor bus timeout).
  Proof. intros id r. cbn. done. Qed.
End WellFormed.
