(* ===== verification/SupervisorProps.v ===== *)
(** * Correctness of the delivery supervisor

    The contract of each supervisor operation, proved for every bus that keeps [BusLaws]: what
    [Dispatch] files, when [ConfirmPayload] accepts a payload, what one [InspectTimeouts] sweep
    does to each record, that sweeps settle every delivery when enough of them are an acknowledgement
    timeout apart, and what the snapshots report. *)
From S2P Require Import Prelude GoLib GoJSON Sha256 Domain Bus MessageBus Supervisor.

(** ** One timeout sweep, record by record *)
Section Sweep.
  Context {B : Type} `{Bus B} (nowFn : nat -> Time).
  Implicit Types (s : Supervisor B) (r : DeliveryRecord).

Definition overdue (timeout : Z) (now : Time) r : bool :=
    negb (isTerminalStatus (Status r)) && (timeout <=? time_sub now (LastProgressAt r)).
Definition retryable r : bool := RecRetryCount r <? maxRetries (Envelope r).

  (** The record [r'] a sweep at [now] leaves where it found [r]. *)
Definition swept (timeout : Z) (now : Time) r r' : Prop :=
    if overdue timeout now r then
      if bus_BrokerManaged (B:=B) then
        Status r' = Status r /\ Envelope r' = Envelope r /\ RecRetryCount r' = RecRetryCount r /\
        LastProgressAt r' = now /\ HandshakeState r' = "broker_managed_timeout"
      else if retryable r then
        Status r' = AckStatusRetrying /\ HandshakeState r' = "retrying" /\
        Envelope r' = Envelope r <| RetryCount := Int.add (RetryCount (Envelope r)) 1 |> /\
        RecRetryCount r' = Int.add (RetryCount (Envelope r)) 1 /\ LastReason r' = "ack_timeout"
      else
        Status r' = AckStatusDeadLettered /\ HandshakeState r' = "dead_letter" /\
        Envelope r' = Envelope r /\ RecRetryCount r' = RecRetryCount r /\
        CompletedAt r' = Some now /\ LastReason r' = "ack_timeout"
    else r' = r.

Definition count_if (b : bool) : Z := if b then 1 else 0.

  (** What one iteration does: other records stay, the inspected one is swept, the counters
      follow. *)
Lemma inspect_one_spec now id rep s r : records s !! id = Some r ->
    exists r',
      records (inspect_one nowFn now id (rep, s)).2 = <[id := r']> (records s) /\
      swept (ackTimeout s) now r r' /\
      ackTimeout (inspect_one nowFn now id (rep, s)).2 = ackTimeout s /\
      (inspect_one nowFn now id (rep, s)).1 =
        mkTimeoutReport (tr_broker_managed rep)
          (count_if (overdue (ackTimeout s) now r) + tr_overdue rep)
          (count_if (overdue (ackTimeout s) now r && negb (bus_BrokerManaged (B:=B)) && retryable r)
             + tr_retried rep)
          (count_if (overdue (ackTimeout s) now r && negb (bus_BrokerManaged (B:=B)) &&
             negb (retryable r)) + tr_dead_lettered rep).
  Proof.
    intros Hr. unfold inspect_one, swept, overdue, retryable. rewrite Hr, Z.leb_antisym.
    destruct (isTerminalStatus (Status r)) eqn:Ht; [|case_match eqn:Hlt];
      [cbn [negb andb count_if]; exists r; rewrite insert_id by done; by destruct rep..|].
    destruct bus_BrokerManaged eqn:Hbm; [|case_match eqn:Hrt]; cbn [negb andb count_if].
    - cbn -[Snapshot]. match goal with |- context [Snapshot nowFn id ?s'] =>
        destruct (Snapshot_later nowFn id s') as (_ & -> & -> & _) end.
      eexists. split; [done|]. split; [done|]. split; [done|]. by destruct rep.
    - match goal with |- context [Ack nowFn id ?st ?w ?y ?s'] =>
        pose proof (Ack_records nowFn id st w y s') as Ha;
        pose proof (Ack_timeout nowFn id st w y s') as Hto;
        destruct (Ack nowFn id st w y s') as [a s2] end.
      match goal with |- context [bus_SendEnvelope ?x ?b] =>
        destruct (bus_SendEnvelope x b) as [ack b'] end.
      cbn -[Snapshot ack_record] in *. rewrite lookup_insert_eq in Ha.
      match goal with |- context [Snapshot nowFn id ?s'] =>
        destruct (Snapshot_later nowFn id s') as (_ & -> & -> & _) end.
      cbn -[ack_record]. rewrite Ha, insert_insert_eq.
      eexists. split; [done|]. split; [done|]. split; [done|]. by destruct rep.
    - match goal with |- context [bus_MarkDeadLetterEnvelope ?x ?y ?b] =>
        destruct (bus_MarkDeadLetterEnvelope x y b) as [ack b'] end.
      cbn -[Snapshot]. match goal with |- context [Snapshot nowFn id ?s'] =>
        destruct (Snapshot_later nowFn id s') as (_ & -> & -> & _) end.
      eexists. split; [done|]. split; [done|]. split; [done|]. by destruct rep.
  Qed.

Lemma inspect_one_missing now id rep s : records s !! id = None ->
    inspect_one nowFn now id (rep, s) = (rep, s).
  Proof. intros Hr. unfold inspect_one. by rewrite Hr. Qed.

  (** The whole loop over distinct ids. *)
Definition swept_in (order : list string) (timeout : Z) (now : Time) (s s' : Supervisor B) : Prop :=
    forall id,
      match records s !! id with
      | None => records s' !! id = None
      | Some r => exists r', records s' !! id = Some r' /\
                    (if decide (id ∈ order) then swept timeout now r r' else r' = r)
      end.
Fixpoint count_records (p : DeliveryRecord -> bool) (order : list string) s : Z :=
    match order with
    | [] => 0
    | id :: order =>
        (match records s !! id with Some r => count_if (p r) | None => 0 end) +
        count_records p order s
    end.
Lemma count_records_ext p order s s' :
    (forall id, id ∈ order -> records s' !! id = records s !! id) ->
    count_records p order s' = count_records p order s.
  Proof.
    induction order as [|id order IH]; intros Hrs; cbn; [done|].
    rewrite (Hrs id) by left. rewrite IH; [done|]. intros i Hi. apply Hrs. by right.
  Qed.

Lemma inspect_loop_spec now order rep s : NoDup order ->
    swept_in order (ackTimeout s) now s (inspect_loop nowFn now order (rep, s)).2 /\
    ackTimeout (inspect_loop nowFn now order (rep, s)).2 = ackTimeout s /\
    let od := overdue (ackTimeout s) now in let bm := bus_BrokerManaged (B:=B) in
    (inspect_loop nowFn now order (rep, s)).1 =
      mkTimeoutReport (tr_broker_managed rep)
        (count_records od order s + tr_overdue rep)
        (count_records (fun r => od r && negb bm && retryable r) order s + tr_retried rep)
        (count_records (fun r => od r && negb bm && negb (retryable r)) order s
           + tr_dead_lettered rep).
  Proof.
    revert rep s. induction order as [|id order IH]; intros rep s Hnd.
    { cbn. split; [|split; [done|by destruct rep]]. intros i. destruct (records s !! i) as [r|]; [|done].
      exists r. by rewrite decide_False by apply not_elem_of_nil. }
    apply NoDup_cons in Hnd as [Hid Hnd]. cbn [inspect_loop].
    destruct (records s !! id) as [r|] eqn:Hr.
    - destruct (inspect_one_spec now id rep s r Hr) as (r' & Hrs & Hsw & Hto & Hrep).
      destruct (inspect_one nowFn now id (rep, s)) as [rep1 s1]. cbn [fst snd] in *.
      destruct (IH rep1 s1 Hnd) as (Hin & Hto' & Hrep'). rewrite Hto in *.
      assert (forall i, i ∈ order -> records s1 !! i = records s !! i) as Hext.
      { intros i Hi. rewrite Hrs. apply lookup_insert_ne. by intros ->. }
      split; [|split; [done|]].
      + intros i. specialize (Hin i). rewrite Hrs in Hin. destruct (decide (i = id)) as [->|Hne].
        * rewrite Hr. rewrite lookup_insert_eq in Hin. destruct Hin as (r2 & Hr2 & Hd).
          rewrite decide_False in Hd by done. subst r2. exists r'. rewrite decide_True by left. done.
        * rewrite lookup_insert_ne in Hin by done. destruct (records s !! i); [|done].
          destruct Hin as (r2 & Hr2 & Hd). exists r2. split; [done|].
          destruct (decide (i ∈ order)).
          -- by rewrite decide_True by by right.
          -- rewrite decide_False; [done|]. by intros [?|?]%elem_of_cons.
      + rewrite Hrep', Hrep. cbn [count_records tr_overdue tr_retried tr_dead_lettered
          tr_broker_managed]. rewrite Hr, !(count_records_ext _ _ _ _ Hext). f_equal; lia.
    - rewrite inspect_one_missing by done. destruct (IH rep s Hnd) as (Hin & Hto & Hrep).
      split; [|split; [done|]].
      + intros i. specialize (Hin i). destruct (decide (i = id)) as [->|Hne].
        * by rewrite Hr in *.
        * destruct (records s !! i); [|done]. destruct Hin as (r2 & Hr2 & Hd). exists r2.
          split; [done|]. destruct (decide (i ∈ order)).
          -- by rewrite decide_True by by right.
          -- rewrite decide_False; [done|]. by intros [?|?]%elem_of_cons.
      + rewrite Hrep. cbn [count_records]. by rewrite Hr, !Z.add_0_l.
  Qed.

Lemma InspectTimeouts_spec order s : NoDup order ->
    let now := nowFn (clock s) in
    swept_in order (ackTimeout s) now s (InspectTimeouts nowFn order s).2 /\
    ackTimeout (InspectTimeouts nowFn order s).2 = ackTimeout s /\
    let od := overdue (ackTimeout s) now in let bm := bus_BrokerManaged (B:=B) in
    (InspectTimeouts nowFn order s).1 =
      mkTimeoutReport bm (count_records od order s)
        (count_records (fun r => od r && negb bm && retryable r) order s)
        (count_records (fun r => od r && negb bm && negb (retryable r)) order s).
  Proof.
    intros Hnd now. unfold InspectTimeouts. cbn [now_].
    destruct (inspect_loop_spec now order (mkTimeoutReport (bus_BrokerManaged (B:=B)) 0 0 0)
                (s <| clock ::= S |>) Hnd) as (H1 & H2 & H3).
    cbn [tr_overdue tr_retried tr_dead_lettered tr_broker_managed] in H3.
    split; [exact H1|]. split; [exact H2|]. etransitivity; [exact H3|].
    rewrite !Z.add_0_r.
    by rewrite !(count_records_ext _ order s (s <| clock ::= S |>)).
  Qed.
End Sweep.

(** ** Repeated sweeps settle every delivery *)
Section Settle.
  Context {B : Type} `{Bus B} (nowFn : nat -> Time).
  Context (not_managed : bus_BrokerManaged (B:=B) = false).
  Implicit Types (s : Supervisor B) (r : DeliveryRecord).

  (** The retry counters are values of the Go type [int]. *)
Definition typed_retries r : Prop :=
    Int.in_range (RetryCount (Envelope r)) /\ Int.in_range (MaxRetries (Envelope r)).

  (** How many more overdue sweeps a record can survive. *)
Definition budget r : nat :=
    if isTerminalStatus (Status r) then 0%nat
    else S (Z.to_nat (maxRetries (Envelope r) - RecRetryCount r)).

(** A sweep never gives a record more budget, and an overdue one loses a unit of it; a record
      that was not yet overdue keeps the time of its last progress. *)
Lemma swept_budget timeout now r r' :
    swept (B:=B) timeout now r r' -> typed_retries r -> RecRetryCount r = RetryCount (Envelope r) ->
    typed_retries r' /\
    (budget r' = pred (budget r) \/
     (time_sub now (LastProgressAt r) < timeout /\ r' = r)).
  Proof.
    unfold swept, overdue, budget. rewrite not_managed. intros Hsw [Hr Hm] Hsync.
    destruct (isTerminalStatus (Status r)) eqn:Ht; cbn [negb andb] in Hsw.
    { subst r'. rewrite Ht. by split; [|left]. }
    destruct (timeout <=? time_sub now (LastProgressAt r)) eqn:Hlate.
    2: { subst r'. apply Z.leb_gt in Hlate. split; [done|by right]. }
    unfold retryable in Hsw. destruct (RecRetryCount r <? maxRetries (Envelope r)) eqn:Hlt.
    - destruct Hsw as (-> & _ & He & -> & _). apply Z.ltb_lt in Hlt. rewrite Hsync in *.
      assert (Int.in_range (RetryCount (Envelope r) + 1)) as Hin.
      { revert Hlt Hr Hm. unfold maxRetries, Int.in_range, Int.min, Int.max. case_match; lia. }
      rewrite (Int.add_id _ _ Hin) in *. unfold typed_retries. rewrite He. split; [by split|left].
      unfold maxRetries in *. cbn. lia.
    - destruct Hsw as (-> & _ & He & -> & _). unfold typed_retries. rewrite He. cbn.
      split; [done|left]. apply Z.ltb_ge in Hlt. lia.
  Qed.

Definition typed_records s : Prop := forall id r, records s !! id = Some r -> typed_retries r.
Definition budget_within (n : nat) s : Prop :=
    forall id r, records s !! id = Some r -> (budget r <= n)%nat.

Fixpoint sweeps (orders : list (list string)) s : Supervisor B :=
    match orders with
    | [] => s
    | order :: orders => sweeps orders (InspectTimeouts nowFn order s).2
    end.

(** [rested mark s]: a sweep started now comes at least an acknowledgement timeout after each
      of the first [mark] readings of the clock. *)
Definition rested (mark : nat) s : Prop :=
    forall k, (k < mark)%nat -> ackTimeout s <= time_sub (nowFn (clock s)) (nowFn k).

  (** Among the sweeps there are [n], in order, each of which starts at least an
      acknowledgement timeout after the end of the one chosen before it; the sweeps between them,
      and the readings of the clock inside a sweep, may be as close together as they like. *)
Fixpoint due_sweeps (mark n : nat) (orders : list (list string)) s : Prop :=
    match n, orders with
    | O, _ => True
    | S _, [] => False
    | S n', order :: orders =>
        let s' := (InspectTimeouts nowFn order s).2 in
        (rested mark s /\ due_sweeps (clock s') n' orders s') \/ due_sweeps mark n orders s'
    end.

  (** Every record has budget for [n] more sweeps, and one that needs them all has made no
      progress since the reading [mark] of the clock. *)
Definition pending (mark n : nat) s : Prop :=
    forall id r, records s !! id = Some r ->
      (budget r <= pred n)%nat \/
      ((budget r <= n)%nat /\ exists k, (k < mark)%nat /\ LastProgressAt r = nowFn k).

Definition enumerates s (order : list string) : Prop :=
    NoDup order /\ forall id, id ∈ order <-> is_Some (records s !! id).

Lemma sweep_records order s : enumerates s order -> sup_wf nowFn s -> typed_records s ->
    let s' := (InspectTimeouts nowFn order s).2 in
    ackTimeout s' = ackTimeout s /\ typed_records s' /\
    (forall id, is_Some (records s' !! id) <-> is_Some (records s !! id)) /\
    forall id r', records s' !! id = Some r' -> exists r, records s !! id = Some r /\
      (budget r' = pred (budget r) \/
       (time_sub (nowFn (clock s)) (LastProgressAt r) < ackTimeout s /\ r' = r)).
  Proof.
    intros [Hnd Hkeys] Hwf Hty s'.
    destruct (InspectTimeouts_spec nowFn order s Hnd) as (Hsw & Hto & _). fold s' in Hsw, Hto.
    assert (forall id r, records s !! id = Some r -> exists r', records s' !! id = Some r' /\
      typed_retries r' /\ (budget r' = pred (budget r) \/
       (time_sub (nowFn (clock s)) (LastProgressAt r) < ackTimeout s /\ r' = r))) as Hrec.
    { intros id r Hr. specialize (Hsw id). rewrite Hr in Hsw. destruct Hsw as (r' & Hr' & Hd).
      rewrite decide_True in Hd by (apply Hkeys; eauto). exists r'. split; [done|].
      eapply swept_budget; [exact Hd|by eapply Hty|]. exact (wf_retries _ _ _ _ (Hwf _ _ Hr)). }
    assert (forall id r', records s' !! id = Some r' -> exists r, records s !! id = Some r /\
      typed_retries r' /\ (budget r' = pred (budget r) \/
       (time_sub (nowFn (clock s)) (LastProgressAt r) < ackTimeout s /\ r' = r))) as Hback.
    { intros id r' Hr'. destruct (records s !! id) as [r|] eqn:Hr.
      - destruct (Hrec _ _ Hr) as (r2 & Hr2 & ?). exists r. split; [done|]. congruence.
      - specialize (Hsw id). rewrite Hr in Hsw. congruence. }
    split; [exact Hto|]. split; [|split].
    - intros id r' Hr'. by destruct (Hback _ _ Hr') as (? & _ & ? & _).
    - intros id. split; intros [r Hr].
      + destruct (Hback _ _ Hr) as (? & ? & _). eauto.
      + destruct (Hrec _ _ Hr) as (? & ? & _). eauto.
    - intros id r' Hr'. destruct (Hback _ _ Hr') as (r & Hr & _ & Hp). eauto.
  Qed.

  (** Any sweep keeps [pending]; a rested one uses up a unit of every budget. *)
Lemma sweep_pending order mark n s : enumerates s order -> sup_wf nowFn s -> typed_records s ->
    pending mark n s ->
    let s' := (InspectTimeouts nowFn order s).2 in
    pending mark n s' /\ (rested mark s -> pending (clock s') (pred n) s').
  Proof.
    intros Ho Hwf Hty Hp s'.
    destruct (sweep_records order s Ho Hwf Hty) as (_ & _ & _ & Hback). fold s' in Hback.
    pose proof (sup_exec_wf nowFn (SopInspect order) s Hwf) as Hwf'.
    split; [|intros Hrest]; intros id r' Hr';
      destruct (Hback _ _ Hr') as (r & Hr & [Hb|[Hlt ->]]);
      destruct (Hp _ _ Hr) as [Hle|[Hle (k & Hk & Hlast)]].
    - left. lia.
    - left. lia.
    - by left.
    - right. eauto.
    - right. split; [lia|]. exact (wf_progress _ _ _ _ (Hwf' _ _ Hr')).
    - right. split; [lia|]. exact (wf_progress _ _ _ _ (Hwf' _ _ Hr')).
    - right. split; [done|]. exact (wf_progress _ _ _ _ (Hwf' _ _ Hr')).
    - exfalso. specialize (Hrest k Hk). rewrite <- Hlast in Hrest. lia.
  Qed.

Lemma sweeps_settle_lemma orders mark n s :
    Forall (enumerates s) orders -> sup_wf nowFn s -> typed_records s -> pending mark n s ->
    due_sweeps mark n orders s -> budget_within 0 (sweeps orders s).
  Proof.
    revert mark n s. induction orders as [|order orders IH]; intros mark n s Ho Hwf Hty Hp Hdue.
    { destruct n; [|done]. intros id r Hr. destruct (Hp _ _ Hr) as [?|[? _]]; cbn in *; lia. }
    apply Forall_cons in Ho as [Ho Hos]. cbn [sweeps].
    destruct (sweep_records order s Ho Hwf Hty) as (_ & Hty' & Hdom & _).
    destruct (sweep_pending order mark n s Ho Hwf Hty Hp) as [Hkeep Hless].
    pose proof (sup_exec_wf nowFn (SopInspect order) s Hwf) as Hwf'. cbn [sup_exec] in Hwf'.
    assert (Forall (enumerates (InspectTimeouts nowFn order s).2) orders) as Hos'.
    { eapply Forall_impl; [exact Hos|]. intros o [? Hk]. split; [done|]. intros id. by rewrite Hk, Hdom. }
    destruct n as [|n].
    - exact (IH mark 0%nat _ Hos' Hwf' Hty' Hkeep ltac:(by destruct orders)).
    - destruct Hdue as [[Hrest Hdue]|Hdue].
      + exact (IH _ n _ Hos' Hwf' Hty' (Hless Hrest) Hdue).
      + exact (IH mark (S n) _ Hos' Hwf' Hty' Hkeep Hdue).
  Qed.

Lemma pending_start n s : sup_wf nowFn s -> budget_within n s -> pending (clock s) n s.
  Proof. intros Hwf Hb id r Hr. right. split; [by eapply Hb|]. exact (wf_progress _ _ _ _ (Hwf _ _ Hr)). Qed.

Lemma budget_0_terminal r : (budget r <= 0)%nat -> isTerminalStatus (Status r) = true.
  Proof. unfold budget. case_match; [done|lia]. Qed.
End Settle.

(** ** Properties *)

(** C1: timeout supervision terminates.  On a bus that does not manage redelivery itself (the
    in-memory one is such a bus), take a supervisor in any reachable (well-formed) state and any
    run of timeout sweeps, as close together as the caller polls.  Once among them there are as
    many sweeps as a record has retries left, plus one, each starting at least an acknowledgement
    timeout after the end of the one before it, every record is settled (accepted, failed or
    dead-lettered), even if no agent ever answers. *)
Theorem timeout_sweeps_settle {B} `{Bus B} (nowFn : nat -> Time) (orders : list (list string))
  (n : nat) (s : Supervisor B) :
  bus_BrokerManaged (B:=B) = false ->
  sup_wf nowFn s -> typed_records s -> Forall (enumerates s) orders ->
  budget_within n s -> due_sweeps nowFn (clock s) n orders s ->
  forall id r, records (sweeps nowFn orders s) !! id = Some r -> isTerminalStatus (Status r) = true.
Proof.
  intros Hbm Hwf Hty Ho Hb Hdue id r Hr. apply budget_0_terminal.
  exact (sweeps_settle_lemma nowFn Hbm orders _ n s Ho Hwf Hty (pending_start _ n s Hwf Hb) Hdue id r Hr).
Qed.

(** A clock that advances by ten seconds per reading, and a supervisor with one delivery. *)
Definition tick_clock (n : nat) : Time := 3600 * second + 10 * second * Z.of_nat n.
Definition sample_supervisor : Supervisor MessageBus :=
  (Dispatch tick_clock (sample_envelope "t1" "coder" 0 9 <| MaxRetries := 2 |>)
     (NewSupervisor NewMessageBus (10 * second))).2.

Lemma sample_supervisor_wf : sup_wf tick_clock sample_supervisor.
Proof. apply Dispatch_wf, NewSupervisor_wf. Qed.

(** A caller that polls every four seconds with a timeout of ten: the readings of one sweep are a
    millisecond apart, and [poll_starts] are the numbers of the readings that open the sweeps. *)
Definition poll_starts : list nat := [5; 6; 7; 17; 18; 19; 35; 36; 37]%nat.
Definition poll_clock (n : nat) : Time :=
  3600 * second + 4 * second * Z.of_nat (length (List.filter (fun k => (k <=? n)%nat) poll_starts))
  + 1000000 * Z.of_nat n.
Definition polled_supervisor : Supervisor MessageBus :=
  (Dispatch poll_clock (sample_envelope "t1" "coder" 0 9 <| MaxRetries := 2 |>)
     (NewSupervisor NewMessageBus (10 * second))).2.
Definition polls : list (list string) := repeat ["t1"] 9.

Lemma rested_check {B} `{Bus B} (nowFn : nat -> Time) (mark : nat) (s : Supervisor B) :
  forallb (fun k => ackTimeout s <=? time_sub (nowFn (clock s)) (nowFn k)) (seq 0 mark) = true ->
  rested nowFn mark s.
Proof.
  intros Hb k Hk. rewrite forallb_forall in Hb. apply Z.leb_le, Hb, in_seq. lia.
Qed.

Lemma polled_supervisor_records : exists r, records polled_supervisor = {[ "t1" := r ]} /\
  typed_retries r /\ budget r = 3%nat.
Proof.
  eexists. split; [vm_compute; reflexivity|]. split; [|reflexivity].
  split; unfold Int.in_range, Int.min, Int.max; cbn; lia.
Qed.
Lemma polled_supervisor_order : enumerates polled_supervisor ["t1"].
Proof.
  split; [apply NoDup_singleton|]. intros id. destruct polled_supervisor_records as (r & -> & _ & _).
  rewrite lookup_singleton_is_Some, list_elem_of_singleton. split; congruence.
Qed.
Lemma polls_due : due_sweeps poll_clock (clock polled_supervisor) 3 polls polled_supervisor.
Proof.
  unfold polls. cbn [repeat due_sweeps]. do 3 (right; right; left; split;
    [apply rested_check; vm_compute; reflexivity|]). exact I.
Qed.

Lemma timeout_sweeps_settle_witness :
  map (fun kv => Status kv.2) (map_to_list (records polled_supervisor)) = [AckStatusQueued] /\
  forall id r, records (sweeps poll_clock polls polled_supervisor) !! id = Some r ->
    isTerminalStatus (Status r) = true.
Proof.
  split; [vm_compute; reflexivity|].
  apply (timeout_sweeps_settle poll_clock polls 3 polled_supervisor).
  - reflexivity.
  - apply Dispatch_wf, NewSupervisor_wf.
  - unfold typed_records. destruct polled_supervisor_records as (r & -> & Hty & _).
    intros id r' Hr'. apply lookup_singleton_Some in Hr' as [_ <-]. exact Hty.
  - unfold polls. cbn [repeat]. repeat apply Forall_cons_2; try exact polled_supervisor_order.
    apply Forall_nil. exact I.
  - unfold budget_within. destruct polled_supervisor_records as (r & -> & _ & Hb).
    intros id r' Hr'. apply lookup_singleton_Some in Hr' as [_ <-]. rewrite Hb. cbn. lia.
  - exact polls_due.
Defined.
(** One timeout sweep is accounted for exactly.  For any enumeration of the task ids, the
    sweep touches only the non-terminal records whose last progress is at least the timeout old:
    on a broker-managed bus it marks them and touches no ledger; otherwise it retries those with
    retries left (retry counter plus one, status retrying) and dead-letters the others; the
    report counts the overdue ones, and they are the retried plus the dead-lettered ones. *)
Theorem inspect_timeouts_exact {B} `{Bus B} (nowFn : nat -> Time) order (s : Supervisor B) :
  NoDup order ->
  let now := nowFn (clock s) in
  let '(report, s') := InspectTimeouts nowFn order s in
  swept_in order (ackTimeout s) now s s' /\
  tr_overdue report = count_records (overdue (ackTimeout s) now) order s /\
  (if bus_BrokerManaged (B:=B) then tr_retried report = 0 /\ tr_dead_lettered report = 0
   else tr_overdue report = tr_retried report + tr_dead_lettered report).
Proof.
  intros Hnd now. pose proof (InspectTimeouts_spec nowFn order s Hnd) as (Hsw & _ & Hrep).
  destruct (InspectTimeouts nowFn order s) as [report s']. cbn [fst snd] in *. subst report.
  cbn [tr_overdue tr_retried tr_dead_lettered]. split; [done|]. split; [done|]. fold now.
  destruct bus_BrokerManaged; cbn [negb].
  - split; clear; induction order as [|id order IH]; cbn; try done;
      destruct (records s !! id); cbn; rewrite ?andb_false_r; cbn; done.
  - clear. induction order as [|id order IH]; cbn; [done|].
    destruct (records s !! id) as [r|]; [|lia]. rewrite !andb_true_r.
    destruct (overdue _ _ _), (retryable r); cbn; lia.
Qed.

Lemma inspect_timeouts_exact_witness :
  NoDup ["t1"] /\
  (let '(report, s') := InspectTimeouts tick_clock ["t1"] sample_supervisor in
   report = mkTimeoutReport false 1 1 0 /\
   swept_in ["t1"] (10 * second) (tick_clock (clock sample_supervisor)) sample_supervisor s').
Proof.
  split; [by apply NoDup_singleton|].
  pose proof (inspect_timeouts_exact tick_clock ["t1"] sample_supervisor (NoDup_singleton "t1")) as H.
  cbn zeta in H. destruct (InspectTimeouts tick_clock ["t1"] sample_supervisor) as [rep s'] eqn:E.
  split; [|exact (proj1 H)].
  assert ((InspectTimeouts tick_clock ["t1"] sample_supervisor).1 = mkTimeoutReport false 1 1 0)
    as Hr by (vm_compute; reflexivity).
  rewrite E in Hr. exact Hr.
Defined.

(** dispatching an envelope files exactly one record for its task and leaves every other
    record alone.  An envelope within its hop limit is filed as queued, in handshake state syn
    with the checksum of its payload, and the ledger gains the sent and queued entries; one
    whose hops are exhausted is filed as dead-lettered and complete, and the ledger and the
    dead-letter list record it. *)
Theorem dispatch_files_record {B} `{BusLaws B} (nowFn : nat -> Time) e (s : Supervisor B) :
  let id := EnvTaskID e in
  let s' := (Dispatch nowFn e s).2 in
  exists r, records s' = <[id := r]> (records s) /\
    EnvTaskID (Envelope r) = id /\ Payload (Envelope r) = Payload e /\
    PayloadChecksum r = payloadChecksum e /\ PayloadValidated r = false /\
    RecRetryCount r = RetryCount e /\
    if hops_exceeded e then
      Status r = AckStatusDeadLettered /\ HandshakeState r = "dead_letter" /\
      is_Some (CompletedAt r) /\ LastReason r = "max_hops_exceeded" /\
      (exists dead, bus_DeadLetters (messageBus s') = bus_DeadLetters (messageBus s) ++ [dead] /\
         EnvTaskID dead = id /\ IsDeadLetter dead = true) /\
      bus_AckHistory id (messageBus s') = bus_AckHistory id (messageBus s) ++
        [mkMessageAck id AckStatusDeadLettered bus_DeadLetterReceiver "max_hops_exceeded"]
    else
      Status r = AckStatusQueued /\ HandshakeState r = "syn" /\ CompletedAt r = None /\
      bus_AckHistory id (messageBus s') = bus_AckHistory id (messageBus s) ++ sent_acks id.
Proof.
  intros id s'. destruct (Dispatch_later nowFn e s)
    as (created & now & progress & completed & k & _ & _ & Hb & Hrs & _ & _).
  fold s' in Hb, Hrs. cbn [messageBus records] in Hb, Hrs.
  set (e' := e <| EnvCreatedAt := created |>) in *.
  assert (hops_exceeded e' = hops_exceeded e) as Hhe by done.
  eexists. split; [exact Hrs|]. rewrite dispatched_Envelope, dispatched_checksum, dispatched_retries.
  split; [done|]. split; [done|]. split; [done|]. rewrite Hb. unfold dispatched_record.
  destruct (hops_exceeded e) eqn:Hh.
  - rewrite law_Send_dead by congruence. rewrite law_Mark_result. cbn.
    do 6 (split; [by eauto|]). split.
    + rewrite law_Mark_dead. by eexists.
    + exact (ledger_appends_eq _ _ _ _ (law_Mark_ledger e' "max_hops_exceeded" (messageBus s))).
  - rewrite law_Send_result by congruence. cbn. do 5 (split; [done|]).
    apply (ledger_appends_eq _ _ _ _ (law_Send_ledger e' (messageBus s) Hhe)).
Qed.

Lemma dispatch_files_record_witness :
  hops_exceeded (sample_envelope "t2" "coder" 4 4) = true /\
  exists r, records (Dispatch tick_clock (sample_envelope "t2" "coder" 4 4) sample_supervisor).2 !! "t2"
              = Some r /\ Status r = AckStatusDeadLettered.
Proof.
  split; [reflexivity|].
  destruct (dispatch_files_record tick_clock (sample_envelope "t2" "coder" 4 4) sample_supervisor)
    as (r & Hr & _ & _ & _ & _ & _ & Hc).
  exists r. split; [rewrite Hr; apply lookup_insert_eq|]. exact (proj1 Hc).
Defined.

(** C3: payload integrity of the handshake.  In every well-formed state, confirming a payload
    succeeds iff the task is tracked and the presented payload has the checksum of the payload
    that was dispatched; success marks the record validated and appends the validated entry to
    the ledger; a mismatch marks the record invalid, leaves the bus unchanged, and makes the
    following [EstablishDelivery] fail the delivery. *)
Theorem confirm_payload_integrity {B} `{BusLaws B} (nowFn : nat -> Time) id agent e
  (s : Supervisor B) : sup_wf nowFn s ->
  let '(ok, s') := ConfirmPayload nowFn id agent e s in
  (ok = true <-> exists r, records s !! id = Some r /\ payloadChecksum e = payloadChecksum (Envelope r)) /\
  (forall i, i <> id -> records s' !! i = records s !! i) /\
  (ok = true -> exists r', records s' !! id = Some r' /\ PayloadValidated r' = true /\
     Status r' = AckStatusValidated /\ HandshakeState r' = "ack_valid" /\
     bus_AckHistory id (messageBus s') = bus_AckHistory id (messageBus s) ++
       [mkMessageAck id AckStatusValidated agent "payload_checksum_ok"]) /\
  (ok = false -> messageBus s' = messageBus s /\
     (forall r, records s' !! id = Some r ->
        PayloadValidated r = false /\ HandshakeState r = "invalid" /\
        AckStatusOf (EstablishDelivery nowFn id agent s').1 = AckStatusFailed)).
Proof.
  intros Hwf. unfold ConfirmPayload. destruct (records s !! id) as [r|] eqn:Hr.
  2:{ split; [split; [done|]; intros (r & ? & _); done|]. split; [done|]. split; [done|].
      intros _. split; [done|]. intros r. by rewrite Hr. }
  rewrite (wf_checksum _ _ _ _ (Hwf _ _ Hr)). case_decide as Hcs.
  - split; [split; [done|]; intros (r' & ? & ?); congruence|].
    split; [intros i Hi; cbn; by rewrite lookup_insert_ne|]. split; [done|].
    intros _. split; [done|]. cbn. rewrite lookup_insert_eq. intros r' [= <-]. split; [done|].
    split; [done|]. unfold EstablishDelivery. cbn. rewrite lookup_insert_eq. cbn -[Refresh].
    match goal with |- context [bus_Ack ?a ?b ?c ?d ?f] =>
      pose proof (law_Ack_result a b c d f) as Ha; destruct (bus_Ack a b c d f) as [ack b'] end.
    cbn in Ha. by subst ack.
  - cbn -[Ack].
    match goal with |- context [Ack nowFn id ?st ?w ?y ?s'] =>
      pose proof (Ack_records nowFn id st w y s') as Hrs;
      pose proof (Ack_messageBus nowFn id st w y s') as Hb;
      destruct (Ack nowFn id st w y s') as [a s2] end.
    destruct (Snapshot_later nowFn id s2) as (Hb3 & Hr3 & _ & _).
    cbn -[ack_record Snapshot] in *. rewrite lookup_insert_eq, insert_insert_eq in Hrs.
    split; [split; [eauto|done]|]. rewrite Hr3, Hb3, Hrs, Hb.
    split; [intros i Hi; by rewrite lookup_insert_ne|]. split; [|done].
    intros _. rewrite lookup_insert_eq. eexists. split; [done|].
    split; [done|]. split; [done|]. split; [done|].
    exact (ledger_appends_eq _ _ _ _ (law_Ack_ledger id AckStatusValidated agent
      "payload_checksum_ok" (messageBus s))).
Qed.

Definition tampered_envelope : TaskEnvelope :=
  sample_envelope "t1" "coder" 1 9 <| Payload := mkTaskPayload "rm -rf" [] [] [] "" [] |>.
Lemma confirm_payload_integrity_witness :
  sup_wf tick_clock sample_supervisor /\
  (ConfirmPayload tick_clock "t1" "coder" tampered_envelope sample_supervisor).1 = false /\
  (let '(ok, s') := ConfirmPayload tick_clock "t1" "coder" (sample_envelope "t1" "coder" 1 9)
                      sample_supervisor in
   ok = true /\ exists r', records s' !! "t1" = Some r' /\ Status r' = AckStatusValidated).
Proof.
  split; [exact sample_supervisor_wf|]. split; [vm_compute; reflexivity|].
  pose proof (confirm_payload_integrity tick_clock "t1" "coder" (sample_envelope "t1" "coder" 1 9)
    sample_supervisor sample_supervisor_wf) as Hi.
  assert ((ConfirmPayload tick_clock "t1" "coder" (sample_envelope "t1" "coder" 1 9)
    sample_supervisor).1 = true) as Hok by (vm_compute; reflexivity).
  destruct (ConfirmPayload _ _ _ _ _) as [ok s']. cbn in Hok. subst ok. split; [reflexivity|].
  destruct Hi as (_ & _ & Hv & _). destruct (Hv eq_refl) as (r' & Hr' & _ & Hst & _).
  exists r'. split; [exact Hr'|exact Hst].
Defined.

(** C21: the supervisor's records stay well formed.  Whatever sequence of dispatches, refreshes,
    snapshots, mailbox fetches, payload confirmations, acknowledgements, handshakes and timeout
    sweeps a new supervisor executes, every record is filed under its task id, keeps the checksum
    of its own payload, counts its envelope's retries, was last touched at an earlier clock
    reading, and has a completion time once its status is accepted, failed or dead-lettered. *)
Theorem supervisor_records_well_formed {B} `{Bus B} (nowFn : nat -> Time) ops (bus : B) timeout :
  let s := sup_run nowFn ops (NewSupervisor bus timeout) in
  forall id r, records s !! id = Some r ->
    EnvTaskID (Envelope r) = id /\ PayloadChecksum r = payloadChecksum (Envelope r) /\
    RecRetryCount r = RetryCount (Envelope r) /\
    (exists k, (k < clock s)%nat /\ LastProgressAt r = nowFn k) /\
    (isTerminalStatus (Status r) = true -> is_Some (CompletedAt r)).
Proof.
  intros s id r Hr. destruct (sup_run_wf nowFn ops _ (NewSupervisor_wf nowFn bus timeout) id r Hr).
  auto.
Qed.

Lemma supervisor_records_well_formed_witness :
  exists r, records (sup_run tick_clock [SopDispatch (sample_envelope "t1" "coder" 0 9);
      SopFetch "coder" 1; SopAck "t1" AckStatusAccepted "coder" "ok"]
    (NewSupervisor NewMessageBus 0)) !! "t1" = Some r /\ is_Some (CompletedAt r).
Proof.
  eexists. split; [vm_compute; reflexivity|].
  eapply (supervisor_records_well_formed tick_clock
    [SopDispatch (sample_envelope "t1" "coder" 0 9);
      SopFetch "coder" 1; SopAck "t1" AckStatusAccepted "coder" "ok"] NewMessageBus 0 "t1");
    [vm_compute; reflexivity|reflexivity].
Defined.

(** A snapshot is a pure projection of the ledger: it changes nothing but the number of
    clock readings, gives the empty map for an unknown task, and otherwise reports the task's id
    and checksum, the full acknowledgement history, and as status the last recognised entry of
    that history (the record's own status when there is none); [Refresh] and [Snapshot] agree. *)
Theorem snapshot_reports_ledger {B} `{Bus B} (nowFn : nat -> Time) id (s : Supervisor B) :
  let '(snap, s') := Snapshot nowFn id s in
  messageBus s' = messageBus s /\ records s' = records s /\ Refresh nowFn id s = (snap, s') /\
  match records s !! id with
  | None => snap = None
  | Some r => exists x, snap = Some x /\ snap_task_id x = EnvTaskID (Envelope r) /\
      snap_payload_checksum x = PayloadChecksum r /\
      snap_ack_history x =
        map (fun a => ack_status_string (AckStatusOf a)) (bus_AckHistory id (messageBus s)) /\
      snap_status x =
        ack_status_string (ledger_status (Status r) (bus_AckHistory id (messageBus s)))
  end.
Proof.
  destruct (Snapshot_later nowFn id s) as (Hb & Hr & _). pose proof (Snapshot_spec nowFn id s) as Hsp.
  assert (Refresh nowFn id s = Snapshot nowFn id s) as -> by done.
  assert (records s !! id = None -> (Snapshot nowFn id s).1 = None) as Hn.
  { intros Hid. unfold Snapshot. by rewrite Hid. }
  destruct (Snapshot nowFn id s) as [snap s']. cbn [fst snd] in *. do 3 (split; [done|]).
  destruct (records s !! id) as [r|]; [|by apply Hn].
  destruct (Hsp r eq_refl) as (x & -> & ? & ? & ? & _ & ?). exists x. auto.
Qed.

(** ** Delivery health *)
Inductive HealthClass : Type := HAccepted | HFailed | HDeadLettered | HPending.
#[export] Instance HealthClass_eq_dec : EqDecision HealthClass.
Proof. solve_decision. Defined.
Definition health_class (st : AckStatus) : HealthClass :=
  match st with
  | AckStatusAccepted => HAccepted | AckStatusFailed => HFailed
  | AckStatusDeadLettered => HDeadLettered | _ => HPending
  end.
Definition health_count (c : HealthClass) (h : DeliveryHealth) : Z :=
  match c with
  | HAccepted => dh_accepted h | HFailed => dh_failed h
  | HDeadLettered => dh_dead_lettered h | HPending => dh_pending h
  end.
Definition agent_metric (c : HealthClass) (m : AgentHealth) : Z :=
  match c with
  | HAccepted => ah_accepted m | HFailed => ah_failed m
  | HDeadLettered => ah_dead_lettered m | HPending => ah_pending m
  end.
Definition agent_count (c : HealthClass) (a : string) (h : DeliveryHealth) : Z :=
  match dh_by_agent h !! a with Some m => agent_metric c m | None => 0 end.
Fixpoint count_of (p : DeliveryRecord -> bool) (rs : list DeliveryRecord) : Z :=
  match rs with [] => 0 | r :: rs => count_if (p r) + count_of p rs end.

Section Health.
  Context {B : Type} `{Bus B} (nowFn : nat -> Time).

  (** The class the ledger of bus [b] puts a record in. *)
Definition class_of (b : B) (r : DeliveryRecord) : HealthClass :=
    health_class (ledger_status (Status r) (bus_AckHistory (EnvTaskID (Envelope r)) b)).

Lemma count_status_metric st m c :
    agent_metric c (count_status st m) =
      count_if (bool_decide (health_class st = c)) + agent_metric c m.
  Proof. destruct st, c; reflexivity. Qed.

Lemma health_one_spec now r h s :
    let h' := (health_one nowFn now r (h, s)).1 in
    messageBus (health_one nowFn now r (h, s)).2 = messageBus s /\
    dh_tracked h' = 1 + dh_tracked h /\
    (forall c, health_count c h' =
       count_if (bool_decide (class_of (messageBus s) r = c)) + health_count c h) /\
    (forall a c, agent_count c a h' =
       count_if (bool_decide (class_of (messageBus s) r = c) &&
                 String.eqb (TargetAgent (Envelope r)) a) + agent_count c a h).
  Proof.
    unfold health_one, class_of. rewrite applyHistory_Status, applyHistory_Envelope.
    set (st := ledger_status _ _). cbn -[count_status].
    split; [done|]. split; [by destruct st|]. split; [intros c; by destruct st, c|].
    intros a c. unfold agent_count. cbn -[count_status].
    assert (forall h0, dh_by_agent h0 = dh_by_agent h ->
      match <[TargetAgent (Envelope r) := count_status st (default (mkAgentHealth
          (bus_Depth (AgentTopic (TargetAgent (Envelope r))) (messageBus s)) 0 0 0 0)
          (dh_by_agent h0 !! TargetAgent (Envelope r)))]> (dh_by_agent h0) !! a with
      | Some m => agent_metric c m | None => 0 end =
      count_if (bool_decide (health_class st = c) && String.eqb (TargetAgent (Envelope r)) a) +
      match dh_by_agent h !! a with Some m => agent_metric c m | None => 0 end) as Hgen.
    { intros h0 ->. destruct (String.eqb_spec (TargetAgent (Envelope r)) a) as [->|Hne].
      - rewrite lookup_insert_eq, count_status_metric, andb_true_r. f_equal.
        destruct (dh_by_agent h !! a); [done|by destruct c].
      - by rewrite lookup_insert_ne, andb_false_r. }
    destruct st; apply (Hgen (_ <| dh_tracked ::= Z.add 1 |>)); done.
  Qed.

Lemma health_loop_spec now rs h s :
    let h' := (health_loop nowFn now rs (h, s)).1 in
    messageBus (health_loop nowFn now rs (h, s)).2 = messageBus s /\
    dh_tracked h' = len rs + dh_tracked h /\
    (forall c, health_count c h' =
       count_of (fun r => bool_decide (class_of (messageBus s) r = c)) rs + health_count c h) /\
    (forall a c, agent_count c a h' =
       count_of (fun r => bool_decide (class_of (messageBus s) r = c) &&
                 String.eqb (TargetAgent (Envelope r)) a) rs + agent_count c a h).
  Proof.
    revert h s. induction rs as [|r rs IH]; intros h s; cbn [health_loop count_of]; [done|].
    destruct (health_one_spec now r h s) as (Hb & Ht & Hc & Ha).
    destruct (health_one nowFn now r (h, s)) as [h1 s1]. cbn [fst snd] in *.
    destruct (IH h1 s1) as (Hb' & Ht' & Hc' & Ha'). rewrite Hb in *.
    split; [done|]. split; [unfold len in *; cbn [length]; lia|].
    split; intros; rewrite ?Hc', ?Hc, ?Ha', ?Ha; lia.
  Qed.

Lemma count_of_partition (f : DeliveryRecord -> HealthClass) rs :
    count_of (fun r => bool_decide (f r = HPending)) rs +
    count_of (fun r => bool_decide (f r = HAccepted)) rs +
    count_of (fun r => bool_decide (f r = HFailed)) rs +
    count_of (fun r => bool_decide (f r = HDeadLettered)) rs = len rs.
  Proof.
    unfold len. induction rs as [|r rs IH]; cbn [count_of length]; [done|].
    destruct (f r); repeat case_bool_decide; try congruence; cbn [count_if]; lia.
  Qed.
End Health.

(** The health snapshot partitions the tracked deliveries.  Each of the pending, accepted,
    failed and dead-lettered counters is the number of tracked records whose ledger puts them in
    that class, the four add up to the tracked total, and each agent's counters are those of the
    records addressed to it. *)
Theorem health_snapshot_partition {B} `{Bus B} (nowFn : nat -> Time) order (s : Supervisor B) :
  let rs := omap (fun id => records s !! id) order in
  let h := (DeliveryHealthSnapshot nowFn order s).1 in
  let cls r c := bool_decide (class_of (messageBus s) r = c) in
  dh_tracked h = len rs /\
  dh_pending h + dh_accepted h + dh_failed h + dh_dead_lettered h = dh_tracked h /\
  (forall c, health_count c h = count_of (fun r => cls r c) rs) /\
  (forall a c, agent_count c a h =
     count_of (fun r => cls r c && String.eqb (TargetAgent (Envelope r)) a) rs).
Proof.
  intros rs h cls.
  destruct (health_loop_spec nowFn (nowFn (clock s)) rs (mkDeliveryHealth 0 0 0 0 0 0 ∅)
              (s <| clock ::= S |>)) as (_ & Ht & Hc & Ha).
  change (health_loop _ _ _ _).1 with h in *. change (messageBus (s <| clock ::= S |>)) with (messageBus s) in *.
  cbn [dh_tracked] in Ht. split; [lia|]. assert (forall c, health_count c h = count_of (fun r => cls r c) rs) as Hc'.
  { intros c. rewrite Hc. unfold cls. destruct c; apply Z.add_0_r. }
  split; [|split; [done|]].
  - pose proof (count_of_partition (class_of (messageBus s)) rs).
    pose proof (Hc' HPending). pose proof (Hc' HAccepted). pose proof (Hc' HFailed).
    pose proof (Hc' HDeadLettered). unfold cls in *. cbn [health_count] in *. lia.
  - intros a c. rewrite Ha. apply Z.add_0_r.
Qed.
