(* ===== verification/WorkerPool.v ===== *)
(** * The worker pool (internal/delivery/worker_pool.go)

    A worker fetches or is streamed an envelope, confirms its payload, establishes the delivery,
    runs the handler and settles, retries or dead-letters the envelope.  The handler and the
    dead-letter handler are code given to [NewWorkerPool]: they are parameters, acting on a world
    [W] of their own.  Both clocks ([nowFn] of the pool and of the supervisor) are the system
    clock, so the pool reads the supervisor's. *)
From S2P Require Import Prelude GoLib GoJSON Sha256 Domain Bus Supervisor.
From Stdlib Require Import PrimFloat.

Record WorkerPoolMetrics : Type := mkWorkerPoolMetrics {
  AgentID : string;
  Concurrency : Z;
  ActiveWorkers : Z;
  Processed : Z;
  Succeeded : Z;
  Failed : Z;
  Retried : Z;
  DeadLettered : Z;
  ValidationFailures : Z;
  IdlePolls : Z;
  LastTaskID : string;
  LastError : string;
  LastProcessedAt : option Time;
  AverageLatencyMillis : float }.
#[export] Instance eta_WorkerPoolMetrics : Updatable WorkerPoolMetrics := fun m =>
  mkWorkerPoolMetrics (AgentID m) (Concurrency m) (ActiveWorkers m) (Processed m) (Succeeded m)
    (Failed m) (Retried m) (DeadLettered m) (ValidationFailures m) (IdlePolls m) (LastTaskID m)
    (LastError m) (LastProcessedAt m) (AverageLatencyMillis m).

Record WorkerPool (B W : Type) : Type := mkWorkerPool {
  supervisor : Supervisor B;
  agentID : string;
  concurrency : Z;
  pollInterval : Z;
  started : bool;
  metrics : WorkerPoolMetrics;
  world : W }.
Arguments mkWorkerPool {B W}. Arguments supervisor {B W}. Arguments agentID {B W}.
Arguments concurrency {B W}. Arguments pollInterval {B W}. Arguments started {B W}.
Arguments metrics {B W}. Arguments world {B W}.
#[export] Instance eta_WorkerPool {B W} : Updatable (WorkerPool B W) := fun p =>
  mkWorkerPool (supervisor p) (agentID p) (concurrency p) (pollInterval p) (started p) (metrics p)
    (world p).

(** [EnvelopeDelivery]: [DeliveryTopic] is the topic the [Ack] and [Nack] closures act on,
    [None] when they are nil (an envelope fetched from the mailbox). *)
Record EnvelopeDelivery : Type := mkEnvelopeDelivery {
  DeliveryEnvelope : TaskEnvelope;
  DeliveryTopic : option string }.

Definition inc (n : Z) : Z := Int.add n 1.
#[global] Arguments inc : simpl never.

(** The [record...] methods on the metrics. *)
Definition recordWorkStarted (m : WorkerPoolMetrics) : WorkerPoolMetrics :=
  m <| ActiveWorkers ::= inc |> <| Processed ::= inc |>.
Definition recordWorkFinished (start finished : Time) (taskID : string) (m : WorkerPoolMetrics)
  : WorkerPoolMetrics :=
  let latency := (duration_seconds (time_sub finished start) * 1000)%float in
  let m := if 0 <? ActiveWorkers m then m <| ActiveWorkers ::= fun n => Int.sub n 1 |> else m in
  let m := m <| LastTaskID := taskID |> <| LastProcessedAt := Some finished |> in
  let processed := float_of_int (Processed m) in
  m <| AverageLatencyMillis := if PrimFloat.eqb processed 1%float then latency
       else ((AverageLatencyMillis m * (processed - 1) + latency) / processed)%float |>.
Definition recordIdlePoll (m : WorkerPoolMetrics) : WorkerPoolMetrics := m <| IdlePolls ::= inc |>.
Definition recordSuccess (taskID : string) (m : WorkerPoolMetrics) : WorkerPoolMetrics :=
  m <| Succeeded ::= inc |> <| LastTaskID := taskID |> <| LastError := "" |>.
Definition recordFailure (taskID reason : string) (m : WorkerPoolMetrics) : WorkerPoolMetrics :=
  m <| Failed ::= inc |> <| LastTaskID := taskID |> <| LastError := reason |>.
Definition recordRetried (taskID reason : string) (m : WorkerPoolMetrics) : WorkerPoolMetrics :=
  m <| Retried ::= inc |> <| LastTaskID := taskID |> <| LastError := reason |>.
Definition recordDeadLettered (taskID reason : string) (m : WorkerPoolMetrics) : WorkerPoolMetrics :=
  m <| DeadLettered ::= inc |> <| LastTaskID := taskID |> <| LastError := reason |>.
Definition recordValidationFailure (taskID : string) (m : WorkerPoolMetrics) : WorkerPoolMetrics :=
  m <| ValidationFailures ::= inc |> <| LastTaskID := taskID |>
    <| LastError := "payload_validation_failed" |>.

Section Pool.
Context {B : Type} `{Bus B} {W : Type} (nowFn : nat -> Time).
(** [handler] returns its error, if any; [deadLetterHandler] may be nil, its result is dropped. *)
Context (handler : TaskEnvelope -> W -> option string * W).
Context (deadLetterHandler : option (TaskEnvelope -> string -> W -> W)).

Definition NewWorkerPool (sup : Supervisor B) (agent : string) (workers interval : Z) (w : W)
  : WorkerPool B W :=
  let workers := if workers <=? 0 then 1 else workers in
  let interval := if interval <=? 0 then 250 * millisecond else interval in
  mkWorkerPool sup agent workers interval false
    (mkWorkerPoolMetrics agent workers 0 0 0 0 0 0 0 0 "" "" None 0%float) w.

Definition with_supervisor {A} (f : Supervisor B -> A * Supervisor B) (p : WorkerPool B W)
  : A * WorkerPool B W :=
  let '(a, s) := f (supervisor p) in (a, p <| supervisor := s |>).
Definition record_metrics (f : WorkerPoolMetrics -> WorkerPoolMetrics) (p : WorkerPool B W)
  : WorkerPool B W := p <| metrics ::= f |>.

Definition delivery_ack (d : EnvelopeDelivery) (p : WorkerPool B W) : WorkerPool B W :=
  match DeliveryTopic d with
  | Some t => p <| supervisor ::= fun s =>
                s <| messageBus ::= bus_DeliveryAck t (DeliveryEnvelope d) |> |>
  | None => p
  end.
Definition delivery_nack (d : EnvelopeDelivery) (requeue : bool) (p : WorkerPool B W)
  : WorkerPool B W :=
  match DeliveryTopic d with
  | Some t => p <| supervisor ::= fun s =>
                s <| messageBus ::= bus_DeliveryNack t (DeliveryEnvelope d) requeue |> |>
  | None => p
  end.
Definition call_dead_letter_handler (e : TaskEnvelope) (reason : string) (p : WorkerPool B W)
  : WorkerPool B W :=
  match deadLetterHandler with
  | Some h => p <| world ::= h e reason |>
  | None => p
  end.

Definition handleDeadLetter (d : EnvelopeDelivery) (reason : string) (p : WorkerPool B W)
  : WorkerPool B W :=
  let envelope := DeliveryEnvelope d in
  let '(_, p) := with_supervisor
    (Ack nowFn (EnvTaskID envelope) AckStatusDeadLettered (agentID p) reason) p in
  let p := call_dead_letter_handler envelope reason p in
  let p := delivery_nack d false p in
  record_metrics (recordDeadLettered (EnvTaskID envelope) reason) p.

(** The update of the record when a handler failed, for both kinds of bus. *)
Definition failed_record (now : Time) (reason state : string) (r : DeliveryRecord) : DeliveryRecord :=
  r <| LastReason := reason |> <| LastProgressAt := now |> <| HandshakeState := state |>.

Definition retryOrDeadLetter (d : EnvelopeDelivery) (reason : string) (p : WorkerPool B W)
  : WorkerPool B W :=
  let envelope := DeliveryEnvelope d in
  let taskID := EnvTaskID envelope in
  if bus_BrokerManaged then
    match records (supervisor p) !! taskID with
    | None => delivery_nack d true p
    | Some record =>
        let '(now, p) := with_supervisor (now_ nowFn) p in
        if RecRetryCount record <? maxRetries (Envelope record) then
          let record := failed_record now reason "retrying" (record <| RecRetryCount ::= inc |>) in
          let p := p <| supervisor ::= put_record taskID record |> in
          let '(_, p) := with_supervisor (Ack nowFn taskID AckStatusRetrying (agentID p) reason) p in
          let p := delivery_nack d true p in
          record_metrics (recordRetried taskID reason) p
        else
          let record := failed_record now reason "dead_letter" record in
          handleDeadLetter d reason (p <| supervisor ::= put_record taskID record |>)
    end
  else
    match records (supervisor p) !! taskID with
    | None => p
    | Some record =>
        let '(now, p) := with_supervisor (now_ nowFn) p in
        if RecRetryCount record <? maxRetries (Envelope record) then
          let retryEnvelope := Envelope record <| RetryCount ::= inc |> in
          let record := failed_record now reason "retrying"
            (record <| Envelope := retryEnvelope |> <| RecRetryCount := RetryCount retryEnvelope |>) in
          let p := p <| supervisor ::= put_record taskID record |> in
          let '(_, p) := with_supervisor (Ack nowFn taskID AckStatusRetrying (agentID p) reason) p in
          let '(_, bus) := bus_SendEnvelope retryEnvelope (messageBus (supervisor p)) in
          let p := p <| supervisor ::= fun s => s <| messageBus := bus |> |> in
          record_metrics (recordRetried taskID reason) p
        else
          let deadEnvelope := Envelope record in
          let record := failed_record now reason "dead_letter" record in
          let p := p <| supervisor ::= put_record taskID record |> in
          let '(_, bus) := bus_MarkDeadLetterEnvelope deadEnvelope reason (messageBus (supervisor p)) in
          let p := p <| supervisor ::= fun s => s <| messageBus := bus |> |> in
          let p := record_metrics (recordDeadLettered taskID reason) p in
          call_dead_letter_handler deadEnvelope reason p
    end.

(** The body of [processEnvelope] between its deferred bookkeeping. *)
Definition process_body (d : EnvelopeDelivery) (workerID : Z) (p : WorkerPool B W) : WorkerPool B W :=
  let envelope := DeliveryEnvelope d in
  let taskID := EnvTaskID envelope in
  let '(ok, p) := with_supervisor (ConfirmPayload nowFn taskID (agentID p) envelope) p in
  if negb ok then
    let reason := "payload_validation_failed" in
    let '(_, p) := with_supervisor (Ack nowFn taskID AckStatusFailed (agentID p) reason) p in
    let p := record_metrics (recordValidationFailure taskID) p in
    handleDeadLetter d reason p
  else
    let '(ack, p) := with_supervisor (EstablishDelivery nowFn taskID (agentID p)) p in
    if decide (AckStatusOf ack = AckStatusFailed) then
      let reason := firstNonEmptyString [AckReason ack; "delivery_handshake_failed"] in
      let p := record_metrics (recordFailure taskID reason) p in
      retryOrDeadLetter d reason p
    else
      let '(err, w) := handler envelope (world p) in
      let p := p <| world := w |> in
      match err with
      | Some err =>
          let reason := "worker_" +:+ itoa workerID +:+ ": " +:+ err in
          let p := record_metrics (recordFailure taskID reason) p in
          retryOrDeadLetter d reason p
      | None =>
          let '(_, p) := with_supervisor
            (Ack nowFn taskID AckStatusAccepted (agentID p) "worker_completed") p in
          let p := delivery_ack d p in
          record_metrics (recordSuccess taskID) p
      end.

Definition processEnvelope (d : EnvelopeDelivery) (workerID : Z) (p : WorkerPool B W)
  : WorkerPool B W :=
  let '(start, p) := with_supervisor (now_ nowFn) p in
  let p := record_metrics recordWorkStarted p in
  let p := process_body d workerID p in
  let '(finished, p) := with_supervisor (now_ nowFn) p in
  record_metrics (recordWorkFinished start finished (EnvTaskID (DeliveryEnvelope d))) p.

Fixpoint process_mailbox (mailbox : list TaskEnvelope) (workerID : Z) (p : WorkerPool B W)
  : WorkerPool B W :=
  match mailbox with
  | [] => p
  | envelope :: mailbox =>
      process_mailbox mailbox workerID
        (processEnvelope (mkEnvelopeDelivery envelope None) workerID p)
  end.

(** One iteration of [runWorker]; the wait for the ticker after an idle poll has no effect. *)
Definition runWorker_poll (workerID : Z) (p : WorkerPool B W) : WorkerPool B W :=
  let '(mailbox, p) := with_supervisor (FetchAgentMailbox nowFn (agentID p) 1) p in
  match mailbox with
  | [] => record_metrics recordIdlePoll p
  | _ => process_mailbox mailbox workerID p
  end.
Fixpoint runWorker_polls (n : nat) (workerID : Z) (p : WorkerPool B W) : WorkerPool B W :=
  match n with
  | O => p
  | S n => runWorker_polls n workerID (runWorker_poll workerID p)
  end.

(** One iteration of [runDeliveryWorker] on a streamed delivery. *)
Definition runDeliveryWorker_one (t : string) (e : TaskEnvelope) (workerID : Z) (p : WorkerPool B W)
  : WorkerPool B W := processEnvelope (mkEnvelopeDelivery e (Some t)) workerID p.

(** The workers that [Start] launches: on a stream of the topic, or polling the mailbox. *)
Inductive Launched : Type :=
  | NoWorkers
  | DeliveryWorkers (topic : string) (count : Z)
  | PollingWorkers (count : Z).

(** [Start]: the first call marks the pool started and launches [concurrency] workers, any further
    one does nothing.  [stream] is [ConsumeEnvelopeDeliveries] of a bus that is an
    [EnvelopeDeliveryStream]: its error, if any, and the bus; without it, or when it fails, the
    workers poll. *)
Definition Start (stream : option (string -> Z -> B -> option string * B)) (p : WorkerPool B W)
  : Launched * WorkerPool B W :=
  if started p then (NoWorkers, p)
  else
    let p := p <| started := true |> in
    match stream with
    | Some ConsumeEnvelopeDeliveries =>
        let topic := AgentTopic (agentID p) in
        let '(err, b) := ConsumeEnvelopeDeliveries topic (concurrency p) (messageBus (supervisor p)) in
        let p := p <| supervisor ::= fun s => s <| messageBus := b |> |> in
        match err with
        | None => (DeliveryWorkers topic (concurrency p), p)
        | Some _ => (PollingWorkers (concurrency p), p)
        end
    | None => (PollingWorkers (concurrency p), p)
    end.
End Pool.
