(* ===== verification/EnvelopeStream.v ===== *)
(** * The worker pool on the in-memory bus (worker_pool.go, message_bus.go)

    [ConsumeEnvelopeDeliveries] of the in-memory bus starts a goroutine that takes one envelope after the
    other from the topic and offers it on a channel without buffer, so that it holds at most one
    envelope that no worker has; the workers [Start] launches receive from that channel.  The
    goroutine and the workers are moves that may come in any order; a worker's turn with an
    envelope is one move, as what the goroutine does in the meantime (it takes the next envelope
    from the queue) commutes with it. *)
From S2P Require Import Prelude GoLib GoJSON Sha256 Domain Bus MessageBus.
From S2P Require Import Supervisor WorkerPool.

(** [ConsumeEnvelopeDeliveries] fails never and leaves the bus alone. *)
Definition memory_stream : option (string -> Z -> MessageBus -> option string * MessageBus) :=
  Some (fun _ _ b => (None, b)).

Record StreamedPool (W : Type) : Type := mkStreamedPool {
  pool : WorkerPool MessageBus W;
  inHand : option TaskEnvelope }.
Arguments mkStreamedPool {W}. Arguments pool {W}. Arguments inHand {W}.

Inductive StreamMove : Type :=
  | Feed                        (* the goroutine looks at the topic *)
  | Work (workerID : Z).        (* a worker receives and processes *)

Section Stream.
Context {W : Type} (nowFn : nat -> Time).
Context (handler : TaskEnvelope -> W -> option string * W).
Context (deadLetterHandler : option (TaskEnvelope -> string -> W -> W)).

(** The goroutine waits while nobody has taken the envelope it offers. *)
Definition stream_feed (t : string) (s : StreamedPool W) : StreamedPool W :=
  match inHand s with
  | Some _ => s
  | None =>
      let '(envelope, b) := Consume t (messageBus (supervisor (pool s))) in
      mkStreamedPool (pool s <| supervisor ::= fun s => s <| messageBus := b |> |>) envelope
  end.
(** A worker waits while nothing is offered. *)
Definition stream_work (t : string) (workerID : Z) (s : StreamedPool W) : StreamedPool W :=
  match inHand s with
  | None => s
  | Some envelope =>
      mkStreamedPool (runDeliveryWorker_one nowFn handler deadLetterHandler t envelope workerID (pool s)) None
  end.
Definition stream_move (t : string) (m : StreamMove) (s : StreamedPool W) : StreamedPool W :=
  match m with Feed => stream_feed t s | Work workerID => stream_work t workerID s end.
Fixpoint stream_run (t : string) (moves : list StreamMove) (s : StreamedPool W) : StreamedPool W :=
  match moves with [] => s | m :: moves => stream_run t moves (stream_move t m s) end.
End Stream.

(** The turns of workers that follow a look of the goroutine, when there is always something to take. *)
Fixpoint turns (offered : bool) (moves : list StreamMove) : nat :=
  match moves with
  | [] => 0
  | Feed :: moves => turns true moves
  | Work _ :: moves => (if offered then 1 else 0) + turns false moves
  end%nat.
