(* ===== verification/WorkerPoolProps.v ===== *)
(** * Correctness of the worker pool

    One lemma per branch of [processEnvelope] describes the records, the bus, the metrics and
    the world after it; the properties compose them: tampered payloads never reach the handler,
    the metrics account for every envelope, and, on the stream of the in-memory bus, a handler that always
    fails is retried exactly as often as the envelope allows.  The pool then dead-letters the task once, but
    leaves a record for which the timeout sweep does it again. *)
From S2P Require Import Prelude GoLib GoJSON Sha256 Domain Bus MessageBus.
From S2P Require Import Supervisor SupervisorProps WorkerPool EnvelopeStream.

Section Handshake.
Context {B : Type} `{Bus B} (nowFn : nat -> Time).
Implicit Types (s : Supervisor B).

(** What the operations of the pool keep of a record. *)
Definition same_delivery (r r' : DeliveryRecord) : Prop :=
  Envelope r' = Envelope r /\ RecRetryCount r' = RecRetryCount r /\
  PayloadChecksum r' = PayloadChecksum r.

Lemma ConfirmPayload_ok id agent e s r :
  records s !! id = Some r -> payloadChecksum e = PayloadChecksum r ->
  exists r' s', ConfirmPayload nowFn id agent e s = (true, s') /\
    records s' = <[id := r']> (records s) /\ same_delivery r r' /\
    PayloadValidated r' = true /\ Status r' = AckStatusValidated /\
    messageBus s' = (bus_Ack id AckStatusValidated agent "payload_checksum_ok" (messageBus s)).2.
Proof.
  intros Hr Hc. unfold ConfirmPayload. rewrite Hr, decide_False by congruence. cbn -[Ack Snapshot].
  match goal with |- context [Ack nowFn id ?st ?w ?y ?s'] =>
    pose proof (Ack_records nowFn id st w y s') as Hrs;
    pose proof (Ack_messageBus nowFn id st w y s') as Hb;
    destruct (Ack nowFn id st w y s') as [a s2] end.
  destruct (Snapshot_later nowFn id s2) as (Hb3 & Hr3 & _ & _).
  cbn -[ack_record Snapshot] in *. rewrite lookup_insert_eq, insert_insert_eq in Hrs.
  eexists _, _. split; [done|]. rewrite Hr3, Hb3, Hrs, Hb. split; [done|]. done.
Qed.

Lemma ConfirmPayload_bad id agent e s :
  (forall r, records s !! id = Some r -> payloadChecksum e <> PayloadChecksum r) ->
  exists s', ConfirmPayload nowFn id agent e s = (false, s') /\ messageBus s' = messageBus s /\
    (forall i, is_Some (records s' !! i) <-> is_Some (records s !! i)).
Proof.
  intros Hbad. unfold ConfirmPayload. destruct (records s !! id) as [r|] eqn:Hr.
  - rewrite decide_True by auto. eexists. split; [done|]. split; [done|]. intros i. cbn.
    destruct (decide (i = id)) as [->|].
    + rewrite lookup_insert_eq, Hr. by split; eauto.
    + by rewrite lookup_insert_ne.
  - eexists. split; [done|]. done.
Qed.

Lemma EstablishDelivery_ok id agent s r :
  records s !! id = Some r -> PayloadValidated r = true ->
  exists r' s',
    EstablishDelivery nowFn id agent s =
      ((bus_Ack id AckStatusReceived agent "delivery_established" (messageBus s)).1, s') /\
    records s' = <[id := r']> (records s) /\ same_delivery r r' /\ Status r' = Status r /\
    messageBus s' = (bus_Ack id AckStatusReceived agent "delivery_established" (messageBus s)).2.
Proof.
  intros Hr Hv. unfold EstablishDelivery. rewrite Hr, Hv.
  destruct (bus_Ack id AckStatusReceived agent "delivery_established" (messageBus s)) as [ack b].
  cbn -[Refresh]. match goal with |- context [Refresh nowFn id ?s'] =>
    destruct (Refresh_later nowFn id s') as (Hb & Hrs & _ & _) end.
  eexists _, _. split; [done|]. rewrite Hb, Hrs. done.
Qed.
End Handshake.

Section Branches.
Context {B : Type} `{BusLaws B} {W : Type} (nowFn : nat -> Time).
Context (handler : TaskEnvelope -> W -> option string * W).
Context (dlh : option (TaskEnvelope -> string -> W -> W)).
Implicit Types (p : WorkerPool B W) (r : DeliveryRecord).

Definition dead_world (e : TaskEnvelope) (reason : string) (w : W) : W :=
  match dlh with Some h => h e reason w | None => w end.

(** [retryOrDeadLetter] with retries left, on a bus that does not redeliver by itself. *)
Lemma retry_branch d reason p r :
  bus_BrokerManaged (B:=B) = false ->
  records (supervisor p) !! EnvTaskID (DeliveryEnvelope d) = Some r -> retryable r = true ->
  let id := EnvTaskID (DeliveryEnvelope d) in
  let p' := retryOrDeadLetter nowFn dlh d reason p in
  let retry := Envelope r <| RetryCount ::= inc |> in
  exists r', records (supervisor p') = <[id := r']> (records (supervisor p)) /\
    Envelope r' = retry /\ RecRetryCount r' = RetryCount retry /\
    PayloadChecksum r' = PayloadChecksum r /\ Status r' = AckStatusRetrying /\
    messageBus (supervisor p') = (bus_SendEnvelope retry
      (bus_Ack id AckStatusRetrying (agentID p) reason (messageBus (supervisor p))).2).2 /\
    world p' = world p /\ agentID p' = agentID p /\
    metrics p' = recordRetried id reason (metrics p).
Proof.
  intros Hbm Hr Hre id p' retry. subst p'. unfold retryOrDeadLetter. rewrite Hbm, Hr.
  cbn [with_supervisor now_]. fold (retryable r). rewrite Hre. fold id.
  unfold with_supervisor. cbn -[Ack retry]. fold retry.
  match goal with |- context [Ack nowFn id ?st ?w ?y ?s'] =>
    pose proof (Ack_records nowFn id st w y s') as Hrs;
    pose proof (Ack_messageBus nowFn id st w y s') as Hb;
    destruct (Ack nowFn id st w y s') as [a s2] end.
  cbn -[ack_record retry] in *. rewrite lookup_insert_eq, insert_insert_eq in Hrs. rewrite Hb.
  destruct (bus_SendEnvelope retry _) as [ack b'] eqn:Hsend. cbn -[ack_record retry].
  eexists. split; [exact Hrs|]. done.
Qed.

(** [retryOrDeadLetter] with the retries exhausted: the record keeps its status. *)
Lemma exhausted_branch d reason p r :
  bus_BrokerManaged (B:=B) = false ->
  records (supervisor p) !! EnvTaskID (DeliveryEnvelope d) = Some r -> retryable r = false ->
  let id := EnvTaskID (DeliveryEnvelope d) in
  let p' := retryOrDeadLetter nowFn dlh d reason p in
  exists r', records (supervisor p') = <[id := r']> (records (supervisor p)) /\
    same_delivery r r' /\ Status r' = Status r /\ HandshakeState r' = "dead_letter" /\
    LastReason r' = reason /\
    messageBus (supervisor p') =
      (bus_MarkDeadLetterEnvelope (Envelope r) reason (messageBus (supervisor p))).2 /\
    world p' = dead_world (Envelope r) reason (world p) /\ agentID p' = agentID p /\
    metrics p' = recordDeadLettered id reason (metrics p).
Proof.
  intros Hbm Hr Hre id p'. subst p'. unfold retryOrDeadLetter. rewrite Hbm, Hr.
  cbn [with_supervisor now_]. fold (retryable r). rewrite Hre. fold id. cbn.
  destruct (bus_MarkDeadLetterEnvelope (Envelope r) reason (messageBus (supervisor p))) as [ack b'].
  unfold call_dead_letter_handler, dead_world. destruct dlh; cbn; eexists; done.
Qed.

(** The pool after the handshake of a tracked envelope with the right checksum: the handler
    decides what follows. *)
Definition after_handler d (workerID : Z) (p : WorkerPool B W) : WorkerPool B W :=
  let e := DeliveryEnvelope d in
  let id := EnvTaskID e in
  match handler e (world p) with
  | (None, w) =>
      record_metrics (recordSuccess id) (delivery_ack d
        (with_supervisor (Ack nowFn id AckStatusAccepted (agentID p) "worker_completed")
           (p <| world := w |>)).2)
  | (Some err, w) =>
      let reason := "worker_" +:+ itoa workerID +:+ ": " +:+ err in
      retryOrDeadLetter nowFn dlh d reason (record_metrics (recordFailure id reason) (p <| world := w |>))
  end.

Lemma process_body_ok d workerID p r :
  let e := DeliveryEnvelope d in let id := EnvTaskID e in
  records (supervisor p) !! id = Some r -> payloadChecksum e = PayloadChecksum r ->
  exists r' s', process_body nowFn handler dlh d workerID p =
      after_handler d workerID (p <| supervisor := s' |>) /\
    records s' = <[id := r']> (records (supervisor p)) /\ same_delivery r r' /\
    Status r' = AckStatusValidated /\
    messageBus s' = (bus_Ack id AckStatusReceived (agentID p) "delivery_established"
      (bus_Ack id AckStatusValidated (agentID p) "payload_checksum_ok"
         (messageBus (supervisor p))).2).2.
Proof.
  intros e id Hr Hc. unfold process_body. fold e. fold id.
  destruct (ConfirmPayload_ok nowFn id (agentID p) e (supervisor p) r Hr Hc)
    as (r1 & s1 & Hconf & Hrs1 & (He1 & Hn1 & Hc1) & Hv1 & Hst1 & Hb1).
  unfold with_supervisor at 1. rewrite Hconf. cbn [negb fst snd].
  destruct (EstablishDelivery_ok nowFn id (agentID p) s1 r1) as (r2 & s2 & Hest & Hrs2 &
    (He2 & Hn2 & Hc2) & Hst2 & Hb2); [by rewrite Hrs1, lookup_insert_eq|done|].
  unfold with_supervisor at 1. cbn -[after_handler EstablishDelivery]. rewrite Hest.
  rewrite law_Ack_result. cbn [AckStatusOf]. rewrite decide_False by done.
  exists r2, s2. split; [|split; [by rewrite Hrs2, Hrs1, insert_insert_eq|]].
  - unfold after_handler. cbn. fold e. fold id. destruct (handler e (world p)) as [[err|] w]; [done|].
    unfold with_supervisor. by destruct (Ack _ _ _ _ _ _).
  - split; [|split; [congruence|by rewrite Hb2, Hb1]].
    split; [congruence|]. split; congruence.
Qed.

(** Processing adds bookkeeping before and after: clock readings and the metrics. *)
Definition tick p : WorkerPool B W := p <| supervisor ::= fun s => s <| clock ::= S |> |>.
Definition enter p : WorkerPool B W := tick p <| metrics ::= recordWorkStarted |>.
Definition leave (start : Time) (id : string) p : WorkerPool B W :=
  tick p <| metrics ::= recordWorkFinished start (nowFn (clock (supervisor p))) id |>.
Lemma leave_metrics start id p :
  metrics (leave start id p) =
    recordWorkFinished start (nowFn (clock (supervisor p))) id (metrics p).
Proof. reflexivity. Qed.
Lemma leave_bus start id p : messageBus (supervisor (leave start id p)) = messageBus (supervisor p).
Proof. reflexivity. Qed.
Lemma processEnvelope_eq d workerID p :
  processEnvelope nowFn handler dlh d workerID p =
    leave (nowFn (clock (supervisor p))) (EnvTaskID (DeliveryEnvelope d))
      (process_body nowFn handler dlh d workerID (enter p)).
Proof. reflexivity. Qed.
End Branches.

(** ** The metrics account for every envelope *)
Definition settled (m : WorkerPoolMetrics) : Z :=
  Int.wrap (Succeeded m + Failed m + ValidationFailures m).

(** Metrics that differ only by retry and dead-letter bookkeeping. *)
Definition same_settled (m m' : WorkerPoolMetrics) : Prop :=
  Succeeded m' = Succeeded m /\ Failed m' = Failed m /\
  ValidationFailures m' = ValidationFailures m /\
  Processed m' = Processed m /\ ActiveWorkers m' = ActiveWorkers m.

Lemma settled_inc a b : Int.wrap (inc a + b) = inc (Int.wrap (a + b)).
Proof.
  unfold inc, Int.add. rewrite !Int.wrap_wrap_add. f_equal. lia.
Qed.
Lemma settled_recordSuccess id m : settled (recordSuccess id m) = inc (settled m).
Proof. unfold settled. cbn. rewrite <- !Z.add_assoc. apply settled_inc. Qed.
Lemma settled_recordFailure id why m : settled (recordFailure id why m) = inc (settled m).
Proof.
  unfold settled. cbn. rewrite (Z.add_comm (Succeeded m)), <- Z.add_assoc, settled_inc.
  do 2 f_equal. lia.
Qed.
Lemma settled_recordValidationFailure id m : settled (recordValidationFailure id m) = inc (settled m).
Proof.
  unfold settled. cbn. rewrite Z.add_comm, settled_inc. do 2 f_equal. lia.
Qed.
Lemma settled_same m m' : same_settled m m' -> settled m' = settled m.
Proof. unfold settled. by intros (-> & -> & -> & _). Qed.

Section Metrics.
Context {B : Type} `{Bus B} {W : Type} (nowFn : nat -> Time).
Context (handler : TaskEnvelope -> W -> option string * W).
Context (dlh : option (TaskEnvelope -> string -> W -> W)).
Implicit Types (p : WorkerPool B W).

Lemma metrics_with_supervisor {A} (f : Supervisor B -> A * Supervisor B) p :
  metrics (with_supervisor f p).2 = metrics p.
Proof. unfold with_supervisor. by destruct (f (supervisor p)). Qed.
Lemma metrics_delivery_nack d q p : metrics (delivery_nack d q p) = metrics p.
Proof. unfold delivery_nack. by case_match. Qed.
Lemma metrics_delivery_ack d p : metrics (delivery_ack d p) = metrics p.
Proof. unfold delivery_ack. by case_match. Qed.
Lemma metrics_call_dlh e why p : metrics (call_dead_letter_handler dlh e why p) = metrics p.
Proof. unfold call_dead_letter_handler. by case_match. Qed.

Lemma handleDeadLetter_metrics d why p :
  metrics (handleDeadLetter nowFn dlh d why p) =
    recordDeadLettered (EnvTaskID (DeliveryEnvelope d)) why (metrics p).
Proof.
  unfold handleDeadLetter, with_supervisor. destruct (Ack _ _ _ _ _ _). unfold record_metrics.
  cbn -[recordDeadLettered delivery_nack call_dead_letter_handler].
  by rewrite metrics_delivery_nack, metrics_call_dlh.
Qed.

Lemma call_dlh_frame e why p : let p' := call_dead_letter_handler dlh e why p in
  supervisor p' = supervisor p /\ agentID p' = agentID p /\ world p' = dead_world dlh e why (world p).
Proof. unfold call_dead_letter_handler, dead_world. by case_match. Qed.

Lemma retryOrDeadLetter_metrics d why p :
  same_settled (metrics p) (metrics (retryOrDeadLetter nowFn dlh d why p)).
Proof.
  unfold retryOrDeadLetter. destruct bus_BrokerManaged.
  - destruct (records (supervisor p) !! _) as [r|]; [|by rewrite metrics_delivery_nack].
    unfold with_supervisor at 1. cbn -[handleDeadLetter with_supervisor]. case_match.
    + unfold with_supervisor. cbn -[Ack]. destruct (Ack _ _ _ _ _ _).
      cbn -[delivery_nack]. by rewrite metrics_delivery_nack.
    + rewrite handleDeadLetter_metrics. done.
  - destruct (records (supervisor p) !! _) as [r|]; [|done].
    unfold with_supervisor at 1. cbn -[with_supervisor]. case_match.
    + unfold with_supervisor. cbn -[Ack]. destruct (Ack _ _ _ _ _ _). cbn. by case_match.
    + cbn. case_match. cbn. by rewrite metrics_call_dlh.
Qed.

Lemma process_body_metrics d workerID p :
  let m := metrics p in let m' := metrics (process_body nowFn handler dlh d workerID p) in
  settled m' = inc (settled m) /\ Processed m' = Processed m /\ ActiveWorkers m' = ActiveWorkers m.
Proof.
  intros m. unfold process_body, with_supervisor. destruct (ConfirmPayload _ _ _ _ _) as [ok s1].
  destruct ok; cbn [negb].
  - cbn -[EstablishDelivery retryOrDeadLetter Ack]. destruct (EstablishDelivery _ _ _ _) as [ack s2].
    case_decide.
    + destruct (retryOrDeadLetter_metrics d
        (firstNonEmptyString [AckReason ack; "delivery_handshake_failed"])
        (record_metrics (recordFailure (EnvTaskID (DeliveryEnvelope d))
           (firstNonEmptyString [AckReason ack; "delivery_handshake_failed"]))
           (p <| supervisor := s1 |> <| supervisor := s2 |>))) as (Hs & Hf & Hv & Hp & Ha).
      split; [|done]. etransitivity; [apply settled_same; split; [exact Hs|done]|].
      apply settled_recordFailure.
    + cbn -[retryOrDeadLetter Ack]. destruct (handler _ _) as [[err|] w].
      * match goal with |- context [retryOrDeadLetter nowFn dlh d ?why ?q] =>
          destruct (retryOrDeadLetter_metrics d why q) as (Hs & Hf & Hv & Hp & Ha) end.
        split; [|done]. etransitivity; [apply settled_same; split; [exact Hs|done]|].
        apply settled_recordFailure.
      * cbn -[Ack]. destruct (Ack _ _ _ _ _ _). cbn -[recordSuccess delivery_ack].
        rewrite metrics_delivery_ack. split; [apply settled_recordSuccess|done].
  - cbn -[Ack handleDeadLetter]. destruct (Ack _ _ _ _ _ _). rewrite handleDeadLetter_metrics.
    split; [|done]. apply (settled_recordValidationFailure (EnvTaskID (DeliveryEnvelope d)) m).
Qed.

(** The books are balanced between envelopes: nothing is active, and every processed envelope
    succeeded, failed or was refused. *)
Definition balanced (m : WorkerPoolMetrics) : Prop :=
  settled m = Processed m /\ ActiveWorkers m = 0.

Lemma processEnvelope_balanced d workerID p :
  balanced (metrics p) -> balanced (metrics (processEnvelope nowFn handler dlh d workerID p)).
Proof.
  intros [Hset Hact]. rewrite processEnvelope_eq.
  destruct (process_body_metrics d workerID (enter p)) as (H1 & H2 & H3). revert H1 H2 H3.
  generalize (process_body nowFn handler dlh d workerID (enter p)) as q. intros q H1 H2 H3.
  assert (settled (metrics q) = inc (settled (metrics p))) as H1' by exact H1. cbn in H2, H3.
  assert (ActiveWorkers (metrics q) = 1) as Ha by (by rewrite H3, Hact).
  unfold balanced, leave, tick, recordWorkFinished. cbn. rewrite Ha. cbn. split; [|by rewrite Ha].
  unfold settled in *. cbn. by rewrite H1', H2, Hset.
Qed.

Lemma process_mailbox_balanced es workerID p :
  balanced (metrics p) -> balanced (metrics (process_mailbox nowFn handler dlh es workerID p)).
Proof.
  revert p. induction es as [|e es IH]; intros p Hb; cbn; [done|].
  by apply IH, processEnvelope_balanced.
Qed.

Lemma runWorker_poll_balanced workerID p :
  balanced (metrics p) -> balanced (metrics (runWorker_poll nowFn handler dlh workerID p)).
Proof.
  intros Hb. unfold runWorker_poll, with_supervisor.
  destruct (FetchAgentMailbox nowFn (agentID p) 1 (supervisor p)) as [[|e es] s]; [exact Hb|].
  by apply process_mailbox_balanced.
Qed.

(** The envelopes a pool works on, fetched or streamed, in the order they are processed. *)
Inductive PoolOp : Type :=
  | PopPoll (workerID : Z)
  | PopDelivery (topic : string) (e : TaskEnvelope) (workerID : Z).
Definition pool_exec (op : PoolOp) (p : WorkerPool B W) : WorkerPool B W :=
  match op with
  | PopPoll workerID => runWorker_poll nowFn handler dlh workerID p
  | PopDelivery t e workerID => runDeliveryWorker_one nowFn handler dlh t e workerID p
  end.
Fixpoint pool_run (ops : list PoolOp) (p : WorkerPool B W) : WorkerPool B W :=
  match ops with [] => p | op :: ops => pool_run ops (pool_exec op p) end.

Lemma pool_run_balanced ops p : balanced (metrics p) -> balanced (metrics (pool_run ops p)).
Proof.
  revert p. induction ops as [|op ops IH]; intros p Hb; cbn; [done|]. apply IH.
  destruct op; [by apply runWorker_poll_balanced|by apply processEnvelope_balanced].
Qed.
End Metrics.

(** Dead-lettering at the pool: the handler runs once and the ledger records it. *)
Lemma handleDeadLetter_effect {B} `{BusLaws B} {W} (nowFn : nat -> Time)
  (dlh : option (TaskEnvelope -> string -> W -> W)) d why (p : WorkerPool B W) :
  let id := EnvTaskID (DeliveryEnvelope d) in let p' := handleDeadLetter nowFn dlh d why p in
  world p' = dead_world dlh (DeliveryEnvelope d) why (world p) /\
  bus_AckHistory id (messageBus (supervisor p')) =
    bus_AckHistory id (messageBus (supervisor p)) ++ [mkMessageAck id AckStatusDeadLettered (agentID p) why] /\
  metrics p' = recordDeadLettered id why (metrics p).
Proof.
  intros id p'. split; [|split; [|apply handleDeadLetter_metrics]]; subst p';
    unfold handleDeadLetter, with_supervisor; fold id;
    pose proof (Ack_messageBus nowFn id AckStatusDeadLettered (agentID p) why (supervisor p)) as Hb;
    destruct (Ack _ _ _ _ _ _) as [a s1]; cbn [fst snd] in Hb;
    unfold record_metrics, delivery_nack.
  - destruct (call_dlh_frame dlh (DeliveryEnvelope d) why (p <| supervisor := s1 |>)) as (_ & _ & Hw).
    destruct (DeliveryTopic d); exact Hw.
  - destruct (call_dlh_frame dlh (DeliveryEnvelope d) why (p <| supervisor := s1 |>)) as (Hs & _ & _).
    destruct (DeliveryTopic d); cbn -[call_dead_letter_handler]; rewrite Hs; cbn;
      rewrite ?law_DeliveryNack_ledger, Hb;
      exact (ledger_appends_eq _ _ _ _ (law_Ack_ledger _ _ _ _ _)).
Qed.

(** ** A handler that always fails, on the in-memory bus *)
Section AlwaysFailing.
Context (nowFn : nat -> Time) (err : TaskEnvelope -> string).

(** The world counts the handler calls and the dead-letter handler calls. *)
Definition failing_handler (e : TaskEnvelope) (w : nat * nat) : option string * (nat * nat) :=
  (Some (err e), (S w.1, w.2)).
Definition counting_dlh : option (TaskEnvelope -> string -> nat * nat -> nat * nat) :=
  Some (fun _ _ w => (w.1, S w.2)).
Implicit Types (p : WorkerPool MessageBus (nat * nat)) (s : StreamedPool (nat * nat)).
Abbreviation bus_of p := (messageBus (supervisor p)).
Abbreviation mailbox p := (queue_of (AgentTopic (agentID p)) (bus_of p)).
Abbreviation work := (runDeliveryWorker_one nowFn failing_handler counting_dlh).

(** The envelope of task [id] can be processed, with [k] retries left. *)
Record tracked (id : string) p e r (k : nat) : Prop := {
  aw_record : records (supervisor p) !! id = Some r;
  aw_env_id : EnvTaskID e = id;
  aw_rec_id : EnvTaskID (Envelope r) = id;
  aw_checksum : payloadChecksum e = PayloadChecksum r;
  aw_payload : payloadChecksum (Envelope r) = PayloadChecksum r;
  aw_target : TargetAgent (Envelope r) = agentID p;
  aw_hops : hops_exceeded (Envelope r) = false;
  aw_sync : RecRetryCount r = RetryCount (Envelope r);
  aw_typed : typed_retries r;
  aw_left : maxRetries (Envelope r) - RetryCount (Envelope r) = Z.of_nat k }.

(** The bus after acknowledgements. *)
Definition handshaken p (b : MessageBus) : Prop :=
  queue_of (AgentTopic (agentID p)) b = mailbox p /\ deadLetters b = deadLetters (bus_of p).

Lemma Ack_handshaken p b i st who why :
  handshaken p b -> handshaken p (MessageBus.Ack i st who why b).2.
Proof.
  unfold handshaken. rewrite MessageBus.Ack_dead.
  pose proof (MessageBus.Ack_queues i st who why b) as Hq. intros (H1 & H2).
  by rewrite (queue_of_queues _ _ _ Hq).
Qed.

(** A worker's turn runs the failing handler once and then [retryOrDeadLetter]. *)
Lemma work_tracked t workerID id p e r k : tracked id p e r k ->
  exists r' q reason, records (supervisor q) = <[id := r']> (records (supervisor p)) /\
    same_delivery r r' /\ Status r' = AckStatusValidated /\
    handshaken p (bus_of q) /\ agentID q = agentID p /\
    world q = (S (world p).1, (world p).2) /\
    exists start, work t e workerID p = leave nowFn start id
      (retryOrDeadLetter nowFn counting_dlh (mkEnvelopeDelivery e (Some t)) reason q).
Proof.
  intros [Hrec Heid _ Hcs _ _ _ _ _ _]. unfold runDeliveryWorker_one. rewrite processEnvelope_eq.
  set (p1 := enter p).
  destruct (process_body_ok nowFn failing_handler counting_dlh (mkEnvelopeDelivery e (Some t)) workerID
    p1 r) as (r2 & s2 & -> & Hrs2 & (He2 & Hn2 & Hc2) & Hst2 & Hb2).
  { cbn. by rewrite Heid. }
  { exact Hcs. }
  unfold after_handler. cbn [failing_handler DeliveryEnvelope]. rewrite Heid.
  eexists r2, _, _. split; [|split; [|split; [|split; [|split; [|split]]]]];
    [..|eexists; reflexivity]; cbn; [|by split_and!|done| |done|done].
  - rewrite Hrs2. cbn. by rewrite Heid.
  - rewrite Hb2. do 2 apply Ack_handshaken. done.
Qed.

Lemma work_retry t workerID id p e r k : tracked id p e r (S k) -> mailbox p = [] ->
  let p' := work t e workerID p in
  exists e' r', tracked id p' e' r' k /\ mailbox p' = [e'] /\ agentID p' = agentID p /\
    world p' = (S (world p).1, (world p).2) /\ deadLetters (bus_of p') = deadLetters (bus_of p).
Proof.
  intros Haw Hmail. cbv zeta. destruct (work_tracked t workerID id p e r (S k) Haw) as
    (r1 & q & reason & Hrs & (He & Hn & Hc) & _ & (Hq0 & Hd) & Hag & Hw & start & Hwork).
  rewrite Hwork. destruct Haw as [_ Heid Hrid Hcs Hpay Htgt Hhops Hsync [Hty1 Hty2] Hleft].
  assert (retryable r1 = true) as Hre.
  { unfold retryable. rewrite He, Hn, Hsync. apply Z.ltb_lt. lia. }
  destruct (retry_branch nowFn counting_dlh (mkEnvelopeDelivery e (Some t)) reason q r1) as
    (r2 & Hrs2 & He2 & Hn2 & Hc2 & _ & Hb2 & Hw2 & Ha2 & _); [done| |done|].
  { cbn. by rewrite Heid, Hrs, lookup_insert_eq. }
  cbn [DeliveryEnvelope] in *. rewrite Heid in *. rewrite He in *.
  set (retry := Envelope r <| RetryCount ::= inc |>) in *.
  set (b := (bus_Ack id AckStatusRetrying (agentID q) reason (messageBus (supervisor q))).2) in *.
  assert (handshaken q b) as (Hbq & Hbd).
  { apply Ack_handshaken. unfold handshaken. by rewrite Hag. }
  assert (hops_exceeded retry = false) as Hh' by exact Hhops.
  assert (inc (RetryCount (Envelope r)) = RetryCount (Envelope r) + 1) as Hinc.
  { apply Int.add_id. revert Hleft Hty1 Hty2.
    unfold maxRetries, Int.in_range, Int.min, Int.max. case_match; lia. }
  exists (retry <| HopCount := Int.add (HopCount retry) 1 |>), r2.
  cbn -[retryOrDeadLetter]. rewrite Hb2, Ha2, Hw2, Hw, Hag. cbn [bus_SendEnvelope message_bus].
  split; [|split; [|split; [done|split; [done|]]]].
  - split; rewrite ?He2; try done.
    + cbn -[retryOrDeadLetter]. by rewrite Hrs2, lookup_insert_eq.
    + rewrite Hc2, Hc. exact Hpay.
    + rewrite Hc2, Hc. exact Hpay.
    + cbn -[retryOrDeadLetter]. by rewrite Ha2, Hag, <- Htgt.
    + split; rewrite He2; [|done]. cbn. rewrite Hinc. revert Hleft Hty1 Hty2.
      unfold maxRetries, Int.in_range, Int.min, Int.max. case_match; lia.
    + unfold maxRetries in *. cbn. rewrite Hinc. lia.
  - rewrite Send_queue_of by done. rewrite Hag in Hbq. rewrite Hbq, Hq0, Hmail. cbn. by rewrite Htgt, decide_True.
  - rewrite Send_dead by done. by rewrite Hbd, Hd.
Qed.

(** The task is given up. *)
Definition given_up (id : string) p : Prop :=
  mailbox p = [] /\ exists r, records (supervisor p) !! id = Some r /\
    isTerminalStatus (Status r) = false /\ HandshakeState r = "dead_letter".

Lemma work_exhausted t workerID id p e r : tracked id p e r 0 -> mailbox p = [] ->
  let p' := work t e workerID p in
  given_up id p' /\ agentID p' = agentID p /\ world p' = (S (world p).1, S (world p).2) /\
  exists dead, deadLetters (bus_of p') = deadLetters (bus_of p) ++ [dead] /\
    EnvTaskID dead = id /\ IsDeadLetter dead = true.
Proof.
  intros Haw Hmail. cbv zeta. destruct (work_tracked t workerID id p e r 0 Haw) as
    (r1 & q & reason & Hrs & (He & Hn & Hc) & Hst & (Hq0 & Hd) & Hag & Hw & start & Hwork).
  rewrite Hwork. destruct Haw as [_ Heid Hrid Hcs Hpay Htgt Hhops Hsync [Hty1 Hty2] Hleft].
  assert (retryable r1 = false) as Hre.
  { unfold retryable. rewrite He, Hn, Hsync. apply Z.ltb_ge. lia. }
  destruct (exhausted_branch nowFn counting_dlh (mkEnvelopeDelivery e (Some t)) reason q r1) as
    (r2 & Hrs2 & (He2 & Hn2 & Hc2) & Hst2 & Hhs2 & _ & Hb2 & Hw2 & Ha2 & _); [done| |done|].
  { cbn. by rewrite Heid, Hrs, lookup_insert_eq. }
  cbn [DeliveryEnvelope] in *. rewrite Heid in *. rewrite He in *. unfold given_up.
  change (bus_of (leave nowFn start id ?x)) with (bus_of x).
  cbn -[retryOrDeadLetter]. rewrite Ha2, Hw2, Hw, Hb2, Hag. cbn [bus_MarkDeadLetterEnvelope message_bus].
  split; [split|split; [done|split; [done|]]].
  - transitivity (mailbox p); [exact Hq0|exact Hmail].
  - exists r2. rewrite Hrs2, lookup_insert_eq. split; [done|]. split; [by rewrite Hst2, Hst|done].
  - exists (Envelope r <| IsDeadLetter := true |>). split; [by rewrite Mark_dead, Hd|done].
Qed.

(** *** The moves of the stream *)
Abbreviation topic s := (AgentTopic (agentID (pool s))).
Abbreviation run := (stream_run nowFn failing_handler counting_dlh).
(** One envelope is in the mailbox or in the hand of the goroutine. *)
Definition pending s : list TaskEnvelope := option_list (inHand s) ++ mailbox (pool s).
Definition awaiting (id : string) s e r k : Prop := tracked id (pool s) e r k /\ pending s = [e].
Definition holding s : bool := bool_decide (is_Some (inHand s)).

Lemma feed_awaiting id s e r k : awaiting id s e r k ->
  let s' := stream_feed (topic s) s in
  awaiting id s' e r k /\ holding s' = true /\ topic s' = topic s /\ world (pool s') = world (pool s) /\
  deadLetters (bus_of (pool s')) = deadLetters (bus_of (pool s)).
Proof.
  intros [Ht Hp]. unfold awaiting, pending, holding, stream_feed in *. destruct s as [p [e0|]]; cbn -[runDeliveryWorker_one AgentTopic] in Hp |- *.
  { by split_and!. }
  pose proof (Consume_queue_of (AgentTopic (agentID p)) (AgentTopic (agentID p)) (bus_of p)) as Hc.
  pose proof (Consume_dead (AgentTopic (agentID p)) (bus_of p)) as Hd.
  revert Hc Hd. unfold Consume. rewrite !Hp, decide_True by done. cbn. intros Hc Hd. injection Hc as Hc.
  split_and!; try done; [destruct Ht; by split|by rewrite <- Hc].
Qed.

Lemma work_awaiting workerID id s e r k : awaiting id s e r k -> holding s = true ->
  let s' := stream_work nowFn failing_handler counting_dlh (topic s) workerID s in
  holding s' = false /\ topic s' = topic s /\ (world (pool s')).1 = S (world (pool s)).1 /\
  match k with
  | O => given_up id (pool s') /\ (world (pool s')).2 = S (world (pool s)).2 /\
         exists dead, deadLetters (bus_of (pool s')) = deadLetters (bus_of (pool s)) ++ [dead] /\
           EnvTaskID dead = id /\ IsDeadLetter dead = true
  | S k => (world (pool s')).2 = (world (pool s)).2 /\
           deadLetters (bus_of (pool s')) = deadLetters (bus_of (pool s)) /\ exists e' r', awaiting id s' e' r' k
  end.
Proof.
  intros [Ht Hp] Hh. unfold awaiting, pending, holding, stream_work in *. apply bool_decide_eq_true in Hh.
  destruct s as [p [e0|]]; [|by destruct Hh]. cbn -[runDeliveryWorker_one AgentTopic] in Hp |- *. injection Hp as -> Hm.
  cbn -[runDeliveryWorker_one AgentTopic]. split; [done|]. destruct k as [|k].
  - destruct (work_exhausted (AgentTopic (agentID p)) workerID id p e r Ht Hm) as (H1 & H2 & H3 & H4).
    rewrite H3, H2. by split_and!.
  - destruct (work_retry (AgentTopic (agentID p)) workerID id p e r k Ht Hm) as (e' & r' & H1 & H2 & H3 & H4 & H5).
    rewrite H4, H3. split_and!; try done. exists e', r'. rewrite <- H3. by split.
Qed.

Lemma idle_run moves s : pending s = [] -> run (topic s) moves s = s.
Proof.
  intros [Hh Hm]%app_nil. assert (inHand s = None) as Hn by by destruct (inHand s). clear Hh.
  assert (stream_feed (topic s) s = s) as Hf.
  { unfold stream_feed. rewrite Hn. unfold Consume. rewrite Hm. destruct s as [p h]; cbn in *. subst h.
    f_equal. destruct p as [[] ? ? ? ? ? ?]; done. }
  assert (forall w, stream_work nowFn failing_handler counting_dlh (topic s) w s = s) as Hw
    by (intros w; unfold stream_work; by rewrite Hn).
  induction moves as [|[|w] moves IH]; cbn [stream_run stream_move]; [done|by rewrite Hf|by rewrite Hw].
Qed.

(** Every retry is an attempt; the last attempt dead-letters. *)
Lemma run_awaiting id moves s e r k : awaiting id s e r k ->
  let n := turns (holding s) moves in let s' := run (topic s) moves s in
  topic s' = topic s /\
  ((n <= k)%nat -> world (pool s') = (n + (world (pool s)).1, (world (pool s)).2)%nat /\
     deadLetters (bus_of (pool s')) = deadLetters (bus_of (pool s)) /\ exists e' r', awaiting id s' e' r' (k - n)) /\
  ((k < n)%nat -> world (pool s') = (S k + (world (pool s)).1, S (world (pool s)).2)%nat /\
     given_up id (pool s') /\ inHand s' = None /\ exists dead,
     deadLetters (bus_of (pool s')) = deadLetters (bus_of (pool s)) ++ [dead] /\ EnvTaskID dead = id /\ IsDeadLetter dead = true).
Proof.
  revert s e r k. induction moves as [|[|w] moves IH]; intros s e r k Haw; cbn [turns stream_run stream_move]; cbn zeta.
  - split; [done|]. split; [|lia]. intros _. rewrite Nat.sub_0_r. split; [by destruct (world (pool s))|]. split; [done|]. by exists e, r.
  - destruct (feed_awaiting id s e r k Haw) as (H1 & H2 & H3 & H4 & H5).
    specialize (IH _ _ _ _ H1). rewrite H2, H3, H4, H5 in IH. exact IH.
  - destruct (holding s) eqn:Hh.
    2: { assert (stream_work nowFn failing_handler counting_dlh (topic s) w s = s) as ->.
         { unfold stream_work. unfold holding in Hh. apply bool_decide_eq_false in Hh. destruct (inHand s); [|done]. destruct Hh; eauto. }
         specialize (IH s e r k Haw). rewrite Hh in IH. exact IH. }
    destruct (work_awaiting w id s e r k Haw Hh) as (H1 & H2 & H3 & H4).
    set (s1 := stream_work _ _ _ _ _ s) in *. destruct k as [|k].
    + destruct H4 as (Hg & H5 & dead & H6 & H7). rewrite <- H2.
      assert (inHand s1 = None) as Hn by (apply eq_None_not_Some; by apply bool_decide_eq_false in H1).
      rewrite idle_run by (unfold pending; rewrite Hn; apply Hg). split; [done|]. split; [lia|]. intros _.
      split; [|split; [done|split; [done|by exists dead]]]. destruct (world (pool s1)); cbn in *. congruence.
    + destruct H4 as (H4 & H5 & e' & r' & Haw'). specialize (IH s1 e' r' k Haw'). cbn zeta in IH.
      rewrite H1, H2 in IH. set (s2 := run _ moves s1) in *. destruct IH as (I0 & I1 & I2). split; [done|]. split; intros Hn.
      * destruct I1 as (I3 & I4 & I5); [lia|]. rewrite I3, I4, H3, H4. split; [f_equal; lia|]. split; [done|exact I5].
      * destruct I2 as (I3 & I4 & I5 & dead & I6 & I7); [lia|]. rewrite I3, H3, H4. split; [f_equal; lia|].
        split; [done|]. split; [done|]. exists dead. by rewrite I6, H5.
Qed.

Lemma dispatch_no_dead e timeout : hops_exceeded e = false ->
  deadLetters (messageBus (Dispatch nowFn e (NewSupervisor NewMessageBus timeout)).2) = [].
Proof.
  intros Hh. destruct (Dispatch_later nowFn e (NewSupervisor NewMessageBus timeout))
    as (created & now & progress & completed & k & _ & _ & Hb & _).
  rewrite Hb. apply (Send_dead (e <| EnvCreatedAt := created |>)). exact Hh.
Qed.

(** Dispatching to an idle bus leaves the envelope awaiting its agent. *)
Lemma dispatch_awaits e timeout workers interval w :
  hops_exceeded e = false -> typed_retries (dispatched_record e 0 0 0 zero_ack) ->
  RetryCount e <= maxRetries e ->
  exists e' r, awaiting (EnvTaskID e) (mkStreamedPool (NewWorkerPool (Dispatch nowFn e
      (NewSupervisor NewMessageBus timeout)).2 (TargetAgent e) workers interval w) None)
    e' r (Z.to_nat (maxRetries e - RetryCount e)).
Proof.
  intros Hh Hty Hle. destruct (Dispatch_later nowFn e (NewSupervisor NewMessageBus timeout))
    as (created & now & progress & completed & k & _ & _ & Hb & Hrs & _ & _).
  set (s := (Dispatch nowFn e (NewSupervisor NewMessageBus timeout)).2) in *.
  set (sent := e <| EnvCreatedAt := created |>) in *.
  assert (hops_exceeded sent = false) as Hh' by exact Hh.
  exists (sent <| HopCount := Int.add (HopCount sent) 1 |>). eexists. split.
  2: { unfold pending. cbn -[Dispatch]. fold s. rewrite Hb. cbn [bus_SendEnvelope message_bus messageBus NewSupervisor].
       rewrite Send_queue_of by done. by rewrite decide_True. }
  split; rewrite ?dispatched_Envelope, ?dispatched_retries, ?dispatched_checksum; cbn -[Dispatch].
  - fold s. rewrite Hrs. apply lookup_insert_eq.
  - done.
  - by rewrite ?dispatched_Envelope.
  - by rewrite ?dispatched_checksum.
  - by rewrite ?dispatched_Envelope, ?dispatched_checksum.
  - by rewrite ?dispatched_Envelope.
  - by rewrite ?dispatched_Envelope.
  - by rewrite ?dispatched_Envelope, ?dispatched_retries.
  - unfold typed_retries in *. rewrite ?dispatched_Envelope in *. exact Hty.
  - rewrite ?dispatched_Envelope. unfold maxRetries in *. cbn in *. lia.
Qed.
End AlwaysFailing.

(** An envelope refused for its payload is failed and dead-lettered, whatever the handler. *)
Lemma process_body_refused {B} `{Bus B} {W} (nowFn : nat -> Time)
  dlh d workerID (p : WorkerPool B W) :
  let e := DeliveryEnvelope d in let id := EnvTaskID e in let why := "payload_validation_failed" in
  (forall r, records (supervisor p) !! id = Some r -> payloadChecksum e <> PayloadChecksum r) ->
  exists s1, messageBus s1 = (bus_Ack id AckStatusFailed (agentID p) why (messageBus (supervisor p))).2 /\
    forall h, process_body nowFn h dlh d workerID p = 
      handleDeadLetter nowFn dlh d why (record_metrics (recordValidationFailure id)
        (p <| supervisor := s1 |>)).
Proof.
  intros e id why Hbad.
  destruct (ConfirmPayload_bad nowFn id (agentID p) e (supervisor p) Hbad) as (s1 & Hconf & Hb1 & _).
  exists (Ack nowFn id AckStatusFailed (agentID p) why s1).2.
  split; [by rewrite Ack_messageBus, Hb1|]. intros h. unfold process_body, with_supervisor.
  fold e. fold id. rewrite Hconf. cbn [negb]. subst why. cbn -[Ack handleDeadLetter].
  by destruct (Ack nowFn id AckStatusFailed (agentID p) "payload_validation_failed" s1).
Qed.

(** ** Properties *)

(** the pool's metrics account for every envelope.  After any sequence of mailbox polls and
    streamed deliveries, with any handlers, no worker is left marked active and the number of
    processed envelopes is the sum of the succeeded, the failed and the refused ones (modulo the
    wrap-around of the 64-bit counters). *)
Theorem pool_metrics_balanced {B} `{Bus B} {W} (nowFn : nat -> Time)
  (handler : TaskEnvelope -> W -> option string * W)
  (dlh : option (TaskEnvelope -> string -> W -> W)) ops sup agent workers interval (w : W) :
  let m := metrics (pool_run nowFn handler dlh ops (NewWorkerPool (B:=B) sup agent workers interval w)) in
  ActiveWorkers m = 0 /\
  Processed m = Int.wrap (Succeeded m + Failed m + ValidationFailures m).
Proof.
  intros m. destruct (pool_run_balanced nowFn handler dlh ops
    (NewWorkerPool sup agent workers interval w)) as [Hs Ha]; [by split|]. by split.
Qed.

(** A tampered or unknown payload never reaches the handler.  If the envelope's task is not
    tracked or its payload does not have the checksum of the dispatched payload, processing it
    gives the same result whatever the handler is; the only effect on the outside world is the
    dead-letter handler's, the ledger gains a failed and a dead-lettered entry, and the metrics
    count one validation failure and one dead letter, no success and no failure. *)
Theorem tampered_payload_never_handled {B} `{BusLaws B} {W} (nowFn : nat -> Time)
  (handler handler' : TaskEnvelope -> W -> option string * W)
  (dlh : option (TaskEnvelope -> string -> W -> W)) d workerID (p : WorkerPool B W) :
  let e := DeliveryEnvelope d in let id := EnvTaskID e in
  let why := "payload_validation_failed" in
  (forall r, records (supervisor p) !! id = Some r -> payloadChecksum e <> PayloadChecksum r) ->
  let p' := processEnvelope nowFn handler dlh d workerID p in
  p' = processEnvelope nowFn handler' dlh d workerID p /\
  world p' = dead_world dlh e why (world p) /\
  bus_AckHistory id (messageBus (supervisor p')) = bus_AckHistory id (messageBus (supervisor p)) ++
    [mkMessageAck id AckStatusFailed (agentID p) why;
     mkMessageAck id AckStatusDeadLettered (agentID p) why] /\
  ValidationFailures (metrics p') = inc (ValidationFailures (metrics p)) /\
  DeadLettered (metrics p') = inc (DeadLettered (metrics p)) /\
  Succeeded (metrics p') = Succeeded (metrics p) /\ Failed (metrics p') = Failed (metrics p).
Proof.
  intros e id why Hbad p'. subst p'. rewrite !processEnvelope_eq.
  destruct (process_body_refused nowFn dlh d workerID (enter p) Hbad) as (s1 & Hb1 & Hq).
  rewrite !Hq. fold e id. fold why. split; [done|]. destruct (handleDeadLetter_effect nowFn dlh d why
    (record_metrics (recordValidationFailure id) (enter p <| supervisor := s1 |>))) as (Hw & Hh & Hm).
  split; [exact Hw|]. split.
  - etransitivity; [exact Hh|].
    transitivity (bus_AckHistory id (messageBus s1) ++
      [mkMessageAck id AckStatusDeadLettered (agentID p) why]); [done|].
    rewrite Hb1, (ledger_appends_eq _ _ _ _ (law_Ack_ledger _ _ _ _ _)). by rewrite <- app_assoc.
  - rewrite leave_metrics. setoid_rewrite Hm. unfold recordWorkFinished. cbn. by case_match.
Qed.

Definition refused_pool : WorkerPool MessageBus (list string) :=
  NewWorkerPool sample_supervisor "coder" 1 0 [].
Definition log_handler (e : TaskEnvelope) (w : list string) : option string * list string :=
  (None, w ++ [EnvTaskID e]).

Lemma sample_record_tampered :
  match records sample_supervisor !! "t1" with
  | Some r => String.eqb (payloadChecksum tampered_envelope) (PayloadChecksum r)
  | None => false end = false.
Proof. vm_compute. reflexivity. Qed.
#[local] Strategy opaque [sample_supervisor].
Lemma refused_pool_tampered r :
  records (supervisor refused_pool) !! EnvTaskID (DeliveryEnvelope (mkEnvelopeDelivery tampered_envelope None))
    = Some r -> payloadChecksum tampered_envelope <> PayloadChecksum r.
Proof.
  change (records sample_supervisor !! "t1" = Some r ->
          payloadChecksum tampered_envelope <> PayloadChecksum r).
  intros Hr Heq. pose proof sample_record_tampered as E. rewrite Hr in E.
  apply String.eqb_neq in E. by apply E.
Qed.

Lemma tampered_payload_never_handled_witness :
  payloadChecksum tampered_envelope <> payloadChecksum (sample_envelope "t1" "coder" 1 9) /\
  (let p' := processEnvelope tick_clock log_handler None (mkEnvelopeDelivery tampered_envelope None) 0
               refused_pool in
   world p' = [] /\ ValidationFailures (metrics p') = 1 /\ Succeeded (metrics p') = 0).
Proof.
  split; [vm_compute; discriminate|].
  destruct (tampered_payload_never_handled tick_clock log_handler log_handler None
    (mkEnvelopeDelivery tampered_envelope None) 0 refused_pool) as (_ & Hw & _ & Hv & _ & Hs & _).
  - exact refused_pool_tampered.
  - split; [exact Hw|]. split; [etransitivity; [exact Hv|reflexivity]|exact Hs].
Defined.

(** C18: a handler that always fails.  An envelope whose retry counter does not exceed its limit is
    dispatched on a fresh in-memory bus and the pool of its agent is started, which launches
    workers on the stream of the agent's topic.  Whatever the order of the moves of the stream and
    of the workers is, the handler has been called once in every turn of a worker that follows a
    look of the stream, up to [maxRetries - RetryCount + 1] times; before that the envelope is
    still pending and nothing is dead-lettered; from then on the stream and the mailbox are empty,
    the pool has dead-lettered the task once and called the dead-letter handler once, and nothing more
    happens.  The record is left with the handshake [dead_letter] but a status that is not
    terminal, which is why a later timeout sweep dead-letters the task again
    ([exhausted_task_dead_lettered_twice]). *)
Theorem failing_handler_exhausts_retries (nowFn : nat -> Time) err e timeout workers interval moves :
  hops_exceeded e = false -> Int.in_range (RetryCount e) -> Int.in_range (MaxRetries e) ->
  RetryCount e <= maxRetries e ->
  let attempts := S (Z.to_nat (maxRetries e - RetryCount e)) in
  let topic := AgentTopic (TargetAgent e) in
  let '(launched, p) := Start memory_stream (NewWorkerPool (Dispatch nowFn e (NewSupervisor NewMessageBus timeout)).2
             (TargetAgent e) workers interval (0, 0)%nat) in
  let s' := stream_run nowFn (failing_handler err) counting_dlh topic moves (mkStreamedPool p None) in
  let calls := turns false moves in
  let bus := messageBus (supervisor (pool s')) in
  launched = DeliveryWorkers topic (if workers <=? 0 then 1 else workers) /\
  ((calls < attempts)%nat -> world (pool s') = (calls, 0)%nat /\ DeadLetters bus = [] /\
     exists e', option_list (inHand s') ++ queue_of topic bus = [e'] /\ EnvTaskID e' = EnvTaskID e) /\
  ((attempts <= calls)%nat -> world (pool s') = (attempts, 1)%nat /\ inHand s' = None /\ queue_of topic bus = [] /\
     exists dead r, DeadLetters bus = [dead] /\ EnvTaskID dead = EnvTaskID e /\ IsDeadLetter dead = true /\
       records (supervisor (pool s')) !! EnvTaskID e = Some r /\
       HandshakeState r = "dead_letter" /\ isTerminalStatus (Status r) = false).
Proof.
  intros Hh Hr Hm Hle attempts topic. set (p0 := NewWorkerPool _ _ _ _ _). unfold Start.
  change (started p0) with false. cbv iota. cbn [memory_stream].
  set (p := _ <| supervisor ::= _ |>). cbv beta zeta. split; [done|].
  destruct (dispatch_awaits nowFn e timeout workers interval (0, 0)%nat Hh) as (e' & r & Haw);
    [by split|done|]. fold p0 in Haw.
  assert (awaiting (EnvTaskID e) (mkStreamedPool p None) e' r (pred attempts)) as Haw'
    by (destruct Haw as [[] Hp]; split; [split; done|exact Hp]).
  assert (deadLetters (messageBus (supervisor p)) = []) as Hd0 by apply (dispatch_no_dead nowFn e timeout Hh).
  assert (world p = (0, 0)%nat /\ agentID p = TargetAgent e) as [Hw0 Hag] by done. clearbody p. clear Haw p0.
  destruct (run_awaiting nowFn err _ moves _ _ _ _ Haw') as (Htopic & Hless & Hmore).
  cbn [pool EnvelopeStream.pool] in *. rewrite Hag, Hw0, Hd0 in *. unfold holding in *. cbn [inHand] in *.
  rewrite bool_decide_eq_false_2 in * by (by intros [? ?]).
  cbn zeta in *. fold topic in Htopic, Hless, Hmore. set (s' := stream_run _ _ _ _ _ _) in *. clearbody s'. split; intros Hn.
  - destruct Hless as (H1 & H2 & e2 & r2 & [Ht Hp]); [subst attempts; cbn; lia|].
    split; [by rewrite H1, Nat.add_0_r|]. split; [exact H2|]. exists e2.
    unfold pending in Hp. rewrite Htopic in Hp. split; [exact Hp|]. exact (aw_env_id _ _ _ _ _ Ht).
  - destruct Hmore as (H1 & [Hm' (r' & Hr' & Hst & Hhs)] & Hn' & dead & Hd & Hdid & Hdl); [subst attempts; cbn in *; lia|].
    rewrite Htopic in Hm'. split; [by rewrite H1, Nat.add_0_r|]. split; [done|]. split; [done|]. by exists dead, r'.
Qed.

(** A waiting stream, three attempts, two of the workers' moves coming too early. *)
Definition retry_twice : TaskEnvelope := sample_envelope "t1" "coder" 0 9 <| MaxRetries := 2 |>.
Definition busy_moves : list StreamMove := [Work 1; Feed; Feed; Work 0; Work 1; Feed; Work 1; Feed; Work 0; Feed; Work 0].
Lemma failing_handler_exhausts_retries_witness :
  let '(launched, p) := Start memory_stream (NewWorkerPool (Dispatch tick_clock retry_twice (NewSupervisor NewMessageBus 0)).2
             (TargetAgent retry_twice) 2 0 (0, 0)%nat) in
  launched = DeliveryWorkers (AgentTopic "coder") 2 /\ turns false busy_moves = 4%nat /\
  world (pool (stream_run tick_clock (failing_handler (fun _ => "boom")) counting_dlh
    (AgentTopic (TargetAgent retry_twice)) busy_moves (mkStreamedPool p None))) = (3, 1)%nat.
Proof.
  pose proof (failing_handler_exhausts_retries tick_clock (fun _ => "boom") retry_twice 0 2 0 busy_moves) as H.
  destruct (Start memory_stream _) as [launched p]. destruct H as (H1 & _ & H2).
  - reflexivity.
  - unfold Int.in_range, Int.min, Int.max. cbn. lia.
  - unfold Int.in_range, Int.min, Int.max. cbn. lia.
  - cbn. lia.
  - split; [exact H1|]. split; [reflexivity|]. apply H2. vm_compute. lia.
Defined.

(** An exhausted task is dead-lettered a second time by the timeout sweep.  The pool's
    [retryOrDeadLetter] dead-letters the envelope without making the record terminal, so after
    one failed attempt too many the next overdue sweep dead-letters the same task again. *)
Theorem exhausted_task_dead_lettered_twice :
  let pool := NewWorkerPool
    (Dispatch tick_clock (sample_envelope "t1" "coder" 0 9 <| MaxRetries := 1 |>)
       (NewSupervisor NewMessageBus (10 * second))).2 "coder" 1 0 (0, 0)%nat in
  let pool := (stream_run tick_clock (failing_handler (fun _ => "boom")) counting_dlh (AgentTopic "coder")
    [Feed; Work 0; Feed; Work 0] (mkStreamedPool pool None)).(EnvelopeStream.pool) in
  let swept := InspectTimeouts tick_clock ["t1"] (supervisor pool) in
  map EnvTaskID (DeadLetters (messageBus (supervisor pool))) = ["t1"] /\
  tr_dead_lettered swept.1 = 1 /\
  map EnvTaskID (DeadLetters (messageBus swept.2)) = ["t1"; "t1"].
Proof. vm_compute. repeat split; reflexivity. Qed.

(** On the in-memory bus an envelope refused for its payload is counted as dead-lettered but
    is not kept: the dead-letter list of the bus is unchanged, because only the ledger is told
    and the negative acknowledgement of a delivery without requeueing does nothing. *)
Theorem refused_payload_not_in_dead_letters {W} (nowFn : nat -> Time)
  (handler : TaskEnvelope -> W -> option string * W) dlh d workerID (p : WorkerPool MessageBus W) :
  let e := DeliveryEnvelope d in
  (forall r, records (supervisor p) !! EnvTaskID e = Some r ->
     payloadChecksum e <> PayloadChecksum r) ->
  let p' := processEnvelope nowFn handler dlh d workerID p in
  DeadLettered (metrics p') = inc (DeadLettered (metrics p)) /\
  DeadLetters (messageBus (supervisor p')) = DeadLetters (messageBus (supervisor p)).
Proof.
  intros e Hbad p'. subst p'. rewrite processEnvelope_eq.
  destruct (process_body_refused nowFn dlh d workerID (enter p) Hbad) as (s1 & Hb & Hq).
  rewrite Hq. split.
  - rewrite leave_metrics, handleDeadLetter_metrics. unfold recordWorkFinished. cbn. by case_match.
  - rewrite leave_bus. unfold handleDeadLetter, with_supervisor. cbn -[Ack].
    match goal with |- context [Ack nowFn ?i ?st ?w ?y ?s'] =>
      pose proof (Ack_messageBus nowFn i st w y s') as Ha; destruct (Ack nowFn i st w y s') as [a s2] end.
    cbn [fst snd] in Ha. unfold record_metrics, delivery_nack.
    match goal with |- context [call_dead_letter_handler dlh ?a ?b ?q] =>
      destruct (call_dlh_frame dlh a b q) as (Hs & _ & _) end.
    unfold DeadLetters. destruct (DeliveryTopic d); cbn -[call_dead_letter_handler]; rewrite Hs; cbn;
      rewrite Ha, Hb; cbn [bus_Ack message_bus]; by rewrite !MessageBus.Ack_dead.
Qed.

Lemma refused_payload_not_in_dead_letters_witness :
  let p' := processEnvelope tick_clock log_handler None (mkEnvelopeDelivery tampered_envelope None) 0
              refused_pool in
  DeadLettered (metrics p') = 1 /\ DeadLetters (messageBus (supervisor p')) = [].
Proof.
  destruct (refused_payload_not_in_dead_letters tick_clock log_handler None
    (mkEnvelopeDelivery tampered_envelope None) 0 refused_pool) as (Hm & Hd).
  - exact refused_pool_tampered.
  - split; [etransitivity; [exact Hm|reflexivity]|]. etransitivity; [exact Hd|]. vm_compute. reflexivity.
Defined.
