(* ===== verification/SubmissionScheduler.v ===== *)
(** * The submission scheduler (internal/kernel/orchestrator.go)

    Tasks waiting for dispatch are queued per group (session and branch); a worker takes the head
    of the eligible group with the best score, scanning round-robin from a cursor.  This file
    holds the data structure: every operation is the critical section under [s.mu]; the waiting
    on the channels [wake] and [space] is modelled in SchedulerConcurrency. *)
From S2P Require Import Prelude GoLib GoJSON Domain.
From Stdlib Require Import PrimFloat.

Record scheduledSubmission : Type := mkScheduledSubmission {
  delivery : Task;            (* the delivery's task *)
  groupKey : string;
  enqueued : Time }.

(** [totalPending] and [cursor] stay far below the bounds of [int] (see the invariant). *)
Record submissionScheduler : Type := mkSubmissionScheduler {
  queues : gmap string (list scheduledSubmission);
  order : list string;
  inflight : gmap string Z;
  maxBuffered : Z;
  maxInFlightPerGroup : Z;
  totalPending : Z;
  cursor : nat }.
#[export] Instance eta_submissionScheduler : Updatable submissionScheduler := fun s =>
  mkSubmissionScheduler (queues s) (order s) (inflight s) (maxBuffered s) (maxInFlightPerGroup s)
    (totalPending s) (cursor s).

Definition newSubmissionScheduler (buffered inFlight : Z) : submissionScheduler :=
  mkSubmissionScheduler ∅ [] ∅ (if buffered <=? 0 then 16 else buffered)
    (if inFlight <=? 0 then 1 else inFlight) 0 0.

Definition submissionBufferSize (concurrency : Z) : Z :=
  let concurrency := if concurrency <=? 0 then 1 else concurrency in
  maxInt (concurrency * 4) 16.

(** ** Group keys *)
Definition hint_string (hints : anymap) (key : string) : string :=
  match aget hints key with
  | None | Some ANil => ""
  | Some value => TrimSpace (Sprint value)
  end.
Definition routingHintString := hint_string.
Definition executionContractString := hint_string.

Definition submissionBranchKey (task : Task) : string :=
  firstNonEmptyString
    [TrimSpace (BranchID task);
     routingHintString (RoutingHints task) "cluster_id";
     routingHintString (RoutingHints task) "branch_id";
     routingHintString (RoutingHints task) "plan_step_id";
     executionContractString (ExecutionContract task) "cluster_id";
     executionContractString (ExecutionContract task) "branch_id";
     executionContractString (ExecutionContract task) "plan_step_id"].

Definition submissionGroupKey (task : Task) : string :=
  let branchKey := submissionBranchKey task in
  if negb (String.eqb (SessionID task) "") then
    if negb (String.eqb branchKey "") then SessionID task +:+ "::" +:+ branchKey
    else SessionID task
  else if negb (String.eqb branchKey "") then branchKey
  else if negb (String.eqb (ParentTaskID task) "") then ParentTaskID task
  else if negb (String.eqb (ID task) "") then ID task
  else "default".

(** ** Scores *)
Definition priorityWeight (p : Priority) : float :=
  match p with
  | PriorityLow => 10 | PriorityNormal => 20 | PriorityHigh => 30 | PriorityCritical => 40
  | PriorityOther _ => 0
  end%float.
Definition complexityBoost (c : Complexity) : float :=
  match c with
  | ComplexityLow => 6 | ComplexityMedium => 4 | ComplexityHigh => 2 | ComplexityCritical => 0
  | ComplexityOther _ => 0
  end%float.
Definition scoreScheduledTask (now : Time) (item : scheduledSubmission) : float :=
  let task := delivery item in
  let score := (priorityWeight (Priority_ task) + complexityBoost (Complexity_ task))%float in
  let score := if (score =? 0)%float
               then (priorityWeight PriorityNormal + complexityBoost ComplexityLow)%float else score in
  let ageSeconds := duration_seconds (time_sub now (enqueued item)) in
  if (0 <? ageSeconds)%float then (score + minFloat (ageSeconds / 2) 25)%float else score.

(** ** Operations *)
Definition queue_of_group (g : string) (s : submissionScheduler) : list scheduledSubmission :=
  default [] (queues s !! g).
Definition inflight_of (g : string) (s : submissionScheduler) : Z := default 0 (inflight s !! g).

(** The critical section of [enqueue]: [None] when the buffer is full. *)
Definition enqueue (item : scheduledSubmission) (s : submissionScheduler)
  : option submissionScheduler :=
  if totalPending s <? maxBuffered s then
    let s := match queues s !! groupKey item with
             | None => s <| order := order s ++ [groupKey item] |>
             | Some _ => s
             end in
    Some (s <| queues := <[groupKey item := queue_of_group (groupKey item) s ++ [item]]> (queues s) |>
            <| totalPending ::= Z.add 1 |>)
  else None.

(** The loop of [popNextLocked]: [now k] is the clock read when the k-th offset is scored. *)
Fixpoint scan_groups (now : nat -> Time) (s : submissionScheduler) (start : nat)
  (offsets : list nat) (best : option (nat * float)) : option (nat * float) :=
  match offsets with
  | [] => best
  | offset :: offsets =>
      let orderIndex := ((start + offset) `mod` length (order s))%nat in
      let best :=
        match order s !! orderIndex with
        | None => best
        | Some g =>
            match queue_of_group g s with
            | [] => best
            | head :: _ =>
                if maxInFlightPerGroup s <=? inflight_of g s then best
                else
                  let score := scoreScheduledTask (now offset) head in
                  match best with
                  | None => Some (orderIndex, score)
                  | Some (_, bestScore) =>
                      if (bestScore <? score)%float then Some (orderIndex, score) else best
                  end
            end
        end in
      scan_groups now s start offsets best
  end.

Definition popNextLocked (now : nat -> Time) (s : submissionScheduler)
  : option scheduledSubmission * submissionScheduler :=
  let n := length (order s) in
  if (n =? 0)%nat then (None, s)
  else
    let start := (cursor s `mod` n)%nat in
    match scan_groups now s start (seq 0 n) None with
    | None => (None, s)
    | Some (bestOrderIndex, _) =>
        match order s !! bestOrderIndex with
        | None => (None, s)
        | Some g =>
            match queue_of_group g s with
            | [] => (None, s)
            | item :: rest =>
                let s := match rest with
                  | [] =>
                      let order' := take bestOrderIndex (order s) ++ drop (S bestOrderIndex) (order s) in
                      s <| queues := delete g (queues s) |> <| order := order' |>
                        <| cursor := if (length order' =? 0)%nat then 0%nat
                                     else if (length order' <=? bestOrderIndex)%nat then 0%nat
                                     else bestOrderIndex |>
                  | _ =>
                      s <| queues := <[g := rest]> (queues s) |>
                        <| cursor := ((bestOrderIndex + 1) `mod` n)%nat |>
                  end in
                let s := s <| totalPending ::= fun k => k - 1 |> in
                (Some item, s <| inflight := <[g := inflight_of g s + 1]> (inflight s) |>)
            end
        end
    end.

Definition done_ (g : string) (s : submissionScheduler) : submissionScheduler :=
  if 0 <? inflight_of g s then
    let k := inflight_of g s - 1 in
    s <| inflight := if k =? 0 then delete g (inflight s) else <[g := k]> (inflight s) |>
  else s.
