(* ===== verification/SubmissionSchedulerProps.v ===== *)
(** * Correctness of the submission scheduler

    The representation invariant of the scheduler, what [popNextLocked] selects, first-in
    first-out order within a group, and the bound on the tasks in flight per group. *)
From S2P Require Import Prelude GoLib GoJSON Domain SubmissionScheduler.
From Stdlib Require Import PrimFloat.
Local Open Scope Z_scope.

(** A group from which [popNextLocked] may take a task. *)
Definition eligible (s : submissionScheduler) (g : string) : Prop :=
  queue_of_group g s <> [] /\ inflight_of g s < maxInFlightPerGroup s.

Definition group_size (s : submissionScheduler) (g : string) : nat := length (queue_of_group g s).

Record sched_ok (s : submissionScheduler) : Prop := {
  ok_nodup : NoDup (order s);
  ok_dom : forall g, g ∈ order s <-> is_Some (queues s !! g);
  ok_nonempty : forall g, queues s !! g <> Some [];
  ok_keys : forall g item, item ∈ queue_of_group g s -> groupKey item = g;
  ok_pending : totalPending s = Z.of_nat (list_sum_with (group_size s) (order s));
  ok_bound : totalPending s <= maxBuffered s;
  ok_inflight : forall g n, inflight s !! g = Some n -> 1 <= n <= maxInFlightPerGroup s;
  ok_cursor : (cursor s < Nat.max 1 (length (order s)))%nat;
  ok_limits : 0 < maxBuffered s /\ 0 < maxInFlightPerGroup s }.

Lemma queue_of_group_None g s : queues s !! g = None -> queue_of_group g s = [].
Proof. unfold queue_of_group. by intros ->. Qed.
Lemma in_order_queue s g : sched_ok s -> g ∈ order s <-> queue_of_group g s <> [].
Proof.
  intros Hs. rewrite (ok_dom s Hs). unfold queue_of_group. pose proof (ok_nonempty s Hs g) as Hn.
  destruct (queues s !! g) as [q|]; cbn; split.
  - intros _ ->. by apply Hn.
  - eauto.
  - intros [? ?]; done.
  - done.
Qed.
Lemma inflight_of_bounds s g : sched_ok s -> 0 <= inflight_of g s <= maxInFlightPerGroup s.
Proof.
  intros Hs. unfold inflight_of. pose proof (ok_limits s Hs). destruct (inflight s !! g) as [n|] eqn:Hn.
  - pose proof (ok_inflight s Hs g n Hn). cbn. lia.
  - cbn. lia.
Qed.

(** Replacing the contents of one group. *)
Lemma queue_of_group_insert g g' q s s' :
  queues s' = <[g := q]> (queues s) ->
  queue_of_group g' s' = if decide (g' = g) then q else queue_of_group g' s.
Proof.
  unfold queue_of_group. intros ->. case_decide; [subst; by rewrite lookup_insert_eq|].
  by rewrite lookup_insert_ne.
Qed.
Lemma queue_of_group_delete g g' s s' :
  queues s' = delete g (queues s) ->
  queue_of_group g' s' = if decide (g' = g) then [] else queue_of_group g' s.
Proof.
  unfold queue_of_group. intros ->. case_decide; [subst; by rewrite lookup_delete_eq|].
  by rewrite lookup_delete_ne.
Qed.
Lemma inflight_of_insert g g' n s s' :
  inflight s' = <[g := n]> (inflight s) ->
  inflight_of g' s' = if decide (g' = g) then n else inflight_of g' s.
Proof.
  unfold inflight_of. intros ->. case_decide; [subst; by rewrite lookup_insert_eq|].
  by rewrite lookup_insert_ne.
Qed.

Lemma sum_group_other s s' l :
  (forall g, g ∈ l -> group_size s' g = group_size s g) ->
  list_sum_with (group_size s') l = list_sum_with (group_size s) l.
Proof. intros Hl. apply list_sum_with_ext, Forall_forall. auto. Qed.

(** ** Enqueueing *)
Lemma newSubmissionScheduler_ok buffered inFlight : sched_ok (newSubmissionScheduler buffered inFlight).
Proof.
  split; cbn; try done; try (case_match; lia).
  - apply NoDup_nil_2.
  - intros g. rewrite lookup_empty. split; [by intros ?%not_elem_of_nil|by intros [? ?]].
  - intros g item. unfold queue_of_group. cbn. by intros ?%not_elem_of_nil.
  - lia.
  - split; case_match; lia.
Qed.

Lemma enqueue_spec item s s' : enqueue item s = Some s' ->
  totalPending s < maxBuffered s /\
  queues s' = <[groupKey item := queue_of_group (groupKey item) s ++ [item]]> (queues s) /\
  order s' = order s ++ (match queues s !! groupKey item with None => [groupKey item] | _ => [] end) /\
  inflight s' = inflight s /\ maxBuffered s' = maxBuffered s /\
  maxInFlightPerGroup s' = maxInFlightPerGroup s /\
  totalPending s' = 1 + totalPending s /\ cursor s' = cursor s.
Proof.
  unfold enqueue. destruct (Z.ltb_spec (totalPending s) (maxBuffered s)); [|done].
  intros [= <-]. split; [done|]. destruct (queues s !! groupKey item) as [q|] eqn:Hq; cbn.
  - by rewrite app_nil_r.
  - unfold queue_of_group. cbn. by rewrite Hq.
Qed.

Lemma enqueue_queue item s s' g : enqueue item s = Some s' ->
  queue_of_group g s' = queue_of_group g s ++ (if decide (g = groupKey item) then [item] else []).
Proof.
  intros (_ & Hq & _)%enqueue_spec. rewrite (queue_of_group_insert _ g _ s s' Hq).
  case_decide; [by subst|by rewrite app_nil_r].
Qed.

Lemma enqueue_ok item s s' : sched_ok s -> enqueue item s = Some s' -> sched_ok s'.
Proof.
  intros Hs He. pose proof (fun g => enqueue_queue item s s' g He) as Hqg.
  destruct (enqueue_spec item s s' He) as (Hlt & Hq & Ho & Hi & Hmb & Hmi & Ht & Hc).
  set (g0 := groupKey item) in *.
  split; rewrite ?Ho, ?Hq, ?Hi, ?Hmb, ?Hmi, ?Hc.
  - apply NoDup_app. split; [apply Hs|]. destruct (queues s !! g0) eqn:Hg0.
    + split; [by intros ? _ ?%not_elem_of_nil|by apply NoDup_nil_2].
    + split; [|apply NoDup_singleton]. intros g Hg ->%list_elem_of_singleton.
      apply (ok_dom s Hs) in Hg as [? ?]. congruence.
  - intros g. rewrite elem_of_app, (ok_dom s Hs). destruct (decide (g = g0)) as [->|Hne].
    + rewrite lookup_insert_eq. destruct (queues s !! g0) eqn:Hg0.
      * split; eauto.
      * split; eauto. intros _. right. by apply list_elem_of_singleton.
    + rewrite lookup_insert_ne by done. split; [|by left]. intros [?|Hin]; [done|].
      destruct (queues s !! g0); [by apply not_elem_of_nil in Hin|].
      apply list_elem_of_singleton in Hin. congruence.
  - intros g. destruct (decide (g = g0)) as [->|Hne].
    + rewrite lookup_insert_eq. intros [= Hnil]. by apply app_eq_nil in Hnil as [_ ?].
    + rewrite lookup_insert_ne by done. apply (ok_nonempty s Hs).
  - intros g i. rewrite Hqg, elem_of_app. intros [Hin|Hin]; [by apply (ok_keys s Hs)|].
    case_decide; [|by apply not_elem_of_nil in Hin]. by apply list_elem_of_singleton in Hin as ->.
  - rewrite Ht, (ok_pending s Hs), list_sum_with_app.
    assert (list_sum_with (group_size s') (order s) =
      list_sum_with (group_size s) (order s) +
      (if decide (g0 ∈ order s) then 1 else 0))%nat as ->.
    { apply (list_sum_with_bump _ _ g0 1); [apply Hs|]. intros g. unfold group_size.
      rewrite Hqg, length_app. by case_decide. }
    destruct (queues s !! g0) eqn:Hg0.
    + rewrite decide_True by (apply (ok_dom s Hs); eauto). cbn. lia.
    + rewrite decide_False by (rewrite (ok_dom s Hs), Hg0; by intros [? ?]). cbn.
      unfold group_size at 3. rewrite Hqg, decide_True by done.
      rewrite (queue_of_group_None g0 s Hg0). cbn. lia.
  - lia.
  - apply (ok_inflight s Hs).
  - pose proof (ok_cursor s Hs). rewrite length_app. lia.
  - apply (ok_limits s Hs).
Qed.

(** ** The selection loop of [popNextLocked] *)
Section Scan.
Context (now : nat -> Time) (s : submissionScheduler) (start : nat).

Definition order_index (offset : nat) : nat := ((start + offset) `mod` length (order s))%nat.
(** What the loop considers at one offset. *)
Definition candidate (offset : nat) : option (nat * float) :=
  match order s !! order_index offset with
  | None => None
  | Some g =>
      match queue_of_group g s with
      | [] => None
      | head :: _ =>
          if maxInFlightPerGroup s <=? inflight_of g s then None
          else Some (order_index offset, scoreScheduledTask (now offset) head)
      end
  end.
Definition better (best : option (nat * float)) (c : nat * float) : option (nat * float) :=
  match best with
  | None => Some c
  | Some b => if (b.2 <? c.2)%float then Some c else Some b
  end.

Lemma scan_groups_cons offset offsets best :
  scan_groups now s start (offset :: offsets) best =
  scan_groups now s start offsets
    (match candidate offset with None => best | Some c => better best c end).
Proof.
  cbn [scan_groups]. unfold candidate, better, order_index.
  destruct (order s !! _) as [g|]; [|done]. destruct (queue_of_group g s) as [|h q]; [done|].
  destruct (maxInFlightPerGroup s <=? inflight_of g s); [done|].
  destruct best as [[i b]|]; done.
Qed.

(** The result is the best so far or a strictly better candidate, and no candidate beats it. *)
Lemma scan_groups_spec offsets best :
  match scan_groups now s start offsets best with
  | None => best = None /\ forall o, o ∈ offsets -> candidate o = None
  | Some c =>
      (best = Some c \/ ((exists o, o ∈ offsets /\ candidate o = Some c) /\
                        forall b, best = Some b -> (b.2 <? c.2)%float = true)) /\
      (forall o c', o ∈ offsets -> candidate o = Some c' -> (c.2 <? c'.2)%float = false)
  end.
Proof.
  revert best. induction offsets as [|o offsets IH]; intros best.
  { cbn. destruct best as [c|]; [|split; [done|by intros o ?%not_elem_of_nil]].
    split; [by left|]. by intros o c' ?%not_elem_of_nil. }
  rewrite scan_groups_cons. specialize (IH (match candidate o with None => best | Some c => better best c end)).
  destruct (scan_groups _ _ _ _ _) as [c|].
  - destruct IH as [Hfrom Hall].
    assert ((best = Some c \/ ((exists o', o' ∈ o :: offsets /\ candidate o' = Some c) /\
                forall b, best = Some b -> (b.2 <? c.2)%float = true)) /\
            forall c0, candidate o = Some c0 -> (c.2 <? c0.2)%float = false) as [Hc Ho].
    { destruct (candidate o) as [c0|] eqn:Hc0.
      - assert (forall c1, better best c0 = Some c1 -> c1 = c0 ->
          (c.2 <? c0.2)%float = false) as Hnew.
        { intros c1 Hb ->. destruct Hfrom as [Hcb|[_ Hlt]].
          - assert (c = c0) as -> by congruence. apply float_ltb_irrefl.
          - by apply float_ltb_asym, Hlt. }
        unfold better in *. destruct best as [b|]; [destruct (b.2 <? c0.2)%float eqn:Hlt|].
        + split; [|intros ? [= <-]; by eapply Hnew]. right.
          destruct Hfrom as [[= ->]|[(o' & ? & ?) Hlt']].
          * split; [exists o; split; [left|done]|]. by intros ? [= <-].
          * split; [exists o'; split; [by right|done]|]. intros ? [= <-].
            eapply float_ltb_trans; [exact Hlt|by apply Hlt'].
        + destruct Hfrom as [[= ->]|[(o' & ? & ?) Hlt']].
          * split; [by left|]. by intros ? [= <-].
          * split; [right; split; [exists o'; split; [by right|done]|done]|].
            intros ? [= <-]. destruct (c.2 <? c0.2)%float eqn:Hcc; [|done].
            by rewrite (float_ltb_trans _ _ _ (Hlt' b eq_refl) Hcc) in Hlt.
        + split; [|intros ? [= <-]; by eapply Hnew]. right. split; [|done].
          destruct Hfrom as [[= ->]|[(o' & ? & ?) _]].
          * exists o. split; [left|done].
          * exists o'. split; [by right|done].
      - split; [|done]. destruct Hfrom as [?|[(o' & ? & ?) ?]]; [by left|].
        right. split; [|done]. exists o'. split; [by right|done]. }
    split; [done|]. intros o' c' [->|Ho']%elem_of_cons Hc'; eauto.
  - destruct IH as [Hbest Hall]. destruct (candidate o) as [c0|] eqn:Hc0.
    + exfalso. unfold better in Hbest. destruct best; [by destruct (_ <? _)%float|done].
    + split; [done|]. intros o' [->|Ho']%elem_of_cons; auto.
Qed.
End Scan.

(** Every position of [order] is visited. *)
Lemma order_index_surj (s : submissionScheduler) start i :
  (i < length (order s))%nat -> (start < length (order s))%nat ->
  exists o, o ∈ seq 0 (length (order s)) /\ order_index s start o = i.
Proof.
  intros Hi Hst. exists ((i + length (order s) - start) `mod` length (order s))%nat. split.
  - apply elem_of_seq. pose proof (Nat.mod_upper_bound (i + length (order s) - start) (length (order s))). lia.
  - unfold order_index. rewrite Nat.Div0.add_mod_idemp_r.
    replace (start + (i + length (order s) - start))%nat with (i + 1 * length (order s))%nat by lia.
    rewrite Nat.Div0.mod_add. by apply Nat.mod_small.
Qed.

Lemma candidate_eligible now s start o i sc :
  candidate now s start o = Some (i, sc) ->
  exists g head rest, order s !! i = Some g /\ queue_of_group g s = head :: rest /\
    inflight_of g s < maxInFlightPerGroup s /\ i = order_index s start o /\
    sc = scoreScheduledTask (now o) head.
Proof.
  unfold candidate. destruct (order s !! _) as [g|] eqn:Hg; [|done].
  destruct (queue_of_group g s) as [|h q] eqn:Hq; [done|].
  destruct (Z.leb_spec (maxInFlightPerGroup s) (inflight_of g s)); [done|].
  intros [= <- <-]. exists g, h, q. auto.
Qed.
Lemma eligible_candidate now s start i g head rest :
  order s !! i = Some g -> queue_of_group g s = head :: rest ->
  inflight_of g s < maxInFlightPerGroup s -> (start < length (order s))%nat ->
  exists o, o ∈ seq 0 (length (order s)) /\
    candidate now s start o = Some (i, scoreScheduledTask (now o) head).
Proof.
  intros Hg Hq Hi Hst. destruct (order_index_surj s start i) as (o & Ho & Hidx);
    [by eapply lookup_lt_Some|done|]. exists o. split; [done|].
  unfold candidate. rewrite Hidx, Hg, Hq.
  destruct (Z.leb_spec (maxInFlightPerGroup s) (inflight_of g s)); [lia|done].
Qed.

(** ** What [popNextLocked] does *)
Lemma pop_none now s s' : sched_ok s -> popNextLocked now s = (None, s') ->
  s' = s /\ forall g, ~ eligible s g.
Proof.
  intros Hs. unfold popNextLocked. destruct (Nat.eqb_spec (length (order s)) 0) as [Hn|Hn].
  { intros [= <-]. split; [done|]. intros g [Hq _]. apply (in_order_queue s g Hs) in Hq.
    apply length_zero_iff_nil in Hn. rewrite Hn in Hq. by apply not_elem_of_nil in Hq. }
  pose proof (scan_groups_spec now s (cursor s `mod` length (order s)) (seq 0 (length (order s))) None) as Hsc.
  destruct (scan_groups _ _ _ _ _) as [[i sc]|].
  - destruct Hsc as [[?|[(o & Ho & Hc) _]] _]; [done|].
    destruct (candidate_eligible _ _ _ _ _ _ Hc) as (g & h & q & Hg & Hq & _). by rewrite Hg, Hq.
  - intros [= <-]. split; [done|]. intros g [Hne Hlt]. destruct Hsc as [_ Hall].
    destruct (queue_of_group g s) as [|h q] eqn:Hq; [done|].
    assert (g ∈ order s) as Hin by (apply (in_order_queue s g Hs); by rewrite Hq).
    apply list_elem_of_lookup in Hin as [i Hi].
    destruct (eligible_candidate now s (cursor s `mod` length (order s)) i g h q Hi Hq Hlt) as (o & Ho & Hc).
    { apply Nat.mod_upper_bound. done. }
    by rewrite (Hall o Ho) in Hc.
Qed.

(** A successful pop takes the head of an eligible group whose score no eligible head beats (each
    score read at its own clock reading). *)
Lemma pop_some now s item s' : sched_ok s -> popNextLocked now s = (Some item, s') ->
  let g := groupKey item in
  exists rest o, queue_of_group g s = item :: rest /\ inflight_of g s < maxInFlightPerGroup s /\
    (forall g' h' q', queue_of_group g' s = h' :: q' -> inflight_of g' s < maxInFlightPerGroup s ->
       exists o', (scoreScheduledTask (now o) item <? scoreScheduledTask (now o') h')%float = false) /\
    queues s' = (if rest is [] then delete g (queues s) else <[g := rest]> (queues s)) /\
    (exists l1 l2, order s = l1 ++ g :: l2 /\ order s' = (if rest is [] then l1 ++ l2 else order s)) /\
    inflight s' = <[g := inflight_of g s + 1]> (inflight s) /\
    totalPending s' = totalPending s - 1 /\
    maxBuffered s' = maxBuffered s /\ maxInFlightPerGroup s' = maxInFlightPerGroup s /\
    (cursor s' < Nat.max 1 (length (order s')))%nat.
Proof.
  intros Hs. unfold popNextLocked. destruct (Nat.eqb_spec (length (order s)) 0) as [Hn|Hn]; [done|].
  pose proof (scan_groups_spec now s (cursor s `mod` length (order s)) (seq 0 (length (order s))) None) as Hsc.
  assert (cursor s `mod` length (order s) < length (order s))%nat as Hst by by apply Nat.mod_upper_bound.
  destruct (scan_groups _ _ _ _ _) as [[i sc]|]; [|done].
  destruct Hsc as [[?|[(o & Ho & Hc) _]] Hmax]; [done|].
  destruct (candidate_eligible _ _ _ _ _ _ Hc) as (g & h & q & Hg & Hq & Hlt & _ & Hsco).
  rewrite Hg, Hq. intros Heq.
  assert (groupKey h = g) as Hkey by (apply (ok_keys s Hs); rewrite Hq; left).
  assert (item = h) as -> by (destruct q; congruence). cbn zeta. rewrite Hkey. exists q, o.
  split; [done|]. split; [done|]. split.
  { intros g' h' q' Hq' Hlt'. assert (g' ∈ order s) as Hin.
    { apply (in_order_queue s g' Hs). by rewrite Hq'. }
    apply list_elem_of_lookup in Hin as [i' Hi'].
    destruct (eligible_candidate now s _ i' g' h' q' Hi' Hq' Hlt' Hst) as (o' & Ho' & Hc').
    exists o'. specialize (Hmax o' _ Ho' Hc'). cbn in Hmax. by rewrite <- Hsco. }
  assert (exists l1 l2, order s = l1 ++ g :: l2 /\ length l1 = i) as (l1 & l2 & Hord & Hl1).
  { exists (take i (order s)), (drop (S i) (order s)). split; [by rewrite take_drop_middle|].
    apply lookup_lt_Some in Hg. rewrite length_take. lia. }
  destruct q as [|h2 q].
  - injection Heq as <-. cbn. rewrite Hord. subst i.
    rewrite take_app_length, (drop_app_ge l1 (g :: l2)) by lia.
    replace (S (length l1) - length l1)%nat with 1%nat by lia. cbn [drop].
    split; [done|]. split; [by exists l1, l2|]. do 4 (split; [done|]).
    rewrite drop_0. destruct (Nat.eqb_spec (length (l1 ++ l2)) 0); [lia|].
    destruct (Nat.leb_spec (length (l1 ++ l2)) (length l1)); lia.
  - injection Heq as <-. cbn. split; [done|]. split; [by exists l1, l2|]. do 4 (split; [done|]).
    apply Nat.lt_le_trans with (length (order s)); [by apply Nat.mod_upper_bound|lia].
Qed.

Lemma pop_queue now s item s' g : sched_ok s -> popNextLocked now s = (Some item, s') ->
  queue_of_group g s = (if decide (g = groupKey item) then [item] else []) ++ queue_of_group g s'.
Proof.
  intros Hs Hp. destruct (pop_some now s item s' Hs Hp) as (rest & o & Hq & _ & _ & Hqs & _).
  destruct rest as [|i2 rest].
  - rewrite (queue_of_group_delete _ g s s' Hqs). case_decide; [by subst|done].
  - rewrite (queue_of_group_insert _ g _ s s' Hqs). case_decide; [by subst|done].
Qed.

Lemma pop_ok now s item s' : sched_ok s -> popNextLocked now s = (Some item, s') -> sched_ok s'.
Proof.
  intros Hs Hp. pose proof (fun g => pop_queue now s item s' g Hs Hp) as Hqg.
  destruct (pop_some now s item s' Hs Hp) as
    (rest & o & Hq & Hlt & _ & Hqs & (l1 & l2 & Hord & Hord') & Hi & Ht & Hmb & Hmi & Hcur).
  set (g := groupKey item) in *.
  assert (NoDup (l1 ++ g :: l2)) as Hnd by (rewrite <- Hord; apply Hs).
  assert ((g ∉ l1 ++ l2) /\ NoDup (l1 ++ l2)) as [Hgn Hnd'].
  { rewrite <- Permutation_middle in Hnd. by apply NoDup_cons in Hnd. }
  split; rewrite ?Hmb, ?Hmi; [| | | | | |  | done|apply (ok_limits s Hs)].
  - rewrite Hord'. destruct rest; [done|apply Hs].
  - intros g'. rewrite Hord', Hqs. pose proof (ok_dom s Hs g') as Hd. rewrite Hord in Hd.
    destruct rest; [|rewrite Hord, Hd; destruct (decide (g' = g)) as [->|]].
    + destruct (decide (g' = g)) as [->|Hne].
      * rewrite lookup_delete_eq. split; [done|by intros [? ?]].
      * rewrite lookup_delete_ne by done. rewrite <- Hd. rewrite <- Permutation_middle.
        rewrite elem_of_cons. split; [by right|by intros [?|?]].
    + rewrite lookup_insert_eq, <- Hd. split; [eauto|]. intros _. apply elem_of_app. right. left.
    + by rewrite lookup_insert_ne.
  - intros g'. rewrite Hqs. destruct rest.
    + intros [_ Hn]%lookup_delete_Some. by apply (ok_nonempty s Hs) in Hn.
    + intros [[_ ?]|[_ Hn]]%lookup_insert_Some; [done|by apply (ok_nonempty s Hs) in Hn].
  - intros g' i Hin. apply (ok_keys s Hs). rewrite (Hqg g'), elem_of_app. by right.
  - rewrite Ht, (ok_pending s Hs).
    assert (list_sum_with (group_size s) (order s) = list_sum_with (group_size s') (order s) + 1)%nat as ->.
    { rewrite (list_sum_with_bump (group_size s') (group_size s) g 1 (order s)).
      - rewrite decide_True; [done|]. rewrite Hord. apply elem_of_app. right. left.
      - apply Hs.
      - intros g'. unfold group_size. rewrite (Hqg g'), length_app. case_decide; cbn; lia. }
    rewrite Hord'. destruct rest; [|lia]. rewrite Hord, !list_sum_with_app. cbn [list_sum_with].
    assert (group_size s' g = 0%nat) as ->; [|lia]. unfold group_size.
    by rewrite (queue_of_group_delete g g s s' Hqs), decide_True.
  - rewrite Ht. pose proof (ok_bound s Hs). lia.
  - intros g' n. rewrite Hi. intros [[_ <-]|[_ Hn]]%lookup_insert_Some.
    + pose proof (inflight_of_bounds s g Hs). lia.
    + by apply (ok_inflight s Hs g').
Qed.

(** ** Completion *)
Lemma done_frame g s : queues (done_ g s) = queues s /\ order (done_ g s) = order s /\
  maxBuffered (done_ g s) = maxBuffered s /\ maxInFlightPerGroup (done_ g s) = maxInFlightPerGroup s /\
  totalPending (done_ g s) = totalPending s /\ cursor (done_ g s) = cursor s.
Proof. unfold done_. by case_match. Qed.

Lemma done_inflight g g' s : sched_ok s ->
  inflight_of g' (done_ g s) = if decide (g' = g) then Z.max 0 (inflight_of g s - 1) else inflight_of g' s.
Proof.
  intros Hs. unfold done_. pose proof (inflight_of_bounds s g Hs). destruct (Z.ltb_spec 0 (inflight_of g s)).
  - unfold inflight_of at 1. cbn. destruct (Z.eqb_spec (inflight_of g s - 1) 0).
    + case_decide; [subst; rewrite lookup_delete_eq; cbn; lia|by rewrite lookup_delete_ne].
    + case_decide; [subst; rewrite lookup_insert_eq; cbn; lia|by rewrite lookup_insert_ne].
  - case_decide; [subst; lia|done].
Qed.

Lemma done_ok g s : sched_ok s -> sched_ok (done_ g s).
Proof.
  intros Hs. destruct (done_frame g s) as (Hq & Ho & Hmb & Hmi & Ht & Hc).
  assert (forall g', queue_of_group g' (done_ g s) = queue_of_group g' s) as Hqg.
  { intros g'. unfold queue_of_group. by rewrite Hq. }
  split; rewrite ?Hq, ?Ho, ?Hmb, ?Hmi, ?Ht, ?Hc; try apply Hs.
  - intros g' i. rewrite Hqg. apply (ok_keys s Hs).
  - rewrite (ok_pending s Hs). f_equal. symmetry. apply sum_group_other. intros. unfold group_size.
    by rewrite Hqg.
  - intros g' n Hn. pose proof (done_inflight g g' s Hs) as Hd. unfold inflight_of at 1 in Hd.
    rewrite Hn in Hd. cbn in Hd. pose proof (inflight_of_bounds s g' Hs).
    unfold done_ in Hn. destruct (Z.ltb_spec 0 (inflight_of g s)); [|by apply (ok_inflight s Hs g')].
    cbn in Hn. destruct (Z.eqb_spec (inflight_of g s - 1) 0).
    + apply lookup_delete_Some in Hn as [_ Hn]. by apply (ok_inflight s Hs g').
    + apply lookup_insert_Some in Hn as [[-> <-]|[_ Hn]]; [lia|by apply (ok_inflight s Hs g')].
Qed.

(** ** Runs: the critical sections in any order *)
Inductive SchedOp : Type :=
  | SchedEnqueue (item : scheduledSubmission)
  | SchedPop (now : nat -> Time)
  | SchedDone (g : string).
Inductive SchedEvent : Type :=
  | Enqueued (item : scheduledSubmission)
  | Started (item : scheduledSubmission).

Definition sched_exec (op : SchedOp) (s : submissionScheduler) : list SchedEvent * submissionScheduler :=
  match op with
  | SchedEnqueue item =>
      match enqueue item s with Some s' => ([Enqueued item], s') | None => ([], s) end
  | SchedPop now =>
      match popNextLocked now s with (Some item, s') => ([Started item], s') | (None, s') => ([], s') end
  | SchedDone g => ([], done_ g s)
  end.
Fixpoint sched_run (ops : list SchedOp) (s : submissionScheduler)
  : list SchedEvent * submissionScheduler :=
  match ops with
  | [] => ([], s)
  | op :: ops =>
      let '(evs, s1) := sched_exec op s in
      let '(evs', s2) := sched_run ops s1 in (evs ++ evs', s2)
  end.

(** The tasks of group [g] enqueued and started, in order. *)
Fixpoint enqueued_in (g : string) (evs : list SchedEvent) : list scheduledSubmission :=
  match evs with
  | [] => []
  | Enqueued item :: evs =>
      (if decide (g = groupKey item) then [item] else []) ++ enqueued_in g evs
  | _ :: evs => enqueued_in g evs
  end.
Fixpoint started_in (g : string) (evs : list SchedEvent) : list scheduledSubmission :=
  match evs with
  | [] => []
  | Started item :: evs =>
      (if decide (g = groupKey item) then [item] else []) ++ started_in g evs
  | _ :: evs => started_in g evs
  end.
Lemma enqueued_in_app g k l : enqueued_in g (k ++ l) = enqueued_in g k ++ enqueued_in g l.
Proof. induction k as [|[] k IH]; cbn; rewrite ?IH, ?app_assoc; done. Qed.
Lemma started_in_app g k l : started_in g (k ++ l) = started_in g k ++ started_in g l.
Proof. induction k as [|[] k IH]; cbn; rewrite ?IH, ?app_assoc; done. Qed.

Lemma sched_exec_ok op s : sched_ok s -> sched_ok (sched_exec op s).2 /\
  forall g, queue_of_group g s ++ enqueued_in g (sched_exec op s).1 =
            started_in g (sched_exec op s).1 ++ queue_of_group g (sched_exec op s).2.
Proof.
  intros Hs. destruct op as [item|now|g]; cbn [sched_exec].
  - destruct (enqueue item s) as [s'|] eqn:He; cbn.
    + split; [by eapply enqueue_ok|]. intros g. rewrite (enqueue_queue item s s' g He). by rewrite app_nil_r.
    + split; [done|]. intros g. by rewrite app_nil_r.
  - destruct (popNextLocked now s) as [[item|] s'] eqn:Hp; cbn.
    + split; [by eapply pop_ok|]. intros g. rewrite (pop_queue now s item s' g Hs Hp).
      by rewrite !app_nil_r.
    + destruct (pop_none now s s' Hs Hp) as [-> _]. split; [done|]. intros g. by rewrite app_nil_r.
  - cbn. split; [by apply done_ok|]. intros g'. destruct (done_frame g s) as (Hq & _).
    unfold queue_of_group. rewrite Hq. by rewrite app_nil_r.
Qed.

Lemma sched_run_ok ops s : sched_ok s -> sched_ok (sched_run ops s).2 /\
  forall g, queue_of_group g s ++ enqueued_in g (sched_run ops s).1 =
            started_in g (sched_run ops s).1 ++ queue_of_group g (sched_run ops s).2.
Proof.
  revert s. induction ops as [|op ops IH]; intros s Hs; cbn [sched_run].
  - split; [done|]. intros g. cbn. by rewrite app_nil_r.
  - destruct (sched_exec_ok op s Hs) as [H1 Hq1]. destruct (sched_exec op s) as [evs s1].
    destruct (IH s1 H1) as [H2 Hq2]. destruct (sched_run ops s1) as [evs' s2]. cbn [fst snd] in *.
    split; [done|]. intros g. rewrite enqueued_in_app, started_in_app, app_assoc, Hq1.
    by rewrite <- !app_assoc, Hq2.
Qed.

Lemma sched_run_new ops buffered inFlight :
  sched_ok (sched_run ops (newSubmissionScheduler buffered inFlight)).2.
Proof. apply sched_run_ok, newSubmissionScheduler_ok. Qed.

(** ** Properties *)

(** C16: within a group, tasks start in the order they were submitted.  After any sequence of
    enqueues, pops and completions on a new scheduler, the tasks of a group that were accepted
    are, in order, those already started followed by those still queued: none is lost,
    duplicated, reordered or started under another group. *)
Theorem scheduler_group_fifo ops buffered inFlight g :
  let '(evs, s) := sched_run ops (newSubmissionScheduler buffered inFlight) in
  enqueued_in g evs = started_in g evs ++ queue_of_group g s.
Proof.
  pose proof (proj2 (sched_run_ok ops _ (newSubmissionScheduler_ok buffered inFlight)) g) as Hq.
  by destruct (sched_run _ _).
Qed.

(** C15: [popNextLocked] is complete and optimal.  In every reachable state of the scheduler it
    answers that there is no task iff no group is eligible (non-empty and below its in-flight
    limit); otherwise it starts the head of an eligible group whose score no eligible head
    exceeds, removes exactly that task, and counts it in flight. *)
Theorem pop_selects_best ops buffered inFlight (t : Time) :
  let s := (sched_run ops (newSubmissionScheduler buffered inFlight)).2 in
  match popNextLocked (fun _ => t) s with
  | (None, s') => s' = s /\ forall g, ~ eligible s g
  | (Some item, s') =>
      let g := groupKey item in
      eligible s g /\
      (forall g', queue_of_group g' s =
         (if decide (g' = g) then [item] else []) ++ queue_of_group g' s') /\
      (forall g', inflight_of g' s' = inflight_of g' s + (if decide (g' = g) then 1 else 0)) /\
      totalPending s' = totalPending s - 1 /\
      (forall g' h' q', eligible s g' -> queue_of_group g' s = h' :: q' ->
         (scoreScheduledTask t item <? scoreScheduledTask t h')%float = false)
  end.
Proof.
  intros s. pose proof (sched_run_new ops buffered inFlight : sched_ok s) as Hs.
  destruct (popNextLocked (fun _ => t) s) as [[item|] s'] eqn:Hp; [|by eapply pop_none].
  destruct (pop_some _ s item s' Hs Hp) as (rest & o & Hq & Hlt & Hmax & _ & _ & Hi & Ht & _).
  cbn zeta. split; [split; [by rewrite Hq|done]|].
  split; [intros g'; by eapply pop_queue|]. split; [|split; [done|]].
  - intros g'. rewrite (inflight_of_insert _ g' _ s s' Hi). case_decide; [by subst|lia].
  - intros g' h' q' [_ Hlt'] Hq'. by destruct (Hmax g' h' q' Hq' Hlt') as [_ ?].
Qed.

(** The scheduler's representation stays consistent: after any operations the group order
    has no duplicates and lists exactly the non-empty queues, every queued task is in the queue
    of its own group, the pending counter is the number of queued tasks and never exceeds the
    buffer, and every in-flight count is between one and the limit. *)
Theorem scheduler_representation ops buffered inFlight :
  let s := (sched_run ops (newSubmissionScheduler buffered inFlight)).2 in
  NoDup (order s) /\ (forall g, g ∈ order s <-> queue_of_group g s <> []) /\
  (forall g item, item ∈ queue_of_group g s -> groupKey item = g) /\
  totalPending s = Z.of_nat (list_sum_with (group_size s) (order s)) /\
  0 <= totalPending s <= maxBuffered s /\
  (forall g n, inflight s !! g = Some n -> 1 <= n <= maxInFlightPerGroup s) /\
  (order s = [] \/ (cursor s < length (order s))%nat).
Proof.
  intros s. pose proof (sched_run_new ops buffered inFlight : sched_ok s) as Hs.
  split; [apply Hs|]. split; [intros g; by apply in_order_queue|]. split; [apply Hs|].
  split; [apply Hs|]. split; [|split; [apply Hs|]].
  - pose proof (ok_bound s Hs). pose proof (ok_pending s Hs). lia.
  - pose proof (ok_cursor s Hs). destruct (order s); [by left|right; cbn in *; lia].
Qed.
