(* ===== verification/SchedulerConcurrency.v ===== *)
(** * Workers and wakeups of the submission scheduler (internal/kernel/orchestrator.go)

    [enqueue], [next] and [done] change the scheduler under its lock and signal the channels
    [wake] and [space] (capacity one) after releasing it.  The small-step system interleaves the
    producer [fillSubmissionScheduler], any number of [runSubmissionWorker] workers and the
    pending signals; cancelled contexts (shutdown) are left out.  A send to a channel on which
    another goroutine is already parked hands the token over directly, which is the token
    followed at once by that goroutine's wakeup. *)
From S2P Require Import Prelude GoLib GoJSON Domain SubmissionScheduler SubmissionSchedulerProps.

(** Where a worker stands in [runSubmissionWorker]. *)
Inductive WorkerAt : Type :=
  | AtNext                 (* about to lock in next *)
  | AtWake                 (* found nothing: waiting for <-s.wake *)
  | AtWork (g : string)    (* dispatching a task of group g, until done(g) *).
#[export] Instance WorkerAt_eq_dec : EqDecision WorkerAt.
Proof. solve_decision. Defined.

(** Where the producer stands in [enqueue]. *)
Inductive ProducerAt : Type :=
  | AtTasks                                  (* waiting for the next task delivery *)
  | AtEnqueue (item : scheduledSubmission)   (* about to lock in enqueue *)
  | AtSpace (item : scheduledSubmission)     (* found the buffer full: waiting for <-s.space *).

Record SchedSystem : Type := mkSchedSystem {
  sched : submissionScheduler;
  wake : bool;
  space : bool;
  waking : nat;              (* goroutines between Unlock and notifyWake *)
  spacing : nat;             (* goroutines between Unlock and notifySpace *)
  producer : ProducerAt;
  workers : list WorkerAt }.
#[export] Instance eta_SchedSystem : Updatable SchedSystem := fun y =>
  mkSchedSystem (sched y) (wake y) (space y) (waking y) (spacing y) (producer y) (workers y).

Definition set_worker (i : nat) (w : WorkerAt) (y : SchedSystem) : SchedSystem :=
  y <| workers := <[i := w]> (workers y) |>.

(** [true] marks the arrival of a new task from outside, the other steps run by themselves. *)
Inductive sched_step : bool -> SchedSystem -> SchedSystem -> Prop :=
  | SsArrive y item : producer y = AtTasks ->
      sched_step true y (y <| producer := AtEnqueue item |>)
  | SsEnqueue y item s' : producer y = AtEnqueue item -> enqueue item (sched y) = Some s' ->
      sched_step false y (y <| sched := s' |> <| producer := AtTasks |> <| waking ::= S |>)
  | SsFull y item : producer y = AtEnqueue item -> enqueue item (sched y) = None ->
      sched_step false y (y <| producer := AtSpace item |>)
  | SsSpace y item : producer y = AtSpace item -> space y = true ->
      sched_step false y (y <| space := false |> <| producer := AtEnqueue item |>)
  | SsNotifyWake y k : waking y = S k ->
      sched_step false y (y <| waking := k |> <| wake := true |>)
  | SsNotifySpace y k : spacing y = S k ->
      sched_step false y (y <| spacing := k |> <| space := true |>)
  | SsPop y i now item s' : workers y !! i = Some AtNext ->
      popNextLocked now (sched y) = (Some item, s') ->
      sched_step false y
        (set_worker i (AtWork (groupKey item)) (y <| sched := s' |> <| spacing ::= S |>))
  | SsNothing y i now s' : workers y !! i = Some AtNext ->
      popNextLocked now (sched y) = (None, s') ->
      sched_step false y (set_worker i AtWake (y <| sched := s' |>))
  | SsWake y i : workers y !! i = Some AtWake -> wake y = true ->
      sched_step false y (set_worker i AtNext (y <| wake := false |>))
  | SsDone y i g : workers y !! i = Some (AtWork g) ->
      sched_step false y (set_worker i AtNext (y <| sched ::= done_ g |> <| waking ::= S |>)).
Definition sched_steps (y y' : SchedSystem) : Prop := exists k, sched_step k y y'.

(** [StartSubmissionWorker]: an empty scheduler, [n] workers about to call [next]. *)
Definition sched_init (y : SchedSystem) : Prop :=
  exists buffered inFlight n,
    y = mkSchedSystem (newSubmissionScheduler buffered inFlight) false false 0 0 AtTasks
          (replicate n AtNext).

(** ** Invariant *)
Definition at_work_on (g : string) (w : WorkerAt) : nat :=
  match w with AtWork g' => if decide (g' = g) then 1 else 0 | _ => 0 end.
(** The workers dispatching a task of group [g]. *)
Definition busy (g : string) (y : SchedSystem) : nat := list_sum_with (at_work_on g) (workers y).

Record sys_ok (y : SchedSystem) : Prop := {
  sys_sched : sched_ok (sched y);
  sys_busy : forall g, inflight_of g (sched y) = Z.of_nat (busy g y);
  sys_wake : (exists g, eligible (sched y) g) ->
    wake y = true \/ (0 < waking y)%nat \/ workers y = [] \/
    exists i w, workers y !! i = Some w /\ w <> AtWake;
  sys_space : forall item, producer y = AtSpace item ->
    totalPending (sched y) < maxBuffered (sched y) -> space y = true \/ (0 < spacing y)%nat }.

Lemma busy_set i w w' y g : workers y !! i = Some w ->
  (busy g (set_worker i w' y) + at_work_on g w = busy g y + at_work_on g w')%nat.
Proof.
  unfold busy, set_worker. cbn. intros Hi. pose proof (take_drop_middle _ _ _ Hi) as Hs.
  rewrite (insert_take_drop _ _ _ (lookup_lt_Some _ _ _ Hi)). rewrite <- Hs at 3.
  rewrite !list_sum_with_app. cbn. lia.
Qed.

Lemma awake_set i w (ws : list WorkerAt) : (i < length ws)%nat -> w <> AtWake ->
  exists j w', <[i := w]> ws !! j = Some w' /\ w' <> AtWake.
Proof. intros Hi Hw. exists i, w. split; [|done]. by apply list_lookup_insert_eq. Qed.

Lemma enqueue_None item s : enqueue item s = None -> maxBuffered s <= totalPending s.
Proof. unfold enqueue. destruct (Z.ltb_spec (totalPending s) (maxBuffered s)); [by case_match|done]. Qed.

Lemma inflight_frame g s s' : inflight s' = inflight s -> inflight_of g s' = inflight_of g s.
Proof. unfold inflight_of. by intros ->. Qed.

Lemma sys_preserves k y y' : sched_step k y y' -> sys_ok y -> sys_ok y'.
Proof.
  intros Hstep [Hs Hb Hw Hsp].
  destruct Hstep as [y item Hp|y item s' Hp He|y item Hp He|y item Hp Hspace|y n Hn|y n Hn
    |y i now item s' Hi Hpop|y i now s' Hi Hpop|y i Hi Hwake|y i g Hi].
  - split; cbn; [done|done|done|done].
  - pose proof (enqueue_spec _ _ _ He) as (_ & _ & _ & Hin & _). split; cbn.
    + by eapply enqueue_ok.
    + intros g. etransitivity; [by apply inflight_frame|exact (Hb g)].
    + intros _. right; left. lia.
    + done.
  - split; cbn; [done|done|done|]. intros item' _ Hlt. apply enqueue_None in He. lia.
  - split; cbn; done.
  - split; cbn; [done|done|by left|done].
  - split; cbn; [done|done|done|by left].
  - pose proof (pop_some _ _ _ _ Hs Hpop) as (rest & o & _ & _ & _ & _ & _ & Hin & _). split; cbn.
    + by eapply pop_ok.
    + intros g. pose proof (busy_set i AtNext (AtWork (groupKey item))
        (y <| sched := s' |> <| spacing ::= S |>) g Hi) as Hset.
      change (busy g (y <| sched := s' |> <| spacing ::= S |>)) with (busy g y) in Hset.
      match type of Hset with (?b + _ = _)%nat => enough (inflight_of g s' = Z.of_nat b) as E by exact E end.
      rewrite (inflight_of_insert _ g _ _ _ Hin). rewrite Hb. cbn [at_work_on] in Hset.
      destruct (decide (g = groupKey item)) as [->|Hne].
      * rewrite decide_True in Hset by done. lia.
      * rewrite decide_False in Hset by congruence. rewrite Hb. lia.
    + intros _. right; right; right. apply awake_set; [|done].
      by eapply lookup_lt_Some.
    + intros. right. lia.
  - destruct (pop_none _ _ _ Hs Hpop) as [-> Hne]. split; cbn; [done| | |done].
    + intros g. pose proof (busy_set i AtNext AtWake (y <| sched := sched y |>) g Hi) as Hset.
      change (busy g (y <| sched := sched y |>)) with (busy g y) in Hset.
      match type of Hset with (?b + _ = _)%nat =>
        enough (inflight_of g (sched y) = Z.of_nat b) as E by exact E end. rewrite Hb. cbn [at_work_on] in Hset. lia.
    + intros [g Hg]. by destruct (Hne g).
  - split; cbn; [done| | |done].
    + intros g. pose proof (busy_set i AtWake AtNext (y <| wake := false |>) g Hi) as Hset.
      change (busy g (y <| wake := false |>)) with (busy g y) in Hset.
      match type of Hset with (?b + _ = _)%nat =>
        enough (inflight_of g (sched y) = Z.of_nat b) as E by exact E end. rewrite Hb. cbn [at_work_on] in Hset. lia.
    + intros _. right; right; right. apply awake_set; [|done].
      by eapply lookup_lt_Some.
  - split; cbn.
    + by apply done_ok.
    + intros g'. pose proof (busy_set i (AtWork g) AtNext (y <| sched ::= done_ g |> <| waking ::= S |>) g' Hi) as Hset.
      change (busy g' (y <| sched ::= done_ g |> <| waking ::= S |>)) with (busy g' y) in Hset.
      match type of Hset with (?b + _ = _)%nat =>
        enough (inflight_of g' (done_ g (sched y)) = Z.of_nat b) as E by exact E end.
      rewrite done_inflight by done. cbn [at_work_on] in Hset. destruct (decide (g' = g)) as [->|Hne].
      * rewrite decide_True in Hset by done. rewrite Hb. lia.
      * rewrite decide_False in Hset by congruence. rewrite Hb. lia.
    + intros _. right; left. lia.
    + intros item Hp. destruct (done_frame g (sched y)) as (_ & _ & -> & _ & -> & _). by apply (Hsp item).
Qed.

Lemma sys_invariant : inductive_invariant sched_init sched_steps sys_ok.
Proof.
  split.
  - intros y (buffered & inFlight & n & ->). split; cbn.
    + apply newSubmissionScheduler_ok.
    + intros g. unfold inflight_of, busy. cbn. induction n as [|n IH]; cbn; [done|exact IH].
    + intros [g [Hq _]]. by destruct Hq.
    + done.
  - intros y y' Hy [k Hk]. by eapply sys_preserves.
Qed.

(** ** Progress *)
(** By the system's own steps, without touching the producer, some worker gets to start a task. *)
Definition starts_task (y : SchedSystem) : Prop :=
  exists y1 i now item s', rtc (sched_step false) y y1 /\ sys_ok y1 /\ producer y1 = producer y /\
    workers y1 !! i = Some AtNext /\ popNextLocked now (sched y1) = (Some item, s').

Lemma starts_task_step y y' :
  sched_step false y y' -> producer y' = producer y -> starts_task y' -> starts_task y.
Proof.
  intros Hs Hp (y1 & i & now & item & s' & Hr & Hok & Hp1 & ?). exists y1, i, now, item, s'.
  split; [by eapply rtc_l|]. split; [done|]. split; [congruence|done].
Qed.

Lemma next_starts y i g : sys_ok y -> workers y !! i = Some AtNext -> eligible (sched y) g ->
  starts_task y.
Proof.
  intros Hok Hi Hg. destruct (popNextLocked (fun _ => 0) (sched y)) as [[item|] s'] eqn:Hp.
  - exists y, i, (fun _ => 0), item, s'. done.
  - destruct (pop_none _ _ _ (sys_sched y Hok) Hp) as [_ Hne]. by destruct (Hne g).
Qed.

Lemma eligible_done g g' s : sched_ok s -> eligible s g' -> eligible (done_ g s) g'.
Proof.
  intros Hs [Hq Hlt]. destruct (done_frame g s) as (Hqs & _ & _ & Hmi & _). split.
  - unfold queue_of_group. by rewrite Hqs.
  - rewrite Hmi, done_inflight by done. pose proof (inflight_of_bounds s g Hs).
    case_decide; [subst; lia|done].
Qed.

Lemma work_starts y i g g' : sys_ok y -> workers y !! i = Some (AtWork g) ->
  eligible (done_ g (sched y)) g' -> starts_task y.
Proof.
  intros Hok Hi Hg. pose proof (lookup_lt_Some _ _ _ Hi) as Hlt.
  eapply starts_task_step; [by apply (SsDone y i g)|done|].
  eapply (next_starts _ i g'); [|cbn; by apply list_lookup_insert_eq|exact Hg].
  eapply sys_preserves; [by apply (SsDone y i g)|done].
Qed.

Lemma wake_starts y i g : sys_ok y -> workers y !! i = Some AtWake -> wake y = true ->
  eligible (sched y) g -> starts_task y.
Proof.
  intros Hok Hi Hw Hg. pose proof (lookup_lt_Some _ _ _ Hi) as Hlt.
  eapply starts_task_step; [by apply (SsWake y i)|done|].
  eapply (next_starts _ i g); [|cbn; by apply list_lookup_insert_eq|exact Hg].
  eapply sys_preserves; [by apply (SsWake y i)|done].
Qed.

Lemma eligible_starts y g : sys_ok y -> workers y <> [] -> eligible (sched y) g -> starts_task y.
Proof.
  intros Hok Hne Hg.
  assert ((exists i w, workers y !! i = Some w /\ w <> AtWake) \/ workers y !! 0%nat = Some AtWake)
    as [(i & [| |g'] & Hi & Hw)|Hi].
  { destruct (workers y) as [|w ws] eqn:Hws; [done|]. destruct (decide (w = AtWake)) as [->|Hw].
    - by right.
    - left. exists 0%nat, w. done. }
  - by eapply next_starts.
  - done.
  - eapply work_starts; [done|done|]. by apply eligible_done; [apply Hok|].
  - destruct (sys_wake y Hok (ex_intro _ g Hg)) as [Hw|[Hw|[?|(j & w & Hj & Hw)]]].
    + by eapply wake_starts.
    + destruct (waking y) as [|n] eqn:Hn; [lia|].
      eapply starts_task_step; [by apply (SsNotifyWake y n)|done|].
      eapply wake_starts; [|exact Hi|done|exact Hg].
      eapply sys_preserves; [by apply (SsNotifyWake y n)|done].
    + done.
    + destruct w as [| |g']; [by eapply next_starts|done|].
      eapply work_starts; [done|done|]. by apply eligible_done; [apply Hok|].
Qed.

Lemma busy_worker g y : (0 < busy g y)%nat -> exists i, workers y !! i = Some (AtWork g).
Proof.
  unfold busy. induction (workers y) as [|w ws IH]; cbn; [lia|]. intros Hpos.
  destruct (at_work_on g w) eqn:Hw.
  - destruct IH as [i Hi]; [lia|]. by exists (S i).
  - exists 0%nat. cbn. destruct w as [| |g']; cbn in Hw; try done. case_decide; congruence.
Qed.

Lemma pending_starts y : sys_ok y -> workers y <> [] -> 0 < totalPending (sched y) -> starts_task y.
Proof.
  intros Hok Hne Hpos. pose proof (sys_sched y Hok) as Hs.
  assert (exists g, g ∈ order (sched y)) as [g Hg].
  { rewrite (ok_pending _ Hs) in Hpos. destruct (order (sched y)) as [|g l]; [cbn in Hpos; lia|].
    exists g. left. }
  apply (in_order_queue _ _ Hs) in Hg. pose proof (ok_limits _ Hs) as [_ Hmax].
  destruct (decide (inflight_of g (sched y) < maxInFlightPerGroup (sched y))) as [Hlt|Hge].
  - by apply (eligible_starts y g).
  - pose proof (sys_busy y Hok g) as Hb. destruct (busy_worker g y) as [i Hi]; [lia|].
    apply (work_starts y i g g Hok Hi). destruct (done_frame g (sched y)) as (Hqs & _ & _ & Hmi & _).
    split; [unfold queue_of_group; by rewrite Hqs|].
    rewrite Hmi, done_inflight, decide_True by done. pose proof (inflight_of_bounds _ g Hs). lia.
Qed.

(** A producer blocked although the buffer has room is woken. *)
Lemma space_enqueues y item : sys_ok y -> producer y = AtSpace item ->
  totalPending (sched y) < maxBuffered (sched y) ->
  exists y1 s', rtc (sched_step false) y y1 /\ producer y1 = AtEnqueue item /\
    enqueue item (sched y1) = Some s'.
Proof.
  intros Hok Hp Hlt.
  assert (exists s', enqueue item (sched y) = Some s') as [s' He].
  { unfold enqueue. apply Z.ltb_lt in Hlt. rewrite Hlt. eauto. }
  destruct (sys_space y Hok item Hp Hlt) as [Hsp|Hsp].
  - exists (y <| space := false |> <| producer := AtEnqueue item |>), s'. split; [|done].
    apply rtc_once. by apply SsSpace.
  - destruct (spacing y) as [|n] eqn:Hn; [lia|].
    exists (y <| spacing := n |> <| space := true |> <| space := false |> <| producer := AtEnqueue item |>), s'.
    split; [|done]. eapply rtc_l; [by apply (SsNotifySpace y n)|].
    apply rtc_once. by apply SsSpace.
Qed.

(** ** Properties *)

(** C17: at most [maxInFlightPerGroup] workers dispatch tasks of one group at a time, in every
    interleaving of the producer, the workers and their signals. *)
Theorem group_concurrency_bounded y g : reachable sched_init sched_steps y ->
  Z.of_nat (busy g y) <= maxInFlightPerGroup (sched y).
Proof.
  intros Hr. pose proof (invariant_reachable _ _ _ y sys_invariant Hr) as Hok.
  rewrite <- (sys_busy y Hok g). apply inflight_of_bounds, Hok.
Qed.

(** C4: the submission workers never deadlock.  In every reachable state with at least one
    worker, if a task is pending then the workers and the pending signals can, without any new
    arrival, bring a worker to start a task; and if the producer is blocked on a full buffer,
    they can bring it to enqueue its task (dispatching a task is assumed to return). *)
Theorem submission_workers_progress y : reachable sched_init sched_steps y -> workers y <> [] ->
  (0 < totalPending (sched y) -> starts_task y) /\
  (forall item, producer y = AtSpace item ->
     exists y1 s', rtc (sched_step false) y y1 /\ producer y1 = AtEnqueue item /\
       enqueue item (sched y1) = Some s').
Proof.
  intros Hr Hne. pose proof (invariant_reachable _ _ _ y sys_invariant Hr) as Hok.
  split; [by apply pending_starts|]. intros item Hp.
  destruct (decide (totalPending (sched y) < maxBuffered (sched y))) as [Hlt|Hfull].
  - by apply (space_enqueues y item).
  - pose proof (ok_limits _ (sys_sched y Hok)) as [Hmax _].
    destruct (pending_starts y Hok Hne) as (y1 & i & now & it & s' & Hr1 & Hok1 & Hp1 & Hi & Hpop); [lia|].
    destruct (space_enqueues (set_worker i (AtWork (groupKey it)) (y1 <| sched := s' |> <| spacing ::= S |>))
      item) as (y2 & s2 & Hr2 & Hp2 & He2).
    + eapply sys_preserves; [by eapply (SsPop y1 i)|done].
    + cbn. congruence.
    + cbn. pose proof (pop_some _ _ _ _ (sys_sched y1 Hok1) Hpop)
        as (_ & _ & _ & _ & _ & _ & _ & _ & -> & -> & _).
      pose proof (ok_bound _ (sys_sched y1 Hok1)). lia.
    + exists y2, s2. split; [|done]. etransitivity; [exact Hr1|].
      eapply rtc_l; [by eapply (SsPop y1 i)|done].
Qed.

(** ** A run with two workers and two tasks *)
Definition exec_pop (i : nat) (y : SchedSystem) : SchedSystem :=
  match popNextLocked (fun _ => 0) (sched y) with
  | (Some item, s') => set_worker i (AtWork (groupKey item)) (y <| sched := s' |> <| spacing ::= S |>)
  | (None, s') => set_worker i AtWake (y <| sched := s' |>)
  end.
Lemma exec_pop_step i y : workers y !! i = Some AtNext -> sched_steps y (exec_pop i y).
Proof.
  intros Hi. exists false. unfold exec_pop.
  destruct (popNextLocked (fun _ => 0) (sched y)) as [[item|] s'] eqn:Hp;
    [by eapply SsPop|by eapply SsNothing].
Qed.
Definition exec_submit (item : scheduledSubmission) (y : SchedSystem) : SchedSystem :=
  match enqueue item (sched y) with
  | Some s' => y <| producer := AtEnqueue item |> <| sched := s' |> <| producer := AtTasks |>
                 <| waking ::= S |> <| waking ::= pred |> <| wake := true |>
  | None => y
  end.
Lemma exec_submit_steps item y : producer y = AtTasks -> rtc sched_steps y (exec_submit item y).
Proof.
  intros Hp. unfold exec_submit. destruct (enqueue item (sched y)) as [s'|] eqn:He; [|done].
  eapply rtc_l; [exists true; by apply SsArrive|].
  eapply rtc_l; [exists false; eapply SsEnqueue; [reflexivity|exact He]|].
  apply rtc_once. exists false. by eapply SsNotifyWake.
Qed.
Definition exec_wake (i : nat) (y : SchedSystem) : SchedSystem := set_worker i AtNext (y <| wake := false |>).

Definition two_workers : SchedSystem :=
  mkSchedSystem (newSubmissionScheduler 8 1) false false 0 0 AtTasks (replicate 2 AtNext).
Definition submission_of (g : string) : scheduledSubmission :=
  mkScheduledSubmission (zero_task <| ID := g |> <| Priority_ := PriorityNormal |>) g 0.
Definition starved_system : SchedSystem :=
  exec_pop 0 (exec_wake 0 (exec_submit (submission_of "b") (exec_submit (submission_of "a")
    (exec_pop 1 (exec_pop 0 two_workers))))).

Lemma starved_system_reachable : reachable sched_init sched_steps starved_system.
Proof.
  exists two_workers. split; [by exists 8, 1, 2%nat|].
  set (y2 := exec_pop 1 (exec_pop 0 two_workers)).
  set (y4 := exec_submit (submission_of "b") (exec_submit (submission_of "a") y2)).
  apply rtc_l with (exec_pop 0 two_workers); [apply exec_pop_step; vm_compute; reflexivity|].
  apply rtc_l with y2; [apply exec_pop_step; vm_compute; reflexivity|].
  transitivity y4.
  { transitivity (exec_submit (submission_of "a") y2); apply exec_submit_steps; vm_compute; reflexivity. }
  apply rtc_l with (exec_wake 0 y4).
  { exists false. apply (SsWake y4 0%nat); vm_compute; reflexivity. }
  apply rtc_once. apply exec_pop_step. vm_compute. reflexivity.
Qed.

Lemma group_concurrency_bounded_witness :
  busy "a" starved_system = 1%nat /\ Z.of_nat (busy "a" starved_system) <= 1.
Proof.
  split; [vm_compute; reflexivity|].
  apply (group_concurrency_bounded starved_system "a" starved_system_reachable).
Defined.

Lemma submission_workers_progress_witness :
  totalPending (sched starved_system) = 1 /\ starts_task starved_system.
Proof.
  split; [vm_compute; reflexivity|].
  apply (submission_workers_progress starved_system starved_system_reachable).
  - intros H. apply (f_equal length) in H. vm_compute in H. discriminate H.
  - vm_compute. reflexivity.
Defined.

(** The wake channel can lose a wakeup.  Two tasks of different groups submitted while two
    idle workers have found nothing but not yet parked leave one token in the channel of capacity
    one; the worker that takes it starts one task without passing the token on.  The reachable
    state has an eligible task, an idle worker blocked on the channel, no token and no pending
    signal: the task waits until the busy worker is done. *)
Theorem submission_wakeup_lost :
  reachable sched_init sched_steps starved_system /\ eligible (sched starved_system) "b" /\
  workers starved_system = [AtWork "a"; AtWake] /\ wake starved_system = false /\
  waking starved_system = 0%nat /\ producer starved_system = AtTasks.
Proof.
  split; [exact starved_system_reachable|]. split.
  { split; [|vm_compute; reflexivity]. intros Hq. apply (f_equal length) in Hq. vm_compute in Hq.
    discriminate Hq. }
  vm_compute. repeat split; reflexivity.
Qed.
