(* ===== verification/TaskPolicy.v ===== *)
(** * Task policy (kernel/task_policy.go)

    What a task's text, type and declared capability say about it: the capability it needs,
    whether it is work on the SourceCraft repository service, and of which family. *)
From S2P Require Import Prelude GoLib GoJSON Domain.

Definition sourcecraftKeywords : list string :=
  ["sourcecraft"; "src "; " src"; "repo"; "repository"; "pull request"; "pr "; " pr"; "issue";
   "release"; "branch"; "tag"; "changelog"; "quota"; "status"].

Definition sourcecraftCapabilities : list string :=
  ["sourcecraft"; "repo_ops"; "pr_flow"; "release_flow"; "issue_flow"; "branch_governance"].

Definition sourcecraftTaskFamilies : list string :=
  ["repo_ops"; "pr_flow"; "release_flow"; "issue_flow"; "branch_governance"].

Definition sourcecraftSafeActionsByFamily : list (string * list string) :=
  [("repo_ops", ["repo_summary"; "status"; "current_branch"]);
   ("pr_flow", ["repo_summary"; "status"; "pr_checks"]);
   ("release_flow", ["repo_summary"; "status"; "repo_governance_report"]);
   ("issue_flow", ["repo_summary"; "status"]);
   ("branch_governance", ["current_branch"; "status"; "repo_governance_report"])].

Definition sourcecraftRoutable (t : TaskType) : bool :=
  match t with
  | TaskTypePlan | TaskTypeDocs | TaskTypeResearch => true
  | _ => false
  end.

Definition capabilityByTaskType (t : TaskType) : option string :=
  match t with
  | TaskTypePlan => Some "plan" | TaskTypeCode => Some "code" | TaskTypeReview => Some "review"
  | TaskTypeTest => Some "test" | TaskTypeDocs => Some "docs" | TaskTypeFix => Some "fix"
  | TaskTypeResearch => Some "research" | TaskTypeOther _ => None
  end.

(** Membership in a [map[string]struct{}] or a literal list of strings. *)
Definition mem_string (s : string) (l : list string) : bool := existsb (String.eqb s) l.

Lemma mem_string_spec s l : mem_string s l = true <-> s ∈ l.
Proof.
  unfold mem_string. rewrite existsb_exists. setoid_rewrite <- list_elem_of_In.
  setoid_rewrite String.eqb_eq. split; [by intros (x & ? & ->)|eauto].
Qed.

Definition taskText (task : Task) : string :=
  ToLower (Join (Description (Input task) ::
                   compactStrings (InputFiles (Input task)) ++
                   compactStrings (Constraints (Input task)) ++
                   compactStrings (AcceptanceCriteria (Input task))) " ").

Definition isSourcecraftWork (task : Task) : bool :=
  let capability := TrimSpace (ToLower (RequiredCapability task)) in
  if mem_string capability sourcecraftCapabilities then true
  else if negb (sourcecraftRoutable (Type_ task)) then false
  else let text := taskText task in existsb (Contains text) sourcecraftKeywords.

Definition inferCapability (task : Task) : string :=
  if negb (String.eqb (TrimSpace (RequiredCapability task)) "")
  then TrimSpace (RequiredCapability task)
  else if isSourcecraftWork task then "sourcecraft"
  else default "general" (capabilityByTaskType (Type_ task)).

Definition resolvedCapability (task : Task) : string := inferCapability task.

Definition SourcecraftSafeActions : list string :=
  ["repo_summary"; "status"; "current_branch"; "pr_checks"; "repo_governance_report"].

Definition SourcecraftTaskFamily (task : Task) : string :=
  let capability := TrimSpace (ToLower (RequiredCapability task)) in
  if mem_string capability sourcecraftCapabilities && negb (String.eqb capability "") &&
     negb (String.eqb capability "sourcecraft") then capability
  else
    let text := taskText task in
    if Contains text "pull request" || Contains text " pr" || Contains text "pr " then "pr_flow"
    else if Contains text "release" || Contains text "tag" || Contains text "changelog"
    then "release_flow"
    else if Contains text "issue" then "issue_flow"
    else if Contains text "branch" then "branch_governance"
    else "repo_ops".

Fixpoint assoc_strings (m : list (string * list string)) (k : string) : list string :=
  match m with
  | [] => []
  | (k', v) :: m => if String.eqb k k' then v else assoc_strings m k
  end.

Definition SourcecraftRecommendedActions (task : Task) : list string :=
  let actions := assoc_strings sourcecraftSafeActionsByFamily (SourcecraftTaskFamily task) in
  if (length actions =? 0)%nat then assoc_strings sourcecraftSafeActionsByFamily "repo_ops"
  else actions.

Definition supportsCapability (capabilities : list string) (required : string) : bool :=
  existsb (fun capability => String.eqb capability required || String.eqb capability "*")
    capabilities.

(** kernel/router.go: [toString]. *)
Definition toString (value : any) : string :=
  match value with AString s => s | _ => "" end.

(** [cloneHints] and [cloneMap] copy a map so that later writes do not reach the original;
    values being immutable here, the copy is the map itself (nil becomes the empty map). *)
Definition cloneHints (hints : anymap) : anymap := hints.

(** ** Properties *)
Lemma family_known task : SourcecraftTaskFamily task ∈ sourcecraftTaskFamilies.
Proof.
  unfold SourcecraftTaskFamily.
  destruct (mem_string (TrimSpace (ToLower (RequiredCapability task))) sourcecraftCapabilities) eqn:Hm;
    cbn [andb]; apply mem_string_spec; [|by repeat case_match].
  apply mem_string_spec in Hm. unfold sourcecraftCapabilities in Hm. revert Hm.
  generalize (TrimSpace (ToLower (RequiredCapability task))). intros c Hm.
  rewrite !elem_of_cons in Hm. destruct Hm as [->|Hm]; [by repeat case_match|].
  repeat (destruct Hm as [->|Hm]; [done|]). by apply not_elem_of_nil in Hm.
Qed.

(** Case analysis on a membership in a literal list. *)
Ltac elem_cases H :=
  rewrite !elem_of_cons in H;
  repeat (destruct H as [->|H]; [|]); [..|by apply not_elem_of_nil in H].

(** The capability inferred for a task is never empty, a declared one is kept up to
    surrounding space, and the actions recommended for SourceCraft work of any kind are a
    non-empty list of safe (read-only) actions of one of the five known families. *)
Theorem task_policy_total task :
  inferCapability task <> "" /\
  (TrimSpace (RequiredCapability task) <> "" ->
   inferCapability task = TrimSpace (RequiredCapability task)) /\
  SourcecraftTaskFamily task ∈ sourcecraftTaskFamilies /\
  SourcecraftRecommendedActions task <> [] /\
  (forall a, a ∈ SourcecraftRecommendedActions task -> a ∈ SourcecraftSafeActions).
Proof.
  split_and!.
  - unfold inferCapability. destruct (String.eqb_spec (TrimSpace (RequiredCapability task)) "");
      cbn; [|done]. case_match; [done|]. by destruct (Type_ task).
  - unfold inferCapability. intros. by case_match; simplify_eq; [|destruct (String.eqb_spec (TrimSpace (RequiredCapability task)) "")].
  - apply family_known.
  - pose proof (family_known task) as Hf. unfold SourcecraftRecommendedActions.
    revert Hf. generalize (SourcecraftTaskFamily task). intros f Hf.
    unfold sourcecraftTaskFamilies in Hf. by elem_cases Hf.
  - pose proof (family_known task) as Hf. unfold SourcecraftRecommendedActions.
    revert Hf. generalize (SourcecraftTaskFamily task). intros f Hf a Ha.
    apply mem_string_spec.
    unfold sourcecraftTaskFamilies in Hf. elem_cases Hf; cbn in Ha; by elem_cases Ha.
Qed.
