(* ===== verification/Config.v ===== *)
(** * Configuration from the environment (kernel/orchestrator.go)

    [envInt] and [envBool] read one variable with a fallback; the [default...] functions size
    the worker pools from the number of processors.  The process environment is the function
    [getenv] ([os.Getenv]: the empty string when the variable is not set). *)
From S2P Require Import Prelude GoLib GoJSON Domain TaskPolicy.

(** [strconv.Atoi]: an optional sign and decimal digits; [None] is a syntax or range error. *)
Fixpoint digits_value (acc : Z) (s : string) : option Z :=
  match s with
  | "" => Some acc
  | String c s =>
      let n := Z.of_N (Ascii.N_of_ascii c) in
      if (48 <=? n) && (n <=? 57) then digits_value (acc * 10 + (n - 48)) s else None
  end.
Definition decimal (s : string) : option Z :=
  match s with "" => None | _ => digits_value 0 s end.
Definition Atoi (s : string) : option Z :=
  let parsed :=
    match s with
    | String c rest =>
        if byte_is c 45 then Z.opp <$> decimal rest
        else if byte_is c 43 then decimal rest else decimal s
    | "" => None
    end in
  match parsed with
  | Some z => if (Int.min <=? z) && (z <=? Int.max) then Some z else None
  | None => None
  end.

Section Env.
Context (getenv : string -> string).

Definition envInt (key : string) (fallback : Z) : Z :=
  let value := TrimSpace (getenv key) in
  if String.eqb value "" then fallback
  else match Atoi value with
       | Some parsed => if parsed <? 0 then fallback else parsed
       | None => fallback
       end.

Definition envBool (key : string) (fallback : bool) : bool :=
  let value := ToLower (TrimSpace (getenv key)) in
  if mem_string value [""; "default"] then fallback
  else if mem_string value ["1"; "true"; "yes"; "on"] then true
  else if mem_string value ["0"; "false"; "no"; "off"] then false
  else fallback.

(** In nanoseconds. *)
Definition agentPollInterval : Z :=
  let ms := envInt "GO_CORE_AGENT_POLL_INTERVAL_MS" 500 in
  Int.wrap ((if ms <? 50 then 50 else ms) * millisecond).

Lemma envInt_nonneg key fallback : 0 <= fallback -> 0 <= envInt key fallback.
Proof. unfold envInt. intros. repeat case_match; lia. Qed.
End Env.

Definition defaultGlobalConcurrency (cpuCount : Z) : Z :=
  let cpuCount := if cpuCount <? 1 then 1 else cpuCount in
  let limit := Int.wrap (cpuCount * 2) in
  if limit <? 8 then 8 else limit.
Definition defaultPerAgentConcurrency (cpuCount : Z) : Z :=
  if cpuCount <=? 2 then 1 else if cpuCount <=? 8 then 2 else 4.
Definition defaultPerModelConcurrency (cpuCount : Z) : Z := if cpuCount <=? 4 then 1 else 2.
Definition defaultSubmitWorkers (cpuCount : Z) : Z :=
  if cpuCount <=? 2 then 1 else if cpuCount <=? 8 then 2 else 4.
Definition defaultResultWorkers (cpuCount : Z) : Z := if cpuCount <=? 4 then 1 else 2.
Definition defaultAgentWorkers (cpuCount : Z) : Z :=
  if cpuCount <=? 2 then 1 else if cpuCount <=? 8 then 2 else 4.

Example atoi_examples :
  map Atoi ["12"; "-7"; "+0"; ""; "1x"; "-"; "9223372036854775807"; "9223372036854775808"]
  = [Some 12; Some (-7); Some 0; None; None; None; Some Int.max; None].
Proof. reflexivity. Qed.
