(* ===== verification/Policy.v ===== *)
(** * Policy decisions and the execution profile (kernel/policy.go, kernel/execution_profile.go)

    Which tasks and assignments are refused before they run, and how much parallelism the process
    allows itself. *)
From S2P Require Import Prelude GoLib GoJSON Domain Config.

(** ** Policy decisions *)

(** [Evidence] is nil or the map of the state and the provider looked at. *)
Record PolicyDecision : Type := mkPolicyDecision {
  PolDecision : string;
  PolSeverity : string;
  PolReasons : list string;
  PolEvidence : option (AgentRuntimeState * string);
  PolVersion : string;
  PolNextAction : string;
  PolAgentID : string }.

Definition policyVersion : string := "go-core-policy-v1".
Definition fix_request (reason : string) : PolicyDecision :=
  mkPolicyDecision "reject" "error" [reason] None policyVersion "fix_request" "".
Definition preflightPolicy (task : Task) : PolicyDecision :=
  let description := TrimSpace (Description (Input task)) in
  if String.eqb (task_type_string (Type_ task)) "" then fix_request "task type is required"
  else if String.eqb description "" then fix_request "task description is required"
  else mkPolicyDecision "allow" "info" [] None policyVersion "route_task" "".

Definition assignment_reasons (task : Task) (acceptance : TaskAcceptance) (info : AgentInfo)
  (state : AgentRuntimeState) : list string :=
  let suppressed := match SuppressedUntil state with
                    | Some until => AcceptedAt acceptance <? until | None => false end in
  let closed := bool_decide (Status state = AgentStatusOffline) ||
                bool_decide (Status state = AgentStatusMaintenance) in
  let mismatch := negb (String.eqb (AssignedProvider task) "") &&
                  negb (EqualFold (AssignedProvider task) (InfoProvider info)) in
  (if suppressed then ["agent lane is currently suppressed"] else []) ++
  (if closed then ["agent is not routable in current runtime state"] else []) ++
  (if mismatch then ["assigned provider does not match routed agent"] else []).
Definition assignmentPolicy (task : Task) (acceptance : TaskAcceptance) (info : AgentInfo)
  (state : AgentRuntimeState) : PolicyDecision :=
  match assignment_reasons task acceptance info state with
  | [] => mkPolicyDecision "allow" "info" [] None policyVersion "execute" (InfoID info)
  | reasons => mkPolicyDecision "reject" "error" reasons (Some (state, InfoProvider info)) policyVersion
                 "reroute_or_recover" (InfoID info)
  end.

Definition decisionBlocks (decision : PolicyDecision) : bool :=
  EqualFold (PolDecision decision) "reject" || EqualFold (PolDecision decision) "block".

(** ** The execution profile *)
Record executionProfile : Type := mkExecutionProfile {
  LogicalCPUs : Z;
  MaxProcs : Z;
  ReservedProcs : Z;
  UsableParallelism : Z }.

(** The first variable that holds an integer. *)
Fixpoint firstIntEnv (getenv : string -> string) (keys : list string) : option Z :=
  match keys with
  | [] => None
  | key :: keys =>
      let value := TrimSpace (getenv key) in
      if String.eqb value "" then firstIntEnv getenv keys
      else match Atoi value with Some parsed => Some parsed | None => firstIntEnv getenv keys end
  end.

(** [procs] is the runtime's GOMAXPROCS; the profile comes with the value it leaves there. *)
Definition detectExecutionProfile (getenv : string -> string) (NumCPU procs : Z) : executionProfile * Z :=
  let procs := match firstIntEnv getenv ["AI_BRIDGE_GOMAXPROCS"; "GO_CORE_GOMAXPROCS"] with
               | Some override => if 0 <? override then override else procs
               | None => procs end in
  let logicalCPUs := if NumCPU <? 1 then 1 else NumCPU in
  let maxProcs := if procs <? 1 then 1 else procs in
  let reserved := default 1 (firstIntEnv getenv ["AI_BRIDGE_CPU_RESERVE"; "GO_CORE_CPU_RESERVE"]) in
  let reserved := if reserved <? 0 then 0 else reserved in
  let reserved := if maxProcs <=? reserved then (if maxProcs - 1 <? 0 then 0 else maxProcs - 1)
                  else reserved in
  let usable := if maxProcs - reserved <? 1 then 1 else maxProcs - reserved in
  let usable := match firstIntEnv getenv ["AI_BRIDGE_MAX_PARALLELISM"; "GO_CORE_MAX_PARALLELISM"] with
                | Some capValue => if (0 <? capValue) && (capValue <? usable) then capValue else usable
                | None => usable end in
  (mkExecutionProfile logicalCPUs maxProcs reserved usable, procs).
Definition ProfileMetadata (p : executionProfile) : anymap :=
  [("logical_cpus", AInt (LogicalCPUs p)); ("gomaxprocs", AInt (MaxProcs p));
   ("reserved_procs", AInt (ReservedProcs p)); ("usable_parallelism", AInt (UsableParallelism p))].

(** At least one processor is usable, and the usable and the reserved ones fit in those there are. *)
Lemma profile_bounds getenv NumCPU procs :
  let p := (detectExecutionProfile getenv NumCPU procs).1 in
  1 <= LogicalCPUs p /\ 1 <= UsableParallelism p /\ 0 <= ReservedProcs p /\
  UsableParallelism p + ReservedProcs p <= MaxProcs p.
Proof.
  unfold detectExecutionProfile. cbn zeta. cbn [fst LogicalCPUs UsableParallelism ReservedProcs MaxProcs].
  generalize (firstIntEnv getenv ["AI_BRIDGE_GOMAXPROCS"; "GO_CORE_GOMAXPROCS"])
    (firstIntEnv getenv ["AI_BRIDGE_CPU_RESERVE"; "GO_CORE_CPU_RESERVE"])
    (firstIntEnv getenv ["AI_BRIDGE_MAX_PARALLELISM"; "GO_CORE_MAX_PARALLELISM"]).
  intros o1 o2 o3. generalize (match o1 with Some n => if 0 <? n then n else procs | None => procs end).
  intros n. clear o1. generalize (default 1 o2). intros k. clear o2.
  assert (forall u, 1 <= u -> 1 <= match o3 with
    | Some c => if (0 <? c) && (c <? u) then c else u | None => u end <= u) as H.
  { intros u Hu. destruct o3 as [c|]; [|lia]. destruct (Z.ltb_spec 0 c), (Z.ltb_spec c u); cbn; lia. }
  match goal with |- context [match o3 with Some _ => _ | None => ?u end] => specialize (H u) end.
  destruct (Z.ltb_spec NumCPU 1), (Z.ltb_spec n 1), (Z.ltb_spec k 0);
    repeat match goal with
      | _ : context [?a <=? ?b] |- _ => destruct (Z.leb_spec a b)
      | _ : context [?a <? ?b] |- _ => destruct (Z.ltb_spec a b) end; lia.
Qed.
