(* ===== verification/StateMonad.v ===== *)
(** * The state monad

    Methods of a Go object that call each other while they update it are written in this monad:
    [ST S A] is a computation on a state [S] that returns an [A]. *)
From S2P Require Import Prelude.

Definition ST (S A : Type) : Type := S -> S * A.
#[export] Instance st_ret S : MRet (ST S) := fun A x s => (s, x).
#[export] Instance st_bind S : MBind (ST S) := fun A B f m s => let '(s', x) := m s in f x s'.

Definition get {S} : ST S S := fun s => (s, s).
Definition gets {S A} (f : S -> A) : ST S A := fun s => (s, f s).
Definition modify {S} (f : S -> S) : ST S () := fun s => (f s, ()).

(** A [for ... range] loop over a fixed list. *)
Fixpoint for_each {S A} (l : list A) (body : A -> ST S ()) : ST S () :=
  match l with
  | [] => mret ()
  | x :: l => body x ≫= fun _ => for_each l body
  end.

(** The final state and the result of a run. *)
Definition exec {S A} (m : ST S A) (s : S) : S := (m s).1.
Definition eval {S A} (m : ST S A) (s : S) : A := (m s).2.

Section Laws.
Context {S : Type}.

Lemma exec_bind {A B} (m : ST S A) (f : A -> ST S B) s :
  exec (m ≫= f) s = exec (f (eval m s)) (exec m s).
Proof. unfold exec, eval, mbind, st_bind. by destruct (m s). Qed.
Lemma eval_bind {A B} (m : ST S A) (f : A -> ST S B) s :
  eval (m ≫= f) s = eval (f (eval m s)) (exec m s).
Proof. unfold exec, eval, mbind, st_bind. by destruct (m s). Qed.
Lemma exec_ret {A} (x : A) (s : S) : exec (mret x) s = s.
Proof. done. Qed.
Lemma eval_ret {A} (x : A) (s : S) : eval (mret x) s = x.
Proof. done. Qed.
Lemma exec_gets {A} (f : S -> A) s : exec (gets f) s = s.
Proof. done. Qed.
Lemma eval_gets {A} (f : S -> A) s : eval (gets f) s = f s.
Proof. done. Qed.
Lemma exec_modify (f : S -> S) s : exec (modify f) s = f s.
Proof. done. Qed.

(** A property that every computation [body x] preserves is preserved by the loop. *)
Lemma for_each_preserves {A} (P : S -> Prop) (l : list A) (body : A -> ST S ()) s :
  (forall x s, x ∈ l -> P s -> P (exec (body x) s)) -> P s -> P (exec (for_each l body) s).
Proof.
  revert s. induction l as [|x l IH]; intros s Hb Hs; [done|]. cbn. rewrite exec_bind.
  apply IH; [intros y s' Hy; apply Hb; by right|]. apply Hb; [by left|done].
Qed.
End Laws.
Create Rewrite HintDb st_simpl.
#[export] Hint Rewrite @exec_bind @eval_bind @exec_ret @eval_ret @exec_gets @eval_gets @exec_modify
  : st_simpl.
Ltac st_simpl := autorewrite with st_simpl.

(** ** Reasoning about runs

    A computation takes [R]-steps when it ends in a state that is [R]-related to the one it starts in;
    a triple says what it returns as well. *)
Class Moves {S} (R : relation S) {A} (f : ST S A) : Prop := moves : forall s, R s (exec f s).
#[export] Hint Mode Moves + + + + : typeclass_instances.
Definition triple {S A} (pre : S -> Prop) (f : ST S A) (post : A -> S -> Prop) : Prop :=
  forall s, pre s -> post (eval f s) (exec f s).

Section Moves.
Context {S : Type} (R : relation S).
#[export] Instance moves_ret {A} (x : A) : Reflexive R -> Moves R (mret x).
Proof. intros HR s. apply HR. Qed.
#[export] Instance moves_gets {A} (f : S -> A) : Reflexive R -> Moves R (gets f).
Proof. intros HR s. apply HR. Qed.
#[export] Instance moves_bind {A B} (f : ST S A) (g : A -> ST S B) :
  Moves R f -> (forall x, Moves R (g x)) -> Transitive R -> Moves R (f ≫= g).
Proof. intros Hf Hg HR s. rewrite exec_bind. etransitivity; [apply Hf|apply Hg]. Qed.
#[export] Instance moves_if {A} (b : bool) (f g : ST S A) : Moves R f -> Moves R g -> Moves R (if b then f else g).
Proof. by destruct b. Qed.
End Moves.

Section Triples.
Context {S : Type}.
Lemma triple_bind {A B} (pre : S -> Prop) (f : ST S A) (g : A -> ST S B) mid post :
  triple pre f mid -> (forall x, triple (mid x) (g x) post) -> triple pre (f ≫= g) post.
Proof. intros Hf Hg s Hs. rewrite exec_bind, eval_bind. apply Hg, Hf, Hs. Qed.
Lemma triple_ret {A} (pre : S -> Prop) (x : A) (post : A -> S -> Prop) : (forall s, pre s -> post x s) -> triple pre (mret x) post.
Proof. intros H s Hs. by apply H. Qed.
Lemma triple_gets {A} (pre : S -> Prop) (f : S -> A) (post : A -> S -> Prop) :
  (forall s, pre s -> post (f s) s) -> triple pre (gets f) post.
Proof. intros H s Hs. by apply H. Qed.
Lemma triple_moves {A} (R : relation S) (f : ST S A) s0 : Transitive R -> Moves R f -> triple (R s0) f (fun _ => R s0).
Proof. intros HR Hf s Hs. etransitivity; [exact Hs|apply Hf]. Qed.
Lemma triple_weaken {A} (pre pre' : S -> Prop) (f : ST S A) (post post' : A -> S -> Prop) :
  (forall s, pre s -> pre' s) -> (forall x s, post' x s -> post x s) -> triple pre' f post' -> triple pre f post.
Proof. intros H1 H2 H s Hs. apply H2, H, H1, Hs. Qed.
End Triples.
