(* ===== verification/AgentRegistry.v ===== *)
(** * The agent registry (kernel/registry.go)

    Agents and modules by name, the runtime state the kernel keeps for each agent and the
    callbacks to run when an agent registers.  Every operation holds the registry's lock. *)
From S2P Require Import Prelude GoLib GoJSON Domain.
From Stdlib Require Import PrimFloat.

(** [agents.Agent], as the kernel sees it: [OverridesModel] is what a type assertion to
    [AssignedModelOverrider] finds.  Executing a task is not part of this interface here. *)
Record Agent : Type := mkAgent {
  Info : AgentInfo;
  CanAccept : Task -> bool;
  OverridesModel : bool }.

(** A registration callback; running it is recorded, what it does is the caller's code. *)
Definition Listener := nat.

Record Registry : Type := mkRegistry {
  agents : gmap string Agent;
  modules : gmap string ModuleInfo;
  runtimeStates : gmap string AgentRuntimeState;
  agentRegistrations : list Listener }.
#[export] Instance eta_Registry : Updatable Registry := fun r =>
  mkRegistry (agents r) (modules r) (runtimeStates r) (agentRegistrations r).

Definition NewRegistry : Registry := mkRegistry ∅ ∅ ∅ [].

(** The new registry and the callbacks run on the agent, in order. *)
Definition RegisterAgent (now : Time) (agent : Agent) (r : Registry) : Registry * list Listener :=
  let info := Info agent in
  let state := match runtimeStates r !! InfoID info with
    | None => mkAgentRuntimeState (InfoID info) (InfoProvider info) (InfoStatus info) 1 0 0 0 0 0
                "" "" "" "" 0 None now
    | Some state =>
        let state := state <| StProvider := InfoProvider info |> in
        let state := if bool_decide (Status state = AgentStatusOther "")
                     then state <| Status := InfoStatus info |> else state in
        state <| StUpdatedAt := now |>
    end in
  (r <| agents ::= <[InfoID info := agent]> |>
     <| runtimeStates ::= <[InfoID info := state]> |>, agentRegistrations r).

Definition OnAgentRegistered (listener : option Listener) (r : Registry) : Registry :=
  match listener with
  | None => r
  | Some l => r <| agentRegistrations ::= (fun ls => ls ++ [l]) |>
  end.

Definition RegisterModule (module : ModuleInfo) (r : Registry) : Registry :=
  r <| modules ::= <[ModuleName module := module]> |>.

Definition agent_less (a b : Agent) : bool := String.ltb (InfoID (Info a)) (InfoID (Info b)).
Definition Agents (r : Registry) : list Agent := sort_slice agent_less (map snd (map_to_list (agents r))).
Definition AgentByID (agentID : string) (r : Registry) : option Agent := agents r !! agentID.

(** An agent's info with the status the kernel has for it. *)
Definition live_info (r : Registry) (agent : Agent) : AgentInfo :=
  let info := Info agent in
  match runtimeStates r !! InfoID info with
  | Some state => if bool_decide (Status state = AgentStatusOther "") then info
                  else info <| InfoStatus := Status state |>
  | None => info
  end.
Definition info_less (a b : AgentInfo) : bool := String.ltb (InfoID a) (InfoID b).
Definition AgentInfos (r : Registry) : list AgentInfo :=
  sort_slice info_less (map (live_info r) (map snd (map_to_list (agents r)))).

Definition SetRuntimeState (now : Time) (state : AgentRuntimeState) (r : Registry) : Registry :=
  if String.eqb (AgentID state) "" then r
  else
    let state := if IsZero (StUpdatedAt state) then state <| StUpdatedAt := now |> else state in
    let state := match runtimeStates r !! AgentID state with
      | Some existing =>
          let state := if String.eqb (StProvider state) ""
                       then state <| StProvider := StProvider existing |> else state in
          if bool_decide (Status state = AgentStatusOther "")
          then state <| Status := Status existing |> else state
      | None => state
      end in
    r <| runtimeStates ::= <[AgentID state := state]> |>.

Definition RuntimeState (agentID : string) (r : Registry) : option AgentRuntimeState :=
  runtimeStates r !! agentID.
Definition state_less (a b : AgentRuntimeState) : bool := String.ltb (AgentID a) (AgentID b).
Definition RuntimeStates (r : Registry) : list AgentRuntimeState :=
  sort_slice state_less (map snd (map_to_list (runtimeStates r))).

Definition module_less (a b : ModuleInfo) : bool := String.ltb (ModuleName a) (ModuleName b).
Definition Modules (r : Registry) : list ModuleInfo :=
  sort_slice module_less (map snd (map_to_list (modules r))).
Definition ModuleInfos (r : Registry) : list ModuleInfo := Modules r.

(** ** Invariant: entries are filed under their own names *)
Record registry_ok (r : Registry) : Prop := mkRegistryOk {
  agents_filed : forall id a, agents r !! id = Some a -> InfoID (Info a) = id;
  states_filed : forall id s, runtimeStates r !! id = Some s -> AgentID s = id }.

Lemma NewRegistry_ok : registry_ok NewRegistry.
Proof. split; intros id x; cbn; by rewrite lookup_empty. Qed.

Lemma RegisterAgent_ok now agent r : registry_ok r -> registry_ok (RegisterAgent now agent r).1.
Proof.
  intros [Ha Hs]. split; cbn; intros id x.
  - intros [[<- <-]|[_ Hx]]%lookup_insert_Some; [done|by apply Ha].
  - intros [[<- <-]|[_ Hx]]%lookup_insert_Some; [|by apply Hs].
    destruct (runtimeStates r !! InfoID (Info agent)) as [s|] eqn:Hr; [|done].
    case_bool_decide; cbn; by apply Hs.
Qed.

Lemma SetRuntimeState_ok now state r : registry_ok r -> registry_ok (SetRuntimeState now state r).
Proof.
  intros [Ha Hs]. unfold SetRuntimeState. destruct (String.eqb (AgentID state) ""); [by split|].
  split; cbn; [exact Ha|]. intros id x. intros [[<- <-]|[_ Hx]]%lookup_insert_Some; [done|by apply Hs].
Qed.

(** [SetRuntimeState] writes the state of the agent it names and no other. *)
Lemma SetRuntimeState_agents now state r : agents (SetRuntimeState now state r) = agents r.
Proof. unfold SetRuntimeState. by destruct (String.eqb (AgentID state) ""). Qed.

Lemma SetRuntimeState_ne now state r id :
  AgentID state <> id -> runtimeStates (SetRuntimeState now state r) !! id = runtimeStates r !! id.
Proof.
  intros Hne. unfold SetRuntimeState. destruct (String.eqb (AgentID state) ""); [done|]. cbn.
  apply lookup_insert_ne. destruct (IsZero _); destruct (runtimeStates r !! _); cbn; repeat case_match; done.
Qed.

Lemma SetRuntimeState_eq now state r :
  AgentID state <> "" -> StUpdatedAt state <> 0 -> StProvider state <> "" ->
  Status state <> AgentStatusOther "" ->
  runtimeStates (SetRuntimeState now state r) !! AgentID state = Some state.
Proof.
  intros Hid Hup Hp Hst. unfold SetRuntimeState, IsZero.
  rewrite (proj2 (String.eqb_neq _ _) Hid), (proj2 (Z.eqb_neq _ _) Hup). cbn zeta.
  rewrite (proj2 (String.eqb_neq _ _) Hp). rewrite (bool_decide_eq_false_2 _ Hst).
  destruct (runtimeStates r !! AgentID state); cbn; apply lookup_insert_eq.
Qed.

Lemma elem_of_Agents r a : registry_ok r -> a ∈ Agents r <-> agents r !! InfoID (Info a) = Some a.
Proof.
  intros [Ha _]. unfold Agents. rewrite sort_slice_elem, list_elem_of_fmap. split.
  - intros ([id b] & -> & Hb%elem_of_map_to_list). cbn. by rewrite (Ha _ _ Hb).
  - intros Hb. exists (InfoID (Info a), a). split; [done|by apply elem_of_map_to_list].
Qed.

Lemma Agents_nodup r : registry_ok r -> NoDup (map (fun a => InfoID (Info a)) (Agents r)).
Proof.
  intros [Ha _]. unfold Agents. rewrite (sort_slice_perm agent_less), map_map.
  assert (map (fun kv => InfoID (Info kv.2)) (map_to_list (agents r)) = map fst (map_to_list (agents r))) as ->.
  { apply map_ext_in. intros [id a] Hin%list_elem_of_In. apply elem_of_map_to_list in Hin. by apply Ha. }
  apply NoDup_fst_map_to_list.
Qed.
