(* ===== verification/RuntimeManager.v ===== *)
(** * The runtime manager (kernel/runtime_manager.go)

    Health of the execution lanes: failures and successes move an agent between ready, degraded
    and maintenance, a lane can be suppressed for a time, and every change recomputes the cached
    routing weights the router reads.  Reading a state may write it back normalised, so all
    operations run in the state monad.  An operation reads the clock once, as [now]. *)
From S2P Require Import Prelude GoLib GoJSON Domain StateMonad AgentRegistry.
From Stdlib Require Import PrimFloat.

Record Runtime : Type := mkRuntime {
  registry : Registry;
  routingWeights : gmap string float }.
#[export] Instance eta_Runtime : Updatable Runtime := fun m => mkRuntime (registry m) (routingWeights m).

Record CapacitySnapshot : Type := mkCapacitySnapshot {
  CapInFlight : Z;
  CapAgentSlotUsage : float;
  CapModelSlotUsage : float;
  CapGlobalSlotUsage : float }.

Abbreviation RT := (ST Runtime).

(** ** Arithmetic on loads *)
Definition clampRuntimeLoad (value : float) : float :=
  (if value <? 0 then 0 else if 1 <? value then 1 else value)%float.
Definition maxRuntimeFloat (values : list float) : float :=
  foldl (fun maxValue value => if (maxValue <? value)%float then value else maxValue) 0%float values.
Definition maxRuntimeInt (value floor : Z) : Z := if value <? floor then floor else value.
Definition liveLoadPressure (state : AgentRuntimeState) : float :=
  clampRuntimeLoad (maxRuntimeFloat
    [AgentSlotUsage state; maxRuntimeFloat [ModelSlotUsage state; GlobalSlotUsage state]]).

(** [p != nil && p.After(now)] *)
Definition after (p : option Time) (now : Time) : bool :=
  match p with Some t => now <? t | None => false end.

Definition runtimePriorityWeight (now : Time) (state : AgentRuntimeState) : float :=
  (let weight := match Status state with
     | AgentStatusReady => 1.0 | AgentStatusBusy => 0.8 | AgentStatusDegraded => 0.45
     | AgentStatusMaintenance | AgentStatusOffline => 0.0 | AgentStatusOther _ => 0.5 end in
   if after (SuppressedUntil state) now then 0.0
   else
     let weight := if 0 <? ErrorRate state
                   then weight * math_Max 0.05 (1 - ErrorRate state) else weight in
     let loadPenalty := math_Max (AgentSlotUsage state)
                          (math_Max (ModelSlotUsage state) (GlobalSlotUsage state)) in
     let weight := if 0 <? loadPenalty
                   then weight * math_Max 0.10 (1 - loadPenalty * 0.65) else weight in
     if weight <? 0 then 0 else if 1 <? weight then 1 else weight)%float.

(** ** Worker classes *)
Definition runtimeAgentMatchesWorkerClass (info : AgentInfo) (workerClass : string) : bool :=
  let agentType := ToLower (TrimSpace (InfoType info)) in
  let has := Contains agentType in
  if String.eqb workerClass "" then false
  else if has workerClass then true
  else if String.eqb workerClass "code" then has "coder" || has "coding" || has "implement"
  else if String.eqb workerClass "review" then has "review"
  else if String.eqb workerClass "test" then has "test" || has "qa"
  else if String.eqb workerClass "retrieval" then has "research" || has "analysis"
  else if String.eqb workerClass "merge" then has "orchestrator" || has "review" || has "analysis"
  else if String.eqb workerClass "verification" then has "verify" || has "review" || has "test"
  else if String.eqb workerClass "planner" then has "plan" || has "orchestrator"
  else String.eqb workerClass "fallback".

(** ** Provider catalogs *)
Definition providerModelRoutingReady (model : ProviderModelStatus) : bool :=
  ModelAvailable model && EqualFold (TrimSpace (ModelStatus model)) "ready" &&
  EqualFold (TrimSpace (VerificationStatus model)) "confirmed".

(** kernel/model_registry.go.  [Duration] products wrap at 64 bits. *)
Definition minute : Z := 60 * second.
Definition providerSnapshotRoutingUsable (snapshot : ProviderCatalogSnapshot) (now : Time) : bool :=
  if IsZero (SnapObservedAt snapshot) then false
  else
    let ttl := Int.wrap (RefreshIntervalSec snapshot * second) in
    let ttl := if ttl <=? 0 then 5 * minute else ttl in
    let ttl := if ttl <? minute then minute else ttl in
    negb (SnapObservedAt snapshot + Int.wrap (2 * ttl) <? now).

(** Ready, reason and found. *)
Fixpoint models_status (models : list ProviderModelStatus) (modelName : string) : bool * string * bool :=
  match models with
  | [] => (false, "", false)
  | model :: models =>
      if negb (EqualFold (ModelName model) modelName) then models_status models modelName
      else if providerModelRoutingReady model then (true, "", true)
      else
        let reason := TrimSpace (ModelReason model) in
        let reason := match ModelLastError model with
          | Some e => if negb (String.eqb (TrimSpace (Message e)) "") then Message e else reason
          | None => reason
          end in
        let reason := if String.eqb reason "" then
            let v := TrimSpace (VerificationStatus model) in
            if String.eqb v "verifying" then "model verification is still in progress"
            else if String.eqb v "unconfirmed" then "model is not confirmed"
            else "model is not ready for runtime routing"
          else reason in
        (false, reason, true)
  end.
Definition providerSnapshotModelStatus (snapshot : ProviderCatalogSnapshot) (modelName : string)
  : bool * string * bool := models_status (Models snapshot) modelName.
Definition firstReadyProviderModel (snapshot : ProviderCatalogSnapshot) : option ProviderModelStatus :=
  List.find providerModelRoutingReady (Models snapshot).
Definition supportsAssignedModelOverride (agent : Agent) : bool := OverridesModel agent.

Definition defaultState (now : Time) (info : AgentInfo) : AgentRuntimeState :=
  mkAgentRuntimeState (InfoID info) (InfoProvider info) (InfoStatus info) 1 0 0 0 0 0 "" "" "" "" 0
    None now.

(** An expired suppression is lifted. *)
Definition normalizeState (now : Time) (state : AgentRuntimeState) : AgentRuntimeState :=
  let state := if IsZero (StUpdatedAt state) then state <| StUpdatedAt := now |> else state in
  match SuppressedUntil state with
  | Some until =>
      if now <? until then state
      else
        let state := state <| SuppressedUntil := None |> in
        let state := if bool_decide (Status state = AgentStatusMaintenance)
                     then state <| Status := AgentStatusReady |> else state in
        if (ErrorRate state <? 0.25)%float then state <| DisabledReason := "" |> else state
  | None => state
  end.

Section RuntimeManager.
(** The provider model registry's [Snapshot], or nil. *)
Context (providerRegistry : option (string -> option ProviderCatalogSnapshot)).
Context (now : Time).

Definition NewRuntimeManager (r : Registry) : Runtime := mkRuntime r ∅.

Definition setState (state : AgentRuntimeState) : RT () :=
  modify (fun m => m <| registry ::= SetRuntimeState now state |>).

Definition State (agentID : string) : RT (option AgentRuntimeState) :=
  m ← get;
  match RuntimeState agentID (registry m) with
  | None =>
      match AgentByID agentID (registry m) with
      | None => mret None
      | Some agent =>
          let state := defaultState now (Info agent) in
          setState state;; mret (Some state)
      end
  | Some state =>
      let state := normalizeState now state in
      setState state;; mret (Some state)
  end.

(** [state, _ := m.State(id)]: the zero state when there is none. *)
Definition State_or_zero (agentID : string) : RT AgentRuntimeState :=
  state ← State agentID; mret (default zero_runtime_state state).

Definition Allows (info : AgentInfo) : RT bool :=
  state ← State (InfoID info);
  mret match state with
  | None => false
  | Some state =>
      if bool_decide (Status state = AgentStatusOffline) || bool_decide (Status state = AgentStatusMaintenance)
      then false
      else negb (after (SuppressedUntil state) now)
  end.

(** The loop of [RefreshRoutingWeights]. *)
Fixpoint refresh_loop (infos : list AgentInfo) (weights : gmap string float) : RT (gmap string float) :=
  match infos with
  | [] => mret weights
  | info :: infos =>
      state ← State_or_zero (InfoID info);
      let weight := runtimePriorityWeight now state in
      setState (state <| PriorityScore := weight |> <| StUpdatedAt := now |>);;
      refresh_loop infos (<[InfoID info := weight]> weights)
  end.
Definition RefreshRoutingWeights : RT (gmap string float) :=
  infos ← gets (fun m => AgentInfos (registry m));
  weights ← refresh_loop infos ∅;
  modify (fun m => m <| routingWeights := weights |>);;
  mret weights.

Definition RoutingWeight (agentID : string) : RT float :=
  m ← get;
  match routingWeights m !! agentID with
  | Some weight => mret weight
  | None => weights ← RefreshRoutingWeights; mret (default 0%float (weights !! agentID))
  end.

Definition RoutingWeights : RT (gmap string float) :=
  m ← get;
  if bool_decide (routingWeights m = ∅) then RefreshRoutingWeights else mret (routingWeights m).

(** Running maximum, total and count of pressures. *)
Definition add_pressure (acc : float * float * float) (state : AgentRuntimeState) : float * float * float :=
  let '(maxPressure, totalPressure, count) := acc in
  let pressure := liveLoadPressure state in
  ((if maxPressure <? pressure then pressure else maxPressure)%float, (totalPressure + pressure)%float,
   (count + 1)%float).
Definition summarize_pressure (share : float) (acc : float * float * float) : float :=
  let '(maxPressure, totalPressure, count) := acc in
  (if count =? 0 then 0
   else clampRuntimeLoad (maxRuntimeFloat [maxPressure * share; totalPressure / count]))%float.

Definition providerPressure (provider : string) (m : Runtime) : float :=
  let provider := ToLower (TrimSpace provider) in
  if String.eqb provider "" then 0%float
  else summarize_pressure 0.65 (foldl (fun acc state =>
         if EqualFold (TrimSpace (StProvider state)) provider then add_pressure acc state else acc)
         (0, 0, 0)%float (RuntimeStates (registry m))).

Fixpoint class_loop (agents : list Agent) (workerClass provider : string)
  (acc : float * float * float) : RT (float * float * float) :=
  match agents with
  | [] => mret acc
  | agent :: agents =>
      let info := Info agent in
      if negb (String.eqb provider "") && negb (EqualFold (TrimSpace (InfoProvider info)) provider)
      then class_loop agents workerClass provider acc
      else if negb (runtimeAgentMatchesWorkerClass info workerClass)
      then class_loop agents workerClass provider acc
      else
        state ← State (InfoID info);
        class_loop agents workerClass provider
          match state with Some state => add_pressure acc state | None => acc end
  end.
Definition workerClassPressure (workerClass provider : string) : RT float :=
  let workerClass := ToLower (TrimSpace workerClass) in
  let provider := ToLower (TrimSpace provider) in
  if String.eqb workerClass "" then mret 0%float
  else
    agents ← gets (fun m => Agents (registry m));
    acc ← class_loop agents workerClass provider (0, 0, 0)%float;
    mret (summarize_pressure 0.60 acc).

Definition CapacityPressure (info : AgentInfo) (workerClass : string) : RT float :=
  state ← State (InfoID info);
  match state with
  | None => mret 0.5%float
  | Some state =>
      providerPressure ← gets (providerPressure (InfoProvider info));
      classPressure ← workerClassPressure workerClass (InfoProvider info);
      mret (clampRuntimeLoad (maxRuntimeFloat
              [liveLoadPressure state; ErrorRate state; providerPressure; classPressure]))
  end.

(** Write a state, then recompute the weights. *)
Definition commit (state : AgentRuntimeState) : RT () :=
  setState state;; RefreshRoutingWeights;; mret ().

Definition UpdateCapacitySnapshot (agentID : string) (snapshot : CapacitySnapshot)
  : RT (option AgentRuntimeState) :=
  state ← State (TrimSpace agentID);
  match state with
  | None => mret None
  | Some state =>
      let state := state <| InFlight := maxRuntimeInt (CapInFlight snapshot) 0 |>
        <| AgentSlotUsage := clampRuntimeLoad (CapAgentSlotUsage snapshot) |>
        <| ModelSlotUsage := clampRuntimeLoad (CapModelSlotUsage snapshot) |>
        <| GlobalSlotUsage := clampRuntimeLoad (CapGlobalSlotUsage snapshot) |>
        <| StUpdatedAt := now |> in
      commit state;; mret (Some state)
  end.

Definition suppressed (reason : string) (seconds : Z) (state : AgentRuntimeState) : AgentRuntimeState :=
  let seconds := if seconds <=? 0 then 300 else seconds in
  state <| Status := AgentStatusMaintenance |>
        <| DisabledReason := firstNonEmptyString [TrimSpace reason; "suppressed by runtime policy"] |>
        <| SuppressedUntil := Some (now + Int.wrap (seconds * second)) |>
        <| StUpdatedAt := now |>.
Definition SuppressLane (agentID reason : string) (seconds : Z) : RT (option AgentRuntimeState) :=
  state ← State agentID;
  match state with
  | None => mret None
  | Some state =>
      let state := suppressed reason seconds state in commit state;; mret (Some state)
  end.

Definition recovered (agent : option Agent) (state : AgentRuntimeState) : AgentRuntimeState :=
  let state := state <| SuppressedUntil := None |> <| DisabledReason := "" |> in
  let state := match agent with
               | Some agent => state <| Status := InfoStatus (Info agent) |>
               | None => state end in
  let state := if (0.25 <=? ErrorRate state)%float then state <| Status := AgentStatusDegraded |> else state in
  let state := if (ErrorRate state <? 0.25)%float && bool_decide (Status state = AgentStatusMaintenance)
               then state <| Status := AgentStatusReady |> else state in
  state <| StUpdatedAt := now |>.
Definition RecoverLane (agentID : string) : RT (option AgentRuntimeState) :=
  state ← State agentID;
  match state with
  | None => mret None
  | Some state =>
      agent ← gets (fun m => AgentByID agentID (registry m));
      let state := recovered agent state in commit state;; mret (Some state)
  end.

Definition failed (detail : string) (state : AgentRuntimeState) : AgentRuntimeState :=
  let state := state <| ErrorRate := math_Min 1 (ErrorRate state + 0.25)%float |>
                     <| LastError := TrimSpace detail |> in
  state <| Status := if (0.75 <=? ErrorRate state)%float then AgentStatusMaintenance
                     else AgentStatusDegraded |>
        <| StUpdatedAt := now |>.
Definition RecordRuntimeFailure (agentID detail : string) : RT AgentRuntimeState :=
  state ← State_or_zero agentID;
  let state := failed detail state in commit state;; mret state.

Definition succeeded (state : AgentRuntimeState) : AgentRuntimeState :=
  let state := state <| ErrorRate := math_Max 0 (ErrorRate state - 0.5)%float |> in
  let state := if negb (after (SuppressedUntil state) now) then
                 if (ErrorRate state <? 0.25)%float
                 then state <| Status := AgentStatusReady |> <| DisabledReason := "" |>
                 else state <| Status := AgentStatusDegraded |>
               else state in
  state <| LastError := "" |> <| StUpdatedAt := now |>.
Definition RecordSuccess (agentID : string) : RT AgentRuntimeState :=
  state ← State_or_zero agentID;
  let state := succeeded state in commit state;; mret state.

Definition QuarantineAgent (agentID reason : string) : RT AgentRuntimeState :=
  state ← SuppressLane agentID
            (firstNonEmptyString [TrimSpace reason; "quarantined after repeated runtime failures"]) 900;
  mret (default zero_runtime_state state).

Definition RecoveryActionForFailure (agentID : string) : RT string :=
  state ← State agentID;
  mret match state with
  | None => "unknown"
  | Some state =>
      if (0.75 <=? ErrorRate state)%float then "quarantine_agent"
      else if (0.25 <=? ErrorRate state)%float then "degrade_lane" else "observe"
  end.

(** ** Provider health *)

(** Confirmed, and the reason when not. *)
Definition dynamic_assignment (snapshot : ProviderCatalogSnapshot) : bool * string :=
  match firstReadyProviderModel snapshot with
  | Some _ => (true, "")
  | None => (false, "provider has no confirmed executable models for dynamic assignment")
  end.
Definition confirmedAgentModel (agent : Agent) (snapshot : option ProviderCatalogSnapshot) : bool * string :=
  let modelName := TrimSpace (InfoModelName (Info agent)) in
  match providerRegistry with
  | None => (true, "")
  | Some _ =>
      match snapshot with
      | None => (false, "provider model registry snapshot is unavailable")
      | Some snapshot =>
          if negb (providerSnapshotRoutingUsable snapshot now)
          then (false, "provider model registry snapshot is stale")
          else if String.eqb modelName "" then
            if supportsAssignedModelOverride agent then dynamic_assignment snapshot
            else (false, "agent has no configured model")
          else
            let '(ready, reason, found) := providerSnapshotModelStatus snapshot modelName in
            if found then
              if ready then (true, "")
              else if supportsAssignedModelOverride agent && bool_decide (is_Some (firstReadyProviderModel snapshot))
              then (true, "")
              else (false, "model " +:+ modelName +:+ " is not confirmed: " +:+ reason)
            else if supportsAssignedModelOverride agent then dynamic_assignment snapshot
            else if String.eqb (SnapStatus snapshot) "unavailable" && negb (String.eqb (TrimSpace (SnapError snapshot)) "")
            then (false, "provider catalog is unavailable: " +:+ SnapError snapshot)
            else (false, "model " +:+ modelName +:+ " is not registered in the provider catalog")
      end
  end.

Definition snapshot_of (provider : string) : option ProviderCatalogSnapshot :=
  match providerRegistry with Some snapshot => snapshot provider | None => None end.

(** Ready and known. *)
Definition ProviderModelReadyStatus (provider modelName : string) : bool * bool :=
  match snapshot_of provider with
  | None => (false, false)
  | Some snapshot =>
      if negb (providerSnapshotRoutingUsable snapshot now) then (false, false)
      else let '(ready, _, found) := providerSnapshotModelStatus snapshot modelName in (ready, found)
  end.

Definition SupportsAssignedModel (agent : Agent) (modelName : string) : bool :=
  let assignedModel := TrimSpace modelName in
  let info := Info agent in
  if String.eqb assignedModel "" then false
  else if EqualFold (TrimSpace (InfoModelName info)) assignedModel then
    match providerRegistry with
    | None => true
    | Some snapshot =>
        match snapshot (InfoProvider info) with
        | None => false
        | Some s => if negb (providerSnapshotRoutingUsable s now) then false
                    else let '(ready, known) := ProviderModelReadyStatus (InfoProvider info) assignedModel in
                         known && ready
        end
    end
  else match providerRegistry with
       | None => false
       | Some _ =>
           if negb (supportsAssignedModelOverride agent) then false
           else let '(ready, known) := ProviderModelReadyStatus (InfoProvider info) assignedModel in
                known && ready
       end.

(** What a probe of the provider makes of an agent's state. *)
Definition probed_state (health : ProviderHealth) (snapshot : option ProviderCatalogSnapshot)
  (agent : Agent) (state : AgentRuntimeState) : AgentRuntimeState :=
  let state := state <| StProvider := InfoProvider (Info agent) |>
                     <| LastProbeStatus := HealthStatus health |>
                     <| LastProbeError := HealthError health |> in
  let state :=
    if negb (Configured health) then
      state <| Status := AgentStatusOffline |> <| DisabledReason := "provider not configured" |>
    else if negb (Available health) then
      state <| Status := AgentStatusDegraded |>
            <| DisabledReason := firstNonEmptyString [HealthError health; "provider probe failed"] |>
    else
      let '(confirmed, reason) := confirmedAgentModel agent snapshot in
      if negb confirmed then state <| Status := AgentStatusDegraded |> <| DisabledReason := reason |>
      else if negb (after (SuppressedUntil state) now) then
        let state := state <| Status := AgentStatusReady |> in
        if (ErrorRate state <? 0.25)%float then state <| DisabledReason := "" |> else state
      else state in
  state <| StUpdatedAt := now |>.

Inductive ProbeResult : Type :=
  | ProbeError (error : string) (provider : string)
  | ProbeUnavailable (error : string)
  | ProbeOk (provider : string) (health : ProviderHealth) (states : list AgentRuntimeState).

Fixpoint probe_loop (provider : string) (health : ProviderHealth)
  (snapshot : option ProviderCatalogSnapshot) (agents : list Agent) : RT (list AgentRuntimeState) :=
  match agents with
  | [] => mret []
  | agent :: agents =>
      if negb (String.eqb (ToLower (InfoProvider (Info agent))) provider)
      then probe_loop provider health snapshot agents
      else
        state ← State_or_zero (InfoID (Info agent));
        let state := probed_state health snapshot agent state in
        setState state;;
        states ← probe_loop provider health snapshot agents;
        mret (state :: states)
  end.

(** [probeProviders] is the configured callback, or nil. *)
Definition ProbeProviderRuntime (probeProviders : option (string -> option ProviderHealth))
  (provider : string) : RT ProbeResult :=
  let provider := TrimSpace (ToLower provider) in
  if String.eqb provider "" then mret (ProbeError "provider is required" "")
  else match probeProviders with
  | None => mret (ProbeUnavailable "provider probe callback is not configured")
  | Some healths =>
      match healths provider with
      | None => mret (ProbeError "provider not found" provider)
      | Some health =>
          agents ← gets (fun m => Agents (registry m));
          states ← probe_loop provider health (snapshot_of provider) agents;
          RefreshRoutingWeights;;
          mret (ProbeOk provider health states)
      end
  end.

Definition ProbeAgentRuntime (probeProviders : option (string -> option ProviderHealth))
  (agentID : string) : RT (option (ProbeResult * AgentInfo * AgentRuntimeState)) :=
  agent ← gets (fun m => AgentByID agentID (registry m));
  match agent with
  | None => mret None
  | Some agent =>
      payload ← ProbeProviderRuntime probeProviders (InfoProvider (Info agent));
      state ← State_or_zero agentID;
      mret (Some (payload, Info agent, state))
  end.

(** The health reports by normalised provider name; the list is the map in iteration order. *)
Definition health_by_provider (providerHealth : list (string * ProviderHealth)) : gmap string ProviderHealth :=
  foldl (fun byProvider kv =>
    let key := ToLower (TrimSpace kv.1) in
    let key := if String.eqb key "" then ToLower (TrimSpace (HealthProvider kv.2)) else key in
    if String.eqb key "" then byProvider else <[key := kv.2]> byProvider) ∅ providerHealth.

Definition synced_state (healths : gmap string ProviderHealth) (agent : Agent) (state : AgentRuntimeState)
  : AgentRuntimeState :=
  let info := Info agent in
  let state := state <| StProvider := InfoProvider info |> in
  let state :=
    if after (SuppressedUntil state) now then
      let state := state <| Status := AgentStatusMaintenance |> in
      if String.eqb (DisabledReason state) ""
      then state <| DisabledReason := "suppressed by runtime policy" |> else state
    else match healths !! ToLower (TrimSpace (InfoProvider info)) with
    | None => state
    | Some health =>
        let state := state <| LastProbeStatus := HealthStatus health |> <| LastProbeError := HealthError health |> in
        if negb (Configured health) then
          state <| Status := AgentStatusOffline |> <| DisabledReason := "provider not configured" |>
        else if negb (Available health) then
          state <| Status := AgentStatusDegraded |>
                <| DisabledReason := firstNonEmptyString [HealthError health; "provider probe failed"] |>
        else
          let '(confirmed, reason) := confirmedAgentModel agent (snapshot_of (InfoProvider info)) in
          if negb confirmed then state <| Status := AgentStatusDegraded |> <| DisabledReason := reason |>
          else if (0.25 <=? ErrorRate state)%float then
            let state := state <| Status := AgentStatusDegraded |> in
            if String.eqb (DisabledReason state) ""
            then state <| DisabledReason := "runtime error budget exceeded" |> else state
          else if bool_decide (Status state = AgentStatusBusy) then state <| DisabledReason := "" |>
          else state <| Status := AgentStatusReady |> <| DisabledReason := "" |>
    end in
  state <| StUpdatedAt := now |>.

Definition SyncProviderHealth (providerHealth : list (string * ProviderHealth)) : RT (list AgentRuntimeState) :=
  let healths := health_by_provider providerHealth in
  agents ← gets (fun m => Agents (registry m));
  for_each agents (fun agent =>
    state ← State_or_zero (InfoID (Info agent));
    setState (synced_state healths agent state));;
  RefreshRoutingWeights;;
  gets (fun m => RuntimeStates (registry m)).
End RuntimeManager.
