(* ===== verification/RuntimeViews.v ===== *)
(** * Reading the runtime manager

    Reading a lane normalises it: an expired suppression is lifted and the state written back.
    Two runtimes that differ only in which lanes were already normalised answer every read alike.
    [same_view] is that equivalence and [Reader] the class of computations that stay inside it;
    inside a [Reader], reads may be moved to the start. *)
From S2P Require Import Prelude GoLib GoJSON Domain StateMonad AgentRegistry RuntimeManager.
From Stdlib Require Import PrimFloat.

Definition view (now : Time) (m : Runtime) : gmap string Agent * gmap string float * gmap string AgentRuntimeState :=
  (agents (registry m), routingWeights m, normalizeState now <$> runtimeStates (registry m)).
Definition same_view (now : Time) (m m' : Runtime) : Prop := view now m = view now m'.
#[export] Instance same_view_equiv now : Equivalence (same_view now).
Proof.
  unfold same_view. split; [intros m|intros m m'|intros m1 m2 m3]; congruence.
Qed.

Lemma normalize_idem now s : normalizeState now (normalizeState now s) = normalizeState now s.
Proof.
  unfold normalizeState. cbn zeta.
  destruct (IsZero (StUpdatedAt s)) eqn:Hz; destruct (SuppressedUntil s) as [u|] eqn:Hs; cbn; rewrite ?Hs; cbn.
  all: try (destruct (now <? u) eqn:Hlt; cbn; [|case_bool_decide; cbn; destruct (_ <? _)%float; cbn]).
  all: rewrite ?Hz, ?Hs; cbn; rewrite ?Hz, ?Hlt; destruct (IsZero now); cbn; rewrite ?Hs, ?Hlt; done.
Qed.

(** What a read does not look at. *)
Lemma normalize_frame now s :
  AgentID (normalizeState now s) = AgentID s /\ StProvider (normalizeState now s) = StProvider s /\
  liveLoadPressure (normalizeState now s) = liveLoadPressure s /\
  (Status (normalizeState now s) = Status s \/ Status (normalizeState now s) = AgentStatusReady).
Proof.
  unfold normalizeState. cbn zeta.
  destruct (IsZero (StUpdatedAt s)); destruct (SuppressedUntil s) as [u|] eqn:Hs; cbn; rewrite ?Hs; cbn.
  all: try (destruct (now <? u); cbn; [|case_bool_decide; cbn; destruct (_ <? _)%float; cbn]); auto.
Qed.

(** Writing a normalised state back stores exactly it. *)
Lemma SetRuntimeState_normalized now r id s :
  runtimeStates r !! id = Some s -> AgentID s = id ->
  normalizeState now <$> runtimeStates (SetRuntimeState now (normalizeState now s) r) =
  normalizeState now <$> runtimeStates r.
Proof.
  intros Hr Hid. unfold SetRuntimeState. destruct (normalize_frame now s) as (Ha & Hp & _ & Hst).
  rewrite Ha, Hid. destruct (String.eqb id ""); [done|].
  assert ((if IsZero (StUpdatedAt (normalizeState now s))
           then normalizeState now s <| StUpdatedAt := now |> else normalizeState now s) = normalizeState now s) as ->.
  { unfold normalizeState, IsZero. cbn zeta.
    destruct (StUpdatedAt s =? 0) eqn:Hz; destruct (SuppressedUntil s) as [u|] eqn:Hs; cbn; rewrite ?Hs; cbn.
    all: try (destruct (now <? u); cbn; [|case_bool_decide; cbn; destruct (_ <? _)%float; cbn]).
    all: rewrite ?Hz; destruct (now =? 0) eqn:Hn; try done. }
  cbn zeta. rewrite Ha, Hid, Hr. cbn.
  set (s1 := if String.eqb (StProvider (normalizeState now s)) "" then _ else _).
  assert (s1 = normalizeState now s) as ->.
  { subst s1. destruct (String.eqb _ ""); [|done]. rewrite <- Hp. by destruct (normalizeState now s). }
  assert ((if bool_decide (Status (normalizeState now s) = AgentStatusOther "")
           then normalizeState now s <| Status := Status s |> else normalizeState now s) = normalizeState now s) as ->.
  { case_bool_decide as Hb; [|done]. destruct Hst as [Hst|Hst]; [|congruence].
    rewrite <- Hst. by destruct (normalizeState now s). }
  rewrite Ha, Hid, fmap_insert, normalize_idem. apply insert_id. by rewrite lookup_fmap, Hr.
Qed.

(** ** Readers *)
Section Readers.
Context (now : Time) (ags : gmap string Agent) (ws : gmap string float).

(** Agents and weights are those given, every agent has a lane and a cached weight. *)
Record settled (m : Runtime) : Prop := mkSettled {
  se_ok : registry_ok (registry m);
  se_agents : agents (registry m) = ags;
  se_weights : routingWeights m = ws;
  se_states : forall id, is_Some (ags !! id) -> is_Some (runtimeStates (registry m) !! id);
  se_cached : forall id, is_Some (ags !! id) -> is_Some (ws !! id) }.

Lemma settled_view m m' : same_view now m m' -> settled m -> settled m'.
Proof.
  intros [= Ha Hw Hs] [[Hfa Hfs] H1 H2 H3 H4].
  assert (forall id s', runtimeStates (registry m') !! id = Some s' ->
    exists s, runtimeStates (registry m) !! id = Some s /\ normalizeState now s = normalizeState now s') as Hl.
  { intros id s' Hs'. apply (f_equal (fun x => x !! id)) in Hs. rewrite !lookup_fmap, Hs' in Hs. cbn in Hs.
    destruct (runtimeStates (registry m) !! id) as [s|]; [|done]. injection Hs as Hs. eauto. }
  split; [split| | | |].
  - intros id a. rewrite <- Ha. apply Hfa.
  - intros id s' (s & Hs1 & He)%Hl. rewrite <- (Hfs _ _ Hs1).
    apply (f_equal AgentID) in He. by rewrite !(proj1 (normalize_frame _ _)) in He.
  - congruence.
  - congruence.
  - intros id [s Hi]%H3. apply (f_equal (fun x => x !! id)) in Hs. rewrite !lookup_fmap, Hi in Hs. cbn in Hs.
    destruct (runtimeStates (registry m') !! id); [eauto|done].
  - done.
Qed.

Class Reader {A} (f : RT A) : Prop := {
  reader_state : forall m, settled m -> same_view now m (exec f m);
  reader_value : forall m m', settled m -> same_view now m m' -> eval f m = eval f m' }.

Lemma reader_settled {A} (f : RT A) `{!Reader f} m : settled m -> settled (exec f m).
Proof. intros Hm. by eapply settled_view; [apply reader_state|]. Qed.

#[export] Instance reader_ret {A} (x : A) : Reader (mret x).
Proof. split; done. Qed.

(** The value of a sequence of reads, all made at the start; the second read need only be a reader
    for the values the first one has. *)
Lemma reader_bind_value {A B} (f : RT A) (g : A -> RT B) m :
  Reader f -> settled m -> Reader (g (eval f m)) -> eval (f ≫= g) m = eval (g (eval f m)) m.
Proof.
  intros Hf Hm Hg. rewrite eval_bind. symmetry. apply reader_value; [done|]. by apply reader_state.
Qed.

Lemma reader_bind_at {A B} (f : RT A) (g : A -> RT B) :
  Reader f -> (forall m, settled m -> Reader (g (eval f m))) -> Reader (f ≫= g).
Proof.
  intros Hf Hg. split.
  - intros m Hm. pose proof (Hg m Hm). rewrite exec_bind. etrans; [by apply (reader_state (f := f))|].
    apply reader_state. by apply reader_settled.
  - intros m m' Hm Hv. assert (settled m') as Hm' by by eapply settled_view.
    pose proof (Hg m Hm). pose proof (Hg m' Hm').
    rewrite !reader_bind_value by done. rewrite <- (reader_value (f := f) m m') by done. by apply reader_value.
Qed.
#[export] Instance reader_bind {A B} (f : RT A) (g : A -> RT B) :
  Reader f -> (forall x, Reader (g x)) -> Reader (f ≫= g).
Proof. intros Hf Hg. by apply reader_bind_at. Qed.

#[export] Instance reader_if {A} (b : bool) (f g : RT A) : Reader f -> Reader g -> Reader (if b then f else g).
Proof. by destruct b. Qed.
#[export] Instance reader_decide {A} (P : Prop) (d : Decision P) (f g : RT A) :
  Reader f -> Reader g -> Reader (if decide P then f else g).
Proof. by destruct (decide P). Qed.
#[export] Instance reader_option {A B} (o : option B) (f : B -> RT A) (g : RT A) :
  (forall x, Reader (f x)) -> Reader g -> Reader (match o with Some x => f x | None => g end).
Proof. by destruct o. Qed.

(** Reads of the registered agents and of the loads, which normalising does not touch. *)
Lemma reader_gets {A} (f : Runtime -> A) :
  (forall m m', same_view now m m' -> f m = f m') -> Reader (gets f).
Proof. intros Hf. split; [done|]. intros m m' _. apply Hf. Qed.

#[export] Instance reader_AgentByID id : Reader (gets (fun m => AgentByID id (registry m))).
Proof. apply reader_gets. intros m m' [= Ha _ _]. unfold AgentByID. by rewrite Ha. Qed.
#[export] Instance reader_Agents : Reader (gets (fun m => Agents (registry m))).
Proof. apply reader_gets. intros m m' [= Ha _ _]. unfold Agents. by rewrite Ha. Qed.

Lemma sort_slice_map {A B} (f : A -> B) (less : A -> A -> bool) (less' : B -> B -> bool) l :
  (forall x y, less' (f x) (f y) = less x y) -> sort_slice less' (map f l) = map f (sort_slice less l).
Proof.
  intros Hl. unfold sort_slice. induction l as [|x l IH]; [done|]. cbn. rewrite IH. clear IH.
  induction (foldr (sort_insert less) [] l) as [|y k IH]; [done|]. cbn. rewrite Hl. destruct (less y x); [|done].
  cbn. by rewrite IH.
Qed.

Lemma RuntimeStates_view r :
  sort_slice state_less (map snd (map_to_list (normalizeState now <$> runtimeStates r))) =
  map (normalizeState now) (RuntimeStates r).
Proof.
  unfold RuntimeStates. rewrite map_to_list_fmap.
  rewrite <- (sort_slice_map (normalizeState now) state_less state_less).
  - f_equal. induction (map_to_list (runtimeStates r)) as [|[k v] l IH]; [done|]. cbn. by f_equal.
  - intros x y. unfold state_less. by rewrite !(proj1 (normalize_frame _ _)).
Qed.

#[export] Instance reader_providerPressure provider : Reader (gets (providerPressure provider)).
Proof.
  apply reader_gets. intros m m' [= _ _ Hs]. unfold providerPressure.
  destruct (String.eqb _ ""); [done|]. f_equal.
  pose proof (RuntimeStates_view (registry m)) as H1. pose proof (RuntimeStates_view (registry m')) as H2.
  rewrite Hs in H1. rewrite H1 in H2. clear H1 Hs. revert H2.
  generalize (0, 0, 0)%float. generalize (RuntimeStates (registry m')). generalize (RuntimeStates (registry m)).
  induction l as [|s l IH]; intros [|s' l'] acc; try done. cbn. intros [= He Ht].
  assert (StProvider s = StProvider s' /\ liveLoadPressure s = liveLoadPressure s') as [Hp Hl].
  { destruct (normalize_frame now s) as (_ & <- & <- & _). rewrite He.
    by destruct (normalize_frame now s') as (_ & <- & <- & _). }
  rewrite Hp. unfold add_pressure at 2 4. rewrite Hl. by apply IH.
Qed.

#[export] Instance reader_State id : Reader (State now id).
Proof.
  assert (forall m, settled m -> same_view now m (exec (State now id) m) /\
    eval (State now id) m = (normalizeState now <$> runtimeStates (registry m)) !! id) as H.
  { intros m [[Hfa Hfs] Hag _ Hst _]. unfold State, get, RuntimeState, exec, eval, mbind, st_bind. cbn.
    rewrite lookup_fmap. destruct (runtimeStates (registry m) !! id) as [s|] eqn:Hs.
    - split; [|done]. unfold same_view, view. cbn.
      by rewrite SetRuntimeState_agents, (SetRuntimeState_normalized _ _ id) by auto.
    - unfold AgentByID. destruct (agents (registry m) !! id) as [a|] eqn:Ha; [|done].
      rewrite Hag in Ha. destruct (Hst id) as [s' Hs']; [eauto|congruence]. }
  split; intros m; [apply H|]. intros m' Hm Hv. rewrite (proj2 (H m Hm)).
  rewrite (proj2 (H m' (settled_view _ _ Hv Hm))). by injection Hv as _ _ ->.
Qed.

#[export] Instance reader_Allows info : Reader (Allows now info).
Proof. unfold Allows. apply _. Qed.

Lemma reader_RoutingWeight id : is_Some (ags !! id) -> Reader (RoutingWeight now id).
Proof.
  intros Hid. assert (forall m, settled m -> RoutingWeight now id m = (m, default 0%float (ws !! id))) as H.
  { intros m [_ _ Hw _ Hc]. destruct (Hc id Hid) as [w Hi].
    unfold RoutingWeight, get, mbind, st_bind. cbn. by rewrite Hw, Hi. }
  split; intros m.
  - intros Hm. unfold exec. by rewrite H.
  - intros m' Hm Hv. unfold eval. by rewrite !H by (done || by eapply settled_view).
Qed.

#[export] Instance reader_class_loop agents workerClass provider acc :
  Reader (class_loop now agents workerClass provider acc).
Proof. revert acc. induction agents as [|a l IH]; intros acc; cbn; apply _. Qed.

#[export] Instance reader_CapacityPressure info workerClass : Reader (CapacityPressure now info workerClass).
Proof. unfold CapacityPressure, workerClassPressure. apply _. Qed.
End Readers.
