(* ===== verification/RuntimeManagerProps.v ===== *)
(** * Properties of the runtime manager

    The lanes refine a circuit breaker: an abstract lane counts failures in quarters, is closed,
    degraded or open, and may be suppressed until a time.  Each operation on one agent is the
    breaker's step for that agent and only lets time pass for the others. *)
From S2P Require Import Prelude GoLib GoJSON Domain StateMonad AgentRegistry RuntimeManager.
From Stdlib Require Import PrimFloat.

(** ** The circuit breaker *)
Record Lane : Type := mkLane {
  errors : nat;
  open_until : option Time;
  lane_status : AgentStatus }.

(** A suppression that has run out is lifted. *)
Definition tick (now : Time) (l : Lane) : Lane :=
  match open_until l with
  | Some until =>
      if now <? until then l
      else mkLane (errors l) None
             (if decide (lane_status l = AgentStatusMaintenance) then AgentStatusReady else lane_status l)
  | None => l
  end.

Inductive lane_op : Type :=
  | OpFail (detail : string)
  | OpSucceed
  | OpSuppress (reason : string) (seconds : Z)
  | OpQuarantine (reason : string)
  | OpRecover
  | OpCapacity (snapshot : CapacitySnapshot).

Definition suppress_until (now : Time) (seconds : Z) : Time :=
  now + Int.wrap ((if seconds <=? 0 then 300 else seconds) * second).

(** [registered] is the status the agent declares itself. *)
Definition lane_apply (now : Time) (registered : AgentStatus) (op : lane_op) (l : Lane) : Lane :=
  match op with
  | OpFail _ =>
      let n := Nat.min 4 (errors l + 1) in
      mkLane n (open_until l) (if (3 <=? n)%nat then AgentStatusMaintenance else AgentStatusDegraded)
  | OpSucceed =>
      let n := (errors l - 2)%nat in
      mkLane n (open_until l)
        (if after (open_until l) now then lane_status l
         else if (n =? 0)%nat then AgentStatusReady else AgentStatusDegraded)
  | OpSuppress _ seconds => mkLane (errors l) (Some (suppress_until now seconds)) AgentStatusMaintenance
  | OpQuarantine _ => mkLane (errors l) (Some (suppress_until now 900)) AgentStatusMaintenance
  | OpRecover =>
      mkLane (errors l) None
        (if (1 <=? errors l)%nat then AgentStatusDegraded
         else if decide (registered = AgentStatusMaintenance) then AgentStatusReady else registered)
  | OpCapacity _ => l
  end.
Definition lane_step (now : Time) (registered : AgentStatus) (op : lane_op) (l : Lane) : Lane :=
  tick now (lane_apply now registered op (tick now l)).

(** Whether the breaker lets tasks through. *)
Definition admits (now : Time) (l : Lane) : bool :=
  bool_decide (lane_status l <> AgentStatusOffline) && bool_decide (lane_status l <> AgentStatusMaintenance)
  && negb (after (open_until l) now).

Lemma tick_idem now l : tick now (tick now l) = tick now l.
Proof.
  unfold tick. destruct (open_until l) as [u|] eqn:Hu; [|by rewrite Hu].
  destruct (now <? u) eqn:Hlt; [by rewrite Hu, Hlt|done].
Qed.

(** ** Representation *)

(** [n] quarters, the only error rates the manager produces. *)
Definition quarters (n : nat) : float :=
  match n with 0%nat => 0%float | 1%nat => 0.25%float | 2%nat => 0.5%float
  | 3%nat => 0.75%float | _ => 1%float end.

Definition lane_rel (s : AgentRuntimeState) (l : Lane) : Prop :=
  ErrorRate s = quarters (errors l) /\ (errors l <= 4)%nat /\
  SuppressedUntil s = open_until l /\ Status s = lane_status l.

Definition named (st : AgentStatus) : Prop := st <> AgentStatusOther "".

Record tracks (m : Runtime) (lanes : string -> Lane) : Prop := mkTracks {
  tr_registry : registry_ok (registry m);
  tr_lane : forall id a, agents (registry m) !! id = Some a ->
    id <> "" /\ named (InfoStatus (Info a)) /\ named (lane_status (lanes id)) /\
    exists s, runtimeStates (registry m) !! id = Some s /\ lane_rel s (lanes id) }.

Definition upd (lanes : string -> Lane) (id : string) (l : Lane) : string -> Lane :=
  fun j => if decide (j = id) then l else lanes j.

Ltac float_eval := vm_compute; reflexivity.
Lemma quarters_fail n : (n <= 4)%nat -> math_Min 1 (quarters n + 0.25)%float = quarters (Nat.min 4 (n + 1)).
Proof. intros H. do 5 (destruct n as [|n]; [float_eval|]). lia. Qed.
Lemma quarters_succeed n : (n <= 4)%nat -> math_Max 0 (quarters n - 0.5)%float = quarters (n - 2).
Proof. intros H. do 5 (destruct n as [|n]; [float_eval|]). lia. Qed.
Lemma quarters_ge_3 n : (n <= 4)%nat -> (0.75 <=? quarters n)%float = (3 <=? n)%nat.
Proof. intros H. do 5 (destruct n as [|n]; [float_eval|]). lia. Qed.
Lemma quarters_ge_1 n : (n <= 4)%nat -> (0.25 <=? quarters n)%float = (1 <=? n)%nat.
Proof. intros H. do 5 (destruct n as [|n]; [float_eval|]). lia. Qed.
Lemma quarters_lt_1 n : (n <= 4)%nat -> (quarters n <? 0.25)%float = (n =? 0)%nat.
Proof. intros H. do 5 (destruct n as [|n]; [float_eval|]). lia. Qed.

Lemma normalize_rel now s l : lane_rel s l -> lane_rel (normalizeState now s) (tick now l).
Proof.
  intros (He & Hle & Hs & Hst). unfold normalizeState, tick. cbn zeta.
  set (s1 := if IsZero (StUpdatedAt s) then s <| StUpdatedAt := now |> else s).
  assert (lane_rel s1 l /\ SuppressedUntil s1 = open_until l) as [Hrel Hs1]
    by (subst s1; by destruct (IsZero _)).
  clearbody s1. rewrite Hs1. destruct (open_until l) as [u|] eqn:Hu; [|done].
  destruct (now <? u); [done|]. destruct Hrel as (He1 & _ & _ & Hst1).
  unfold lane_rel. rewrite <- Hst1. cbn [ErrorRate Status SuppressedUntil field_map errors open_until lane_status].
  destruct (decide (Status s1 = AgentStatusMaintenance)) as [Hm|Hm];
    [rewrite bool_decide_eq_true_2 by done|rewrite bool_decide_eq_false_2 by done];
    cbn; rewrite ?He1; destruct (_ <? _)%float; split_and!; done.
Qed.

Lemma normalize_id now s : AgentID (normalizeState now s) = AgentID s.
Proof.
  unfold normalizeState. cbn zeta. destruct (IsZero (StUpdatedAt s)); cbn;
    destruct (SuppressedUntil s) as [u|]; try done; destruct (now <? u); try done;
    case_bool_decide; cbn; by destruct (_ <? _)%float.
Qed.

Lemma tick_named now l : named (lane_status l) -> named (lane_status (tick now l)).
Proof.
  unfold tick, named. destruct (open_until l) as [u|]; [|done]. destruct (now <? u); [done|]. cbn.
  by case_decide.
Qed.

(** ** Single writes and reads *)
Lemma lane_rel_frame s s' l : lane_rel s l -> ErrorRate s' = ErrorRate s ->
  SuppressedUntil s' = SuppressedUntil s -> Status s' = Status s -> lane_rel s' l.
Proof. unfold lane_rel. intros H -> -> ->. exact H. Qed.

Lemma setState_tracks now m lanes s a l :
  tracks m lanes -> agents (registry m) !! AgentID s = Some a ->
  lane_rel s l -> named (lane_status l) ->
  tracks (exec (setState now s) m) (upd lanes (AgentID s) l).
Proof.
  intros [Hok Hl] Ha Hrel Hn. split; cbn.
  { by apply SetRuntimeState_ok. }
  rewrite SetRuntimeState_agents. intros id b Hb. destruct (Hl id b Hb) as (Hid & Hi & Hn' & s0 & Hs0 & Hr0).
  unfold upd. destruct (decide (id = AgentID s)) as [->|Hne].
  - split_and!; [done..|]. unfold SetRuntimeState. rewrite (proj2 (String.eqb_neq _ _) Hid). cbn zeta.
    set (s1 := if IsZero (StUpdatedAt s) then _ else s).
    assert (AgentID s1 = AgentID s /\ lane_rel s1 l /\ Status s1 = Status s) as (E1 & R1 & S1)
      by (subst s1; by destruct (IsZero _)).
    clearbody s1. rewrite E1, Hs0.
    assert (Status s1 <> AgentStatusOther "") as Hst by (destruct R1 as (_ & _ & _ & ->); done).
    destruct (String.eqb (StProvider s1) ""); cbn; rewrite bool_decide_eq_false_2 by done; cbn;
      rewrite E1, lookup_insert_eq; eauto.
  - rewrite SetRuntimeState_ne by done. eauto 8.
Qed.

Lemma State_spec now m lanes id a :
  tracks m lanes -> agents (registry m) !! id = Some a ->
  exists s, eval (State now id) m = Some s /\ AgentID s = id /\ lane_rel s (tick now (lanes id)) /\
    exec (State now id) m = exec (setState now s) m.
Proof.
  intros [Hok Hl] Ha. destruct (Hl id a Ha) as (Hid & Hi & Hn & s & Hs & Hr).
  assert (State now id m = (exec (setState now (normalizeState now s)) m, Some (normalizeState now s))) as E
    by (unfold State, get, RuntimeState, mbind, st_bind; cbn; by rewrite Hs).
  exists (normalizeState now s). unfold exec at 1, eval. rewrite E.
  split_and!; [done| |by apply normalize_rel|done].
  rewrite normalize_id. by apply (states_filed _ Hok).
Qed.

Lemma State_tracks now m lanes id a :
  tracks m lanes -> agents (registry m) !! id = Some a ->
  tracks (exec (State now id) m) (upd lanes id (tick now (lanes id))).
Proof.
  intros Ht Ha. destruct (State_spec now m lanes id a Ht Ha) as (s & _ & Hid & Hr & ->).
  rewrite <- Hid in *. apply (setState_tracks _ _ _ _ a); [done..|].
  apply tick_named. by destruct (tr_lane _ _ Ht _ _ Ha) as (_ & _ & ? & _).
Qed.

Lemma setState_agents now s m : agents (registry (exec (setState now s) m)) = agents (registry m).
Proof. cbn. apply SetRuntimeState_agents. Qed.

Lemma State_agents now id m : agents (registry (exec (State now id) m)) = agents (registry m).
Proof.
  unfold State, get, exec, mbind, st_bind. cbn.
  destruct (RuntimeState id (registry m)); cbn; [apply SetRuntimeState_agents|].
  destruct (AgentByID id (registry m)); cbn; [apply SetRuntimeState_agents|done].
Qed.

Lemma tracks_ext m lanes lanes' : (forall id, is_Some (agents (registry m) !! id) -> lanes id = lanes' id) ->
  tracks m lanes -> tracks m lanes'.
Proof.
  intros He [Hok Hl]. split; [done|]. intros id a Ha. rewrite <- He by eauto. eauto.
Qed.

(** ** Recomputing the weights lets time pass and changes nothing else *)
Lemma refresh_loop_agents now infos w m :
  agents (registry (exec (refresh_loop now infos w) m)) = agents (registry m).
Proof.
  revert w m. induction infos as [|i infos IH]; intros w m; [done|]. cbn [refresh_loop].
  unfold State_or_zero. st_simpl. by rewrite IH, setState_agents, State_agents.
Qed.

Lemma refresh_one_tracks now m lanes i a :
  tracks m lanes -> agents (registry m) !! InfoID i = Some a ->
  let m1 := exec (State now (InfoID i)) m in
  exists s, eval (State now (InfoID i)) m = Some s /\ AgentID s = InfoID i /\
    lane_rel s (tick now (lanes (InfoID i))) /\
    tracks (exec (setState now (s <| PriorityScore := runtimePriorityWeight now s |> <| StUpdatedAt := now |>)) m1)
      (upd lanes (InfoID i) (tick now (lanes (InfoID i)))).
Proof.
  intros Ht Ha m1. destruct (State_spec now m lanes _ a Ht Ha) as (s & He & Hid & Hr & _).
  exists s. split_and!; [done..|].
  pose proof (State_tracks now m lanes _ a Ht Ha) as Ht1.
  set (s1 := s <| PriorityScore := runtimePriorityWeight now s |> <| StUpdatedAt := now |>).
  assert (lane_rel s1 (tick now (lanes (InfoID i)))) as Hr1 by (by eapply lane_rel_frame).
  assert (agents (registry m1) !! AgentID s1 = Some a) as Ha1
    by (subst m1; rewrite State_agents; by change (AgentID s1) with (AgentID s); rewrite Hid).
  assert (named (lane_status (tick now (lanes (InfoID i))))) as Hn
    by (apply tick_named; by destruct (tr_lane _ _ Ht _ _ Ha) as (_ & _ & ? & _)).
  eapply tracks_ext; [|apply (setState_tracks now m1 _ s1 a _ Ht1 Ha1 Hr1 Hn)].
  intros j _. change (AgentID s1) with (AgentID s). rewrite Hid. unfold upd. by case_decide.
Qed.

Lemma refresh_loop_tracks now infos w m lanes :
  tracks m lanes -> (forall i, i ∈ infos -> is_Some (agents (registry m) !! InfoID i)) ->
  tracks (exec (refresh_loop now infos w) m)
    (fun j => if decide (j ∈ map InfoID infos) then tick now (lanes j) else lanes j).
Proof.
  revert w m lanes. induction infos as [|i infos IH]; intros w m lanes Ht Hreg.
  - eapply tracks_ext; [|exact Ht]. intros id _. cbn. by rewrite decide_False by apply not_elem_of_nil.
  - cbn [refresh_loop map]. unfold State_or_zero. st_simpl.
    destruct (Hreg i) as [a Ha]; [by left|].
    destruct (refresh_one_tracks now m lanes i a Ht Ha) as (s & He & Hid & Hr & Ht2).
    rewrite He. cbn [default from_option].
    eapply tracks_ext; [|apply (IH _ _ _ Ht2)].
    + intros id _. cbn beta. unfold upd.
      pose proof (elem_of_cons (map InfoID infos) id (InfoID i)) as Hc. cbn [map].
      repeat case_decide; subst; rewrite ?tick_idem; try done; exfalso; tauto.
    + intros j Hj. rewrite setState_agents, State_agents. apply Hreg. by right.
Qed.

Lemma AgentInfos_registered r i : registry_ok r -> i ∈ AgentInfos r -> is_Some (agents r !! InfoID i).
Proof.
  intros [Ha _]. unfold AgentInfos. rewrite sort_slice_elem, list_elem_of_fmap.
  intros (a & -> & ([id b] & -> & Hb%elem_of_map_to_list)%list_elem_of_fmap). cbn.
  assert (InfoID (live_info r b) = InfoID (Info b)) as ->
    by (unfold live_info; repeat case_match; done).
  rewrite (Ha _ _ Hb). eauto.
Qed.

Lemma registered_AgentInfos r id a : registry_ok r -> agents r !! id = Some a -> id ∈ map InfoID (AgentInfos r).
Proof.
  intros [Ha _] Hid. apply list_elem_of_fmap. exists (live_info r a). split.
  - rewrite <- (Ha _ _ Hid). unfold live_info. repeat case_match; done.
  - unfold AgentInfos. apply sort_slice_elem, list_elem_of_fmap_2, list_elem_of_fmap.
    exists (id, a). split; [done|by apply elem_of_map_to_list].
Qed.

Lemma Refresh_agents now m : agents (registry (exec (RefreshRoutingWeights now) m)) = agents (registry m).
Proof. unfold RefreshRoutingWeights. st_simpl. cbn. apply refresh_loop_agents. Qed.

Lemma tracks_weights m lanes (w : gmap string float) : tracks m lanes -> tracks (m <| routingWeights := w |>) lanes.
Proof. intros [Hok Hl]. by split. Qed.

Lemma Refresh_tracks now m lanes :
  tracks m lanes -> tracks (exec (RefreshRoutingWeights now) m) (fun j => tick now (lanes j)).
Proof.
  intros Ht. unfold RefreshRoutingWeights. st_simpl. apply tracks_weights.
  eapply tracks_ext; [|apply (refresh_loop_tracks now (AgentInfos (registry m)) ∅ m lanes Ht
    (fun i => AgentInfos_registered _ i (tr_registry _ _ Ht)))].
  intros id [a Ha]. rewrite refresh_loop_agents in Ha. cbn.
  rewrite decide_True; [done|]. eapply registered_AgentInfos; [apply Ht|done].
Qed.

(** ** Operations *)
Lemma commit_tracks now m lanes s a l :
  tracks m lanes -> agents (registry m) !! AgentID s = Some a ->
  lane_rel s l -> named (lane_status l) ->
  tracks (exec (commit now s) m) (fun j => tick now (upd lanes (AgentID s) l j)).
Proof.
  intros Ht Ha Hrel Hn. unfold commit. st_simpl. apply Refresh_tracks. by apply (setState_tracks _ _ _ _ a).
Qed.

Lemma commit_agents now s m : agents (registry (exec (commit now s) m)) = agents (registry m).
Proof. unfold commit. st_simpl. by rewrite Refresh_agents, setState_agents. Qed.

Lemma failed_rel now reg d s l : lane_rel s l -> lane_rel (failed now d s) (lane_apply now reg (OpFail d) l).
Proof.
  intros (He & Hle & Hs & Hst). unfold failed, lane_rel. cbn -[math_Min Nat.min Nat.add Nat.leb].
  rewrite He, quarters_fail, quarters_ge_3 by lia. split_and!; [done|lia|done|by case_match].
Qed.

Lemma succeeded_rel now reg s l : lane_rel s l -> lane_rel (succeeded now s) (lane_apply now reg OpSucceed l).
Proof.
  intros (He & Hle & Hs & Hst). unfold succeeded, lane_rel. cbn -[math_Max after Nat.sub].
  rewrite He, quarters_succeed, quarters_lt_1 by lia. rewrite Hs.
  destruct (after (open_until l) now); cbn -[math_Max after Nat.sub];
    [|destruct (errors l - 2 =? 0)%nat]; cbn -[math_Max after Nat.sub];
    rewrite ?He, ?quarters_succeed by lia; split_and!; done || lia.
Qed.

Lemma suppressed_rel now reg why secs s l :
  lane_rel s l -> lane_rel (suppressed now why secs s) (lane_apply now reg (OpSuppress why secs) l).
Proof. intros (He & Hle & Hs & Hst). by split_and!. Qed.

Lemma recovered_rel now a s l : lane_rel s l ->
  lane_rel (recovered now (Some a) s) (lane_apply now (InfoStatus (Info a)) OpRecover l).
Proof.
  intros (He & Hle & Hs & Hst). unfold recovered, lane_rel. cbn -[Nat.leb].
  rewrite He, quarters_ge_1 by lia. pose proof (quarters_lt_1 (errors l) Hle) as Hlt.
  destruct (1 <=? errors l)%nat eqn:H1.
  - apply Nat.leb_le in H1. rewrite (proj2 (Nat.eqb_neq _ _)) in Hlt by lia.
    cbn. rewrite He, Hlt. cbn. by split_and!.
  - apply Nat.leb_gt in H1. rewrite (proj2 (Nat.eqb_eq _ _)) in Hlt by lia.
    cbn. rewrite He, Hlt. destruct (decide (InfoStatus (Info a) = AgentStatusMaintenance)) as [->|Hne]; cbn.
    + by split_and!.
    + rewrite bool_decide_eq_false_2 by done. cbn. by split_and!.
Qed.

Lemma lane_apply_named now reg op l :
  named reg -> named (lane_status l) -> named (lane_status (lane_apply now reg op l)).
Proof. unfold named. destruct op; cbn; repeat case_match; done. Qed.

(** An operation on a lane, run by the manager. *)
Definition run_op (now : Time) (id : string) (op : lane_op) : RT () :=
  match op with
  | OpFail detail => RecordRuntimeFailure now id detail;; mret ()
  | OpSucceed => RecordSuccess now id;; mret ()
  | OpSuppress reason seconds => SuppressLane now id reason seconds;; mret ()
  | OpQuarantine reason => QuarantineAgent now id reason;; mret ()
  | OpRecover => RecoverLane now id;; mret ()
  | OpCapacity snapshot => UpdateCapacitySnapshot now id snapshot;; mret ()
  end.

(** ... and by the breakers. *)
Definition breaker_step (reg : string -> AgentStatus) (lanes : string -> Lane) (o : Time * string * lane_op)
  : string -> Lane :=
  let '(now, id, op) := o in
  fun j => if decide (j = id) then lane_step now (reg id) op (lanes j) else tick now (lanes j).

(** [UpdateCapacitySnapshot] trims the id it is given. *)
Definition addressed (r : Registry) (o : Time * string * lane_op) : Prop :=
  is_Some (agents r !! o.1.2) /\ match o.2 with OpCapacity _ => TrimSpace o.1.2 = o.1.2 | _ => True end.

(** Every operation reads the lane, computes its new state and commits it. *)
Lemma run_op_commits now m lanes id op a :
  tracks m lanes -> agents (registry m) !! id = Some a -> addressed (registry m) (now, id, op) ->
  exists s, exec (run_op now id op) m = exec (commit now s) (exec (State now id) m) /\ AgentID s = id /\
    lane_rel s (lane_apply now (InfoStatus (Info a)) op (tick now (lanes id))).
Proof.
  intros Ht Ha [_ Htrim]. destruct (State_spec now m lanes id a Ht Ha) as (s & He & Hid & Hr & _).
  destruct op as [d| |why secs|why| |snap]; cbn [run_op snd fst] in *.
  - exists (failed now d s). unfold RecordRuntimeFailure, State_or_zero. st_simpl. rewrite He. cbn [default from_option].
    split_and!; [done|done|by apply failed_rel].
  - exists (succeeded now s). unfold RecordSuccess, State_or_zero. st_simpl. rewrite He. cbn [default from_option].
    split_and!; [done| |by apply succeeded_rel].
    unfold succeeded. cbn -[after math_Max]. by repeat case_match.
  - exists (suppressed now why secs s). unfold SuppressLane. st_simpl. rewrite He. st_simpl.
    split_and!; [done|done|by apply (suppressed_rel now (InfoStatus (Info a)))].
  - eexists (suppressed now _ 900 s). unfold QuarantineAgent, SuppressLane. st_simpl. rewrite He. st_simpl.
    split_and!; [done|done|].
    exact (suppressed_rel now (InfoStatus (Info a)) _ 900 s _ Hr).
  - exists (recovered now (Some a) s). unfold RecoverLane. st_simpl. rewrite He. st_simpl.
    unfold AgentByID. rewrite State_agents, Ha.
    split_and!; [done| |by apply recovered_rel].
    unfold recovered. cbn. repeat case_match; done.
  - eexists. unfold UpdateCapacitySnapshot. st_simpl. rewrite Htrim, He. st_simpl.
    split_and!; [done|done|]. by eapply lane_rel_frame.
Qed.

Lemma run_op_tracks now m lanes id op reg :
  tracks m lanes -> addressed (registry m) (now, id, op) ->
  (forall j a, agents (registry m) !! j = Some a -> reg j = InfoStatus (Info a)) ->
  tracks (exec (run_op now id op) m) (breaker_step reg lanes (now, id, op)) /\
  agents (registry (exec (run_op now id op) m)) = agents (registry m).
Proof.
  intros Ht Had Hreg. pose proof Had as [[a Ha] _]. cbn in Ha.
  destruct (run_op_commits now m lanes id op a Ht Ha Had) as (s & -> & Hid & Hr).
  split; [|by rewrite commit_agents, State_agents].
  destruct (tr_lane _ _ Ht _ _ Ha) as (_ & Hreg' & Hn & _).
  set (l := lane_apply now (InfoStatus (Info a)) op (tick now (lanes id))) in *.
  eapply tracks_ext; [|apply (commit_tracks now _ _ s a l (State_tracks now m lanes id a Ht Ha))].
  - intros j _. cbn. rewrite Hid. unfold upd, lane_step. case_decide; [|done].
    subst. by rewrite (Hreg _ _ Ha).
  - by rewrite State_agents, Hid.
  - exact Hr.
  - by apply lane_apply_named, tick_named.
Qed.

Definition run_ops (ops : list (Time * string * lane_op)) : RT () :=
  for_each ops (fun o => run_op o.1.1 o.1.2 o.2).

Lemma run_ops_tracks reg ops m lanes :
  tracks m lanes -> Forall (addressed (registry m)) ops ->
  (forall j a, agents (registry m) !! j = Some a -> reg j = InfoStatus (Info a)) ->
  tracks (exec (run_ops ops) m) (foldl (breaker_step reg) lanes ops) /\
  agents (registry (exec (run_ops ops) m)) = agents (registry m).
Proof.
  unfold run_ops. revert m lanes. induction ops as [|[[now id] op] ops IH]; intros m lanes Ht Had Hreg; [done|].
  inversion Had as [|? ? Ha Had']; subst. cbn [for_each foldl fst snd]. rewrite exec_bind.
  destruct (run_op_tracks now m lanes id op reg Ht Ha Hreg) as [Ht' Hag].
  destruct (IH _ _ Ht') as [H1 H2].
  - eapply Forall_impl; [exact Had'|]. intros o. unfold addressed. by rewrite Hag.
  - by rewrite Hag.
  - split; [done|]. by rewrite H2.
Qed.

Lemma Allows_tracks now m lanes id a :
  tracks m lanes -> agents (registry m) !! id = Some a ->
  eval (Allows now (Info a)) m = admits now (tick now (lanes id)).
Proof.
  intros Ht Ha. rewrite <- (agents_filed _ (tr_registry _ _ Ht) _ _ Ha) in Ha |- *.
  destruct (State_spec now m lanes _ a Ht Ha) as (s & He & _ & (_ & _ & Hs & Hst) & _).
  unfold Allows. st_simpl. rewrite He, Hst, Hs. unfold admits.
  set (l := tick now (lanes (InfoID (Info a)))).
  destruct (decide (lane_status l = AgentStatusOffline)) as [->|H1]; [done|].
  destruct (decide (lane_status l = AgentStatusMaintenance)) as [->|H2]; [done|].
  by rewrite !(bool_decide_eq_false_2 _ H1), !(bool_decide_eq_false_2 _ H2), !bool_decide_eq_true_2.
Qed.

(** ** Cached weights *)
Lemma suppressed_weight now s : after (SuppressedUntil s) now = true -> runtimePriorityWeight now s = 0%float.
Proof. unfold runtimePriorityWeight. by intros ->. Qed.

Lemma refresh_loop_weight now infos w m lanes id :
  tracks m lanes -> (forall i, i ∈ infos -> is_Some (agents (registry m) !! InfoID i)) ->
  after (open_until (tick now (lanes id))) now = true ->
  w !! id = Some 0%float \/ id ∈ map InfoID infos ->
  eval (refresh_loop now infos w) m !! id = Some 0%float.
Proof.
  revert w m lanes. induction infos as [|i infos IH]; intros w m lanes Ht Hreg Hopen Hw.
  - destruct Hw as [Hw|Hw]; [done|]. by apply not_elem_of_nil in Hw.
  - cbn [refresh_loop map] in *. unfold State_or_zero. st_simpl. destruct (Hreg i) as [a Ha]; [by left|].
    destruct (refresh_one_tracks now m lanes i a Ht Ha) as (s & He & Hid & Hr & Ht2).
    rewrite He. cbn [default from_option].
    eapply (IH _ _ _ Ht2).
    + intros j Hj. rewrite setState_agents, State_agents. apply Hreg. by right.
    + unfold upd. case_decide; [by subst; rewrite tick_idem|done].
    + destruct (decide (InfoID i = id)) as [Hi|Hne].
      * left. rewrite <- Hi at 1. rewrite lookup_insert_eq. f_equal. apply suppressed_weight.
        destruct Hr as (_ & _ & Hs & _). change (Datatypes.id s) with s. by rewrite Hs, Hi.
      * rewrite lookup_insert_ne by done. rewrite elem_of_cons in Hw. naive_solver.
Qed.

Lemma SuppressLane_weight now why secs m lanes id a :
  tracks m lanes -> agents (registry m) !! id = Some a -> now < suppress_until now secs ->
  routingWeights (exec (SuppressLane now id why secs) m) !! id = Some 0%float.
Proof.
  intros Ht Ha Hlt. destruct (State_spec now m lanes id a Ht Ha) as (s & He & Hid & Hr & _).
  unfold SuppressLane. st_simpl. rewrite He. st_simpl. unfold commit, RefreshRoutingWeights. st_simpl. cbn [routingWeights field_map].
  pose proof (State_tracks now m lanes id a Ht Ha) as Ht1.
  set (s1 := suppressed now why secs s). set (l := lane_apply now AgentStatusReady (OpSuppress why secs) (tick now (lanes id))).
  assert (lane_rel s1 l) as Hr1 by by apply (suppressed_rel now AgentStatusReady).
  assert (agents (registry (exec (State now id) m)) !! AgentID s1 = Some a) as Ha1
    by (rewrite State_agents; by change (AgentID s1) with (AgentID s); rewrite Hid).
  pose proof (setState_tracks now _ _ s1 a l Ht1 Ha1 Hr1 ltac:(done)) as Ht2.
  eapply (refresh_loop_weight _ _ _ _ _ id Ht2).
  - intros i. apply AgentInfos_registered, Ht2.
  - unfold upd. change (AgentID s1) with (AgentID s). rewrite Hid, decide_True by done.
    unfold tick. cbn. rewrite (proj2 (Z.ltb_lt _ _) Hlt). cbn. by apply Z.ltb_lt.
  - right. eapply registered_AgentInfos; [apply Ht2|]. by rewrite setState_agents, State_agents.
Qed.

Lemma State_weights now id m : routingWeights (exec (State now id) m) = routingWeights m.
Proof.
  unfold State, get, exec, mbind, st_bind. cbn.
  destruct (RuntimeState id (registry m)); [done|]. by destruct (AgentByID id (registry m)).
Qed.

(** ** The manager as the kernel starts it *)
Definition register_all (now : Time) (ags : list Agent) : Registry :=
  foldl (fun r a => (RegisterAgent now a r).1) NewRegistry ags.

(** Closed breakers, with the status and the declared status of every agent. *)
Definition closed_lanes (r : Registry) (id : string) : Lane :=
  mkLane 0 None (from_option Status AgentStatusReady (runtimeStates r !! id)).
Definition declared (r : Registry) (id : string) : AgentStatus :=
  from_option (fun a => InfoStatus (Info a)) AgentStatusReady (agents r !! id).

Definition well_declared (a : Agent) : Prop := InfoID (Info a) <> "" /\ named (InfoStatus (Info a)).

Record fresh (r : Registry) : Prop := mkFresh {
  fr_ok : registry_ok r;
  fr_agents : forall id a, agents r !! id = Some a -> well_declared a /\ is_Some (runtimeStates r !! id);
  fr_states : forall id s, runtimeStates r !! id = Some s ->
    ErrorRate s = 0%float /\ SuppressedUntil s = None /\ named (Status s) }.

Lemma RegisterAgent_fresh now a r : well_declared a -> fresh r -> fresh (RegisterAgent now a r).1.
Proof.
  intros Hw [Hok Ha Hs]. split; [by apply RegisterAgent_ok|..]; cbn.
  - intros id b [[<- <-]|[Hne Hb]]%lookup_insert_Some; [by rewrite lookup_insert_eq|].
    rewrite lookup_insert_ne by done. by apply Ha.
  - intros id s [[<- <-]|[_ Hb]]%lookup_insert_Some; [|by apply (Hs id)].
    destruct (runtimeStates r !! InfoID (Info a)) as [s0|] eqn:Hr; [|split_and!; try done; apply Hw].
    destruct (Hs _ _ Hr) as (H1 & H2 & H3). rewrite bool_decide_eq_false_2 by done. by cbn.
Qed.

Lemma register_all_fresh now ags : Forall well_declared ags -> fresh (register_all now ags).
Proof.
  unfold register_all. assert (fresh NewRegistry) as H.
  { split; [apply NewRegistry_ok|..]; intros id x; cbn; by rewrite lookup_empty. }
  revert H. generalize NewRegistry. induction ags as [|a ags IH]; intros r Hr Hw; [done|].
  inversion Hw; subst. apply IH; [by apply RegisterAgent_fresh|done].
Qed.

Lemma fresh_tracks r : fresh r -> tracks (NewRuntimeManager r) (closed_lanes r).
Proof.
  intros [Hok Ha Hs]. split; cbn; [done|]. intros id a Hid.
  destruct (Ha _ _ Hid) as [[Hne Hn] [s Hst]]. destruct (Hs _ _ Hst) as (H1 & H2 & H3).
  unfold closed_lanes. rewrite Hst. cbn. split_and!; [|done|done|].
  - by rewrite <- (agents_filed _ Hok _ _ Hid).
  - exists s. split; [done|]. split_and!; cbn; done || lia.
Qed.

(** C8: The runtime manager refines one circuit breaker per agent.  After any sequence of failures,
    successes, suppressions, quarantines, recoveries and capacity reports, at any times and for any
    registered agents, the state of an agent is that of a breaker which saw only the operations on
    this agent: failures raise a rate in quarters up to one, degrade the lane and close it from three
    quarters on, a success halves the way back, a suppression ends at its time; and [Allows] admits a
    task exactly when the breaker does.  No operation on one agent changes another's breaker. *)
Theorem runtime_refines_breaker (t0 : Time) (ags : list Agent) (ops : list (Time * string * lane_op)) :
  Forall well_declared ags -> Forall (addressed (register_all t0 ags)) ops ->
  let r := register_all t0 ags in
  let m := exec (run_ops ops) (NewRuntimeManager r) in
  let lanes := foldl (breaker_step (declared r)) (closed_lanes r) ops in
  forall id a now, agents (registry m) !! id = Some a ->
    (exists s, eval (State now id) m = Some s /\ lane_rel s (tick now (lanes id))) /\
    eval (Allows now (Info a)) m = admits now (tick now (lanes id)).
Proof.
  intros Hw Hops r m lanes id a now Ha.
  destruct (run_ops_tracks (declared r) ops _ _ (fresh_tracks _ (register_all_fresh t0 ags Hw)) Hops) as [Ht _].
  { intros j b Hj. unfold declared. cbn in Hj. unfold r. by rewrite Hj. }
  split; [|by apply Allows_tracks].
  destruct (State_spec now m _ id a Ht Ha) as (s & He & _ & Hr & _). by exists s.
Qed.

(** A coder fails three times while a reviewer is suppressed for a minute. *)
Definition example_agent (id : string) : Agent :=
  mkAgent (mkAgentInfo id "coder" "openai" "gpt" ["implementation"] AgentStatusReady) (fun _ => true) false.
Definition example_ops : list (Time * string * lane_op) :=
  [(10, "coder", OpFail "boom"); (20, "reviewer", OpSuppress "busy" 60);
   (30, "coder", OpFail "boom"); (40, "coder", OpFail "boom")].

Lemma runtime_refines_breaker_witness :
  let ags := [example_agent "coder"; example_agent "reviewer"] in
  let m := exec (run_ops example_ops) (NewRuntimeManager (register_all 1 ags)) in
  let allows now id := eval (Allows now (Info (example_agent id))) m in
  allows 50 "coder" = false /\ allows 50 "reviewer" = false /\
  allows (20 + 60 * second) "coder" = false /\ allows (20 + 60 * second) "reviewer" = true.
Proof.
  unshelve epose proof (runtime_refines_breaker 1 [example_agent "coder"; example_agent "reviewer"]
    example_ops _ _) as H.
  - by repeat constructor.
  - repeat (constructor; [split; [by eexists|done]|]). constructor.
  - cbv beta zeta in *.
    pose proof (fun now => proj2 (H "coder" (example_agent "coder") now ltac:(vm_compute; reflexivity))) as Hc.
    pose proof (fun now => proj2 (H "reviewer" (example_agent "reviewer") now ltac:(vm_compute; reflexivity))) as Hr.
    rewrite !Hc, !Hr. vm_compute. done.
Defined.
