(* ===== verification/AdaptiveRuntime.v ===== *)
(** * The adaptive runtime (kernel/adaptive_runtime.go)

    Before a task is routed the kernel looks at the health of all lanes, suppresses those that keep
    failing, and decides on a mode and on how many steps may run in parallel.  Registry and runtime
    manager are the kernel's own; the memory only records decisions.  A decision reads the clock
    once, as [now]. *)
From S2P Require Import Prelude GoLib GoJSON Domain StateMonad AgentRegistry RuntimeManager.
From Stdlib Require Import PrimFloat.

Inductive AdaptiveExecutionMode : Type :=
  | AdaptiveExecutionModeBalanced | AdaptiveExecutionModeThroughput
  | AdaptiveExecutionModeLatencyGuarded | AdaptiveExecutionModeRecovery.
Definition adaptive_mode_string (mode : AdaptiveExecutionMode) : string :=
  match mode with
  | AdaptiveExecutionModeBalanced => "balanced"
  | AdaptiveExecutionModeThroughput => "throughput"
  | AdaptiveExecutionModeLatencyGuarded => "latency_guarded"
  | AdaptiveExecutionModeRecovery => "recovery"
  end.

Record AdaptiveAgentSignal : Type := mkAdaptiveAgentSignal {
  SigAgentID : string;
  SigStatus : AgentStatus;
  SigErrorRate : float;
  SigRoutingWeight : float;
  SigIssue : string;
  SigAction : string }.

Record AdaptiveDiagnostics : Type := mkAdaptiveDiagnostics {
  HealthyAgents : Z;
  DegradedAgents : Z;
  SuppressedAgents : Z;
  OfflineAgents : Z;
  AverageErrorRate : float;
  TopSignals : list AdaptiveAgentSignal;
  DiagObservedAt : Time }.
#[export] Instance eta_AdaptiveDiagnostics : Updatable AdaptiveDiagnostics := fun d =>
  mkAdaptiveDiagnostics (HealthyAgents d) (DegradedAgents d) (SuppressedAgents d) (OfflineAgents d)
    (AverageErrorRate d) (TopSignals d) (DiagObservedAt d).

Record AdaptiveDecision : Type := mkAdaptiveDecision {
  DecMode : AdaptiveExecutionMode;
  DecReason : string;
  DecMaxParallelism : Z;
  DecPreferredRouteMode : string;
  DecSuppressedAgents : list string;
  DecRecoveryActions : list string;
  DecDiagnostics : AdaptiveDiagnostics;
  DecidedAt : Time }.

(** ** How wide a plan is *)

(** Counters by number of dependencies, and the largest. *)
Definition count_level (acc : gmap string Z * Z) (step : PlanStep) : gmap string Z * Z :=
  let '(dependents, maxWidth) := acc in
  let key := itoa (len (StepDependencies step)) in
  let n := default 0 (dependents !! key) + 1 in
  (<[key := n]> dependents, if maxWidth <? n then n else maxWidth).
Definition planWidth (plan : ExecutionPlan) : Z :=
  let maxWidth := (foldl count_level (∅, 0) (Steps plan)).2 in
  if (maxWidth =? 0) && (0 <? len (Steps plan)) then 1 else maxWidth.

Definition adaptiveParallelismLimit (task : Task) (plan : ExecutionPlan) : Z :=
  let limit := match Complexity_ task with
    | ComplexityLow => 2 | ComplexityMedium => 3
    | ComplexityHigh | ComplexityCritical => 4 | ComplexityOther _ => 2 end in
  let width := planWidth plan in
  if (0 <? width) && (width <? limit) then width else limit.

(** ** Diagnosis *)
Definition signal_less (a b : AdaptiveAgentSignal) : bool :=
  if (SigErrorRate a =? SigErrorRate b)%float
  then (SigRoutingWeight a <? SigRoutingWeight b)%float
  else (SigErrorRate b <? SigErrorRate a)%float.

(** Counts a lane and names its issue. *)
Definition count_lane (status : AgentStatus) (d : AdaptiveDiagnostics) : AdaptiveDiagnostics * string :=
  match status with
  | AgentStatusReady | AgentStatusBusy => (d <| HealthyAgents ::= Z.succ |>, "")
  | AgentStatusDegraded => (d <| DegradedAgents ::= Z.succ |>, "degraded")
  | AgentStatusMaintenance => (d <| SuppressedAgents ::= Z.succ |>, "suppressed")
  | AgentStatusOffline => (d <| OfflineAgents ::= Z.succ |>, "offline")
  | AgentStatusOther _ => (d, "")
  end.
Definition suppression_due (state : AgentRuntimeState) : bool :=
  (0.75 <=? ErrorRate state)%float && negb (bool_decide (Status state = AgentStatusOffline)).

Section AdaptiveRuntime.
Context (now : Time).

(** The state read of an agent, as a counted signal; a failing lane is suppressed. *)
Definition diagnose_state (weights : gmap string float) (info : AgentInfo) (state : AgentRuntimeState)
  (d : AdaptiveDiagnostics) : RT (AdaptiveDiagnostics * AdaptiveAgentSignal) :=
  let suppressedAlready := bool_decide (Status state = AgentStatusMaintenance) in
  let '(d, issue) := count_lane (Status state) d in
  let signal issue action := mkAdaptiveAgentSignal (InfoID info) (Status state) (ErrorRate state)
    (default 0%float (weights !! InfoID info)) issue action in
  if suppression_due state then
    s ← SuppressLane now (InfoID info) "adaptive recovery due to sustained degradation" 300;
    mret match s with
    | None => (d, signal issue "")
    | Some _ => (if suppressedAlready then d else d <| SuppressedAgents ::= Z.succ |>,
                 signal (firstNonEmptyString [issue; "high_error_rate"]) "suppress_lane")
    end
  else if (0.25 <=? ErrorRate state)%float && String.eqb issue ""
  then mret (d, signal "elevated_error_rate" "")
  else mret (d, signal issue "").

Fixpoint diagnose_loop (weights : gmap string float) (infos : list AgentInfo)
  (acc : AdaptiveDiagnostics * float * list AdaptiveAgentSignal)
  : RT (AdaptiveDiagnostics * float * list AdaptiveAgentSignal) :=
  match infos with
  | [] => mret acc
  | info :: infos =>
      state ← State now (InfoID info);
      match state with
      | None => diagnose_loop weights infos acc
      | Some state =>
          let '(d, totalErrorRate, states) := acc in
          r ← diagnose_state weights info state d;
          diagnose_loop weights infos (r.1, (totalErrorRate + ErrorRate state)%float, states ++ [r.2])
      end
  end.

(** [attached]: registry and runtime manager are there. *)
Definition collectDiagnostics (attached : bool) : RT AdaptiveDiagnostics :=
  let diagnostics := mkAdaptiveDiagnostics 0 0 0 0 0 [] now in
  if negb attached then mret diagnostics
  else
    weights ← RefreshRoutingWeights now;
    infos ← gets (fun m => AgentInfos (registry m));
    r ← diagnose_loop weights infos (diagnostics, 0%float, []);
    let '(diagnostics, totalErrorRate, states) := r in
    let diagnostics := if 0 <? len states
      then diagnostics <| AverageErrorRate := (totalErrorRate / float_of_int (len states))%float |>
      else diagnostics in
    mret (diagnostics <| TopSignals := take 4 (sort_slice signal_less states) |>).

(** ** Decision *)
Definition recovering (d : AdaptiveDiagnostics) : bool :=
  (0 <? DegradedAgents d) || (0 <? SuppressedAgents d) || (0.30 <=? AverageErrorRate d)%float.
Definition suppressing (signals : list AdaptiveAgentSignal) : list string :=
  map SigAgentID (List.filter (fun signal => String.eqb (SigAction signal) "suppress_lane") signals).

(** The decision taken on given diagnostics. *)
Definition decide_mode (task : Task) (plan : ExecutionPlan) (diagnostics : AdaptiveDiagnostics)
  : AdaptiveDecision :=
  let limit := adaptiveParallelismLimit task plan in
  let decision mode reason maxParallelism route suppressedAgents :=
    mkAdaptiveDecision mode reason (if maxParallelism <? 1 then 1 else maxParallelism) route
      suppressedAgents (map (fun id => "suppress " +:+ id) suppressedAgents) diagnostics now in
  if recovering diagnostics then
    decision AdaptiveExecutionModeRecovery "runtime detected degraded or suppressed execution lanes"
      (if 2 <? limit then 2 else limit) "orchestrator" (suppressing (TopSignals diagnostics))
  else if bool_decide (Priority_ task = PriorityCritical) || bool_decide (Priority_ task = PriorityHigh) then
    decision AdaptiveExecutionModeLatencyGuarded "priority-sensitive task prefers safer low-latency routing"
      (if 3 <? limit then 3 else limit) "" []
  else if (3 <=? planWidth plan) && (2 <=? HealthyAgents diagnostics) then
    decision AdaptiveExecutionModeThroughput "healthy pool allows wider parallel task fan-out"
      (if limit <? 3 then 3 else limit) "" []
  else decision AdaptiveExecutionModeBalanced "default balanced runtime policy" limit "" [].
Definition Decide (attached : bool) (task : Task) (plan : ExecutionPlan) : RT AdaptiveDecision :=
  diagnostics ← collectDiagnostics attached; mret (decide_mode task plan diagnostics).

Definition diagnostics_any (d : AdaptiveDiagnostics) : any :=
  AMap [("healthy_agents", AInt (HealthyAgents d)); ("degraded_agents", AInt (DegradedAgents d));
        ("suppressed_agents", AInt (SuppressedAgents d)); ("offline_agents", AInt (OfflineAgents d));
        ("average_error_rate", AFloat (AverageErrorRate d))].
Definition adaptive_hints (decision : AdaptiveDecision) (hints : anymap) : anymap :=
  let hints := foldl (fun h '(key, value) => aset h key value) hints
    [("adaptive_mode", AString (adaptive_mode_string (DecMode decision)));
     ("adaptive_reason", AString (DecReason decision));
     ("adaptive_max_parallelism", AInt (DecMaxParallelism decision));
     ("adaptive_recovery_actions", AStrings (DecRecoveryActions decision));
     ("adaptive_suppressed_agents", AStrings (DecSuppressedAgents decision));
     ("adaptive_diagnostics", diagnostics_any (DecDiagnostics decision))] in
  if non_blank (DecPreferredRouteMode decision)
  then aset hints "route_mode" (AString (DecPreferredRouteMode decision)) else hints.
(** The task, the decision, and what is recorded in the memory, when there is one. *)
Definition Apply (attached hasMemory : bool) (task : Task) (plan : ExecutionPlan)
  : RT (Task * AdaptiveDecision * option (Task * AdaptiveDecision)) :=
  decision ← Decide attached task plan;
  let task := task <| RoutingHints ::= adaptive_hints decision |> in
  mret (task, decision, if hasMemory then Some (task, decision) else None).
End AdaptiveRuntime.
