(* ===== verification/AdaptiveRuntimeProps.v ===== *)
(** * Properties of the adaptive runtime *)
From S2P Require Import Prelude GoLib GoJSON Domain Policy StateMonad AgentRegistry RuntimeManager RuntimeManagerProps AdaptiveRuntime.
From Stdlib Require Import PrimFloat.

(** ** What a decision does to the lanes *)
Definition failing (l : Lane) : bool :=
  (3 <=? errors l)%nat && negb (bool_decide (lane_status l = AgentStatusOffline)).
Definition adapt_lane (now : Time) (l : Lane) : Lane :=
  if failing l then mkLane (errors l) (Some (suppress_until now 300)) AgentStatusMaintenance else l.
Definition ticked (now : Time) (lanes : string -> Lane) : Prop := forall id, tick now (lanes id) = lanes id.

Lemma adapt_ticked now l : tick now l = l -> tick now (adapt_lane now l) = adapt_lane now l.
Proof.
  intros Hl. unfold adapt_lane. destruct (failing l); [|done]. unfold tick. cbn [open_until].
  rewrite (proj2 (Z.ltb_lt now (suppress_until now 300))); [done|].
  change (suppress_until now 300) with (now + 300000000000). lia.
Qed.

Lemma suppression_due_rel s l : lane_rel s l -> suppression_due s = failing l.
Proof.
  intros (He & Hle & _ & Hst). unfold suppression_due, failing. by rewrite He, Hst, quarters_ge_3.
Qed.

Lemma SuppressLane_spec now m lanes id a why :
  tracks m lanes -> ticked now lanes -> agents (registry m) !! id = Some a ->
  is_Some (eval (SuppressLane now id why 300) m) /\
  agents (registry (exec (SuppressLane now id why 300) m)) = agents (registry m) /\
  tracks (exec (SuppressLane now id why 300) m)
    (upd lanes id (mkLane (errors (lanes id)) (Some (suppress_until now 300)) AgentStatusMaintenance)).
Proof.
  intros Ht Htk Ha. split.
  { destruct (State_spec now m lanes id a Ht Ha) as (s & He & _).
    unfold SuppressLane. st_simpl. rewrite He. st_simpl. eauto. }
  destruct (run_op_tracks now m lanes id (OpSuppress why 300) (declared (registry m)) Ht) as [Ht' Hag].
  { split; [by exists a|done]. }
  { intros j b Hj. unfold declared. by rewrite Hj. }
  cbn [run_op] in *. rewrite exec_bind, exec_ret in *. split; [done|].
  eapply tracks_ext; [|exact Ht']. intros j _. cbn. unfold upd. case_decide; [|by apply Htk].
  subst. unfold lane_step, lane_apply. rewrite Htk. unfold tick. cbn [open_until].
  rewrite (proj2 (Z.ltb_lt now (suppress_until now 300))); [done|].
  change (suppress_until now 300) with (now + 300000000000). lia.
Qed.

(** ** One lane *)
Definition lane_healthy (l : Lane) : bool :=
  bool_decide (lane_status l = AgentStatusReady) || bool_decide (lane_status l = AgentStatusBusy).
Definition has_status (st : AgentStatus) (l : Lane) : bool := bool_decide (lane_status l = st).
Definition lane_suppressed (l : Lane) : bool := has_status AgentStatusMaintenance l || failing l.

(** The counters of [d'] are those of [d] and the lane [l]. *)
Record counted (l : Lane) (d d' : AdaptiveDiagnostics) : Prop := mkCounted {
  ct_healthy : HealthyAgents d' = HealthyAgents d + Z.b2z (lane_healthy l);
  ct_degraded : DegradedAgents d' = DegradedAgents d + Z.b2z (has_status AgentStatusDegraded l);
  ct_suppressed : SuppressedAgents d' = SuppressedAgents d + Z.b2z (lane_suppressed l);
  ct_offline : OfflineAgents d' = OfflineAgents d + Z.b2z (has_status AgentStatusOffline l) }.

Definition signals (l : Lane) (id : string) (sig : AdaptiveAgentSignal) : Prop :=
  SigAgentID sig = id /\ SigStatus sig = lane_status l /\ SigErrorRate sig = quarters (errors l) /\
  (SigAction sig = "suppress_lane" <-> failing l = true).

Lemma count_lane_spec st d :
  let d' := (count_lane st d).1 in let l := mkLane 0 None st in
  HealthyAgents d' = HealthyAgents d + Z.b2z (lane_healthy l) /\
  DegradedAgents d' = DegradedAgents d + Z.b2z (has_status AgentStatusDegraded l) /\
  SuppressedAgents d' = SuppressedAgents d + Z.b2z (has_status AgentStatusMaintenance l) /\
  OfflineAgents d' = OfflineAgents d + Z.b2z (has_status AgentStatusOffline l).
Proof.
  unfold lane_healthy, has_status. destruct st; cbn [lane_status count_lane fst];
    repeat case_bool_decide; try congruence; cbn; lia.
Qed.

Lemma diagnose_state_spec now weights m lanes info a d s :
  tracks m lanes -> ticked now lanes -> agents (registry m) !! InfoID info = Some a ->
  lane_rel s (lanes (InfoID info)) ->
  let r := eval (diagnose_state now weights info s d) m in
  let m' := exec (diagnose_state now weights info s d) m in
  let l := lanes (InfoID info) in
  tracks m' (upd lanes (InfoID info) (adapt_lane now l)) /\ agents (registry m') = agents (registry m) /\
  counted l d r.1 /\ signals l (InfoID info) r.2.
Proof.
  intros Ht Htk Ha Hr r m' l. subst r m' l. unfold diagnose_state.
  pose proof (count_lane_spec (Status s) d) as Hc. destruct (count_lane (Status s) d) as [d1 issue].
  destruct Hr as (He & Hle & Hsu & Hst). cbn zeta in Hc. cbn [fst] in Hc. rewrite Hst in Hc.
  rewrite (suppression_due_rel s (lanes (InfoID info))) by done.
  destruct Hc as (H1 & H2 & H3 & H4). unfold adapt_lane, signals.
  destruct (failing (lanes (InfoID info))) eqn:Hf.
  - destruct (SuppressLane_spec now m lanes (InfoID info) a
      "adaptive recovery due to sustained degradation" Ht Htk Ha) as ([s1 Hs1] & Hag & Htr).
    st_simpl. rewrite Hs1. st_simpl. split; [done|]. split; [done|]. cbn [fst snd]. rewrite Hst.
    split; [|done].
    assert (lane_suppressed (lanes (InfoID info)) = true) as Hls
      by (unfold lane_suppressed; by rewrite Hf, orb_true_r).
    change (has_status AgentStatusMaintenance (mkLane 0 None (lane_status (lanes (InfoID info)))))
      with (bool_decide (lane_status (lanes (InfoID info)) = AgentStatusMaintenance)) in H3.
    destruct (bool_decide _); split; rewrite ?Hls; cbn [field_map HealthyAgents DegradedAgents
      SuppressedAgents OfflineAgents Z.b2z] in *; first [done|lia].
  - assert (tracks m (upd lanes (InfoID info) (lanes (InfoID info)))) as Htr.
    { eapply tracks_ext; [|exact Ht]. intros j _. unfold upd. by case_decide; subst. }
    assert (counted (lanes (InfoID info)) d d1) as Hct
      by (split; unfold lane_suppressed; rewrite ?Hf, ?orb_false_r; done).
    destruct ((0.25 <=? ErrorRate s)%float && String.eqb issue ""); st_simpl;
      (split; [done|split; [done|split; [done|by rewrite <- Hst]]]).
Qed.

(** ** All lanes *)
Definition lane_count (p : Lane -> bool) (lanes : string -> Lane) (ids : list string) : Z :=
  len (List.filter (fun id => p (lanes id)) ids).
Lemma lane_count_cons p lanes id ids :
  lane_count p lanes (id :: ids) = Z.b2z (p (lanes id)) + lane_count p lanes ids.
Proof. unfold lane_count, len. cbn [List.filter]. destruct (p (lanes id)); cbn [length Z.b2z]; lia. Qed.
Lemma lane_count_ext p lanes lanes' ids :
  (forall id, id ∈ ids -> lanes id = lanes' id) -> lane_count p lanes ids = lane_count p lanes' ids.
Proof.
  intros H. induction ids as [|id ids IH]; [done|]. rewrite !lane_count_cons, (H id) by by left.
  rewrite IH; [done|]. intros j Hj. apply H. by right.
Qed.
Lemma lane_count_pos p lanes ids id : id ∈ ids -> p (lanes id) = true -> 0 < lane_count p lanes ids.
Proof.
  intros Hid Hp. assert (In id (List.filter (fun id => p (lanes id)) ids)) as Hin
    by (apply filter_In; by rewrite <- list_elem_of_In).
  unfold lane_count, len. destruct (List.filter _ ids); [done|]. cbn [length]. lia.
Qed.

(** The counters of [d'] are those of [d] and of the lanes [ids]. *)
Record counts (lanes : string -> Lane) (ids : list string) (d d' : AdaptiveDiagnostics) : Prop := mkCounts {
  cs_healthy : HealthyAgents d' = HealthyAgents d + lane_count lane_healthy lanes ids;
  cs_degraded : DegradedAgents d' = DegradedAgents d + lane_count (has_status AgentStatusDegraded) lanes ids;
  cs_suppressed : SuppressedAgents d' = SuppressedAgents d + lane_count lane_suppressed lanes ids;
  cs_offline : OfflineAgents d' = OfflineAgents d + lane_count (has_status AgentStatusOffline) lanes ids }.

Lemma counts_cons lanes id ids d d1 d2 :
  counted (lanes id) d d1 -> counts lanes ids d1 d2 -> counts lanes (id :: ids) d d2.
Proof. intros [] []. split; rewrite lane_count_cons; lia. Qed.

Lemma counts_perm lanes ids ids' d d' : ids ≡ₚ ids' -> counts lanes ids d d' -> counts lanes ids' d d'.
Proof.
  intros Hp [H1 H2 H3 H4].
  assert (forall p, lane_count p lanes ids' = lane_count p lanes ids) as H.
  { clear - Hp. intros p. induction Hp as [|x l l' Hl IH|x y l|l1 l2 l3 _ IH1 _ IH2]; rewrite ?lane_count_cons; lia. }
  by split; rewrite H.
Qed.

Lemma diagnose_loop_spec now weights infos m lanes d total states :
  tracks m lanes -> ticked now lanes -> NoDup (map InfoID infos) ->
  (forall i, i ∈ infos -> is_Some (agents (registry m) !! InfoID i)) ->
  let r := eval (diagnose_loop now weights infos (d, total, states)) m in
  tracks (exec (diagnose_loop now weights infos (d, total, states)) m)
    (fun j => if decide (j ∈ map InfoID infos) then adapt_lane now (lanes j) else lanes j) /\
  agents (registry (exec (diagnose_loop now weights infos (d, total, states)) m)) = agents (registry m) /\
  counts lanes (map InfoID infos) d r.1.1 /\
  exists sigs, r.2 = states ++ sigs /\
    Forall2 (fun id sig => signals (lanes id) id sig) (map InfoID infos) sigs.
Proof.
  revert m lanes d total states.
  induction infos as [|i infos IH]; intros m lanes d total states Ht Htk Hnd Hreg.
  { cbn. split; [|split; [done|]; split; [split; unfold lane_count, len; cbn; lia|exists []; split; [by rewrite app_nil_r|constructor]]].
    eapply tracks_ext; [|exact Ht]. intros j _. by rewrite decide_False by apply not_elem_of_nil. }
  cbn [map] in Hnd |- *. apply NoDup_cons in Hnd as [Hni Hnd].
  destruct (Hreg i) as [a Ha]; [by left|].
  destruct (State_spec now m lanes _ a Ht Ha) as (s & He & Hid & Hr & _). rewrite Htk in Hr.
  pose proof (State_tracks now m lanes _ a Ht Ha) as Ht1.
  assert (tracks (exec (State now (InfoID i)) m) lanes) as Ht1'.
  { eapply tracks_ext; [|exact Ht1]. intros j _. unfold upd. case_decide; [|done]. subst. by rewrite Htk. }
  destruct (diagnose_state_spec now weights _ lanes i a d s Ht1' Htk) as (Ht2 & Hag2 & Hc & Hs).
  { by rewrite State_agents. }
  { done. }
  cbn zeta. cbn [diagnose_loop]. rewrite exec_bind, eval_bind, He. rewrite exec_bind, eval_bind.
  set (m2 := exec (diagnose_state now weights i s d) (exec (State now (InfoID i)) m)) in *.
  set (r1 := eval (diagnose_state now weights i s d) (exec (State now (InfoID i)) m)) in *.
  set (lanes2 := upd lanes (InfoID i) (adapt_lane now (lanes (InfoID i)))) in *.
  destruct (IH m2 lanes2 r1.1 (total + ErrorRate s)%float (states ++ [r1.2]) Ht2) as (Ht3 & Hag3 & Hcs & sigs & Hsig & Hf).
  { intros j. subst lanes2. unfold upd. case_decide; [by apply adapt_ticked|done]. }
  { done. }
  { intros j Hj. rewrite Hag2, State_agents. apply Hreg. by right. }
  assert (forall j, j ∈ map InfoID infos -> lanes2 j = lanes j) as Hrest.
  { intros j Hj. subst lanes2. unfold upd. case_decide; [by subst|done]. }
  split; [|split; [by rewrite Hag3, Hag2, State_agents|split]].
  - eapply tracks_ext; [|exact Ht3]. intros j _. cbn beta. pose proof (elem_of_cons (map InfoID infos) j (InfoID i)).
    destruct (decide (j ∈ map InfoID infos)) as [Hj|Hj].
    + rewrite decide_True by tauto. by rewrite Hrest.
    + subst lanes2. unfold upd. repeat case_decide; subst; try done; tauto.
  - eapply counts_cons; [exact Hc|]. destruct Hcs. split; erewrite (lane_count_ext _ lanes lanes2); try done;
      intros j Hj; by rewrite Hrest.
  - exists (r1.2 :: sigs). split; [by rewrite Hsig, <- app_assoc|]. constructor; [done|].
    apply Forall2_same_length_lookup. apply Forall2_same_length_lookup in Hf as [Hlen Hf]. split; [done|].
    intros k id sig Hk Hsk. rewrite <- (Hrest id) by (by eapply list_elem_of_lookup_2). by eapply Hf.
Qed.

Lemma AgentInfos_nodup r : registry_ok r -> NoDup (map InfoID (AgentInfos r)).
Proof.
  intros [Ha _]. unfold AgentInfos. rewrite (sort_slice_perm info_less), !map_map.
  rewrite (map_ext_in _ fst).
  - apply NoDup_fst_map_to_list.
  - intros [id a] Hin%list_elem_of_In. apply elem_of_map_to_list in Hin. cbn.
    rewrite <- (Ha _ _ Hin). unfold live_info. repeat case_match; done.
Qed.

Definition agent_ids (m : Runtime) : list string := map InfoID (AgentInfos (registry m)).
Lemma agent_ids_eq m m' : agents (registry m') = agents (registry m) ->
  forall id, registry_ok (registry m) -> registry_ok (registry m') ->
  id ∈ agent_ids m <-> id ∈ agent_ids m'.
Proof.
  intros Hag id H1 H2. unfold agent_ids. split; intros Hid;
    apply list_elem_of_fmap in Hid as (i & -> & Hi%AgentInfos_registered); try done;
    destruct Hi as [a Hi]; [rewrite <- Hag in Hi|rewrite Hag in Hi]; by eapply registered_AgentInfos.
Qed.

Lemma collect_spec now m lanes :
  tracks m lanes ->
  let d := eval (collectDiagnostics now true) m in
  let before := fun id => tick now (lanes id) in
  tracks (exec (collectDiagnostics now true) m) (fun id => adapt_lane now (before id)) /\
  agents (registry (exec (collectDiagnostics now true) m)) = agents (registry m) /\
  counts before (agent_ids m) (mkAdaptiveDiagnostics 0 0 0 0 0 [] now) d /\
  forall sig, sig ∈ TopSignals d -> exists id, id ∈ agent_ids m /\ signals (before id) id sig.
Proof.
  intros Ht. cbn zeta. unfold collectDiagnostics. cbn [negb].
  rewrite exec_bind, eval_bind. set (m1 := exec (RefreshRoutingWeights now) m).
  pose proof (Refresh_tracks now m lanes Ht) as Ht1. fold m1 in Ht1.
  assert (agents (registry m1) = agents (registry m)) as Hag by apply Refresh_agents.
  rewrite exec_bind, eval_bind, exec_gets, eval_gets.
  assert (agent_ids m1 ≡ₚ agent_ids m) as Hids.
  { apply NoDup_Permutation.
    - apply AgentInfos_nodup, Ht1.
    - apply AgentInfos_nodup, Ht.
    - intros id. symmetry. apply agent_ids_eq; [done|apply Ht|apply Ht1]. }
  set (weights := eval (RefreshRoutingWeights now) m). rewrite exec_bind, eval_bind.
  destruct (diagnose_loop_spec now weights (AgentInfos (registry m1)) m1 (fun id => tick now (lanes id))
    (mkAdaptiveDiagnostics 0 0 0 0 0 [] now) 0%float [] Ht1) as (Htr & Hag2 & Hc & sigs & Hs & Hf).
  { intros id. apply tick_idem. }
  { apply AgentInfos_nodup, Ht1. }
  { intros i. apply AgentInfos_registered, Ht1. }
  set (r := eval (diagnose_loop now weights (AgentInfos (registry m1))
    (mkAdaptiveDiagnostics 0 0 0 0 0 [] now, 0%float, [])) m1) in *. clearbody r.
  set (m2 := exec (diagnose_loop now weights (AgentInfos (registry m1))
    (mkAdaptiveDiagnostics 0 0 0 0 0 [] now, 0%float, [])) m1) in *.
  destruct r as [[d total] states]. cbn [fst snd app] in *. subst states. rewrite exec_ret, eval_ret.
  fold m2 in Hag2. split; [|split; [by rewrite Hag2|split]].
  - eapply tracks_ext; [|exact Htr]. intros id [a Ha]. cbn beta. rewrite decide_True; [done|].
    rewrite Hag2 in Ha. eapply registered_AgentInfos; [apply Ht1|done].
  - apply (counts_perm _ (agent_ids m1) _ _ _ Hids). destruct Hc as [H1 H2 H3 H4].
    unfold agent_ids. by destruct (0 <? len sigs); split.
  - cbn [TopSignals field_map]. intros sig Hsig.
    assert (sig ∈ sigs) as Hin by 
      (apply elem_of_take in Hsig as (k & Hk & _); by eapply (sort_slice_elem signal_less), list_elem_of_lookup_2).
    apply list_elem_of_lookup in Hin as (k & Hk).
    destruct (Forall2_lookup_r _ _ _ _ _ Hf Hk) as (id & Hid & Hsg).
    exists id. split; [|done]. rewrite <- Hids. by eapply list_elem_of_lookup_2.
Qed.

Lemma Decide_spec now task plan m :
  exec (Decide now true task plan) m = exec (collectDiagnostics now true) m /\
  eval (Decide now true task plan) m = decide_mode now task plan (eval (collectDiagnostics now true) m).
Proof. unfold Decide. by st_simpl. Qed.

Lemma decide_mode_suppressed now task plan d :
  DecSuppressedAgents (decide_mode now task plan d) =
  if recovering d then suppressing (TopSignals d) else [].
Proof.
  unfold decide_mode. destruct (recovering d); [done|].
  destruct (bool_decide (Priority_ task = PriorityCritical) || bool_decide (Priority_ task = PriorityHigh));
    [done|]. by destruct ((3 <=? planWidth plan) && (2 <=? HealthyAgents d)).
Qed.
Lemma decide_mode_diagnostics now task plan d : DecDiagnostics (decide_mode now task plan d) = d.
Proof.
  unfold decide_mode. destruct (recovering d); [done|].
  destruct (bool_decide (Priority_ task = PriorityCritical) || bool_decide (Priority_ task = PriorityHigh));
    [done|]. by destruct ((3 <=? planWidth plan) && (2 <=? HealthyAgents d)).
Qed.

(** A lane that makes a decision one of recovery. *)
Definition troubled (l : Lane) : bool := has_status AgentStatusDegraded l || lane_suppressed l.

(** C22: A decision looks at every registered lane once, after lifting expired suppressions.  It
    suppresses exactly the lanes with an error rate of three quarters or more that are not offline, for
    five minutes, and changes no other lane.  Its counters are the numbers of ready or busy, degraded,
    offline, and suppressed or just suppressed lanes; every agent it reports as suppressed is one of
    the failing lanes; and one degraded or suppressed lane makes the mode recovery. *)
Theorem adaptive_diagnoses_lanes now m lanes task plan :
  tracks m lanes ->
  let before id := tick now (lanes id) in
  let decision := eval (Decide now true task plan) m in
  let d := DecDiagnostics decision in
  tracks (exec (Decide now true task plan) m) (fun id => adapt_lane now (before id)) /\
  HealthyAgents d = lane_count lane_healthy before (agent_ids m) /\
  DegradedAgents d = lane_count (has_status AgentStatusDegraded) before (agent_ids m) /\
  OfflineAgents d = lane_count (has_status AgentStatusOffline) before (agent_ids m) /\
  SuppressedAgents d = lane_count lane_suppressed before (agent_ids m) /\
  (forall id, id ∈ DecSuppressedAgents decision -> id ∈ agent_ids m /\ failing (before id) = true) /\
  (forall id, id ∈ agent_ids m -> troubled (before id) = true ->
     DecMode decision = AdaptiveExecutionModeRecovery).
Proof.
  intros Ht. destruct (Decide_spec now task plan m) as [-> ->]. cbn zeta.
  destruct (collect_spec now m lanes Ht) as (Htr & _ & Hc & Hsig).
  generalize dependent (eval (collectDiagnostics now true) m). intros d Hc Hsig.
  rewrite decide_mode_diagnostics.
  destruct Hc as [H1 H2 H3 H4]. cbn [HealthyAgents DegradedAgents SuppressedAgents OfflineAgents] in *.
  do 5 (split; [done|]). split.
  - intros id Hid.
    rewrite decide_mode_suppressed in Hid. destruct (recovering d); [|by apply not_elem_of_nil in Hid].
    unfold suppressing in Hid. apply list_elem_of_fmap in Hid as (sig & -> & Hf%list_elem_of_In).
    apply filter_In in Hf as [Hin%list_elem_of_In Hact%String.eqb_eq].
    destruct (Hsig sig Hin) as (id & Hid' & <- & _ & _ & Hfail). by rewrite Hfail in Hact.
  - intros id Hid Htr'. assert (recovering d = true) as Hrec.
    { unfold recovering. apply orb_true_iff in Htr' as [Hd|Hd];
        apply (lane_count_pos _ (fun id => tick now (lanes id)) _ _ Hid) in Hd.
      - by rewrite (proj2 (Z.ltb_lt 0 (DegradedAgents d))) by lia.
      - rewrite (proj2 (Z.ltb_lt 0 (SuppressedAgents d))) by lia. by rewrite orb_true_r. }
    unfold decide_mode. by rewrite Hrec.
Qed.

(** ** A failing lane is never let in again *)
Inductive lane_event : Type :=
  | EvDecide (now : Time) (task : Task) (plan : ExecutionPlan)
  | EvLane (now : Time) (id : string) (op : lane_op).
Definition run_event (e : lane_event) : RT () :=
  match e with
  | EvDecide now task plan => Decide now true task plan;; mret ()
  | EvLane now id op => run_op now id op
  end.
Definition event_lanes (reg : string -> AgentStatus) (lanes : string -> Lane) (e : lane_event)
  : string -> Lane :=
  match e with
  | EvDecide now _ _ => fun id => adapt_lane now (tick now (lanes id))
  | EvLane now id op => breaker_step reg lanes (now, id, op)
  end.
(** [e] is addressed to a registered agent and is no success of [id]. *)
Definition no_success (r : Registry) (id : string) (e : lane_event) : Prop :=
  match e with
  | EvDecide _ _ _ => True
  | EvLane now j op => addressed r (now, j, op) /\ (j = id -> op <> OpSucceed)
  end.

Lemma failing_tick now l : failing l = true -> failing (tick now l) = true.
Proof.
  intros Hf. unfold tick. destruct (open_until l); [|done]. destruct (now <? _); [done|].
  unfold failing in *. cbn [errors lane_status]. apply andb_true_iff in Hf as [He Hs].
  rewrite He. by destruct (decide (lane_status l = AgentStatusMaintenance)).
Qed.
Lemma failing_adapt now l : failing l = true -> failing (adapt_lane now l) = true.
Proof.
  intros H. unfold adapt_lane. rewrite H. unfold failing in *. rewrite !andb_true_iff in *. tauto.
Qed.
Lemma failing_op now reg op l :
  failing l = true -> op <> OpSucceed -> failing (lane_apply now reg op l) = true.
Proof.
  unfold failing. rewrite !andb_true_iff, !negb_true_iff, !Nat.leb_le, !bool_decide_eq_false.
  intros [He Hs] Hop. destruct op; try done; cbn [lane_apply errors lane_status].
  - split; [lia|]. destruct (3 <=? Nat.min 4 (errors l + 1))%nat; discriminate.
  - split; [done|]. rewrite (proj2 (Nat.leb_le 1 (errors l))) by lia. discriminate.
Qed.
Lemma failing_event reg lanes r id e :
  no_success r id e -> failing (lanes id) = true -> failing (event_lanes reg lanes e id) = true.
Proof.
  destruct e as [now task plan|now j op]; cbn.
  - intros _ H. by apply failing_adapt, failing_tick.
  - intros [_ Hop] H. case_decide; [|by apply failing_tick].
    apply failing_tick, failing_op; [by apply failing_tick|]. by apply Hop.
Qed.

Lemma run_event_tracks reg e m lanes id :
  tracks m lanes -> no_success (registry m) id e ->
  (forall j a, agents (registry m) !! j = Some a -> reg j = InfoStatus (Info a)) ->
  tracks (exec (run_event e) m) (event_lanes reg lanes e) /\
  agents (registry (exec (run_event e) m)) = agents (registry m).
Proof.
  intros Ht Hn Hreg. destruct e as [now task plan|now j op]; cbn [run_event event_lanes].
  - rewrite exec_bind, exec_ret. destruct (Decide_spec now task plan m) as [-> _].
    destruct (collect_spec now m lanes Ht) as (Htr & Hag & _). by split.
  - by apply run_op_tracks; [|apply Hn|].
Qed.

Definition run_events (events : list lane_event) : RT () := for_each events run_event.
Lemma run_events_failing events reg m lanes id :
  tracks m lanes -> Forall (no_success (registry m) id) events -> failing (lanes id) = true ->
  (forall j a, agents (registry m) !! j = Some a -> reg j = InfoStatus (Info a)) ->
  exists lanes', tracks (exec (run_events events) m) lanes' /\ failing (lanes' id) = true /\
    agents (registry (exec (run_events events) m)) = agents (registry m).
Proof.
  unfold run_events. revert m lanes. induction events as [|e events IH]; intros m lanes Ht Hn Hf Hreg.
  { by exists lanes. }
  apply Forall_cons in Hn as [He Hn]. cbn [for_each]. rewrite exec_bind.
  destruct (run_event_tracks reg e m lanes id Ht He Hreg) as [Ht1 Hag].
  destruct (IH _ _ Ht1) as (lanes' & Ht2 & Hf2 & Hag2).
  - eapply Forall_impl; [exact Hn|]. intros x. unfold no_success, addressed. by rewrite Hag.
  - by eapply failing_event.
  - by rewrite Hag.
  - exists lanes'. by rewrite Hag2.
Qed.

(** A lane that failed often enough (an error rate of three quarters or more) is never let in
    again by itself.  Whatever happens to the lanes meanwhile and however long it takes, except a
    success on this lane, the decision made before routing a task suppresses the lane afresh, so no
    task is routed to it at that time nor for five minutes; expired suppressions and the operator's
    recovery of the lane included.  Since a suppressed lane gets no tasks, it cannot succeed. *)
Theorem failing_lane_never_recovers m lanes id a events now task plan later :
  tracks m lanes -> agents (registry m) !! id = Some a -> failing (lanes id) = true ->
  Forall (no_success (registry m) id) events -> later < now + 300 * second ->
  eval (Allows later (Info a)) (exec (run_events (events ++ [EvDecide now task plan])) m) = false.
Proof.
  intros Ht Ha Hf Hn Hlater.
  assert (exec (run_events (events ++ [EvDecide now task plan])) m =
          exec (Decide now true task plan) (exec (run_events events) m)) as ->.
  { unfold run_events. clear. revert m. induction events as [|e events IH]; intros m; cbn [for_each app].
    - rewrite exec_bind. cbn [run_event]. by rewrite exec_bind.
    - by rewrite !exec_bind, IH. }
  destruct (run_events_failing events (declared (registry m)) m lanes id Ht Hn Hf) as (lanes' & Ht' & Hf' & Hag).
  { intros j b Hj. unfold declared. by rewrite Hj. }
  destruct (Decide_spec now task plan (exec (run_events events) m)) as [-> _].
  destruct (collect_spec now _ lanes' Ht') as (Ht2 & Hag2 & _).
  rewrite (Allows_tracks later _ _ id a Ht2) by (by rewrite Hag2, Hag).
  unfold adapt_lane. rewrite (failing_tick now _ Hf'). unfold tick at 1. cbn [open_until].
  rewrite (proj2 (Z.ltb_lt later (suppress_until now 300))); [done|].
  change (suppress_until now 300) with (now + 300 * second). lia.
Qed.

(** ** The decision *)

(** The counters are those of the steps seen, and the second component is the largest of them. *)
Definition level_count (key : string) (steps : list PlanStep) : Z :=
  len (List.filter (fun step => String.eqb (itoa (len (StepDependencies step))) key) steps).
Record levels_counted (steps : list PlanStep) (acc : gmap string Z * Z) : Prop := mkLevelsCounted {
  lc_count : forall key, default 0 (acc.1 !! key) = level_count key steps;
  lc_bound : forall key, level_count key steps <= acc.2;
  lc_reached : steps = [] /\ acc.2 = 0 \/ exists key, acc.2 = level_count key steps }.

Lemma level_count_app key steps step :
  level_count key (steps ++ [step]) =
  level_count key steps + Z.b2z (String.eqb (itoa (len (StepDependencies step))) key).
Proof.
  unfold level_count, len. rewrite List.filter_app, length_app. cbn.
  destruct (String.eqb _ key); cbn; lia.
Qed.
Lemma count_level_spec steps acc step :
  levels_counted steps acc -> levels_counted (steps ++ [step]) (count_level acc step).
Proof.
  intros [Hc Hb Hr]. destruct acc as [deps w]. unfold count_level. cbn [fst snd] in *.
  set (k := itoa (len (StepDependencies step))).
  assert (level_count k (steps ++ [step]) = default 0 (deps !! k) + 1) as Hk
    by (rewrite level_count_app, Hc; subst k; by rewrite String.eqb_refl).
  assert (forall key, key <> k -> level_count key (steps ++ [step]) = level_count key steps) as Hne.
  { intros key Hne. rewrite level_count_app. fold k. apply not_eq_sym, String.eqb_neq in Hne.
    rewrite Hne. cbn. lia. }
  split; cbn [fst snd].
  - intros key. destruct (decide (key = k)) as [->|Hkey]; [by rewrite lookup_insert_eq, Hk|].
    rewrite lookup_insert_ne by done. by rewrite Hne.
  - intros key. destruct (decide (key = k)) as [->|Hkey]; [rewrite Hk|rewrite Hne by done; specialize (Hb key)];
      destruct (Z.ltb_spec w (default 0 (deps !! k) + 1)); lia.
  - right. destruct (Z.ltb_spec w (default 0 (deps !! k) + 1)) as [Hlt|Hge]; [by exists k|].
    destruct Hr as [[-> ->]|[key ->]].
    + specialize (Hc k). change (level_count k []) with 0 in Hc. lia.
    + exists key. destruct (decide (key = k)) as [->|Hkey]; [|by rewrite Hne].
      rewrite Hk. rewrite Hc in Hge |- *. lia.
Qed.
Lemma levels_fold steps : levels_counted steps (foldl count_level (∅, 0) steps).
Proof.
  induction steps as [|step steps IH] using rev_ind.
  - split; cbn.
    + intros key. by rewrite lookup_empty.
    + done.
    + by left.
  - rewrite foldl_snoc. by apply count_level_spec.
Qed.

Lemma level_count_bounds key steps : 0 <= level_count key steps <= len steps.
Proof.
  unfold level_count. set (f := fun step : PlanStep => _).
  pose proof (List.filter_length_le f steps). unfold len. lia.
Qed.
Lemma planWidth_bounds plan : 0 <= planWidth plan <= len (Steps plan) /\ (Steps plan <> [] -> 1 <= planWidth plan).
Proof.
  unfold planWidth. pose proof (levels_fold (Steps plan)) as [_ Hb Hr].
  set (w := (foldl count_level (∅, 0) (Steps plan)).2) in *.
  assert (0 <= w <= len (Steps plan)) as Hw.
  { destruct Hr as [[_ H0]|[key H0]]; [unfold len; lia|rewrite H0; apply level_count_bounds]. }
  assert (Steps plan <> [] -> 0 < len (Steps plan)) as Hne
    by (unfold len; destruct (Steps plan); [done|cbn; lia]).
  destruct (Z.eqb_spec w 0), (Z.ltb_spec 0 (len (Steps plan))); cbn [andb]; (split; [lia|]);
    intros Hs; specialize (Hne Hs); lia.
Qed.
Lemma limit_bounds task plan :
  1 <= adaptiveParallelismLimit task plan <= 4 /\
  (Steps plan <> [] -> adaptiveParallelismLimit task plan <= planWidth plan).
Proof.
  unfold adaptiveParallelismLimit. pose proof (planWidth_bounds plan) as [Hw Hne].
  set (limit := match Complexity_ task with
    | ComplexityLow => 2 | ComplexityMedium => 3 | ComplexityHigh | ComplexityCritical => 4
    | ComplexityOther _ => 2 end).
  assert (2 <= limit <= 4) as Hl by (subst limit; destruct (Complexity_ task); lia).
  destruct (Z.ltb_spec 0 (planWidth plan)), (Z.ltb_spec (planWidth plan) limit); cbn [andb];
    (split; [lia|intros Hs; specialize (Hne Hs); lia]).
Qed.

Definition within_mode (task : Task) (decision : AdaptiveDecision) : Prop :=
  let d := DecDiagnostics decision in let n := DecMaxParallelism decision in
  match DecMode decision with
  | AdaptiveExecutionModeRecovery => n <= 2 /\ DecPreferredRouteMode decision = "orchestrator"
  | mode =>
      DegradedAgents d <= 0 /\ SuppressedAgents d <= 0 /\ DecPreferredRouteMode decision = "" /\
      DecSuppressedAgents decision = [] /\
      match mode with
      | AdaptiveExecutionModeLatencyGuarded =>
          n <= 3 /\ (Priority_ task = PriorityCritical \/ Priority_ task = PriorityHigh)
      | AdaptiveExecutionModeThroughput => 3 <= n /\ 2 <= HealthyAgents d
      | _ => True
      end
  end.

Lemma decide_mode_bounds now task plan d :
  let decision := decide_mode now task plan d in let n := DecMaxParallelism decision in
  (1 <= n <= 4 /\ (Steps plan <> [] -> n <= planWidth plan)) /\ within_mode task decision.
Proof.
  destruct (limit_bounds task plan) as [Hl Hs]. destruct (planWidth_bounds plan) as [_ Hne].
  unfold decide_mode, within_mode. cbn zeta.
  set (limit := adaptiveParallelismLimit task plan) in *.
  set (clip := fun n : Z => if n <? 1 then 1 else n).
  assert (forall n, 1 <= n -> clip n = n) as Hclip
    by (intros n Hn; unfold clip; destruct (Z.ltb_spec n 1); lia).
  destruct (recovering d) eqn:Hr.
  { cbn [DecMode DecMaxParallelism DecPreferredRouteMode]. fold (clip (if 2 <? limit then 2 else limit)).
    destruct (Z.ltb_spec 2 limit); rewrite Hclip by lia;
      (split; [split; [lia|intros H'; specialize (Hs H'); lia]|split; [lia|done]]). }
  unfold recovering in Hr. rewrite !orb_false_iff, !Z.ltb_ge in Hr. destruct Hr as [[Hd1 Hd2] _].
  destruct (bool_decide (Priority_ task = PriorityCritical) || bool_decide (Priority_ task = PriorityHigh)) eqn:Hp.
  { cbn [DecMode DecMaxParallelism DecPreferredRouteMode DecDiagnostics DecSuppressedAgents].
    fold (clip (if 3 <? limit then 3 else limit)).
    rewrite orb_true_iff, !bool_decide_eq_true in Hp.
    destruct (Z.ltb_spec 3 limit); rewrite Hclip by lia;
      (split; [split; [lia|intros H'; specialize (Hs H'); lia]|split_and!; first [done|lia]]). }
  destruct (Z.leb_spec 3 (planWidth plan)), (Z.leb_spec 2 (HealthyAgents d));
    cbn [andb DecMode DecMaxParallelism DecPreferredRouteMode DecDiagnostics DecSuppressedAgents].
  { fold (clip (if limit <? 3 then 3 else limit)). destruct (Z.ltb_spec limit 3); rewrite Hclip by lia;
      (split; [split; [lia|intros H'; specialize (Hs H'); lia]|split_and!; first [done|lia]]). }
  all: fold (clip limit); rewrite Hclip by lia;
    (split; [split; [lia|exact Hs]|split_and!; first [done|lia]]).
Qed.

(** C23: The parallelism of a decision lies between one and four, never exceeds the width of a plan
    that has steps, and respects its mode: at most two in recovery, which alone prefers the
    orchestrator route and names suppressed agents; at most three for an urgent task; at least three
    for throughput, which needs two healthy lanes and none degraded or suppressed.  The hints of the
    task carry exactly this decision. *)
Theorem adaptive_decision_bounds now attached hasMemory task plan m :
  let '(task', decision, recorded) := eval (Apply now attached hasMemory task plan) m in
  let n := DecMaxParallelism decision in
  1 <= n <= 4 /\ (Steps plan <> [] -> n <= planWidth plan) /\
  within_mode task decision /\
  aget (RoutingHints task') "adaptive_max_parallelism" = Some (AInt n) /\
  aget (RoutingHints task') "adaptive_mode" = Some (AString (adaptive_mode_string (DecMode decision))) /\
  recorded = if hasMemory then Some (task', decision) else None.
Proof.
  unfold Apply, Decide. st_simpl. generalize (eval (collectDiagnostics now attached) m). intros d.
  destruct (decide_mode_bounds now task plan d) as [[Hn Hw] Hm]. cbn zeta. split_and!; [lia|lia|done|done|..].
  3: done.
  all: cbn [RoutingHints field_map]; unfold adaptive_hints; cbn [foldl];
    destruct (non_blank _); rewrite ?aget_aset_ne, ?aget_aset_eq by done; reflexivity.
Qed.

(** A chain of five steps, which can only run one after the other, has width four: the width counts
    the steps with equally many dependencies, whatever these are. *)
Definition chain_step (n : nat) : PlanStep :=
  mkPlanStep (itoa (Z.of_nat n)) "" "code" "" "" 0 []
    (if (n =? 0)%nat then [] else [itoa (Z.of_nat n - 1)]) [].
Definition chain_plan : ExecutionPlan :=
  mkExecutionPlan "t" ComplexityHigh "code" zero_selection (map chain_step (seq 0 5)) 0.
Example chain_is_wide : planWidth chain_plan = 4.
Proof. vm_compute. reflexivity. Qed.

(** ** The policy of an assignment *)

(** At the time a routed task is accepted, the assignment policy blocks it exactly when the runtime
    manager would not let a task into the agent's lane, or the task is assigned to another provider; it
    refuses what the router admitted only for the provider, and lets through nothing the lane
    refuses. *)
Theorem assignment_policy_agrees now m id a task acceptance :
  agents (registry m) !! id = Some a -> InfoID (Info a) = id -> AcceptedAt acceptance = now ->
  let state := eval (State_or_zero now id) m in
  let provider := AssignedProvider task in
  decisionBlocks (assignmentPolicy task acceptance (Info a) state) =
  negb (eval (Allows now (Info a)) m &&
        (String.eqb provider "" || EqualFold provider (InfoProvider (Info a)))).
Proof.
  intros Ha Hid Hacc. cbn zeta.
  assert (exists s, eval (State now id) m = Some s) as [s Hs].
  { unfold State, get, eval, mbind, st_bind. cbn. destruct (RuntimeState id (registry m)); [eauto|].
    unfold AgentByID. rewrite Ha. eauto. }
  unfold Allows, State_or_zero. st_simpl. rewrite Hid, Hs. cbn [default from_option].
  unfold assignmentPolicy, assignment_reasons. rewrite Hacc.
  change (Datatypes.id s) with s. cbn zeta. unfold after.
  destruct (SuppressedUntil s) as [u|]; [destruct (now <? u)|];
    destruct (bool_decide (Status s = AgentStatusOffline)),
    (bool_decide (Status s = AgentStatusMaintenance)), (String.eqb (AssignedProvider task) ""),
    (EqualFold (AssignedProvider task) (InfoProvider (Info a))); reflexivity.
Qed.

(** ** Examples: a coder with three failures and a reviewer without *)
Definition example_agents : list Agent := [example_agent "coder"; example_agent "reviewer"].
Definition failures : list lane_event :=
  map (fun t => EvLane t "coder" (OpFail "boom")) [10; 20; 30].
Definition troubled_runtime : Runtime := exec (run_events failures) (NewRuntimeManager (register_all 1 example_agents)).
Definition troubled_lanes : string -> Lane :=
  foldl (event_lanes (declared (register_all 1 example_agents)))
    (closed_lanes (register_all 1 example_agents)) failures.
Lemma troubled_tracks :
  tracks troubled_runtime troubled_lanes /\ agents (registry troubled_runtime) !! "coder" = Some (example_agent "coder").
Proof.
  assert (Forall (addressed (register_all 1 example_agents))
    [(10, "coder", OpFail "boom"); (20, "coder", OpFail "boom"); (30, "coder", OpFail "boom")]) as Had.
  { repeat (constructor; [split; [by eexists|done]|]). constructor. }
  assert (Forall well_declared example_agents) as Hw by by repeat constructor.
  destruct (run_ops_tracks (declared (register_all 1 example_agents)) _ _ _
    (fresh_tracks _ (register_all_fresh 1 example_agents Hw)) Had) as [Ht Hag].
  - intros j a Hj. unfold declared. cbn [registry NewRuntimeManager] in Hj. by rewrite Hj.
  - split; [exact Ht|]. vm_compute. reflexivity.
Qed.

Lemma troubled_agents id :
  id = "coder" \/ id = "reviewer" -> is_Some (agents (registry troubled_runtime) !! id).
Proof.
  intros [->| ->]; eexists; vm_compute; reflexivity.
Qed.

Lemma adaptive_diagnoses_lanes_witness :
  let decision := eval (Decide 40 true zero_task chain_plan) troubled_runtime in
  HealthyAgents (DecDiagnostics decision) = 1 /\ SuppressedAgents (DecDiagnostics decision) = 1 /\
  DecMode decision = AdaptiveExecutionModeRecovery.
Proof.
  destruct (adaptive_diagnoses_lanes 40 troubled_runtime troubled_lanes zero_task chain_plan
    (proj1 troubled_tracks)) as (_ & Hh & _ & _ & Hs & _ & Hm).
  cbn zeta. rewrite Hh, Hs. split; [vm_compute; reflexivity|]. split; [vm_compute; reflexivity|].
  apply (Hm "coder"); [|vm_compute; reflexivity].
  apply (list_elem_of_lookup_2 _ 0%nat). vm_compute. reflexivity.
Defined.

(** A day later, after the operator recovered the lane twice. *)
Lemma failing_lane_never_recovers_witness :
  let day := 24 * 3600 * second in
  let events := [EvLane day "coder" OpRecover; EvLane (day + 1) "reviewer" OpSucceed;
                 EvDecide (day + 2) zero_task chain_plan; EvLane (2 * day) "coder" OpRecover] in
  eval (Allows (2 * day + 60 * second) (Info (example_agent "coder")))
    (exec (run_events (events ++ [EvDecide (2 * day + 1) zero_task chain_plan])) troubled_runtime) = false.
Proof.
  apply (failing_lane_never_recovers troubled_runtime troubled_lanes "coder").
  - exact (proj1 troubled_tracks).
  - exact (proj2 troubled_tracks).
  - vm_compute. reflexivity.
  - repeat (constructor; [first [exact I|split;
      [split; [apply troubled_agents; tauto|exact I]|intros; discriminate]]|]). constructor.
  - reflexivity.
Defined.

Lemma assignment_policy_agrees_witness :
  let acceptance := mkTaskAcceptance "t" TaskStatusAccepted "coder" ComplexityLow "" "code" "openai" "gpt"
    false 40 in
  decisionBlocks (assignmentPolicy zero_task acceptance (Info (example_agent "coder"))
    (eval (State_or_zero 40 "coder") troubled_runtime)) = true.
Proof.
  cbn zeta. rewrite (assignment_policy_agrees 40 troubled_runtime "coder" (example_agent "coder")).
  - vm_compute. reflexivity.
  - exact (proj2 troubled_tracks).
  - reflexivity.
  - reflexivity.
Defined.
