(* ===== verification/ExecutionSlots.v ===== *)
(** * Execution slots (kernel/orchestrator.go)

    A task holds up to three places while its agent works on it: one of all tasks, one of its agent
    and one of its model.  The places are buffered channels; sending takes one and blocks when the
    channel is full, receiving gives it back.  Tasks run concurrently, so what they do is a step
    relation: a thread takes its slots in order (or gives up when its context ends), reports the load
    to the runtime manager, runs, gives the slots back and reports again.  Reading the load and
    reporting it are two steps; the lengths of the three channels are read in one. *)
From S2P Require Import Prelude GoLib GoJSON Domain Config StateMonad AgentRegistry RuntimeManager.
From Stdlib Require Import PrimFloat.

(** ** Channels *)
Record Channel : Type := mkChannel { ch_len : Z; ch_cap : Z }.

Inductive slot : Type :=
  | SlotGlobal
  | SlotAgent (agentID : string)
  | SlotModel (modelName : string).
#[export] Instance slot_eq_dec : EqDecision slot.
Proof. solve_decision. Defined.

Record ExecutionSlots : Type := mkExecutionSlots {
  globalSlots : option Channel;
  agentSlots : gmap string Channel;
  modelSlots : gmap string Channel;
  perAgentMax : Z;
  perModelMax : Z }.
#[export] Instance eta_ExecutionSlots : Updatable ExecutionSlots := fun s =>
  mkExecutionSlots (globalSlots s) (agentSlots s) (modelSlots s) (perAgentMax s) (perModelMax s).

(** What [NewOrchestrator] reads from the environment. *)
Definition new_execution_slots (getenv : string -> string) (parallelism : Z) : ExecutionSlots :=
  let limit := envInt getenv "GO_CORE_MAX_CONCURRENT_TASKS" (defaultGlobalConcurrency parallelism) in
  mkExecutionSlots (if 0 <? limit then Some (mkChannel 0 limit) else None) ∅ ∅
    (envInt getenv "GO_CORE_MAX_CONCURRENT_PER_AGENT" (defaultPerAgentConcurrency parallelism))
    (envInt getenv "GO_CORE_MAX_CONCURRENT_PER_MODEL" (defaultPerModelConcurrency parallelism)).

(** The slot, or nil for no limit, created when it is first asked for. *)
Definition slotForAgent (agentID : string) (s : ExecutionSlots) : option slot * ExecutionSlots :=
  if (perAgentMax s <=? 0) || String.eqb (TrimSpace agentID) "" then (None, s)
  else match agentSlots s !! agentID with
       | Some _ => (Some (SlotAgent agentID), s)
       | None => (Some (SlotAgent agentID),
                  s <| agentSlots ::= <[agentID := mkChannel 0 (perAgentMax s)]> |>)
       end.
Definition slotForModel (modelName : string) (s : ExecutionSlots) : option slot * ExecutionSlots :=
  let modelName := TrimSpace modelName in
  if (perModelMax s <=? 0) || String.eqb modelName "" then (None, s)
  else match modelSlots s !! modelName with
       | Some _ => (Some (SlotModel modelName), s)
       | None => (Some (SlotModel modelName),
                  s <| modelSlots ::= <[modelName := mkChannel 0 (perModelMax s)]> |>)
       end.

Definition channel (x : slot) (s : ExecutionSlots) : option Channel :=
  match x with
  | SlotGlobal => globalSlots s
  | SlotAgent agentID => agentSlots s !! agentID
  | SlotModel modelName => modelSlots s !! modelName
  end.
Definition put_channel (x : slot) (ch : Channel) (s : ExecutionSlots) : ExecutionSlots :=
  match x with
  | SlotGlobal => s <| globalSlots := Some ch |>
  | SlotAgent agentID => s <| agentSlots ::= <[agentID := ch]> |>
  | SlotModel modelName => s <| modelSlots ::= <[modelName := ch]> |>
  end.
(** [None]: the operation blocks. *)
Definition send_slot (x : slot) (s : ExecutionSlots) : option ExecutionSlots :=
  match channel x s with
  | Some ch => if ch_len ch <? ch_cap ch then Some (put_channel x (mkChannel (ch_len ch + 1) (ch_cap ch)) s)
               else None
  | None => None
  end.
Definition receive_slot (x : slot) (s : ExecutionSlots) : option ExecutionSlots :=
  match channel x s with
  | Some ch => if 0 <? ch_len ch then Some (put_channel x (mkChannel (ch_len ch - 1) (ch_cap ch)) s)
               else None
  | None => None
  end.

(** ** Load *)
Definition queuePressure (ch : option Channel) : float :=
  match ch with
  | Some ch => if ch_cap ch =? 0 then 0%float else (float_of_int (ch_len ch) / float_of_int (ch_cap ch))%float
  | None => 0%float
  end.
Definition queueUsage (ch : option Channel) : Z := match ch with Some ch => ch_len ch | None => 0 end.
Definition channel_of (x : option slot) (s : ExecutionSlots) : option Channel :=
  match x with Some x => channel x s | None => None end.
Definition capacity_snapshot (agentSlot modelSlot : option slot) (s : ExecutionSlots) : CapacitySnapshot :=
  mkCapacitySnapshot (queueUsage (channel_of agentSlot s)) (queuePressure (channel_of agentSlot s))
    (queuePressure (channel_of modelSlot s)) (queuePressure (globalSlots s)).

(** ** A thread inside [acquireExecutionSlots] and after it *)
Record Request : Type := mkRequest {
  ReqAgent : AgentInfo;
  ReqModel : string }.

Inductive slots_pc : Type :=
  | PcStart
  | PcAcquire (want held : list slot)
  | PcEnterRead (held : list slot)
  | PcEnterWrite (held : list slot) (snapshot : CapacitySnapshot)
  | PcRunning (held : list slot)
  | PcRelease (held : list slot) (ran : bool)
  | PcLeaveRead
  | PcLeaveWrite (snapshot : CapacitySnapshot)
  | PcDone.
Record Thread : Type := mkThread {
  th_request : Request;
  th_pc : slots_pc }.

(** A thread goes on, or its context is cancelled while it waits. *)
Inductive slots_action : Type := Go | Cancel.

Record SlotSystem : Type := mkSlotSystem {
  sys_slots : ExecutionSlots;
  sys_runtime : Runtime;
  sys_threads : list Thread }.

Definition list_of_option {A} (o : option A) : list A := match o with Some x => [x] | None => [] end.
(** The slots of a request, once they exist. *)
Definition agent_slot (req : Request) (s : ExecutionSlots) : option slot := (slotForAgent (InfoID (ReqAgent req)) s).1.
Definition model_slot (req : Request) (s : ExecutionSlots) : option slot := (slotForModel (ReqModel req) s).1.
Definition start (req : Request) (s : ExecutionSlots) : slots_pc * ExecutionSlots :=
  let '(agentSlot, s) := slotForAgent (InfoID (ReqAgent req)) s in
  let '(modelSlot, s) := slotForModel (ReqModel req) s in
  let global := match globalSlots s with Some _ => [SlotGlobal] | None => [] end in
  (PcAcquire (global ++ list_of_option agentSlot ++ list_of_option modelSlot) [], s).

Definition read_load (req : Request) (s : ExecutionSlots) : CapacitySnapshot :=
  capacity_snapshot (agent_slot req s) (model_slot req s) s.
Definition write_load (now : Time) (req : Request) (snapshot : CapacitySnapshot) (m : Runtime) : Runtime :=
  exec (UpdateCapacitySnapshot now (InfoID (ReqAgent req)) snapshot) m.

(** The next step of a thread; [None]: it is blocked, or done. *)
Definition thread_step (now : Time) (a : slots_action) (req : Request) (pc : slots_pc)
  (s : ExecutionSlots) (m : Runtime) : option (slots_pc * ExecutionSlots * Runtime) :=
  match pc, a with
  | PcStart, Go => let '(pc, s) := start req s in Some (pc, s, m)
  | PcAcquire (x :: want) held, Go =>
      match send_slot x s with Some s => Some (PcAcquire want (x :: held), s, m) | None => None end
  | PcAcquire (_ :: _) held, Cancel => Some (PcRelease held false, s, m)
  | PcAcquire [] held, Go => Some (PcEnterRead held, s, m)
  | PcEnterRead held, Go => Some (PcEnterWrite held (read_load req s), s, m)
  | PcEnterWrite held snapshot, Go => Some (PcRunning held, s, write_load now req snapshot m)
  | PcRunning held, Go => Some (PcRelease held true, s, m)
  | PcRelease (x :: held) ran, Go =>
      match receive_slot x s with Some s => Some (PcRelease held ran, s, m) | None => None end
  | PcRelease [] ran, Go => Some (if ran then PcLeaveRead else PcDone, s, m)
  | PcLeaveRead, Go => Some (PcLeaveWrite (read_load req s), s, m)
  | PcLeaveWrite snapshot, Go => Some (PcDone, s, write_load now req snapshot m)
  | _, _ => None
  end.

(** A step of the [i]-th thread. *)
Definition slots_step_at (now : Time) (a : slots_action) (i : nat) (y : SlotSystem) : option SlotSystem :=
  match sys_threads y !! i with
  | None => None
  | Some th =>
      match thread_step now a (th_request th) (th_pc th) (sys_slots y) (sys_runtime y) with
      | None => None
      | Some (pc, s, m) => Some (mkSlotSystem s m (<[i := mkThread (th_request th) pc]> (sys_threads y)))
      end
  end.
Definition slots_step (y y' : SlotSystem) : Prop :=
  exists now a i, slots_step_at now a i y = Some y'.

(** No task is running, the agents' and models' channels do not exist yet. *)
Definition fresh_slots (s : ExecutionSlots) : Prop :=
  agentSlots s = ∅ /\ modelSlots s = ∅ /\
  match globalSlots s with Some ch => ch_len ch = 0 /\ 0 < ch_cap ch | None => True end.
Definition slots_init (y : SlotSystem) : Prop :=
  fresh_slots (sys_slots y) /\ Forall (fun th => th_pc th = PcStart) (sys_threads y).

Lemma new_execution_slots_fresh getenv parallelism : fresh_slots (new_execution_slots getenv parallelism).
Proof.
  split_and!; [done|done|]. cbn. by destruct (Z.ltb_spec 0
    (envInt getenv "GO_CORE_MAX_CONCURRENT_TASKS" (defaultGlobalConcurrency parallelism))).
Qed.
