(* ===== verification/ExecutionSlotsProps.v ===== *)
(** * Properties of the execution slots

    The channels count their holders and never exceed their capacities; taking the slots in one order
    rules out deadlock; and when all threads are through, everything has been given back. *)
From S2P Require Import Prelude GoLib GoJSON Domain Config StateMonad AgentRegistry RuntimeManager RuntimeManagerProps ExecutionSlots.
From Stdlib Require Import PrimFloat Sorted.

(** ** Channels *)
(** What no operation changes. *)
Definition limits (s : ExecutionSlots) : option Z * Z * Z :=
  (ch_cap <$> globalSlots s, perAgentMax s, perModelMax s).
Definition limit_of (x : slot) (l : option Z * Z * Z) : option Z :=
  match x with SlotGlobal => l.1.1 | SlotAgent _ => Some l.1.2 | SlotModel _ => Some l.2 end.
Definition wanted (req : Request) (l : option Z * Z * Z) : list slot :=
  match l.1.1 with Some _ => [SlotGlobal] | None => [] end ++
  (if (l.1.2 <=? 0) || String.eqb (TrimSpace (InfoID (ReqAgent req))) "" then []
   else [SlotAgent (InfoID (ReqAgent req))]) ++
  (if (l.2 <=? 0) || String.eqb (TrimSpace (ReqModel req)) "" then []
   else [SlotModel (TrimSpace (ReqModel req))]).
Definition rank (x : slot) : nat :=
  match x with SlotGlobal => 0%nat | SlotAgent _ => 1%nat | SlotModel _ => 2%nat end.

Lemma channel_put x y ch s : is_Some (channel x s) ->
  channel y (put_channel x ch s) = if decide (y = x) then Some ch else channel y s.
Proof.
  intros _. destruct x, y; cbn; case_decide; simplify_eq; try done;
    first [apply lookup_insert_eq|apply lookup_insert_ne; congruence].
Qed.
Lemma limits_put x ch ch' s : channel x s = Some ch -> ch_cap ch' = ch_cap ch ->
  limits (put_channel x ch' s) = limits s.
Proof. intros Hx Hc. destruct x; cbn in *; try done. unfold limits. cbn. rewrite Hx. cbn. by rewrite Hc. Qed.

Lemma send_slot_spec x s s' : send_slot x s = Some s' ->
  exists ch, channel x s = Some ch /\ ch_len ch < ch_cap ch /\ limits s' = limits s /\
    forall y, channel y s' = if decide (y = x) then Some (mkChannel (ch_len ch + 1) (ch_cap ch)) else channel y s.
Proof.
  unfold send_slot. destruct (channel x s) as [ch|] eqn:Hx; [|done].
  destruct (Z.ltb_spec (ch_len ch) (ch_cap ch)); [|done]. intros [= <-]. exists ch.
  split_and!; [done|done|by eapply limits_put|]. intros y. apply channel_put. eauto.
Qed.
Lemma receive_slot_spec x s s' : receive_slot x s = Some s' ->
  exists ch, channel x s = Some ch /\ 0 < ch_len ch /\ limits s' = limits s /\
    forall y, channel y s' = if decide (y = x) then Some (mkChannel (ch_len ch - 1) (ch_cap ch)) else channel y s.
Proof.
  unfold receive_slot. destruct (channel x s) as [ch|] eqn:Hx; [|done].
  destruct (Z.ltb_spec 0 (ch_len ch)); [|done]. intros [= <-]. exists ch.
  split_and!; [done|done|by eapply limits_put|]. intros y. apply channel_put. eauto.
Qed.

(** Channels that do not exist yet are created empty, with the limit as capacity. *)
Definition grown (s s' : ExecutionSlots) : Prop :=
  limits s' = limits s /\ forall x, channel x s' = channel x s \/
    channel x s = None /\ exists n, limit_of x (limits s) = Some n /\ 0 < n /\ channel x s' = Some (mkChannel 0 n).
Lemma slotForAgent_spec id s :
  let '(o, s') := slotForAgent id s in
  grown s s' /\ (forall x, o = Some x -> is_Some (channel x s')) /\
  list_of_option o = if (perAgentMax s <=? 0) || String.eqb (TrimSpace id) "" then [] else [SlotAgent id].
Proof.
  unfold slotForAgent. destruct (Z.leb_spec (perAgentMax s) 0); cbn [orb].
  { split_and!; [split; [done|by left]|done|done]. }
  destruct (String.eqb (TrimSpace id) ""); [split_and!; [split; [done|by left]|done|done]|].
  destruct (agentSlots s !! id) as [ch|] eqn:Hid.
  { split_and!; [split; [done|by left]|intros x [= <-]; cbn; eauto|done]. }
  split_and!; [split; [done|]| |done].
  - intros [|j|j]; cbn; [by left| |by left]. destruct (decide (j = id)) as [->|Hne].
    + right. split; [done|]. exists (perAgentMax s). by rewrite lookup_insert_eq.
    + left. by apply lookup_insert_ne.
  - intros x [= <-]. cbn. rewrite lookup_insert_eq. eauto.
Qed.
Lemma slotForModel_spec name s :
  let '(o, s') := slotForModel name s in
  grown s s' /\ (forall x, o = Some x -> is_Some (channel x s')) /\
  list_of_option o = if (perModelMax s <=? 0) || String.eqb (TrimSpace name) "" then []
                     else [SlotModel (TrimSpace name)].
Proof.
  unfold slotForModel. destruct (Z.leb_spec (perModelMax s) 0); cbn [orb].
  { split_and!; [split; [done|by left]|done|done]. }
  destruct (String.eqb (TrimSpace name) ""); [split_and!; [split; [done|by left]|done|done]|].
  destruct (modelSlots s !! TrimSpace name) as [ch|] eqn:Hid.
  { split_and!; [split; [done|by left]|intros x [= <-]; cbn; eauto|done]. }
  split_and!; [split; [done|]| |done].
  - intros [|j|j]; cbn; [by left|by left|]. destruct (decide (j = TrimSpace name)) as [->|Hne].
    + right. split; [done|]. exists (perModelMax s). by rewrite lookup_insert_eq.
    + left. by apply lookup_insert_ne.
  - intros x [= <-]. cbn. rewrite lookup_insert_eq. eauto.
Qed.
Lemma grown_exists s s' x : grown s s' -> is_Some (channel x s) -> is_Some (channel x s').
Proof. intros [_ Hg] [ch Hx]. destruct (Hg x) as [->|[Hn _]]; [eauto|congruence]. Qed.
Lemma grown_trans s1 s2 s3 : grown s1 s2 -> grown s2 s3 -> grown s1 s3.
Proof.
  intros [L1 H1] [L2 H2]. split; [congruence|]. intros x. destruct (H2 x) as [E2|[N2 R2]].
  - rewrite E2. apply H1.
  - destruct (H1 x) as [E1|[N1 (n & _ & _ & E1)]]; [|congruence]. right. split; [congruence|]. by rewrite <- L1.
Qed.

Lemma start_spec req s : exists s',
  start req s = (PcAcquire (wanted req (limits s)) [], s') /\ grown s s' /\
  (forall x, x ∈ wanted req (limits s) -> is_Some (channel x s')).
Proof.
  unfold start. pose proof (slotForAgent_spec (InfoID (ReqAgent req)) s) as Ha.
  destruct (slotForAgent _ s) as [oa s1]. destruct Ha as (Hg1 & He1 & Hl1).
  pose proof (slotForModel_spec (ReqModel req) s1) as Hm. destruct (slotForModel _ s1) as [om s2].
  destruct Hm as (Hg2 & He2 & Hl2). pose proof (grown_trans _ _ _ Hg1 Hg2) as Hg.
  assert (perModelMax s1 = perModelMax s) as Hp by (destruct Hg1 as [[= _ _ ?] _]; done).
  exists s2. rewrite Hp in Hl2.
  assert (globalSlots s2 = globalSlots s) as Hgl.
  { destruct Hg as [Hlim Hg]. destruct (Hg SlotGlobal) as [E|[E (n & Hn & _)]]; [done|].
    cbn in E, Hn. by rewrite E in Hn. }
  rewrite Hgl, Hl1, Hl2. unfold wanted. cbn [limits fst snd].
  assert ((match globalSlots s with Some _ => [SlotGlobal] | None => [] end) =
          match ch_cap <$> globalSlots s with Some _ => [SlotGlobal] | None => [] end) as Hgs by by destruct (globalSlots s).
  rewrite Hgs. split_and!; [done|done|]. rewrite <- Hl1, <- Hl2, <- Hgs. intros x.
  rewrite !elem_of_app. intros [Hx|[Hx|Hx]].
  - destruct (globalSlots s) as [ch|] eqn:Hs; [|by apply not_elem_of_nil in Hx].
    apply list_elem_of_singleton in Hx as ->. cbn. rewrite Hgl, ?Hs. eauto.
  - destruct oa as [y|]; [|by apply not_elem_of_nil in Hx]. apply list_elem_of_singleton in Hx as ->.
    eapply grown_exists; [exact Hg2|by apply He1].
  - destruct om as [y|]; [|by apply not_elem_of_nil in Hx]. apply list_elem_of_singleton in Hx as ->.
    by apply He2.
Qed.

(** ** Holders *)
Definition held (pc : slots_pc) : list slot :=
  match pc with
  | PcAcquire _ held | PcEnterRead held | PcEnterWrite held _ | PcRunning held | PcRelease held _ => held
  | PcStart | PcLeaveRead | PcLeaveWrite _ | PcDone => []
  end.
Definition holds (x : slot) (pc : slots_pc) : nat := count_occ slot_eq_dec (held pc) x.
Definition holders (x : slot) (ths : list Thread) : nat := list_sum_with (fun th => holds x (th_pc th)) ths.

(** What a thread holds and still wants are its slots, in order. *)
Definition shaped (w : list slot) (pc : slots_pc) : Prop :=
  match pc with
  | PcAcquire want held => w = rev held ++ want
  | PcEnterRead held | PcEnterWrite held _ | PcRunning held => w = rev held
  | PcRelease held _ => exists rest, w = rev held ++ rest
  | _ => True
  end.

Record chans_ok (s : ExecutionSlots) (h : slot -> nat) : Prop := mkChansOk {
  co_count : forall x ch, channel x s = Some ch ->
    ch_len ch = Z.of_nat (h x) /\ ch_len ch <= ch_cap ch /\ 0 < ch_cap ch /\
    limit_of x (limits s) = Some (ch_cap ch);
  co_none : forall x, channel x s = None -> h x = 0%nat }.

Lemma chans_grown s s' h : grown s s' -> chans_ok s h -> chans_ok s' h.
Proof.
  intros [Hl Hg] [Hc Hn]. split; intros x.
  - intros ch Hx. rewrite Hl. destruct (Hg x) as [E|(E & n & Hlim & Hpos & Hch)].
    + apply Hc. congruence.
    + rewrite Hch in Hx. injection Hx as <-. cbn [ch_len ch_cap]. rewrite (Hn x E). split_and!; [lia|lia|lia|done].
  - intros Hx. destruct (Hg x) as [E|(_ & n & _ & _ & Hch)]; [|congruence]. apply Hn. congruence.
Qed.

Lemma chans_send x s s' h h' : send_slot x s = Some s' -> chans_ok s h ->
  (forall y, h' y = h y + if decide (y = x) then 1 else 0)%nat -> chans_ok s' h'.
Proof.
  intros (ch & Hx & Hlt & Hl & Hch)%send_slot_spec [Hc Hn] Hh. split; intros y.
  - intros ch' Hy. rewrite Hch in Hy. rewrite Hl, Hh. destruct (decide (y = x)) as [->|Hne].
    + injection Hy as <-. destruct (Hc _ _ Hx) as (E1 & E2 & E3 & E4). cbn [ch_len ch_cap]. split_and!; [lia|lia|lia|done].
    + destruct (Hc _ _ Hy) as (E1 & E2 & E3 & E4). split_and!; [lia|lia|lia|done].
  - rewrite Hch, Hh. destruct (decide (y = x)) as [->|Hne]; [done|]. intros Hy. rewrite (Hn _ Hy). done.
Qed.
Lemma chans_receive x s s' h h' : receive_slot x s = Some s' -> chans_ok s h ->
  (forall y, h y = h' y + if decide (y = x) then 1 else 0)%nat -> chans_ok s' h'.
Proof.
  intros (ch & Hx & Hlt & Hl & Hch)%receive_slot_spec [Hc Hn] Hh. split; intros y.
  - intros ch' Hy. rewrite Hch in Hy. rewrite Hl. specialize (Hh y). destruct (decide (y = x)) as [->|Hne].
    + injection Hy as <-. destruct (Hc _ _ Hx) as (E1 & E2 & E3 & E4). cbn [ch_len ch_cap]. split_and!; [lia|lia|lia|done].
    + destruct (Hc _ _ Hy) as (E1 & E2 & E3 & E4). split_and!; [lia|lia|lia|done].
  - rewrite Hch. specialize (Hh y). destruct (decide (y = x)) as [->|Hne]; [done|]. intros Hy. specialize (Hn _ Hy). lia.
Qed.
Lemma chans_ext s h h' : (forall y, h' y = h y) -> chans_ok s h -> chans_ok s h'.
Proof. intros Hh [Hc Hn]. split; intros x; rewrite Hh; auto. Qed.

(** ** Invariant *)
Record slots_inv (y : SlotSystem) : Prop := mkSlotsInv {
  si_chans : chans_ok (sys_slots y) (fun x => holders x (sys_threads y));
  si_shape : forall th, th ∈ sys_threads y -> shaped (wanted (th_request th) (limits (sys_slots y))) (th_pc th);
  si_exist : forall th x, th ∈ sys_threads y -> th_pc th <> PcStart ->
    x ∈ wanted (th_request th) (limits (sys_slots y)) -> is_Some (channel x (sys_slots y)) }.

Lemma holders_insert x i th th' ths : ths !! i = Some th ->
  (holders x (<[i := th']> ths) + holds x (th_pc th) = holders x ths + holds x (th_pc th'))%nat.
Proof. apply (list_sum_with_insert (fun th => holds x (th_pc th))). Qed.
Lemma holds_cons x y want hd : (holds y (PcAcquire want (x :: hd)) =
  holds y (PcAcquire want hd) + if decide (y = x) then 1 else 0)%nat.
Proof.
  unfold holds. cbn [held count_occ]. destruct (slot_eq_dec x y), (decide (y = x)); subst; try done; lia.
Qed.

(** What one step of a thread does to the slots. *)
Definition effect (req : Request) (s : ExecutionSlots) (pc pc' : slots_pc) (s' : ExecutionSlots) : Prop :=
  limits s' = limits s /\
  (forall x, is_Some (channel x s) -> is_Some (channel x s')) /\
  (forall h h', chans_ok s h -> (forall y, h' y + holds y pc = h y + holds y pc')%nat -> chans_ok s' h') /\
  (pc = PcStart -> forall x, x ∈ wanted req (limits s) -> is_Some (channel x s')) /\
  (shaped (wanted req (limits s)) pc -> shaped (wanted req (limits s)) pc').

Lemma effect_same req s pc pc' :
  pc <> PcStart -> (forall y, holds y pc' = holds y pc) ->
  (shaped (wanted req (limits s)) pc -> shaped (wanted req (limits s)) pc') -> effect req s pc pc' s.
Proof.
  intros Hpc Hh Hs. split_and!; try done. intros h h' Hc Heq. eapply chans_ext; [|exact Hc].
  intros y. specialize (Heq y). rewrite Hh in Heq. lia.
Qed.

Lemma thread_step_effect now a req pc s m pc' s' m' :
  thread_step now a req pc s m = Some (pc', s', m') -> effect req s pc pc' s' /\ pc' <> PcStart.
Proof.
  destruct pc as [|[|x want] hd|hd|hd snap|hd|[|x hd] ran| |snap|], a; cbn; try done.
  - destruct (start_spec req s) as (s1 & -> & Hg & He). intros [= <- <- <-]. split; [|done].
    split_and!; [apply Hg|intros x; by apply grown_exists| |done|done].
    intros h h' Hc Heq. eapply chans_ext; [|by eapply chans_grown].
    intros y. specialize (Heq y). cbn in Heq. unfold holds in Heq. cbn in Heq. lia.
  - intros [= <- <- <-]. split; [|done]. apply effect_same; try done. cbn. intros ->. by rewrite app_nil_r.
  - destruct (send_slot x s) as [s1|] eqn:Hs; [|done]. intros [= <- <- <-]. split; [|done].
    pose proof (send_slot_spec _ _ _ Hs) as (ch & Hx & _ & Hl & Hch). split_and!; [done| | |done|].
    + intros y Hy. rewrite Hch. case_decide; eauto.
    + intros h h' Hc Heq. eapply chans_send; [done|done|]. intros y. specialize (Heq y).
      rewrite holds_cons in Heq. unfold holds in *. cbn in *. lia.
    + cbn. intros ->. by rewrite <- app_assoc.
  - intros [= <- <- <-]. split; [|done]. apply effect_same; try done. cbn. eauto.
  - intros [= <- <- <-]. split; [|done]. by apply effect_same.
  - intros [= <- <- <-]. split; [|done]. by apply effect_same.
  - intros [= <- <- <-]. split; [|done]. apply effect_same; try done. cbn. intros ->. exists []. by rewrite app_nil_r.
  - intros [= <- <- <-]. split; [destruct ran; by apply effect_same|by destruct ran].
  - destruct (receive_slot x s) as [s1|] eqn:Hs; [|done]. intros [= <- <- <-]. split; [|done].
    pose proof (receive_slot_spec _ _ _ Hs) as (ch & Hx & _ & Hl & Hch). split_and!; [done| | |done|].
    + intros y Hy. rewrite Hch. case_decide; eauto.
    + intros h h' Hc Heq. eapply chans_receive; [done|done|]. intros y. specialize (Heq y).
      assert (holds y (PcRelease (x :: hd) ran) = holds y (PcRelease hd ran) + if decide (y = x) then 1 else 0)%nat
        as E by apply (holds_cons x y []).
      rewrite E in Heq. lia.
    + cbn. intros [rest ->]. exists (x :: rest). by rewrite <- app_assoc.
  - intros [= <- <- <-]. split; [|done]. by apply effect_same.
  - intros [= <- <- <-]. split; [|done]. by apply effect_same.
Qed.

Lemma slots_step_at_spec now a i y y' : slots_step_at now a i y = Some y' ->
  exists th pc s m, sys_threads y !! i = Some th /\
    thread_step now a (th_request th) (th_pc th) (sys_slots y) (sys_runtime y) = Some (pc, s, m) /\
    y' = mkSlotSystem s m (<[i := mkThread (th_request th) pc]> (sys_threads y)).
Proof.
  unfold slots_step_at. destruct (sys_threads y !! i) as [th|]; [|done].
  destruct (thread_step _ _ _ _ _ _) as [[[pc s] m]|] eqn:Hs; [|done]. intros [= <-]. by exists th, pc, s, m.
Qed.

Lemma slots_inv_init y : slots_init y -> slots_inv y.
Proof.
  intros [(Ha & Hm & Hg) Hs]. rewrite Forall_forall in Hs.
  assert (forall x, holders x (sys_threads y) = 0%nat) as H0.
  { intros x. unfold holders. induction (sys_threads y) as [|t ths IH]; [done|]. cbn.
    rewrite IH by (intros t' Ht'; apply Hs; by right). rewrite (Hs t) by by left. done. }
  split.
  - split; [|done]. intros [|id|name] ch; cbn; rewrite ?Ha, ?Hm, ?lookup_empty; try done.
    intros Hch. rewrite Hch in Hg. rewrite H0. unfold limits. rewrite Hch. cbn. split_and!; [lia|lia|lia|done].
  - intros th Hth. by rewrite (Hs _ Hth).
  - intros th x Hth Hpc. by rewrite (Hs _ Hth) in Hpc.
Qed.

Lemma slots_inv_step y y' : slots_inv y -> slots_step y y' -> slots_inv y'.
Proof.
  intros [Hc Hsh He] (now & a & i & (th & pc & s & m & Hi & Hst & ->)%slots_step_at_spec).
  destruct (thread_step_effect _ _ _ _ _ _ _ _ _ Hst) as [(Hl & Hex & Hch & Hstart & Hshape) Hpc].
  assert (th ∈ sys_threads y) as Hth by by eapply list_elem_of_lookup_2.
  assert (forall t, t ∈ <[i := mkThread (th_request th) pc]> (sys_threads y) ->
    t = mkThread (th_request th) pc \/ t ∈ sys_threads y) as Hin.
  { intros t (j & Hj)%list_elem_of_lookup. apply list_lookup_insert_Some in Hj as [(_ & <- & _)|[_ Hj]];
      [by left|right; by eapply list_elem_of_lookup_2]. }
  split; cbn [sys_slots sys_threads].
  - eapply (Hch (fun x => holders x (sys_threads y))); [done|]. intros x.
    pose proof (holders_insert x i th (mkThread (th_request th) pc) _ Hi). cbn [th_pc] in *. lia.
  - intros t [->|Ht]%Hin; cbn [th_request th_pc]; rewrite Hl; [apply Hshape|]; by apply Hsh.
  - intros t x [->|Ht]%Hin Hne Hx; cbn [th_request th_pc] in *; rewrite Hl in Hx.
    + destruct (th_pc th) eqn:E; [by apply Hstart|..]; apply Hex, (He th); by rewrite ?E.
    + apply Hex. by apply (He t).
Qed.

Lemma slots_invariant y : reachable slots_init slots_step y -> slots_inv y.
Proof. apply invariant_reachable. split; [exact slots_inv_init|exact slots_inv_step]. Qed.

(** ** How many tasks run *)
Definition running (pc : slots_pc) : bool := match pc with PcRunning _ => true | _ => false end.
Definition running_with (x : slot) (l : option Z * Z * Z) (ths : list Thread) : Z :=
  len (List.filter (fun th => running (th_pc th) && bool_decide (x ∈ wanted (th_request th) l)) ths).

Lemma running_holders x l ths :
  (forall th, th ∈ ths -> shaped (wanted (th_request th) l) (th_pc th)) ->
  running_with x l ths <= Z.of_nat (holders x ths).
Proof.
  intros Hs. unfold running_with, len, holders. induction ths as [|th ths IH]; [done|].
  cbn [List.filter list_sum_with]. specialize (IH (fun t Ht => Hs t (list_elem_of_further t th ths Ht))).
  destruct (running (th_pc th)) eqn:Hr; cbn [andb]; [|lia]. case_bool_decide as Hx; cbn [andb length]; [|lia].
  destruct (th_pc th) as [| | | |hd| | | |] eqn:Hpc; try done.
  pose proof (Hs th (list_elem_of_here _ _)) as Hshape. rewrite Hpc in Hshape. cbn in Hshape.
  rewrite Hshape, list_elem_of_In, <- in_rev in Hx.
  assert (0 < holds x (PcRunning hd))%nat.
  { unfold holds. by apply count_occ_In. }
  lia.
Qed.

(** C19: Never do more tasks run than the limits allow: in every reachable state, whatever the
    interleaving of the threads and of cancelled contexts, at most as many threads run as there are
    places, at most as many with the same agent as an agent may have, and at most as many with the same
    model; and each channel holds exactly the places that threads have taken. *)
Theorem execution_within_limits y :
  reachable slots_init slots_step y ->
  let l := limits (sys_slots y) in
  (forall x n, limit_of x l = Some n -> 0 < n -> running_with x l (sys_threads y) <= n) /\
  (forall x ch, channel x (sys_slots y) = Some ch ->
     ch_len ch = Z.of_nat (holders x (sys_threads y)) /\ ch_len ch <= ch_cap ch).
Proof.
  intros [[Hc Hn] Hs _]%slots_invariant. cbn zeta. split.
  - intros x n Hlim Hpos. pose proof (running_holders x _ _ Hs) as Hr.
    destruct (channel x (sys_slots y)) as [ch|] eqn:Hx.
    + destruct (Hc x ch Hx) as (H1 & H2 & _ & H4). rewrite Hlim in H4. injection H4 as ->. lia.
    + specialize (Hn x Hx). cbn beta in Hn. lia.
  - intros x ch Hx. destruct (Hc x ch Hx) as (H1 & H2 & _). done.
Qed.

(** ** Progress *)
Definition through (th : Thread) : Prop := th_pc th = PcDone.
Lemma wanted_sorted req l : StronglySorted (fun x y => rank x < rank y)%nat (wanted req l).
Proof.
  unfold wanted. destruct l.1.1; repeat case_match; cbn; repeat constructor; cbn; lia.
Qed.
Lemma sorted_app {A} (R : A -> A -> Prop) l x k y :
  StronglySorted R (l ++ x :: k) -> y ∈ l -> R y x.
Proof.
  intros Hs Hy. induction l as [|z l IH]; [by apply not_elem_of_nil in Hy|].
  apply StronglySorted_inv in Hs as [Hs Hz]. apply elem_of_cons in Hy as [->|Hy]; [|by apply IH].
  rewrite Forall_forall in Hz. apply Hz. rewrite elem_of_app, elem_of_cons. tauto.
Qed.

Lemma blocked_spec now th y :
  slots_inv y -> th ∈ sys_threads y ->
  thread_step now Go (th_request th) (th_pc th) (sys_slots y) (sys_runtime y) = None ->
  through th \/ exists x want hd ch, th_pc th = PcAcquire (x :: want) hd /\
    channel x (sys_slots y) = Some ch /\ ch_len ch = ch_cap ch /\ 0 < ch_cap ch.
Proof.
  intros [[Hc Hn] Hsh He] Hth Hb. unfold through. pose proof (Hsh th Hth) as Hs.
  assert (forall x, th_pc th <> PcStart -> x ∈ wanted (th_request th) (limits (sys_slots y)) ->
    exists ch, channel x (sys_slots y) = Some ch) as Hex by (intros x H1 H2; by apply (He th x)).
  destruct (th_pc th) as [|[|x want] hd|hd|hd snap|hd|[|x hd] ran| |snap|] eqn:Hpc; cbn [thread_step] in Hb; cbn [shaped] in Hs;
    try done; try by left.
  - destruct (start_spec (th_request th) (sys_slots y)) as (s & Hst & _). by rewrite Hst in Hb.
  - right. destruct (Hex x) as [ch Hx]; [done|rewrite Hs, elem_of_app; right; by left|].
    destruct (Hc x ch Hx) as (H1 & H2 & H3 & _). exists x, want, hd, ch. split_and!; [done|done| |done].
    unfold send_slot in Hb. rewrite Hx in Hb. destruct (Z.ltb_spec (ch_len ch) (ch_cap ch)); [done|lia].
  - destruct Hs as [rest Hs]. destruct (Hex x) as [ch Hx].
    { done. }
    { rewrite Hs, !elem_of_app. left. cbn. rewrite elem_of_app. right. by left. }
    destruct (Hc x ch Hx) as (H1 & _). unfold receive_slot in Hb. rewrite Hx in Hb.
    destruct (Z.ltb_spec 0 (ch_len ch)); [done|]. exfalso.
    apply list_elem_of_lookup in Hth as (i & Hi).
    pose proof (holders_insert x i th (mkThread (th_request th) PcDone) _ Hi) as Hh. cbn [th_pc] in Hh.
    rewrite Hpc in Hh. assert (0 < holds x (PcRelease (x :: hd) ran))%nat by (apply count_occ_In; by left).
    change (holds x PcDone) with 0%nat in Hh. lia.
Qed.

Lemma holder_exists x ths : (0 < holders x ths)%nat -> exists th, th ∈ ths /\ x ∈ held (th_pc th).
Proof.
  unfold holders. induction ths as [|th ths IH]; cbn; [lia|]. intros H.
  destruct (holds x (th_pc th)) eqn:E.
  - destruct IH as (t & Ht & Hx); [lia|]. exists t. split; [by right|done].
  - exists th. split; [by left|]. apply list_elem_of_In. unfold holds in E. apply (count_occ_In slot_eq_dec). lia.
Qed.

(** Somebody always goes on, without waiting for a cancellation. *)
Lemma slots_progress now y : slots_inv y -> (exists th, th ∈ sys_threads y /\ ~ through th) ->
  exists i y', slots_step_at now Go i y = Some y'.
Proof.
  intros Hi (th0 & Hth0 & Hnd0).
  set (stuck := forallb (fun th => match thread_step now Go (th_request th) (th_pc th) (sys_slots y)
    (sys_runtime y) with None => true | Some _ => false end) (sys_threads y)).
  destruct stuck eqn:Hst; subst stuck.
  - exfalso. rewrite forallb_forall in Hst.
    assert (forall th, th ∈ sys_threads y ->
      thread_step now Go (th_request th) (th_pc th) (sys_slots y) (sys_runtime y) = None) as Hb.
    { intros th Hth%list_elem_of_In%Hst. by destruct (thread_step _ _ _ _ _ _). }
    assert (forall k th x want hd, (3 - rank x <= k)%nat -> th ∈ sys_threads y ->
      th_pc th = PcAcquire (x :: want) hd -> False) as Hno.
    { induction k as [|k IH]; intros th x want hd Hk Hth Hpc; [destruct x; cbn in Hk; lia|].
      destruct (blocked_spec now th y Hi Hth (Hb th Hth)) as [Hd|(x' & want' & hd' & ch & Hpc' & Hx & Hfull & Hpos)].
      { unfold through in Hd. congruence. }
      rewrite Hpc in Hpc'. injection Hpc' as <- <- <-.
      destruct (co_count _ _ (si_chans _ Hi) x ch Hx) as (Hlen & _).
      destruct (holder_exists x (sys_threads y)) as (t & Ht & Hheld); [lia|].
      destruct (blocked_spec now t y Hi Ht (Hb t Ht)) as [Hd|(z & wz & hz & chz & Hpz & _)].
      { unfold through in Hd. rewrite Hd in Hheld. by apply not_elem_of_nil in Hheld. }
      apply (IH t z wz hz); [|done|done].
      pose proof (si_shape _ Hi t Ht) as Hshape. rewrite Hpz in Hshape, Hheld. cbn [shaped held] in Hshape, Hheld.
      pose proof (wanted_sorted (th_request t) (limits (sys_slots y))) as Hsort. rewrite Hshape in Hsort.
      assert (rank x < rank z)%nat; [|lia]. eapply (sorted_app _ _ _ _ x Hsort).
      by rewrite list_elem_of_In, <- in_rev, <- list_elem_of_In. }
    destruct (blocked_spec now th0 y Hi Hth0 (Hb th0 Hth0)) as [Hd|(x & want & hd & ch & Hpc & _)]; [done|].
    by apply (Hno 3%nat th0 x want hd); [lia|..].
  - apply not_true_iff_false in Hst. rewrite forallb_forall in Hst.
    assert (exists th, th ∈ sys_threads y /\
      thread_step now Go (th_request th) (th_pc th) (sys_slots y) (sys_runtime y) <> None) as (th & Hth & Hgo).
    { clear -Hst. induction (sys_threads y) as [|t ths IH]; [exfalso; by apply Hst|].
      destruct (thread_step now Go (th_request t) (th_pc t) (sys_slots y) (sys_runtime y)) eqn:E.
      { exists t. split; [by left|congruence]. }
      destruct IH as (t' & Ht' & Hg).
      { intros H. apply Hst. intros u [<-|Hu]; [by rewrite E|by apply H]. }
      exists t'. split; [by right|done]. }
    apply list_elem_of_lookup in Hth as (i & Hith). exists i. unfold slots_step_at. rewrite Hith.
    destruct (thread_step _ _ _ _ _ _) as [[[pc s] m]|]; [eauto|done].
Qed.

(** ** Every run ends *)
Definition pc_measure (pc : slots_pc) : nat :=
  match pc with
  | PcStart => 14 | PcAcquire want held => 7 + 2 * length want + length held
  | PcEnterRead held => 6 + length held | PcEnterWrite held _ => 5 + length held
  | PcRunning held => 4 + length held | PcRelease held _ => 3 + length held
  | PcLeaveRead => 2 | PcLeaveWrite _ => 1 | PcDone => 0
  end.
Definition slots_measure (y : SlotSystem) : nat :=
  list_sum_with (fun th => pc_measure (th_pc th)) (sys_threads y).

Lemma wanted_length req l : (length (wanted req l) <= 3)%nat.
Proof. unfold wanted. destruct l.1.1; repeat case_match; cbn; lia. Qed.
Lemma thread_step_measure now a req pc s m pc' s' m' :
  thread_step now a req pc s m = Some (pc', s', m') -> (pc_measure pc' < pc_measure pc)%nat.
Proof.
  destruct pc as [|[|x want] hd|hd|hd snap|hd|[|x hd] ran| |snap|], a; cbn [thread_step]; try done.
  1: { destruct (start_spec req s) as (s1 & -> & _). intros [= <- _ _].
       pose proof (wanted_length req (limits s)). cbn [pc_measure length]. lia. }
  all: repeat case_match; intros [= <- _ _]; cbn [pc_measure length]; lia.
Qed.
Lemma slots_step_measure y y' : slots_step y y' ->
  (slots_measure y' < slots_measure y)%nat /\ length (sys_threads y') = length (sys_threads y).
Proof.
  intros (now & a & i & (th & pc & s & m & Hi & Hst & ->)%slots_step_at_spec).
  apply thread_step_measure in Hst. unfold slots_measure. cbn [sys_threads].
  pose proof (list_sum_with_insert (fun th => pc_measure (th_pc th)) i th (mkThread (th_request th) pc) _ Hi).
  cbn [th_pc] in *. split; [lia|apply length_insert].
Qed.

Lemma holders_done x ths : Forall through ths -> holders x ths = 0%nat.
Proof.
  unfold holders, through. induction 1 as [|th ths Hth _ IH]; [done|]. cbn [list_sum_with]. by rewrite IH, Hth.
Qed.

(** C20: The slots are never deadlocked and never leak.  However the threads interleave, and whichever
    of them give up, a run has at most fourteen steps per thread; as long as one thread is not through,
    some thread can go on; and when nobody can go on any more, every thread is through and all channels
    are empty again. *)
Theorem execution_slots_all_returned y0 y n :
  slots_init y0 -> nsteps slots_step n y0 y ->
  (n <= 14 * length (sys_threads y0))%nat /\
  ((exists th, th ∈ sys_threads y /\ ~ through th) -> forall now, exists i y', slots_step_at now Go i y = Some y') /\
  (Forall through (sys_threads y) -> forall x ch, channel x (sys_slots y) = Some ch -> ch_len ch = 0).
Proof.
  intros Hinit Hn.
  assert (slots_inv y) as Hinv by (apply slots_invariant; exists y0; split; [done|by eapply rtc_nsteps_2]).
  split_and!.
  - assert (n + slots_measure y <= slots_measure y0)%nat as Hm.
    { clear Hinit Hinv. induction Hn as [|n y1 y2 y3 H _ IH]; [lia|]. apply slots_step_measure in H as [H _]. lia. }
    destruct Hinit as [_ Hs]. assert (slots_measure y0 = 14 * length (sys_threads y0))%nat; [|lia].
    unfold slots_measure. induction Hs as [|th ths Hth Hs IH]; cbn [list_sum_with length]; [done|].
    rewrite Hth. cbn [pc_measure]. lia.
  - intros Hnd now. by apply slots_progress.
  - intros Hd x ch Hx. destruct (co_count _ _ (si_chans _ Hinv) x ch Hx) as (Hlen & _).
    rewrite (holders_done x _ Hd) in Hlen. lia.
Qed.

(** ** Examples: two tasks of one agent *)
Fixpoint run_schedule (schedule : list nat) (y : SlotSystem) : option (nat * SlotSystem) :=
  match schedule with
  | [] => Some (0%nat, y)
  | i :: schedule =>
      match slots_step_at 40 Go i y with
      | None => None
      | Some y =>
          match run_schedule schedule y with Some (n, y) => Some (S n, y) | None => None end
      end
  end.
Lemma run_schedule_steps schedule y n y' : run_schedule schedule y = Some (n, y') -> nsteps slots_step n y y'.
Proof.
  revert y n. induction schedule as [|i schedule IH]; intros y n; cbn.
  { intros [= <- <-]. constructor. }
  destruct (slots_step_at 40 Go i y) as [y1|] eqn:Hs; [|done].
  destruct (run_schedule schedule y1) as [[k y2]|] eqn:Hr; [|done]. intros [= <- <-].
  econstructor; [by exists 40, Go, i|by apply IH].
Qed.

Definition coder_request : Request := mkRequest (Info (example_agent "coder")) "gpt".
(** The limits of a machine with four processors: eight tasks, two per agent, one per model; and the
    same with two per model. *)
Definition two_tasks (perModel : Z) : SlotSystem :=
  mkSlotSystem (new_execution_slots (fun _ => "") 4 <| perModelMax := perModel |>)
    (NewRuntimeManager (register_all 1 [example_agent "coder"]))
    [mkThread coder_request PcStart; mkThread coder_request PcStart].
Lemma two_tasks_init perModel : slots_init (two_tasks perModel).
Proof. split; [split_and!; [done|done|by vm_compute]|by repeat constructor]. Qed.
Definition after_schedule (schedule : list nat) (y : SlotSystem) : SlotSystem :=
  match run_schedule schedule y with Some (_, y) => y | None => y end.

(** With one place per model the second task waits for the first. *)
Lemma execution_within_limits_witness :
  let y := after_schedule (replicate 7 0%nat ++ replicate 3 1%nat) (two_tasks 1) in
  running_with (SlotModel "gpt") (limits (sys_slots y)) (sys_threads y) = 1 /\
  running_with (SlotModel "gpt") (limits (sys_slots y)) (sys_threads y) <= 1.
Proof.
  set (schedule := replicate 7 0%nat ++ replicate 3 1%nat). cbv zeta.
  assert (exists n, run_schedule schedule (two_tasks 1) = Some (n, after_schedule schedule (two_tasks 1))) as [n Hn]
    by (exists 10%nat; vm_compute; reflexivity).
  split; [vm_compute; reflexivity|].
  apply (proj1 (execution_within_limits (after_schedule schedule (two_tasks 1))
    (ex_intro _ (two_tasks 1) (conj (two_tasks_init 1) (rtc_nsteps_2 _ _ _ (run_schedule_steps _ _ _ _ Hn)))))).
  - vm_compute. reflexivity.
  - lia.
Defined.

(** Both run to their ends: the first reads the load, the second leaves and reports, the first reports. *)
Definition racing : list nat :=
  replicate 7 0%nat ++ replicate 7 1%nat ++ replicate 6 0%nat ++ replicate 7 1%nat ++ [0%nat].
Lemma execution_slots_all_returned_witness :
  let y := after_schedule racing (two_tasks 2) in
  Forall through (sys_threads y) /\ forall x ch, channel x (sys_slots y) = Some ch -> ch_len ch = 0.
Proof.
  cbv zeta.
  assert (run_schedule racing (two_tasks 2) = Some (28%nat, after_schedule racing (two_tasks 2))) as Hn
    by (vm_compute; reflexivity).
  assert (Forall through (sys_threads (after_schedule racing (two_tasks 2)))) as Hd.
  { assert (map th_pc (sys_threads (after_schedule racing (two_tasks 2))) = [PcDone; PcDone]) as E
      by (vm_compute; reflexivity).
    apply Forall_forall. intros th Hth. apply (list_elem_of_fmap_2 th_pc) in Hth.
    change (th_pc th ∈ map th_pc (sys_threads (after_schedule racing (two_tasks 2)))) in Hth. rewrite E in Hth.
    rewrite !elem_of_cons, elem_of_nil in Hth. unfold through. tauto. }
  split; [exact Hd|].
  exact (proj2 (proj2 (execution_slots_all_returned (two_tasks 2) (after_schedule racing (two_tasks 2)) 28
    (two_tasks_init 2) (run_schedule_steps _ _ _ _ Hn))) Hd).
Defined.

(** The last report is the older reading: the runtime manager still sees a task of the agent, at half
    its capacity, when nothing runs any more. *)
Example stale_load_reported :
  let m := sys_runtime (after_schedule racing (two_tasks 2)) in
  (fun s => (InFlight s, AgentSlotUsage s)) <$> eval (State 50 "coder") m = Some (1, 0.5%float).
Proof. vm_compute. reflexivity. Qed.
