(* ===== verification/TraceParser.v ===== *)
(** * The trace parser (selflearn/trace_parser.go)

    Splits the text of a reasoning model, which may arrive in chunks, into its thoughts, retrieval
    queries, code and the final answer.  What the loop has not understood yet stays in the buffer.
    The loop of [Consume] shortens the buffer in every round that continues, so its length is enough
    fuel. *)
From S2P Require Import Prelude GoLib GoJSON Domain.
From Stdlib Require Import Ascii.

(** ** strings *)
Fixpoint str_take (n : nat) (s : string) : string :=
  match n, s with S n, String c s => String c (str_take n s) | _, _ => "" end.
Fixpoint str_drop (n : nat) (s : string) : string :=
  match n, s with S n, String _ s => str_drop n s | _, _ => s end.

(** [strings.Index], [strings.IndexByte] and [strings.LastIndexByte]; [None] is -1. *)
Fixpoint Index (s sub : string) : option nat :=
  if has_prefix sub s then Some 0%nat
  else match s with EmptyString => None | String _ s => S <$> Index s sub end.
Fixpoint IndexByte (s : string) (b : ascii) : option nat :=
  match s with
  | EmptyString => None
  | String c s => if Ascii.eqb c b then Some 0%nat else S <$> IndexByte s b
  end.
Fixpoint LastIndexByte (s : string) (b : ascii) : option nat :=
  match s with
  | EmptyString => None
  | String c s =>
      match LastIndexByte s b with
      | Some i => Some (S i)
      | None => if Ascii.eqb c b then Some 0%nat else None
      end
  end.
Definition langle : ascii := "<"%char.

(** ** The parser *)
Inductive ParseEvent : Type :=
  | ParseEventThoughtDelta (value : string)
  | ParseEventCodeDelta (value : string)
  | ParseEventRAGQuery (value : string).

Record TraceParser : Type := mkTraceParser {
  buffer : string;
  tag : string;
  thought : string;
  ragQuery : string;
  code : string;
  finalText : string }.
#[export] Instance eta_TraceParser : Updatable TraceParser := fun p =>
  mkTraceParser (buffer p) (tag p) (thought p) (ragQuery p) (code p) (finalText p).
Definition NewTraceParser : TraceParser := mkTraceParser "" "" "" "" "" "".

(** [domain.ReasoningResponse] without its metadata, which nothing sets. *)
Record ReasoningResponse : Type := mkReasoningResponse {
  Thought : string;
  RAGQuery : string;
  Code : string;
  FinalText : string }.
#[export] Instance eta_ReasoningResponse : Updatable ReasoningResponse := fun r =>
  mkReasoningResponse (Thought r) (RAGQuery r) (Code r) (FinalText r).

Definition appendContent (tag text : string) (p : TraceParser) : TraceParser * list ParseEvent :=
  if String.eqb text "" then (p, [])
  else if String.eqb tag "thought" then (p <| thought ::= (fun t => t +:+ text) |>, [ParseEventThoughtDelta text])
  else if String.eqb tag "rag_query" then (p <| ragQuery ::= (fun t => t +:+ text) |>, [])
  else if String.eqb tag "code" then (p <| code ::= (fun t => t +:+ text) |>, [ParseEventCodeDelta text])
  else (p <| finalText ::= (fun t => t +:+ text) |>, []).

Definition open_tag (tag : string) : string := "<" +:+ tag +:+ ">".
Definition close_tag (tag : string) : string := "</" +:+ tag +:+ ">".
Definition known_tags : list string := ["thought"; "rag_query"; "code"].
(** The tag and the length of its text. *)
Definition matchOpenTag (buffer : string) : option (string * nat) :=
  match List.find (fun tag => has_prefix (open_tag tag) buffer) known_tags with
  | Some tag => Some (tag, String.length (open_tag tag))
  | None => None
  end.

Definition safeEmitPrefix (buffer : string) : string :=
  match LastIndexByte buffer langle with
  | None => buffer
  | Some index => str_take index buffer
  end.

(** The end of a tag: an event for a query that is not blank. *)
Definition query_event (p : TraceParser) : list ParseEvent :=
  if String.eqb (tag p) "rag_query" then
    let query := TrimSpace (ragQuery p) in
    if String.eqb query "" then [] else [ParseEventRAGQuery query]
  else [].

Fixpoint consume_loop (fuel : nat) (p : TraceParser) : TraceParser * list ParseEvent :=
  match fuel with
  | O => (p, [])
  | S fuel =>
      if String.eqb (buffer p) "" then (p, [])
      else if String.eqb (tag p) "" then
        match IndexByte (buffer p) langle with
        | None => (p <| finalText ::= (fun t => t +:+ buffer p) |> <| buffer := "" |>, [])
        | Some index =>
            let p := if (0 <? index)%nat
                     then p <| finalText ::= (fun t => t +:+ str_take index (buffer p)) |>
                            <| buffer := str_drop index (buffer p) |>
                     else p in
            match matchOpenTag (buffer p) with
            | None => (p, [])
            | Some (found, consumed) =>
                consume_loop fuel (p <| tag := found |> <| buffer := str_drop consumed (buffer p) |>)
            end
        end
      else
        let closeTag := close_tag (tag p) in
        match Index (buffer p) closeTag with
        | None =>
            let safe := safeEmitPrefix (buffer p) in
            if String.eqb safe "" then (p, [])
            else
              let '(p, events) := appendContent (tag p) safe p in
              let '(p, more) := consume_loop fuel (p <| buffer := str_drop (String.length safe) (buffer p) |>) in
              (p, events ++ more)
        | Some index =>
            let '(p, events) := if (0 <? index)%nat then appendContent (tag p) (str_take index (buffer p)) p
                                else (p, []) in
            let query := query_event p in
            let '(p, more) := consume_loop fuel
              (p <| buffer := str_drop (index + String.length closeTag) (buffer p) |> <| tag := "" |>) in
            (p, events ++ query ++ more)
        end
  end.

Definition Consume (chunk : string) (p : TraceParser) : TraceParser * list ParseEvent :=
  if String.eqb chunk "" then (p, [])
  else
    let p := p <| buffer ::= (fun b => b +:+ chunk) |> in
    consume_loop (String.length (buffer p)) p.

(** [Result]; [None] is the error of an unterminated tag. *)
Definition ParserResult (p : TraceParser) : option ReasoningResponse :=
  if negb (String.eqb (TrimSpace (tag p)) "") then None
  else Some (mkReasoningResponse (TrimSpace (thought p)) (TrimSpace (ragQuery p)) (TrimSpace (code p))
               (TrimSpace (finalText p))).

(** The chunks of a stream, one after the other. *)
Fixpoint ConsumeAll (chunks : list string) (p : TraceParser) : TraceParser * list ParseEvent :=
  match chunks with
  | [] => (p, [])
  | chunk :: chunks =>
      let '(p, events) := Consume chunk p in
      let '(p, more) := ConsumeAll chunks p in
      (p, events ++ more)
  end.

(** The example of trace_parser_test.go. *)
Example parser_streams :
  let '(p, events) := ConsumeAll ["<thought>plan "; "steps</thought><rag_query>pgv";
    "ector cosine search</rag_query><code>package main"; "func main() {}</code>"] NewTraceParser in
  ParserResult p = Some (mkReasoningResponse "plan steps" "pgvector cosine search" "package mainfunc main() {}" "") /\
  events = [ParseEventThoughtDelta "plan "; ParseEventThoughtDelta "steps"; ParseEventRAGQuery "pgvector cosine search";
            ParseEventCodeDelta "package main"; ParseEventCodeDelta "func main() {}"].
Proof. vm_compute. split; reflexivity. Qed.
