(* ===== verification/TraceParserProps.v ===== *)
(** * Properties of the trace parser

    How a text is cut into chunks does not matter; texts made of well-formed segments are parsed
    back; and a stray [<] swallows the rest of the text. *)
From S2P Require Import Prelude GoLib GoJSON Domain TraceParser.
From Stdlib Require Import Ascii.

(** ** Cutting strings *)
Lemma str_length_app (a b : string) : String.length (a +:+ b) = (String.length a + String.length b)%nat.
Proof. apply string_length_app. Qed.
Lemma str_app_cons c (a b : string) : String c a +:+ b = String c (a +:+ b).
Proof. done. Qed.
Lemma str_take_drop n s : str_take n s +:+ str_drop n s = s.
Proof. revert s. induction n as [|n IH]; intros [|c s]; [done..|]. cbn. by rewrite str_app_cons, IH. Qed.
Lemma str_take_app a b : str_take (String.length a) (a +:+ b) = a.
Proof. induction a as [|c a IH]; [by destruct b|]. rewrite str_app_cons. cbn. by rewrite IH. Qed.
Lemma str_drop_app a b : str_drop (String.length a) (a +:+ b) = b.
Proof. induction a as [|c a IH]; [done|apply IH]. Qed.
Lemma str_length_take n s : (n <= String.length s)%nat -> String.length (str_take n s) = n.
Proof. revert s. induction n as [|n IH]; intros [|c s] H; cbn in *; try lia. rewrite IH; lia. Qed.
Lemma str_length_drop n s : String.length (str_drop n s) = (String.length s - n)%nat.
Proof. revert s. induction n as [|n IH]; intros [|c s]; cbn; done || apply IH. Qed.
Lemma str_app_assoc (a b c : string) : (a +:+ b) +:+ c = a +:+ (b +:+ c).
Proof. apply string_app_assoc. Qed.

(** The position where a search hits cuts the text there. *)
Lemma cut_at n s : (n <= String.length s)%nat -> exists a b, s = a +:+ b /\ String.length a = n.
Proof. intros H. exists (str_take n s), (str_drop n s). by rewrite str_take_drop, str_length_take. Qed.

Lemma has_prefix_spec p s : has_prefix p s = true <-> exists r, s = p +:+ r.
Proof.
  unfold has_prefix. split.
  - destruct (strip_prefix p s) as [r|] eqn:E; [|done]. intros _. exists r. by apply strip_prefix_app.
  - intros [r ->]. assert (strip_prefix p (p +:+ r) = Some r) as ->; [|done].
    induction p as [|c p IH]; [done|]. rewrite str_app_cons. cbn. by rewrite Ascii.eqb_refl.
Qed.
Lemma has_prefix_app p s r : has_prefix p s = true -> has_prefix p (s +:+ r) = true.
Proof. rewrite !has_prefix_spec. intros [t ->]. exists (t +:+ r). apply str_app_assoc. Qed.
Lemma str_app_inj_r (a b b' : string) : a +:+ b = a +:+ b' -> b = b'.
Proof. induction a as [|c a IH]; [done|]. rewrite !str_app_cons. intros [= H]. by apply IH. Qed.
(** Of two decompositions of a text one is the longer. *)
Lemma str_app_eq_app (a b c d : string) : a +:+ b = c +:+ d ->
  exists k, (a = c +:+ k /\ d = k +:+ b) \/ (c = a +:+ k /\ b = k +:+ d).
Proof.
  revert c. induction a as [|x a IH]; intros [|y c].
  - intros H. exists "". left. split; [done|exact (eq_sym H)].
  - intros H. exists (String y c). right. split; [done|exact H].
  - intros H. exists (String x a). left. split; [done|exact (eq_sym H)].
  - rewrite !str_app_cons. intros [= -> H]. apply IH in H as (k & [[-> ->]|[-> ->]]); exists k; [left|right]; by split.
Qed.

(** ** Free of a byte, free of a word *)
Fixpoint has_byte (s : string) (b : ascii) : bool :=
  match s with EmptyString => false | String c s => Ascii.eqb c b || has_byte s b end.
Lemma has_byte_app s t b : has_byte (s +:+ t) b = has_byte s b || has_byte t b.
Proof. induction s as [|c s IH]; [done|]. rewrite str_app_cons. cbn. by rewrite IH, orb_assoc. Qed.

Lemma IndexByte_none s b : IndexByte s b = None <-> has_byte s b = false.
Proof.
  induction s as [|c s IH]; cbn; [done|]. destruct (Ascii.eqb c b); cbn; [done|].
  rewrite fmap_None. exact IH.
Qed.
Lemma IndexByte_some s b i : IndexByte s b = Some i ->
  exists a t, s = a +:+ String b t /\ String.length a = i /\ has_byte a b = false.
Proof.
  revert i. induction s as [|c s IH]; cbn; [done|]. intros i.
  destruct (Ascii.eqb_spec c b) as [->|Hne].
  - intros [= <-]. by exists "", s.
  - rewrite fmap_Some. intros (j & (a & t & -> & <- & Hn)%IH & ->). exists (String c a), t.
    split_and!; [done|done|]. cbn. apply Ascii.eqb_neq in Hne. by rewrite Hne.
Qed.
Lemma IndexByte_app a b t : has_byte a b = false -> IndexByte (a +:+ String b t) b = Some (String.length a).
Proof.
  induction a as [|c a IH].
  - intros _. change ("" +:+ String b t) with (String b t). cbn. by rewrite Ascii.eqb_refl.
  - rewrite str_app_cons. cbn. intros [-> H]%orb_false_iff. by rewrite (IH H).
Qed.
Lemma LastIndexByte_none s b : LastIndexByte s b = None <-> has_byte s b = false.
Proof.
  induction s as [|c s IH]; cbn; [done|]. destruct (LastIndexByte s b).
  - split; [done|]. intros [_ H]%orb_false_iff. by apply IH in H.
  - destruct (Ascii.eqb c b); cbn; [done|]. tauto.
Qed.
Lemma LastIndexByte_some s b i : LastIndexByte s b = Some i ->
  exists a t, s = a +:+ String b t /\ String.length a = i /\ has_byte t b = false.
Proof.
  revert i. induction s as [|c s IH]; cbn; [done|]. intros i.
  destruct (LastIndexByte s b) as [j|] eqn:E.
  - intros [= <-]. destruct (IH j eq_refl) as (a & t & -> & <- & Hn). by exists (String c a), t.
  - destruct (Ascii.eqb_spec c b) as [->|]; [|done]. intros [= <-]. exists "", s.
    split_and!; [done|done|by apply LastIndexByte_none].
Qed.
Lemma LastIndexByte_app a b t : has_byte t b = false -> LastIndexByte (a +:+ String b t) b = Some (String.length a).
Proof.
  intros Ht. induction a as [|c a IH].
  - change ("" +:+ String b t) with (String b t). cbn. apply LastIndexByte_none in Ht. by rewrite Ht, Ascii.eqb_refl.
  - rewrite str_app_cons. cbn. by rewrite IH.
Qed.

(** [occurs w s i]: [w] stands at position [i] of [s]. *)
Definition occurs (w s : string) (i : nat) : Prop := exists a b, s = a +:+ (w +:+ b) /\ String.length a = i.
Lemma Index_some s w i : Index s w = Some i -> occurs w s i /\ forall j, (j < i)%nat -> ~ occurs w s j.
Proof.
  revert i. induction s as [|c s IH]; intros i; cbn.
  - destruct (has_prefix w "") eqn:H; [|done]. intros [= <-]. apply has_prefix_spec in H as [r Hr].
    split; [by exists "", r|lia].
  - destruct (has_prefix w (String c s)) eqn:H.
    + intros [= <-]. apply has_prefix_spec in H as [r Hr]. split; [by exists "", r|lia].
    + rewrite fmap_Some. intros (k & (Ho & Hf)%IH & ->). split.
      * destruct Ho as (a & b & -> & <-). by exists (String c a), b.
      * intros [|j] Hj (a & b & Hs & Hl).
        -- destruct a; [|done]. assert (has_prefix w (String c s) = true); [|congruence].
           apply has_prefix_spec. by exists b.
        -- destruct a as [|c' a]; [done|]. rewrite str_app_cons in Hs. injection Hs as -> ->.
           apply (Hf j); [lia|]. exists a, b. cbn in Hl. split; [done|lia].
Qed.
Lemma Index_none s w : Index s w = None -> forall i, ~ occurs w s i.
Proof.
  induction s as [|c s IH]; cbn.
  - destruct (has_prefix w "") eqn:H; [done|]. intros _ i (a & b & Hs & _).
    assert (has_prefix w "" = true); [|congruence]. apply has_prefix_spec.
    destruct a; [by exists b|done].
  - destruct (has_prefix w (String c s)) eqn:H; [done|]. rewrite fmap_None. intros Hn i (a & b & Hs & Hl).
    destruct a as [|c' a].
    + assert (has_prefix w (String c s) = true); [|congruence]. apply has_prefix_spec. by exists b.
    + rewrite str_app_cons in Hs. injection Hs as -> ->. by apply (IH Hn (String.length a)), (ex_intro _ a), (ex_intro _ b).
Qed.
(** The first occurrence is what the search returns. *)
Lemma Index_first s w i : occurs w s i -> (forall j, (j < i)%nat -> ~ occurs w s j) -> Index s w = Some i.
Proof.
  intros Ho Hf. destruct (Index s w) as [k|] eqn:E.
  - apply Index_some in E as [Hk Hfk]. destruct (Nat.lt_trichotomy i k) as [H|[->|H]]; [by apply Hfk in H|done|].
    by apply Hf in H.
  - by apply Index_none with (i := i) in E.
Qed.

(** ** Searching in a longer text *)
Lemma occurs_prefix w s t j : occurs w (s +:+ t) j -> (j + String.length w <= String.length s)%nat -> occurs w s j.
Proof.
  intros (a & b & Hs & <-) Hle. rewrite <- str_app_assoc in Hs. apply str_app_eq_app in Hs as (k & [[-> ->]|[Ha ->]]).
  - exists a, k. by rewrite str_app_assoc.
  - rewrite <- str_length_app, Ha, str_length_app in Hle. assert (String.length k = 0%nat) by lia.
    destruct k; [|done]. exists a, "". rewrite !string_app_nil_r in *. by rewrite Ha.
Qed.
Lemma occurs_app_l w s t i : occurs w s i -> occurs w (s +:+ t) i.
Proof. intros (a & b & -> & <-). exists a, (b +:+ t). by rewrite !str_app_assoc. Qed.
Lemma occurs_app_r w s t i : occurs w t i -> occurs w (s +:+ t) (String.length s + i).
Proof. intros (a & b & -> & <-). exists (s +:+ a), b. by rewrite str_app_assoc, str_length_app. Qed.
Lemma occurs_length w s i : occurs w s i -> (i + String.length w <= String.length s)%nat.
Proof. intros (a & b & -> & <-). rewrite !str_length_app. lia. Qed.

Lemma Index_app_l s t w i : Index s w = Some i -> Index (s +:+ t) w = Some i.
Proof.
  intros [Ho Hf]%Index_some. apply Index_first; [by apply occurs_app_l|]. intros j Hj Ho'.
  apply (Hf j Hj). eapply occurs_prefix; [exact Ho'|]. apply occurs_length in Ho. lia.
Qed.
Lemma Index_app_r s t w : (forall j, (j < String.length s)%nat -> ~ occurs w (s +:+ t) j) ->
  Index (s +:+ t) w = Nat.add (String.length s) <$> Index t w.
Proof.
  intros Hn. destruct (Index t w) as [k|] eqn:E.
  - apply Index_some in E as [Ho Hf]. apply Index_first; [by apply occurs_app_r|]. intros j Hj Hoj.
    destruct (Nat.lt_ge_cases j (String.length s)) as [H|H]; [by apply (Hn j)|].
    apply (Hf (j - String.length s)%nat); [lia|]. destruct Hoj as (a & b & Hs & <-).
    apply str_app_eq_app in Hs as (l & [[-> Hb]|[-> Hb]]).
    + rewrite str_length_app in H. assert (String.length l = 0%nat) by lia. destruct l; [|done].
      exists "", b. split; [exact (eq_sym Hb)|]. rewrite string_app_nil_r. cbn. lia.
    + exists l, b. split; [done|]. rewrite str_length_app. lia.
  - destruct (Index (s +:+ t) w) as [j|] eqn:E'; [|done]. exfalso. apply Index_some in E' as [(a & b & Hs & <-) _].
    apply str_app_eq_app in Hs as (l & [[-> Hb]|[-> Hb]]).
    + destruct l as [|c l].
      * apply (Index_none _ _ E 0%nat). exists "", b. split; [exact (eq_sym Hb)|done].
      * eapply (Hn (String.length a)); [rewrite str_length_app; cbn; lia|]. exists a, b.
        rewrite str_app_assoc. by rewrite Hb.
    + by apply (Index_none _ _ E (String.length l)), (ex_intro _ l), (ex_intro _ b).
Qed.
Lemma LastIndexByte_app_r s t b :
  LastIndexByte (s +:+ t) b = match LastIndexByte t b with
                              | Some k => Some (String.length s + k)%nat
                              | None => LastIndexByte s b end.
Proof.
  induction s as [|c s IH]; [by destruct (LastIndexByte t b) eqn:E; cbn; rewrite ?E|].
  rewrite str_app_cons. cbn. rewrite IH. by destruct (LastIndexByte t b).
Qed.
Lemma str_take_app_more a b n : str_take (String.length a + n) (a +:+ b) = a +:+ str_take n b.
Proof. induction a as [|c a IH]; [done|]. rewrite !str_app_cons. cbn. by rewrite IH. Qed.
Lemma str_drop_app_more a b n : str_drop (String.length a + n) (a +:+ b) = str_drop n b.
Proof. induction a as [|c a IH]; [done|]. rewrite !str_app_cons. apply IH. Qed.

(** A closing tag has its only [<] in front. *)
Lemma open_tag_cons t : open_tag t = String langle (t +:+ ">").
Proof. reflexivity. Qed.
Lemma close_tag_cons t : close_tag t = String langle (("/" +:+ t) +:+ ">").
Proof. reflexivity. Qed.

(** What is emitted before the end of the tag is known can be no part of it. *)
Lemma safe_no_close s x w : has_byte w langle = false ->
  has_byte s langle = false \/ (exists y, x = String langle y) ->
  (forall j, (j < String.length s)%nat -> ~ occurs (String langle w) s j) ->
  forall j, (j < String.length s)%nat -> ~ occurs (String langle w) (s +:+ x) j.
Proof.
  intros Hw Hx Hn j Hj (a & b & Hs & <-). apply str_app_eq_app in Hs as (k & [[-> Hk]|[-> _]]);
    [|rewrite str_length_app in Hj; lia].
  destruct k as [|c k]; [rewrite string_app_nil_r in Hj; lia|]. rewrite !str_app_cons in Hk. injection Hk as <- Hk.
  destruct Hx as [Hx|[y ->]].
  { rewrite has_byte_app in Hx. cbn in Hx. by rewrite orb_true_r in Hx. }
  apply str_app_eq_app in Hk as (l & [[-> Hl]|[-> Hl]]).
  - destruct l as [|c l].
    + eapply (Hn (String.length a)); [rewrite str_length_app; cbn; lia|].
      exists a, "". by rewrite !string_app_nil_r.
    + rewrite str_app_cons in Hl. injection Hl as <- _. rewrite has_byte_app in Hw. cbn in Hw.
      by rewrite orb_true_r in Hw.
  - eapply (Hn (String.length a)); [rewrite str_length_app; cbn; lia|]. exists a, l. done.
Qed.

(** ** The loop without its fuel *)
Definition run (p : TraceParser) : TraceParser * list ParseEvent := consume_loop (String.length (buffer p)) p.
Definition set_buffer (p : TraceParser) (b : string) : TraceParser := p <| buffer := b |>.
Definition more (p : TraceParser) (c : string) : TraceParser := p <| buffer ::= (fun b => b +:+ c) |>.
(** The text written into the part of the answer that [t] names. *)
Definition put (t text : string) (p : TraceParser) : TraceParser := (appendContent t text p).1.

Lemma put_buffer t s p : buffer (put t s p) = buffer p.
Proof. unfold put, appendContent. by repeat case_match. Qed.
Lemma put_tag t s p : tag (put t s p) = tag p.
Proof. unfold put, appendContent. by repeat case_match. Qed.
Lemma put_set t s p b : put t s (set_buffer p b) = set_buffer (put t s p) b.
Proof. unfold put, appendContent. by repeat case_match. Qed.
Lemma put_more t s p c : put t s (more p c) = more (put t s p) c.
Proof. unfold put, appendContent. by repeat case_match. Qed.
Lemma append_events t s p q : (appendContent t s p).2 = (appendContent t s q).2.
Proof. unfold appendContent. by repeat case_match. Qed.
Lemma put_nil t p : put t "" p = p.
Proof. reflexivity. Qed.
Lemma put_app t a b p : put t (a +:+ b) p = put t b (put t a p).
Proof.
  unfold put, appendContent. destruct (String.eqb_spec a "") as [->|Ha]; [done|].
  destruct (String.eqb_spec (a +:+ b) "") as [Hab|_]; [by destruct a|].
  destruct (String.eqb_spec b "") as [->|Hb]; [by rewrite string_app_nil_r|].
  destruct p, (String.eqb t "thought"), (String.eqb t "rag_query"), (String.eqb t "code");
    unfold set_buffer, more, field_map; cbn; by rewrite <- str_app_assoc.
Qed.
Lemma set_set p b b' : set_buffer (set_buffer p b) b' = set_buffer p b'.
Proof. done. Qed.
Lemma set_same p : set_buffer p (buffer p) = p.
Proof. by destruct p. Qed.
Lemma set_put_same t s p : set_buffer (put t s p) (buffer p) = put t s p.
Proof. by rewrite <- (put_buffer t s p), set_same. Qed.

Lemma matchOpenTag_spec b t n : matchOpenTag b = Some (t, n) ->
  exists r, b = open_tag t +:+ r /\ n = String.length (open_tag t) /\ In t known_tags.
Proof.
  unfold matchOpenTag. destruct (List.find _ known_tags) as [t'|] eqn:E; [|done]. intros [= <- <-].
  apply List.find_some in E as [Hin [r ->]%has_prefix_spec]. by exists r.
Qed.
Lemma matchOpenTag_app b c t n : matchOpenTag b = Some (t, n) -> matchOpenTag (b +:+ c) = Some (t, n).
Proof.
  unfold matchOpenTag, known_tags. cbn [List.find].
  destruct (has_prefix (open_tag "thought") b) eqn:E1; [by rewrite (has_prefix_app _ _ _ E1)|].
  destruct (has_prefix (open_tag "rag_query") b) eqn:E2.
  - apply has_prefix_spec in E2 as [r ->]. by intros [= <- <-].
  - destruct (has_prefix (open_tag "code") b) eqn:E3; [|done].
    apply has_prefix_spec in E3 as [r ->]. by intros [= <- <-].
Qed.

(** One round of the loop, as a function of the result of the rest. *)
Definition with_events (events : list ParseEvent) (r : TraceParser * list ParseEvent) :=
  (r.1, events ++ r.2).
Definition closed (index : nat) (p : TraceParser) : TraceParser :=
  put (tag p) (str_take index (buffer p)) p
    <| buffer := str_drop (index + String.length (close_tag (tag p))) (buffer p) |> <| tag := "" |>.
Definition closed_events (index : nat) (p : TraceParser) : list ParseEvent :=
  (appendContent (tag p) (str_take index (buffer p)) p).2 ++
  query_event (put (tag p) (str_take index (buffer p)) p).

Lemma appendContent_eta t s p : appendContent t s p = (put t s p, (appendContent t s p).2).
Proof. unfold put. by destruct (appendContent t s p). Qed.

Lemma consume_loop_round n p :
  consume_loop (S n) p =
  if String.eqb (buffer p) "" then (p, [])
  else if String.eqb (tag p) "" then
    match IndexByte (buffer p) langle with
    | None => (set_buffer (p <| finalText ::= (fun t => t +:+ buffer p) |>) "", [])
    | Some i =>
        let p := set_buffer (p <| finalText ::= (fun t => t +:+ str_take i (buffer p)) |>) (str_drop i (buffer p)) in
        match matchOpenTag (buffer p) with
        | None => (p, [])
        | Some (found, k) => consume_loop n (set_buffer (p <| tag := found |>) (str_drop k (buffer p)))
        end
    end
  else
    match Index (buffer p) (close_tag (tag p)) with
    | None =>
        if String.eqb (safeEmitPrefix (buffer p)) "" then (p, [])
        else with_events (appendContent (tag p) (safeEmitPrefix (buffer p)) p).2
               (consume_loop n (set_buffer (put (tag p) (safeEmitPrefix (buffer p)) p)
                  (str_drop (String.length (safeEmitPrefix (buffer p))) (buffer p))))
    | Some i => with_events (closed_events i p) (consume_loop n (closed i p))
    end.
Proof.
  cbn [consume_loop]. destruct (String.eqb (buffer p) ""); [done|]. destruct (String.eqb (tag p) "").
  - destruct (IndexByte (buffer p) langle) as [[|i]|]; try done. cbn [Nat.ltb Nat.leb str_take str_drop].
    assert (set_buffer (p <| finalText ::= (fun t => t +:+ "") |>) (buffer p) = p) as Hp.
    { destruct p. unfold set_buffer, more, field_map. cbn. by rewrite string_app_nil_r. }
    cbn zeta. rewrite Hp. done.
  - destruct (Index (buffer p) (close_tag (tag p))) as [i|].
    + assert ((if (0 <? i)%nat then appendContent (tag p) (str_take i (buffer p)) p else (p, [])) =
              appendContent (tag p) (str_take i (buffer p)) p) as -> by by destruct i.
      rewrite appendContent_eta. unfold closed_events, closed, with_events.
      rewrite put_buffer. destruct (consume_loop n _) as [q ev]. cbn. by rewrite app_assoc.
    + destruct (String.eqb _ ""); [done|]. rewrite appendContent_eta, put_buffer. unfold with_events.
      by destruct (consume_loop n _).
Qed.

Lemma safeEmitPrefix_split b : exists x, b = safeEmitPrefix b +:+ x /\
  ((x = "" /\ has_byte b langle = false) \/ exists y, x = String langle y /\ has_byte y langle = false).
Proof.
  unfold safeEmitPrefix. destruct (LastIndexByte b langle) as [i|] eqn:E.
  - apply LastIndexByte_some in E as (a & t & -> & <- & Ht). exists (String langle t).
    rewrite str_take_app. split; [done|]. right. by exists t.
  - exists "". rewrite string_app_nil_r. split; [done|]. left. by apply LastIndexByte_none in E.
Qed.

(** Every round that goes on has shortened the buffer. *)
Lemma closed_shorter i p : Index (buffer p) (close_tag (tag p)) = Some i ->
  (String.length (buffer (closed i p)) < String.length (buffer p))%nat.
Proof.
  intros [(a & b & Hb & <-) _]%Index_some. unfold closed. cbn [buffer field_map set_buffer more]. rewrite str_length_drop, Hb.
  rewrite !str_length_app, close_tag_cons. cbn [String.length]. lia.
Qed.
Lemma emit_shorter b : safeEmitPrefix b <> "" ->
  (String.length (str_drop (String.length (safeEmitPrefix b)) b) < String.length b)%nat.
Proof.
  intros Hs. destruct (safeEmitPrefix_split b) as (x & Hb & _). rewrite str_length_drop.
  assert (String.length b = String.length (safeEmitPrefix b) + String.length x)%nat
    by (rewrite Hb at 1; apply str_length_app).
  destruct (safeEmitPrefix b); [done|]. cbn [String.length] in *. lia.
Qed.
Lemma open_shorter b t k : matchOpenTag b = Some (t, k) -> (String.length (str_drop k b) < String.length b)%nat.
Proof.
  intros (r & -> & -> & _)%matchOpenTag_spec. rewrite str_drop_app, str_length_app, open_tag_cons. cbn [String.length]. lia.
Qed.

Lemma consume_fuel n m p :
  (String.length (buffer p) <= n)%nat -> (String.length (buffer p) <= m)%nat -> consume_loop n p = consume_loop m p.
Proof.
  revert m p. induction n as [|n IH]; intros m p Hn Hm.
  { destruct (buffer p) eqn:Hb; [|cbn in Hn; lia]. destruct m; [done|]. cbn [consume_loop]. by rewrite Hb. }
  destruct m as [|m].
  { destruct (buffer p) eqn:Hb; [|cbn in Hm; lia]. cbn [consume_loop]. by rewrite Hb. }
  rewrite !consume_loop_round. destruct (String.eqb (buffer p) ""); [done|]. destruct (String.eqb (tag p) "").
  - destruct (IndexByte (buffer p) langle) as [i|]; [|done]. cbn zeta.
    destruct (matchOpenTag _) as [[found k]|] eqn:E; [|done]. apply open_shorter in E.
    cbn [buffer field_map set_buffer more] in *. rewrite !str_length_drop in E.
    apply IH; cbn [buffer field_map set_buffer more]; rewrite !str_length_drop; lia.
  - destruct (Index _ _) as [i|] eqn:E.
    + f_equal. apply closed_shorter in E. apply IH; lia.
    + destruct (String.eqb_spec (safeEmitPrefix (buffer p)) ""); [done|]. f_equal.
      pose proof (emit_shorter _ n0). apply IH; cbn [buffer field_map set_buffer more]; lia.
Qed.

(** The rounds of the loop, one equation for each way they go. *)
Lemma run_fuel n p : (String.length (buffer p) <= n)%nat -> consume_loop n p = run p.
Proof. intros H. by apply consume_fuel. Qed.
Lemma run_empty p : buffer p = "" -> run p = (p, []).
Proof. intros Hb. unfold run. by rewrite Hb. Qed.
Lemma run_text p : tag p = "" -> has_byte (buffer p) langle = false ->
  run p = (set_buffer (p <| finalText ::= (fun t => t +:+ buffer p) |>) "", []).
Proof.
  intros Ht Hb. destruct (decide (buffer p = "")) as [He|Hne].
  { rewrite run_empty by done. destruct p. unfold set_buffer, more, field_map. cbn in *. subst. by rewrite string_app_nil_r. }
  unfold run. destruct (String.length (buffer p)) as [|fuel] eqn:Hl; [by destruct (buffer p)|].
  rewrite consume_loop_round, Ht. apply String.eqb_neq in Hne. rewrite Hne. cbn [String.eqb].
  apply IndexByte_none in Hb. by rewrite Hb.
Qed.
Lemma run_at p a b : tag p = "" -> buffer p = a +:+ String langle b -> has_byte a langle = false ->
  run p = let q := set_buffer (p <| finalText ::= (fun t => t +:+ a) |>) (String langle b) in
    match matchOpenTag (String langle b) with
    | None => (q, [])
    | Some (found, k) => run (set_buffer (q <| tag := found |>) (str_drop k (String langle b)))
    end.
Proof.
  intros Ht Hb Ha. unfold run at 1. destruct (String.length (buffer p)) as [|fuel] eqn:Hl.
  { rewrite Hb, str_length_app in Hl. cbn in Hl. lia. }
  rewrite consume_loop_round, Ht. destruct (String.eqb_spec (buffer p) "") as [He|_]; [by rewrite He in Hl|].
  cbn [String.eqb]. rewrite Hb, IndexByte_app by done. rewrite str_take_app, str_drop_app. cbn zeta.
  change (buffer (set_buffer _ (String langle b))) with (String langle b).
  destruct (matchOpenTag (String langle b)) as [[found k]|] eqn:E; [|done].
  apply open_shorter in E. apply run_fuel. cbn [buffer field_map set_buffer more].
  rewrite Hb, str_length_app in Hl. cbn [String.length] in *. lia.
Qed.
Lemma run_close p i : tag p <> "" -> Index (buffer p) (close_tag (tag p)) = Some i ->
  run p = with_events (closed_events i p) (run (closed i p)).
Proof.
  intros Ht Hi. pose proof (closed_shorter i p Hi) as Hs. unfold run at 1.
  destruct (String.length (buffer p)) as [|fuel] eqn:Hl; [lia|].
  rewrite consume_loop_round, Hi. destruct (String.eqb_spec (buffer p) "") as [He|_]; [by rewrite He in Hl|].
  apply String.eqb_neq in Ht. rewrite Ht. f_equal. apply run_fuel. lia.
Qed.
Lemma run_wait p : tag p <> "" -> Index (buffer p) (close_tag (tag p)) = None -> safeEmitPrefix (buffer p) = "" ->
  run p = (p, []).
Proof.
  intros Ht Hi Hs. unfold run. destruct (String.length (buffer p)) as [|fuel] eqn:Hl; [done|].
  rewrite consume_loop_round, Hi, Hs. apply String.eqb_neq in Ht. rewrite Ht.
  by destruct (String.eqb (buffer p) "").
Qed.
Lemma run_emit p s x : tag p <> "" -> Index (buffer p) (close_tag (tag p)) = None ->
  safeEmitPrefix (buffer p) = s -> s <> "" -> buffer p = s +:+ x ->
  run p = with_events (appendContent (tag p) s p).2 (run (set_buffer (put (tag p) s p) x)).
Proof.
  intros Ht Hi Hs Hne Hb. pose proof (emit_shorter (buffer p)) as Hsh. rewrite Hs in Hsh. specialize (Hsh Hne).
  unfold run at 1. destruct (String.length (buffer p)) as [|fuel] eqn:Hl; [lia|].
  rewrite consume_loop_round, Hi, Hs. destruct (String.eqb_spec (buffer p) "") as [He|_]; [by rewrite He in Hl|].
  apply String.eqb_neq in Ht, Hne. rewrite Ht, Hne. f_equal.
  replace (str_drop (String.length s) (buffer p)) with x in * by (rewrite Hb; symmetry; apply str_drop_app).
  apply run_fuel. cbn [buffer field_map set_buffer more]. lia.
Qed.

(** ** Chunks *)

(** The events byte by byte: where the deltas are cut is not observed. *)
Inductive parse_item : Type := ThoughtByte (c : ascii) | CodeByte (c : ascii) | QueryItem (value : string).
Definition items_of (e : ParseEvent) : list parse_item :=
  match e with
  | ParseEventThoughtDelta v => map ThoughtByte (String.list_ascii_of_string v)
  | ParseEventCodeDelta v => map CodeByte (String.list_ascii_of_string v)
  | ParseEventRAGQuery v => [QueryItem v]
  end.
Definition flat (events : list ParseEvent) : list parse_item := concat (map items_of events).
Lemma flat_app a b : flat (a ++ b) = flat a ++ flat b.
Proof. unfold flat. by rewrite map_app, concat_app. Qed.

Definition content_items (t s : string) : list parse_item :=
  if String.eqb t "thought" then map ThoughtByte (String.list_ascii_of_string s)
  else if String.eqb t "rag_query" then []
  else if String.eqb t "code" then map CodeByte (String.list_ascii_of_string s) else [].
Lemma appendContent_items t s p : flat (appendContent t s p).2 = content_items t s.
Proof.
  unfold appendContent, content_items. destruct (String.eqb_spec s "") as [->|]; cbn; repeat case_match; cbn;
    rewrite ?app_nil_r; done.
Qed.
Lemma list_ascii_app a b :
  String.list_ascii_of_string (a +:+ b) = String.list_ascii_of_string a ++ String.list_ascii_of_string b.
Proof. induction a as [|c a IH]; [done|]. rewrite str_app_cons. cbn. by rewrite IH. Qed.
Lemma content_items_app t a b : content_items t (a +:+ b) = content_items t a ++ content_items t b.
Proof. unfold content_items. repeat case_match; try done; by rewrite list_ascii_app, map_app. Qed.

(** The same parser and, byte by byte, the same events. *)
Definition agree (r r' : TraceParser * list ParseEvent) : Prop := r.1 = r'.1 /\ flat r.2 = flat r'.2.
#[export] Instance agree_equiv : Equivalence agree.
Proof.
  unfold agree. split; [done| |]; [intros ?? []|intros ??? [] []]; split; congruence.
Qed.
Lemma agree_with e e' r r' : flat e = flat e' -> agree r r' -> agree (with_events e r) (with_events e' r').
Proof. intros He [H1 H2]. unfold with_events. split; [done|]. cbn [snd]. rewrite !flat_app. by rewrite He, H2. Qed.
Lemma with_with e e' r : with_events e (with_events e' r) = with_events (e ++ e') r.
Proof. unfold with_events. cbn [fst snd]. by rewrite app_assoc. Qed.

Lemma with_fst e r : (with_events e r).1 = r.1.
Proof. done. Qed.
Lemma with_snd e r : (with_events e r).2 = e ++ r.2.
Proof. done. Qed.
Lemma with_nil r : with_events [] r = r.
Proof. by destruct r. Qed.
Lemma tag_byte t w : close_tag t = String langle w -> In t known_tags -> has_byte w langle = false.
Proof. rewrite close_tag_cons. intros [= <-] [<-|[<-|[<-|[]]]]; reflexivity. Qed.

(** Emitting a beginning of the buffer that cannot overlap the closing tag, first or together with
    what follows it, makes no difference. *)
Lemma run_emit_first p s x :
  In (tag p) known_tags -> buffer p = s +:+ x ->
  has_byte s langle = false \/ (exists y, x = String langle y) ->
  (forall j, (j < String.length s)%nat -> ~ occurs (close_tag (tag p)) s j) ->
  agree (run p) (with_events (appendContent (tag p) s p).2 (run (set_buffer (put (tag p) s p) x))).
Proof.
  intros Ht Hb Hx Hno. set (q := set_buffer (put (tag p) s p) x).
  destruct (decide (s = "")) as [->|Hs].
  { subst q. rewrite put_nil. assert (set_buffer p x = p) as ->.
    { destruct p. unfold set_buffer, more, field_map. cbn in *. by rewrite Hb. }
    cbn. by destruct (run p). }
  assert (tag p <> "") as Hne by (intros E; rewrite E in Ht; by destruct Ht as [|[|[|[]]]]).
  assert (tag q = tag p) as Htq by (subst q; apply (put_tag (tag p) s p)).
  assert (Index (buffer p) (close_tag (tag p)) = Nat.add (String.length s) <$> Index x (close_tag (tag p))) as Hi.
  { rewrite Hb. apply Index_app_r. pose proof (tag_byte (tag p) _ (close_tag_cons _) Ht) as Hw.
    rewrite close_tag_cons in *. by apply safe_no_close. }
  assert (Index (buffer q) (close_tag (tag q)) = Index x (close_tag (tag p))) as Hiq by by rewrite Htq.
  destruct (Index x (close_tag (tag p))) as [k|] eqn:Hk; cbn in Hi.
  - rewrite (run_close p _ Hne Hi), (run_close q k) by (done || by rewrite Htq). rewrite with_with.
    assert (closed (String.length s + k) p = closed k q) as ->.
    { unfold closed. rewrite Htq, Hb, str_take_app_more, <- Nat.add_assoc, str_drop_app_more, put_app.
      subst q. rewrite put_set. done. }
    apply agree_with; [|done]. unfold closed_events. rewrite !flat_app, !appendContent_items, Htq, Hb.
    rewrite str_take_app_more, content_items_app, <- app_assoc, put_app. subst q. rewrite put_set.
    unfold query_event. cbn [tag ragQuery field_map buffer set_buffer more]. done.
  - assert (safeEmitPrefix (buffer p) = s +:+ safeEmitPrefix x) as Hsp.
    { rewrite Hb. unfold safeEmitPrefix. rewrite LastIndexByte_app_r.
      destruct (LastIndexByte x langle) as [i|] eqn:Hl; [apply str_take_app_more|].
      apply LastIndexByte_none in Hl. destruct Hx as [Hx|[y ->]]; [|by cbn in Hl].
      apply LastIndexByte_none in Hx. by rewrite Hx. }
    destruct (safeEmitPrefix_split x) as (x' & Hx' & _).
    assert (s +:+ safeEmitPrefix x <> "") as Hne' by by destruct s.
    assert (buffer p = (s +:+ safeEmitPrefix x) +:+ x') as Hb' by (rewrite Hb, str_app_assoc; by f_equal).
    rewrite (run_emit p _ x' Hne Hi Hsp Hne' Hb').
    destruct (decide (safeEmitPrefix x = "")) as [He|He].
    + rewrite He in *. rewrite string_app_nil_r. assert (x = x') as <- by exact Hx'. done.
    + assert (tag q <> "") as Hneq by by rewrite Htq.
      rewrite (run_emit q (safeEmitPrefix x) x' Hneq Hiq eq_refl He Hx'), with_with.
      rewrite Htq, put_app. subst q. rewrite put_set. apply agree_with; [|done].
      by rewrite flat_app, !appendContent_items, content_items_app.
Qed.

Definition tag_ok (p : TraceParser) : Prop := tag p = "" \/ In (tag p) known_tags.
Lemma known_tag t : In t known_tags -> t <> "".
Proof. intros [<-|[<-|[<-|[]]]]; done. Qed.

Lemma run_more p c : tag_ok p ->
  tag_ok (run p).1 /\ agree (with_events (run p).2 (run (more (run p).1 c))) (run (more p c)).
Proof.
  remember (String.length (buffer p)) as n eqn:Hn. revert p Hn. induction n as [n IH] using lt_wf_ind.
  intros p -> Hok. destruct Hok as [Ht|Ht].
  - destruct (IndexByte (buffer p) langle) as [i|] eqn:Hi.
    + apply IndexByte_some in Hi as (a & b & Hb & _ & Ha).
      assert (buffer (more p c) = a +:+ String langle (b +:+ c)) as Hbc
        by (cbn [buffer field_map set_buffer more]; by rewrite Hb, str_app_assoc).
      rewrite (run_at p a b Ht Hb Ha), (run_at (more p c) a (b +:+ c) Ht Hbc Ha). cbn zeta.
      destruct (matchOpenTag (String langle b)) as [[found k]|] eqn:Hm.
      * pose proof (matchOpenTag_app _ c _ _ Hm) as Hmc. rewrite str_app_cons in Hmc. rewrite Hmc.
        pose proof (open_shorter _ _ _ Hm) as Hsh. apply matchOpenTag_spec in Hm as (r & Hr & -> & Hin).
        set (q := set_buffer (_ <| tag := found |>) (str_drop _ (String langle b))).
        destruct (IH (String.length (buffer q))) with (p := q) as [H1 H2]; [|done|by right|].
        { subst q. cbn [buffer field_map set_buffer more]. rewrite Hb, str_length_app. lia. }
        split; [done|]. rewrite H2.
        rewrite <- str_app_cons, Hr, str_app_assoc, str_drop_app. subst q. cbn [buffer field_map set_buffer more].
        rewrite Hr, str_drop_app. done.
      * split; [by left|]. cbn [fst snd]. rewrite with_nil.
        set (q := more (set_buffer _ (String langle b)) c).
        assert (buffer q = "" +:+ String langle (b +:+ c)) as Hbq by done.
        rewrite (run_at q "" (b +:+ c)) by done. cbn zeta.
        assert (set_buffer (q <| finalText ::= (fun t => t +:+ "") |>) (String langle (b +:+ c)) =
                set_buffer (more p c <| finalText ::= (fun t => t +:+ a) |>) (String langle (b +:+ c))) as ->.
        { subst q. unfold set_buffer, more, field_map. cbn. by rewrite string_app_nil_r. }
        done.
    + apply IndexByte_none in Hi. rewrite (run_text p Ht Hi). split; [by left|]. cbn [fst snd]. rewrite with_nil.
      set (q := more (set_buffer _ "") c). assert (buffer q = c) as Hq by done.
      destruct (IndexByte c langle) as [j|] eqn:Hj.
      * apply IndexByte_some in Hj as (a & b & -> & _ & Ha).
        rewrite (run_at q a b) by done.
        rewrite (run_at (more p _) (buffer p +:+ a) b); [|done| |by rewrite has_byte_app, Hi, Ha].
        2: { cbn [buffer field_map set_buffer more]. by rewrite str_app_assoc. }
        cbn zeta. assert (set_buffer (q <| finalText ::= (fun t => t +:+ a) |>) (String langle b) =
          set_buffer (more p (a +:+ String langle b) <| finalText ::= (fun t => t +:+ buffer p +:+ a) |>) (String langle b)) as ->.
        { subst q. unfold set_buffer, more, field_map. cbn. by rewrite str_app_assoc. }
        done.
      * apply IndexByte_none in Hj. rewrite (run_text q) by (done || by rewrite Hq).
        rewrite (run_text (more p c)); [|done|cbn [buffer field_map set_buffer more]; by rewrite has_byte_app, Hi, Hj].
        subst q. unfold set_buffer, more, field_map. cbn. by rewrite str_app_assoc.
  - pose proof (known_tag _ Ht) as Hne. destruct (Index (buffer p) (close_tag (tag p))) as [i|] eqn:Hi.
    + rewrite (run_close p i Hne Hi). pose proof (closed_shorter i p Hi) as Hsh.
      destruct (IH _ Hsh (closed i p) eq_refl) as [H1 H2]; [by left|]. rewrite with_fst, with_snd. split; [done|].
      assert (run (more p c) = with_events (closed_events i p) (run (more (closed i p) c))) as ->.
      { rewrite (run_close (more p c) i); [|done|by apply Index_app_l].
        apply Index_some in Hi as [(a & b & Hb & <-) _]. unfold closed, closed_events.
        cbn [buffer tag field_map set_buffer more]. rewrite Hb, !str_app_assoc, !str_take_app, !str_drop_app_more, !str_drop_app.
        rewrite put_more, (append_events _ _ (more p c) p). done. }
      rewrite <- with_with. by apply agree_with.
    + destruct (safeEmitPrefix_split (buffer p)) as (x & Hb & Hx). set (s := safeEmitPrefix (buffer p)) in *.
      assert (forall j, (j < String.length s)%nat -> ~ occurs (close_tag (tag p)) s j) as Hno.
      { intros j _ Ho. apply (Index_none _ _ Hi j). rewrite Hb. by apply occurs_app_l. }
      assert (has_byte s langle = false \/ exists y, x +:+ c = String langle y) as Hxc.
      { destruct Hx as [[-> Hx]|(y & -> & _)]; [left|right; by exists (y +:+ c)].
        rewrite Hb, has_byte_app in Hx. by apply orb_false_iff in Hx as []. }
      assert (buffer (more p c) = s +:+ (x +:+ c)) as Hbc by (cbn [buffer field_map set_buffer more]; rewrite Hb at 1; apply str_app_assoc).
      pose proof (run_emit_first (more p c) s (x +:+ c) Ht Hbc Hxc Hno) as He.
      destruct (decide (s = "")) as [Hs|Hs].
      { rewrite (run_wait p Hne Hi Hs). split; [by right|]. cbn [fst snd]. by rewrite with_nil. }
      rewrite (run_emit p s x Hne Hi eq_refl Hs Hb).
      set (q := set_buffer (put (tag p) s p) x).
      assert (tag q = tag p) as Htq by (subst q; apply (put_tag (tag p) s p)).
      assert (run q = (q, [])) as ->.
      { destruct (decide (x = "")) as [->|Hxne]; [by apply run_empty|]. apply run_wait; [by rewrite Htq|rewrite Htq|].
        - cbn [buffer field_map set_buffer more]. destruct (Index x (close_tag (tag p))) as [k|] eqn:Hk; [|done].
          apply Index_some in Hk as [Hk _]. exfalso. apply (Index_none _ _ Hi (String.length s + k)). rewrite Hb.
          by apply occurs_app_r.
        - destruct Hx as [[-> _]|(y & -> & Hy)]; [done|]. cbn [buffer field_map set_buffer more q]. unfold safeEmitPrefix.
          change (String langle y) with ("" +:+ String langle y). by rewrite LastIndexByte_app. }
      rewrite with_fst, with_snd. cbn [fst snd]. split; [right; by rewrite Htq|]. rewrite app_nil_r, He.
      apply agree_with; [by rewrite !appendContent_items|]. subst q.
      unfold put, appendContent. cbn [tag field_map set_buffer more]. by repeat case_match.
Qed.

(** ** Streams *)
(** A parser that has done what it can. *)
Definition settled_parser (p : TraceParser) : Prop := tag_ok p /\ (run p).1 = p /\ flat (run p).2 = [].
Lemma new_settled : settled_parser NewTraceParser.
Proof. split_and!; [by left|done|done]. Qed.
Lemma more_nil p : more p "" = p.
Proof. destruct p. unfold more, field_map. cbn. by rewrite string_app_nil_r. Qed.
Lemma more_more p a b : more (more p a) b = more p (a +:+ b).
Proof. destruct p. unfold more, field_map. cbn. by rewrite str_app_assoc. Qed.
Lemma run_settles p : tag_ok p -> settled_parser (run p).1.
Proof.
  intros Hp. destruct (run_more p "" Hp) as [Ht [H1 H2]]. rewrite !more_nil in *. rewrite with_fst in H1.
  rewrite with_snd, flat_app in H2. split_and!; [done|done|].
  apply (app_inv_head (flat (run p).2)). by rewrite app_nil_r.
Qed.

Lemma consume_all_run chunks p : settled_parser p ->
  agree (ConsumeAll chunks p) (run (more p (String.concat "" chunks))) /\ settled_parser (ConsumeAll chunks p).1.
Proof.
  revert p. induction chunks as [|c chunks IH]; intros p Hp.
  - cbn [String.concat ConsumeAll]. rewrite more_nil. destruct Hp as (H1 & H2 & H3).
    split; [split; cbn [fst snd]; [done|by rewrite H3]|done].
  - assert (String.concat "" (c :: chunks) = c +:+ String.concat "" chunks) as ->.
    { destruct chunks; [cbn [String.concat]; by rewrite string_app_nil_r|done]. }
    cbn [ConsumeAll]. unfold Consume. destruct (String.eqb_spec c "") as [->|Hc].
    + specialize (IH p Hp). change ("" +:+ String.concat "" chunks) with (String.concat "" chunks).
      by destruct (ConsumeAll chunks p).
    + change (p <| buffer ::= (fun b => b +:+ c) |>) with (more p c).
      change (consume_loop (String.length (buffer (more p c))) (more p c)) with (run (more p c)).
      assert (tag_ok (more p c)) as Hok by apply Hp.
      destruct (run_more (more p c) (String.concat "" chunks) Hok) as [_ Hr]. rewrite more_more in Hr.
      pose proof (run_settles _ Hok) as Hs. destruct (run (more p c)) as [q ev]. cbn [fst snd] in *.
      destruct (IH q Hs) as [Hq Hs']. rewrite <- Hr.
      destruct (ConsumeAll chunks q) as [r ev']. split; [|done].
      change (r, ev ++ ev') with (with_events ev (r, ev')). by apply agree_with.
Qed.

(** C28: How a text arrives does not matter.  After the chunks of a stream the parser is in exactly the
    state in which the whole text at once leaves it, wherever the text is cut (inside a tag, a word
    or a line), and it has reported the same thoughts, code and queries, byte by byte and in the same
    order. *)
Theorem parser_chunks chunks :
  let '(p, events) := ConsumeAll chunks NewTraceParser in
  let '(p', events') := Consume (String.concat "" chunks) NewTraceParser in
  p = p' /\ flat events = flat events'.
Proof.
  destruct (consume_all_run chunks _ new_settled) as [[H1 H2] _].
  destruct (consume_all_run [String.concat "" chunks] _ new_settled) as [[H1' H2'] _].
  cbn [String.concat ConsumeAll] in H1', H2'. destruct (ConsumeAll chunks NewTraceParser) as [p ev].
  destruct (Consume (String.concat "" chunks) NewTraceParser) as [p' ev']. cbn [fst snd] in *.
  rewrite app_nil_r in H2'. split; congruence.
Qed.

(** ** Answers of the form the prompt asks for *)
Inductive segment : Type := SegText (text : string) | SegTag (t text : string).
Definition render_segment (g : segment) : string :=
  match g with SegText text => text | SegTag t text => open_tag t +:+ text +:+ close_tag t end.
Definition render (segs : list segment) : string := String.concat "" (map render_segment segs).
(** A text holds no [<], the content of a tag does not close it. *)
Definition segment_ok (g : segment) : Prop :=
  match g with
  | SegText text => has_byte text langle = false
  | SegTag t text => In t known_tags /\ Contains text (close_tag t) = false
  end.
(** The contents of all tags [t] of an answer; the texts for the empty name. *)
Definition part (t : string) (segs : list segment) : string :=
  String.concat "" (map (fun g => match g with
    | SegText text => if String.eqb t "" then text else ""
    | SegTag t' text => if String.eqb t t' then text else "" end) segs).

Lemma str_concat_cons a l : String.concat "" (a :: l) = a +:+ String.concat "" l.
Proof. destruct l; [cbn [String.concat]; by rewrite string_app_nil_r|done]. Qed.
Lemma Contains_Index s w : Contains s w = false -> Index s w = None.
Proof.
  induction s as [|c s IH]; cbn; (destruct (has_prefix w _); [done|]); [done|]. cbn. intros H. by rewrite IH.
Qed.
Lemma matchOpenTag_open t r : In t known_tags -> matchOpenTag (open_tag t +:+ r) = Some (t, String.length (open_tag t)).
Proof. intros [<-|[<-|[<-|[]]]]; reflexivity. Qed.

Lemma put_known t s p : In t known_tags ->
  put t s p = mkTraceParser (buffer p) (tag p) (thought p +:+ if String.eqb "thought" t then s else "")
    (ragQuery p +:+ if String.eqb "rag_query" t then s else "") (code p +:+ if String.eqb "code" t then s else "")
    (finalText p).
Proof.
  destruct p. unfold put, appendContent, field_map.
  intros [<-|[<-|[<-|[]]]]; destruct (String.eqb_spec s "") as [->|]; cbn; by rewrite !string_app_nil_r.
Qed.
Lemma tag_segment_run p t text : tag p = "" -> buffer p = "" -> In t known_tags ->
  Contains text (close_tag t) = false -> (run (more p (render_segment (SegTag t text)))).1 = put t text p.
Proof.
  intros Ht Hb Hin Hc. cbn [render_segment]. set (r := text +:+ close_tag t).
  assert (buffer (more p (open_tag t +:+ r)) = "" +:+ String langle ((t +:+ ">") +:+ r)) as Hbm.
  { cbn [buffer field_map set_buffer more]. by rewrite Hb, open_tag_cons. }
  rewrite (run_at (more p (open_tag t +:+ r)) "" _ Ht Hbm eq_refl). cbn zeta.
  change (String langle ((t +:+ ">") +:+ r)) with (open_tag t +:+ r). rewrite (matchOpenTag_open t r Hin), str_drop_app.
  rewrite (put_known t text p Hin). destruct p as [b0 g th rq co ft]. cbn in Ht, Hb. subst b0 g. clear Hbm.
  set (q0 := set_buffer _ r). set (q := mkTraceParser r t th rq co ft).
  assert (q0 = q) as -> by (subst q0 q; unfold more, set_buffer, field_map; cbn; by rewrite string_app_nil_r).
  assert (Index (buffer q) (close_tag (tag q)) = Some (String.length text)) as Hi.
  { cbn [buffer tag q]. subst r. apply Index_first.
    - exists text, "". by rewrite string_app_nil_r.
    - pose proof (tag_byte t _ (close_tag_cons _) Hin) as Hw. rewrite close_tag_cons in *.
      apply safe_no_close; [done|right; eauto|]. intros j _. by apply Index_none, Contains_Index. }
  rewrite (run_close q _ (known_tag _ Hin) Hi), with_fst. unfold closed. rewrite (put_known _ _ q Hin).
  cbn [buffer tag q]. subst r. rewrite str_take_app, str_drop_app_more.
  assert (str_drop (String.length (close_tag t)) (close_tag t) = "") as ->
    by (rewrite <- (string_app_nil_r (close_tag t)) at 2; apply str_drop_app).
  by rewrite run_empty.
Qed.
Lemma text_segment_run p text : tag p = "" -> buffer p = "" -> has_byte text langle = false ->
  (run (more p text)).1 = p <| finalText ::= (fun s => s +:+ text) |>.
Proof.
  intros Ht Hb Hn. assert (buffer (more p text) = text) as Hbm by (cbn [buffer field_map set_buffer more]; by rewrite Hb).
  rewrite run_text by (done || by rewrite Hbm). rewrite Hbm. destruct p. cbn in *. by subst.
Qed.

Lemma render_run segs p : tag p = "" -> buffer p = "" -> Forall segment_ok segs ->
  (run (more p (render segs))).1 = mkTraceParser "" "" (thought p +:+ part "thought" segs)
    (ragQuery p +:+ part "rag_query" segs) (code p +:+ part "code" segs) (finalText p +:+ part "" segs).
Proof.
  revert p. induction segs as [|g segs IH]; intros p Ht Hb Hok.
  { unfold render, part. cbn [map String.concat]. rewrite more_nil, run_empty by done. destruct p. cbn in *. subst.
    by rewrite !string_app_nil_r. }
  apply Forall_cons in Hok as [Hg Hok]. unfold render, part. cbn [map]. rewrite !str_concat_cons. fold (render segs).
  rewrite <- more_more. destruct (run_more (more p (render_segment g)) (render segs)) as [_ [<- _]]; [by left|].
  rewrite with_fst. destruct g as [text|t text]; cbn [segment_ok] in Hg.
  - cbn [render_segment]. rewrite (text_segment_run p text Ht Hb Hg). etransitivity; [by apply IH|].
    unfold part, field_map. cbn [thought ragQuery code finalText]. by rewrite str_app_assoc.
  - destruct Hg as [Hin Hc]. rewrite (tag_segment_run p t text Ht Hb Hin Hc).
    rewrite IH; [|by rewrite put_tag|by rewrite put_buffer|done]. rewrite (put_known _ _ _ Hin). unfold part.
    assert (String.eqb "" t = false) as -> by (destruct Hin as [<-|[<-|[<-|[]]]]; done).
    cbn [thought ragQuery code finalText]. by rewrite !str_app_assoc.
Qed.

(** C29: An answer of the form the prompt asks for is read back.  For every sequence of plain texts
    without [<] and of thoughts, queries and code that do not contain their own closing tags, however
    the answer is cut into chunks, the result holds the trimmed thoughts, queries, code and texts of the
    answer, each in order. *)
Theorem parser_reads_back segs chunks :
  Forall segment_ok segs -> String.concat "" chunks = render segs ->
  ParserResult (ConsumeAll chunks NewTraceParser).1 =
    Some (mkReasoningResponse (TrimSpace (part "thought" segs)) (TrimSpace (part "rag_query" segs))
            (TrimSpace (part "code" segs)) (TrimSpace (part "" segs))).
Proof.
  intros Hok Hc. destruct (consume_all_run chunks _ new_settled) as [[-> _] _]. rewrite Hc.
  by rewrite (render_run segs NewTraceParser eq_refl eq_refl Hok).
Qed.

(** A stray [<] ends the answer.  When the first [<] of a text opens no tag, whatever follows it is
    dropped: the answer is what stands before it, and thoughts, queries and code that come later
    are not seen. *)
Theorem stray_bracket_truncates a b :
  has_byte a langle = false -> matchOpenTag (String langle b) = None ->
  ParserResult (Consume (a +:+ String langle b) NewTraceParser).1 = Some (mkReasoningResponse "" "" "" (TrimSpace a)).
Proof.
  intros Ha Hm. destruct (consume_all_run [a +:+ String langle b] _ new_settled) as [[H _] _].
  cbn [ConsumeAll String.concat] in H. destruct (Consume _ NewTraceParser) as [p ev]. cbn [fst] in *. subst p.
  rewrite (run_at _ a b) by done. cbn zeta. by rewrite Hm.
Qed.

(** ** Examples *)
Definition sample_answer : list segment :=
  [SegText "Here: "; SegTag "thought" "if a < b"; SegTag "rag_query" "order of maps"; SegText " done "; SegTag "code" "x <- y"].
Lemma sample_answer_ok : Forall segment_ok sample_answer.
Proof. repeat constructor; vm_compute; tauto. Qed.
Definition sample_chunks : list string :=
  ["Here: <tho"; "ught>if a "; "< b</"; "thought><rag_query>order of maps</rag_query"; "> done <code>x <"; "- y</code>"].

Lemma parser_reads_back_witness :
  String.concat "" sample_chunks = render sample_answer /\
  ParserResult (ConsumeAll sample_chunks NewTraceParser).1 =
    Some (mkReasoningResponse (TrimSpace (part "thought" sample_answer)) (TrimSpace (part "rag_query" sample_answer))
            (TrimSpace (part "code" sample_answer)) (TrimSpace (part "" sample_answer))).
Proof.
  assert (String.concat "" sample_chunks = render sample_answer) as H by (vm_compute; reflexivity).
  split; [exact H|]. exact (parser_reads_back sample_answer sample_chunks sample_answer_ok H).
Defined.

Lemma stray_bracket_truncates_witness :
  ParserResult (Consume ("Use a slice of length n, " +:+ String langle " 10, and <code>make([]int, n)</code>.") NewTraceParser).1 =
    Some (mkReasoningResponse "" "" "" (TrimSpace "Use a slice of length n, ")).
Proof. apply stray_bracket_truncates; vm_compute; reflexivity. Defined.
