(* ===== verification/LiveRealtime.v ===== *)
(** * Live realtime metrics (kernel/realtime_metrics_live.go)

    What streaming sessions report while they run, summed per provider and model: session and
    event counters, latency histograms and the summary the router scores models by.  Every
    operation holds the collector's lock.  The counters grow by one per event and are unbounded
    here; the sum of latencies keeps its 64 bits. *)
From S2P Require Import Prelude GoLib GoJSON Domain.
From Stdlib Require Import PrimFloat.

(** ** Histograms *)
Definition liveRealtimeHistogramBoundsMS : list Z :=
  [10; 25; 50; 100; 250; 500; 1000; 2500; 5000; 10000].

Record RealtimeHistogramBucket : Type := mkRealtimeHistogramBucket { Le : Z; BucketCount : Z }.
Record LiveRealtimeHistogramSnapshot : Type := mkLiveRealtimeHistogramSnapshot {
  SnapCount : Z;
  SnapSum : Z;
  Buckets : list RealtimeHistogramBucket }.

Record liveRealtimeHistogram : Type := mkHistogram {
  Bounds : list Z;
  Counts : list Z;
  HistSum : Z;
  HistCount : Z }.

Definition newLiveRealtimeHistogram : liveRealtimeHistogram :=
  mkHistogram liveRealtimeHistogramBoundsMS (map (fun _ => 0) liveRealtimeHistogramBoundsMS) 0 0.

Definition Observe (value : Z) (h : liveRealtimeHistogram) : liveRealtimeHistogram :=
  if value <? 0 then h
  else mkHistogram (Bounds h)
         (zip_with (fun bound count => if value <=? bound then count + 1 else count) (Bounds h) (Counts h))
         (Int.add (HistSum h) value) (HistCount h + 1).

Definition HistogramSnapshot (h : liveRealtimeHistogram) : LiveRealtimeHistogramSnapshot :=
  mkLiveRealtimeHistogramSnapshot (HistCount h) (HistSum h)
    (zip_with mkRealtimeHistogramBucket (Bounds h) (Counts h)).

(** Integer division truncates. *)
Definition liveHistogramAverage (snapshot : LiveRealtimeHistogramSnapshot) : Z :=
  if SnapCount snapshot <=? 0 then 0 else Z.quot (SnapSum snapshot) (SnapCount snapshot).

Definition liveFailureRate (started failed : Z) : float :=
  if (started <=? 0) || (failed <=? 0) then 0%float
  else
    let rate := (float_of_int failed / float_of_int started)%float in
    (if rate <? 0 then 0 else if 1 <? rate then 1 else rate)%float.

(** ** Transport of a session *)
Section Metadata.
(** [fmt.Sprint], for metadata values that are not strings. *)
Context (fmt_Sprint : any -> string).

Definition liveMetadataString (metadata : anymap) (key : string) : string :=
  match aget metadata key with
  | None | Some ANil => ""
  | Some (AString s) => s
  | Some typed => TrimSpace (fmt_Sprint typed)
  end.
Definition liveMetadataBool (metadata : anymap) (key : string) : bool :=
  match aget metadata key with
  | Some (ABool b) => b
  | Some (AString s) =>
      let s := ToLower (TrimSpace s) in
      existsb (String.eqb s) ["1"; "true"; "yes"; "on"]
  | _ => false
  end.
Definition liveTransportMode (delta : AgentDelta) : RuntimeTransportMode :=
  let metadata := DeltaMetadata delta in
  let raw := TrimSpace (ToLower (liveMetadataString metadata "transport")) in
  if negb (String.eqb raw "") then
    if String.eqb raw "native_stream" then RuntimeTransportNativeStream
    else if String.eqb raw "pseudo_realtime" then RuntimeTransportPseudoRealtime
    else RuntimeTransportBuffered
  else if liveMetadataBool metadata "native_streaming" then RuntimeTransportNativeStream
  else if liveMetadataBool metadata "pseudo_realtime" then RuntimeTransportPseudoRealtime
  else RuntimeTransportBuffered.
End Metadata.

(** ** Metrics of a model and of a session *)
Record liveRealtimeModelMetrics : Type := mkModelMetrics {
  MProvider : string;
  MModelName : string;
  ActiveSessions : Z;
  SessionsStarted : Z;
  SessionsCompleted : Z;
  SessionsFailed : Z;
  NativeStreamSessions : Z;
  PseudoRealtimeSessions : Z;
  BufferedSessions : Z;
  TokensStreamedTotal : Z;
  ToolsStartedTotal : Z;
  ToolsFinishedTotal : Z;
  PatchesPreviewedTotal : Z;
  PatchesAppliedTotal : Z;
  TestsStartedTotal : Z;
  TestsFinishedTotal : Z;
  TimeToFirstTokenMS : liveRealtimeHistogram;
  TimeToFirstToolMS : liveRealtimeHistogram;
  TimeToFirstPatchMS : liveRealtimeHistogram;
  TimeToFirstResultMS : liveRealtimeHistogram;
  TimeToFirstTestMS : liveRealtimeHistogram;
  TotalCompletionMS : liveRealtimeHistogram }.
#[export] Instance eta_ModelMetrics : Updatable liveRealtimeModelMetrics := fun m =>
  mkModelMetrics (MProvider m) (MModelName m) (ActiveSessions m) (SessionsStarted m)
    (SessionsCompleted m) (SessionsFailed m) (NativeStreamSessions m) (PseudoRealtimeSessions m)
    (BufferedSessions m) (TokensStreamedTotal m) (ToolsStartedTotal m) (ToolsFinishedTotal m)
    (PatchesPreviewedTotal m) (PatchesAppliedTotal m) (TestsStartedTotal m) (TestsFinishedTotal m)
    (TimeToFirstTokenMS m) (TimeToFirstToolMS m) (TimeToFirstPatchMS m) (TimeToFirstResultMS m)
    (TimeToFirstTestMS m) (TotalCompletionMS m).

Definition newLiveRealtimeModelMetrics (provider modelName : string) : liveRealtimeModelMetrics :=
  let h := newLiveRealtimeHistogram in
  mkModelMetrics provider modelName 0 0 0 0 0 0 0 0 0 0 0 0 0 0 h h h h h h.

Record LiveRealtimeModelMetricsSnapshot : Type := mkModelMetricsSnapshot {
  SnapMetrics : liveRealtimeModelMetrics;
  FailureRate : float;
  AvgTimeToFirstTokenMS : Z;
  AvgTotalCompletionMS : Z;
  SnapTimeToFirstTokenMS : LiveRealtimeHistogramSnapshot;
  SnapTimeToFirstToolMS : LiveRealtimeHistogramSnapshot;
  SnapTimeToFirstPatchMS : LiveRealtimeHistogramSnapshot;
  SnapTimeToFirstResultMS : LiveRealtimeHistogramSnapshot;
  SnapTimeToFirstTestMS : LiveRealtimeHistogramSnapshot;
  SnapTotalCompletionMS : LiveRealtimeHistogramSnapshot }.

(** The snapshot copies the names and counters, here as the metrics they are read from. *)
Definition ModelMetricsSnapshot (m : liveRealtimeModelMetrics) : LiveRealtimeModelMetricsSnapshot :=
  let ttft := HistogramSnapshot (TimeToFirstTokenMS m) in
  let totalCompletion := HistogramSnapshot (TotalCompletionMS m) in
  mkModelMetricsSnapshot m (liveFailureRate (SessionsStarted m) (SessionsFailed m))
    (liveHistogramAverage ttft) (liveHistogramAverage totalCompletion) ttft
    (HistogramSnapshot (TimeToFirstToolMS m)) (HistogramSnapshot (TimeToFirstPatchMS m))
    (HistogramSnapshot (TimeToFirstResultMS m)) (HistogramSnapshot (TimeToFirstTestMS m))
    totalCompletion.

Record LiveRealtimeModelSummary : Type := mkModelSummary {
  SumProvider : string;
  SumModelName : string;
  SumFailureRate : float;
  SumNativeStreamSessions : Z;
  SumPseudoRealtimeSessions : Z;
  SumBufferedSessions : Z;
  SumAvgTimeToFirstTokenMS : Z;
  SumAvgTotalCompletionMS : Z }.

Record liveRealtimeSession : Type := mkSession {
  LsSessionID : string;
  LsProvider : string;
  LsModelName : string;
  LsStartedAt : Time;
  Active : bool;
  Completed : bool;
  HasToken : bool;
  HasTool : bool;
  HasPatch : bool;
  HasResult : bool;
  HasTest : bool;
  LsTransportMode : RuntimeTransportMode;
  TransportCounted : bool }.
#[export] Instance eta_Session : Updatable liveRealtimeSession := fun s =>
  mkSession (LsSessionID s) (LsProvider s) (LsModelName s) (LsStartedAt s) (Active s) (Completed s)
    (HasToken s) (HasTool s) (HasPatch s) (HasResult s) (HasTest s) (LsTransportMode s)
    (TransportCounted s).
Definition new_session (id provider modelName : string) (startedAt : Time) (active : bool) : liveRealtimeSession :=
  mkSession id provider modelName startedAt active false false false false false false
    (RuntimeTransportOther "") false.

Record Collector : Type := mkCollector {
  sessions : gmap string liveRealtimeSession;
  models : gmap string liveRealtimeModelMetrics }.
#[export] Instance eta_Collector : Updatable Collector := fun c => mkCollector (sessions c) (models c).

Definition NewLiveRealtimeMetricsCollector : Collector := mkCollector ∅ ∅.

Definition liveRealtimeModelKey (provider modelName : string) : string :=
  ToLower (TrimSpace provider) +:+ "::" +:+ TrimSpace modelName.

(** The metrics [ensureModel] returns, and what it writes through the returned pointer. *)
Definition ensureModel (provider modelName : string) (c : Collector) : liveRealtimeModelMetrics :=
  default (newLiveRealtimeModelMetrics provider modelName) (models c !! liveRealtimeModelKey provider modelName).
Definition with_model (provider modelName : string)
  (f : liveRealtimeModelMetrics -> liveRealtimeModelMetrics) (c : Collector) : Collector :=
  c <| models ::= <[liveRealtimeModelKey provider modelName := f (ensureModel provider modelName c)]> |>.
Definition put_session (id : string) (s : liveRealtimeSession) (c : Collector) : Collector :=
  c <| sessions ::= <[id := s]> |>.

(** [model.ActiveSessions++; model.SessionsStarted++] *)
Definition session_begins (m : liveRealtimeModelMetrics) : liveRealtimeModelMetrics :=
  m <| ActiveSessions ::= Z.succ |> <| SessionsStarted ::= Z.succ |>.
Definition drop_active (m : liveRealtimeModelMetrics) : liveRealtimeModelMetrics :=
  if 0 <? ActiveSessions m then m <| ActiveSessions ::= Z.pred |> else m.
Definition drop_started (m : liveRealtimeModelMetrics) : liveRealtimeModelMetrics :=
  if 0 <? SessionsStarted m then m <| SessionsStarted ::= Z.pred |> else m.

Definition is_blank (s : string) : bool := String.eqb (TrimSpace s) "".
Definition has_output (s : liveRealtimeSession) : bool :=
  HasToken s || HasTool s || HasPatch s || HasResult s || HasTest s.

Definition ObserveSession (sessionID provider modelName : string) (startedAt : Time) (c : Collector) : Collector :=
  if is_blank sessionID || is_blank provider || is_blank modelName then c
  else
    let newSession := match sessions c !! sessionID with None => true | Some _ => false end in
    let session := default (new_session sessionID "" "" startedAt true) (sessions c !! sessionID) in
    let session := if IsZero (LsStartedAt session) then session <| LsStartedAt := startedAt |> else session in
    let session := if negb (Active session) && negb (Completed session)
                   then session <| Active := true |> else session in
    let providerChanged := negb (String.eqb (LsProvider session) "") && negb (String.eqb (LsProvider session) provider) in
    let modelChanged := negb (String.eqb (LsModelName session) "") && negb (String.eqb (LsModelName session) modelName) in
    let c := put_session sessionID session c in
    let c :=
      if providerChanged || modelChanged then
        let c := with_model (LsProvider session) (LsModelName session) drop_active c in
        if negb (has_output session)
        then with_model (LsProvider session) (LsModelName session) drop_started c else c
      else c in
    if String.eqb (LsProvider session) provider && String.eqb (LsModelName session) modelName then
      if newSession then with_model provider modelName session_begins c else c
    else
      let session := session <| LsProvider := provider |> <| LsModelName := modelName |> in
      let c := put_session sessionID session c in
      if negb newSession && negb providerChanged && negb modelChanged && Active session
      then with_model provider modelName (fun m => m) c
      else with_model provider modelName session_begins c.

(** ** Deltas *)
Definition transport_step (mode : RuntimeTransportMode) (p : liveRealtimeSession * liveRealtimeModelMetrics)
  : liveRealtimeSession * liveRealtimeModelMetrics :=
  let '(session, model) := p in
  if TransportCounted session then (session, model)
  else
    (session <| LsTransportMode := mode |> <| TransportCounted := true |>,
     match mode with
     | RuntimeTransportNativeStream => model <| NativeStreamSessions ::= Z.succ |>
     | RuntimeTransportPseudoRealtime => model <| PseudoRealtimeSessions ::= Z.succ |>
     | _ => model <| BufferedSessions ::= Z.succ |>
     end).

Definition milliseconds (d : Z) : Z := Z.quot d millisecond.
Definition latencyMS (session : liveRealtimeSession) (at_ : Time) : Z :=
  if IsZero (LsStartedAt session) || IsZero at_ then 0
  else milliseconds (time_sub at_ (LsStartedAt session)).

Definition kind_step (kind : AgentDeltaKind) (at_ : Time) (p : liveRealtimeSession * liveRealtimeModelMetrics)
  : liveRealtimeSession * liveRealtimeModelMetrics :=
  let '(session, model) := p in
  let seen := latencyMS session at_ in
  match kind with
  | AgentDeltaToken =>
      let model := model <| TokensStreamedTotal ::= Z.succ |> in
      if HasToken session then (session, model)
      else (session <| HasToken := true |>, model <| TimeToFirstTokenMS ::= Observe seen |>)
  | AgentDeltaToolStarted =>
      let model := model <| ToolsStartedTotal ::= Z.succ |> in
      if HasTool session then (session, model)
      else (session <| HasTool := true |>, model <| TimeToFirstToolMS ::= Observe seen |>)
  | AgentDeltaToolFinished => (session, model <| ToolsFinishedTotal ::= Z.succ |>)
  | AgentDeltaPatchPreview =>
      let model := model <| PatchesPreviewedTotal ::= Z.succ |> in
      if HasPatch session then (session, model)
      else (session <| HasPatch := true |>, model <| TimeToFirstPatchMS ::= Observe seen |>)
  | AgentDeltaPatchApplyFinish => (session, model <| PatchesAppliedTotal ::= Z.succ |>)
  | AgentDeltaPartialResult | AgentDeltaFinalResult =>
      if HasResult session then (session, model)
      else (session <| HasResult := true |>, model <| TimeToFirstResultMS ::= Observe seen |>)
  | AgentDeltaTestStarted =>
      let model := model <| TestsStartedTotal ::= Z.succ |> in
      if HasTest session then (session, model)
      else (session <| HasTest := true |>, model <| TimeToFirstTestMS ::= Observe seen |>)
  | AgentDeltaTestFinished => (session, model <| TestsFinishedTotal ::= Z.succ |>)
  | _ => (session, model)
  end.

(** The session of the delta, created or named if need be. *)
Definition delta_session (delta : AgentDelta) (c : Collector) : liveRealtimeSession * Collector :=
  let '(session, c) :=
    match sessions c !! DeltaSessionID delta with
    | Some session => (session, c)
    | None =>
        (new_session (DeltaSessionID delta) (DeltaProvider delta) (DeltaModelName delta) (Timestamp delta) true,
         with_model (DeltaProvider delta) (DeltaModelName delta) session_begins c)
    end in
  if String.eqb (LsProvider session) "" || String.eqb (LsModelName session) "" then
    (session <| LsProvider := DeltaProvider delta |> <| LsModelName := DeltaModelName delta |>,
     with_model (DeltaProvider delta) (DeltaModelName delta) session_begins c)
  else (session, c).

Definition ObserveDelta (fmt_Sprint : any -> string) (delta : AgentDelta) (c : Collector) : Collector :=
  if is_blank (DeltaSessionID delta) || is_blank (DeltaProvider delta) || is_blank (DeltaModelName delta) then c
  else
    let '(session, c) := delta_session delta c in
    let model := ensureModel (LsProvider session) (LsModelName session) c in
    let '(session, model) := transport_step (liveTransportMode fmt_Sprint delta) (session, model) in
    let session := if IsZero (LsStartedAt session) then session <| LsStartedAt := Timestamp delta |> else session in
    let '(session, model) := kind_step (DeltaKind delta) (Timestamp delta) (session, model) in
    put_session (DeltaSessionID delta) session
      (with_model (LsProvider session) (LsModelName session) (fun _ => model) c).

(** ** Completion *)
Definition CompleteSession (sessionID provider modelName : string) (finishedAt : Time) (failed : bool)
  (c : Collector) : Collector :=
  if is_blank sessionID then c
  else
    let session := default (new_session sessionID provider modelName finishedAt false) (sessions c !! sessionID) in
    let session := if String.eqb (LsProvider session) "" then session <| LsProvider := provider |> else session in
    let session := if String.eqb (LsModelName session) "" then session <| LsModelName := modelName |> else session in
    if is_blank (LsProvider session) || is_blank (LsModelName session) then put_session sessionID session c
    else
      let c := with_model (LsProvider session) (LsModelName session)
                 (if Active session then drop_active else fun m => m) c in
      let session := session <| Active := false |> in
      if Completed session then put_session sessionID session c
      else
        let session := session <| Completed := true |> in
        put_session sessionID session
          (with_model (LsProvider session) (LsModelName session) (fun model =>
             let model := model <| SessionsCompleted ::= Z.succ |> in
             let model := if failed then model <| SessionsFailed ::= Z.succ |> else model in
             if negb (IsZero (LsStartedAt session)) && negb (IsZero finishedAt)
             then model <| TotalCompletionMS ::= Observe (milliseconds (time_sub finishedAt (LsStartedAt session))) |>
             else model) c).

(** ** Snapshots *)
Record LiveRealtimeMetricsSnapshot : Type := mkMetricsSnapshot {
  SnapActiveSessions : Z;
  TrackedSessions : Z;
  SnapModels : list LiveRealtimeModelMetricsSnapshot }.

Definition snapshot_less (a b : LiveRealtimeModelMetricsSnapshot) : bool :=
  let a := SnapMetrics a in
  let b := SnapMetrics b in
  if String.eqb (MProvider a) (MProvider b) then String.ltb (MModelName a) (MModelName b)
  else String.ltb (MProvider a) (MProvider b).

Definition CollectorSnapshot (c : Collector) : LiveRealtimeMetricsSnapshot :=
  let metrics := map snd (map_to_list (models c)) in
  mkMetricsSnapshot (foldl (fun active m => active + ActiveSessions m) 0 metrics)
    (Z.of_nat (size (sessions c))) (sort_slice snapshot_less (map ModelMetricsSnapshot metrics)).

Definition ModelSummary (provider model : string) (c : Collector) : option LiveRealtimeModelSummary :=
  match models c !! liveRealtimeModelKey provider model with
  | None => None
  | Some metrics =>
      let snapshot := ModelMetricsSnapshot metrics in
      Some (mkModelSummary (MProvider metrics) (MModelName metrics) (FailureRate snapshot)
              (NativeStreamSessions metrics) (PseudoRealtimeSessions metrics) (BufferedSessions metrics)
              (AvgTimeToFirstTokenMS snapshot) (AvgTotalCompletionMS snapshot))
  end.
