(* ===== verification/LiveRealtimeProps.v ===== *)
(** * Properties of the live realtime metrics

    The histograms equal what one computes from the observed values at once; the session counters
    of a model count sessions, which may move between models while they run, and a finished session that
    is reported under another model is counted as active for ever. *)
From S2P Require Import Prelude GoLib GoJSON Domain LiveRealtime.
From Stdlib Require Import PrimFloat Sorted.

(** ** Histograms *)
Definition observe_all (vs : list Z) : liveRealtimeHistogram :=
  foldl (fun h v => Observe v h) newLiveRealtimeHistogram vs.
Definition recorded (vs : list Z) : list Z := List.filter (fun v => 0 <=? v) vs.
Definition total (vs : list Z) : Z := foldr Z.add 0 vs.
Definition at_most (b : Z) (vs : list Z) : list Z := List.filter (fun v => v <=? b) vs.

Lemma observe_all_app vs v : observe_all (vs ++ [v]) = Observe v (observe_all vs).
Proof. unfold observe_all. by rewrite foldl_app. Qed.
Lemma filter_snoc {A} (f : A -> bool) l x : List.filter f (l ++ [x]) = List.filter f l ++ (if f x then [x] else []).
Proof. by rewrite List.filter_app. Qed.
Lemma total_snoc l v : total (l ++ [v]) = total l + v.
Proof. unfold total. induction l as [|x l IH]; cbn in *; lia. Qed.
Lemma len_snoc {A} (l : list A) x : len (l ++ [x]) = len l + 1.
Proof. unfold len. rewrite length_app. cbn. lia. Qed.

Lemma observe_all_spec vs : observe_all vs =
  mkHistogram liveRealtimeHistogramBoundsMS
    (map (fun b => len (at_most b (recorded vs))) liveRealtimeHistogramBoundsMS)
    (Int.wrap (total (recorded vs))) (len (recorded vs)).
Proof.
  induction vs as [|v vs IH] using rev_ind; [vm_compute; reflexivity|].
  rewrite observe_all_app, IH. unfold Observe, recorded. rewrite filter_snoc. fold (recorded vs).
  rewrite Z.ltb_antisym. destruct (0 <=? v) eqn:Hv; cbn [negb]; [|by rewrite app_nil_r].
  cbn [Bounds Counts HistSum HistCount]. rewrite Int.add_wrap_l, total_snoc, len_snoc. f_equal.
  assert (forall bs, zip_with (fun bound count => if v <=? bound then count + 1 else count) bs
    (map (fun b => len (at_most b (recorded vs))) bs) = map (fun b => len (at_most b (recorded vs ++ [v]))) bs) as H; [|apply H].
  induction bs as [|b bs IHb]; [done|]. cbn. rewrite IHb. f_equal. unfold at_most. rewrite filter_snoc.
  destruct (v <=? b); [by rewrite len_snoc|by rewrite app_nil_r].
Qed.

Lemma at_most_le b b' l : b <= b' -> len (at_most b l) <= len (at_most b' l).
Proof.
  intros Hb. unfold len, at_most. induction l as [|x l IH]; cbn; [lia|].
  destruct (Z.leb_spec x b), (Z.leb_spec x b'); cbn; lia.
Qed.
Lemma at_most_len b l : len (at_most b l) <= len l.
Proof. unfold len, at_most. induction l as [|x l IH]; cbn; [lia|]. destruct (x <=? b); cbn; lia. Qed.
Lemma recorded_total vs : 0 <= total (recorded vs).
Proof.
  unfold recorded, total. induction vs as [|v vs IH]; cbn; [lia|]. destruct (Z.leb_spec 0 v); cbn; lia.
Qed.

Lemma bounds_sorted i j b b' : (i <= j)%nat -> liveRealtimeHistogramBoundsMS !! i = Some b ->
  liveRealtimeHistogramBoundsMS !! j = Some b' -> b <= b'.
Proof.
  assert (forall l, StronglySorted Z.le l -> forall i j b b', (i <= j)%nat -> l !! i = Some b -> l !! j = Some b' -> b <= b') as H.
  { clear. induction 1 as [|x l Hl IH Hx]; intros i j b b' Hij Hi Hj; [done|].
    destruct i as [|i], j as [|j]; cbn in *; simplify_eq; [lia| |lia|by eapply IH; [|exact Hi|exact Hj]; lia].
    eapply (proj1 (Forall_forall _ _) Hx). by eapply list_elem_of_lookup_2. }
  apply H. unfold liveRealtimeHistogramBoundsMS. repeat constructor; lia.
Qed.

(** A latency histogram equals the one computed from all observed values at once: negative
    values are ignored, bucket [le] counts the values up to [le] (so the buckets are cumulative and
    none exceeds the count), and as long as the sum fits 64 bits the reported average is the mean
    rounded down. *)
Theorem histogram_exact vs :
  let h := HistogramSnapshot (observe_all vs) in
  SnapCount h = len (recorded vs) /\
  Buckets h = map (fun b => mkRealtimeHistogramBucket b (len (at_most b (recorded vs)))) liveRealtimeHistogramBoundsMS /\
  (forall i b, Buckets h !! i = Some b -> BucketCount b <= SnapCount h /\
     forall j b', (i <= j)%nat -> Buckets h !! j = Some b' -> BucketCount b <= BucketCount b') /\
  (total (recorded vs) <= Int.max -> liveHistogramAverage h = total (recorded vs) / Z.max 1 (len (recorded vs))).
Proof.
  rewrite observe_all_spec. unfold HistogramSnapshot. cbn [Bounds Counts HistSum HistCount SnapCount Buckets].
  set (l := recorded vs).
  assert (forall bs, zip_with mkRealtimeHistogramBucket bs (map (fun b => len (at_most b l)) bs) =
    map (fun b => mkRealtimeHistogramBucket b (len (at_most b l))) bs) as Hz
    by (induction bs as [|b bs IH]; cbn; congruence).
  rewrite Hz. split_and!; [done|done| |].
  - intros i b Hi. apply list_lookup_fmap_Some in Hi as (x & -> & Hx). cbn [BucketCount]. split; [apply at_most_len|].
    intros j b' Hij Hj. apply list_lookup_fmap_Some in Hj as (y & -> & Hy). cbn [BucketCount].
    apply at_most_le. by eapply bounds_sorted.
  - intros Hs. unfold liveHistogramAverage. cbn. pose proof (recorded_total vs) as Hp. fold l in Hp.
    rewrite Int.wrap_id by (unfold Int.in_range, Int.min, Int.max in *; lia).
    destruct (Z.leb_spec (len l) 0) as [Hl|Hl].
    + assert (l = []) as -> by (unfold len in Hl; destruct l; [done|cbn in Hl; lia]). done.
    + rewrite Z.max_r by lia. by rewrite Z.quot_div_nonneg by lia.
Qed.

Lemma histogram_exact_witness :
  liveHistogramAverage (HistogramSnapshot (observe_all [5; -3; 30; 700])) = 245.
Proof.
  destruct (histogram_exact [5; -3; 30; 700]) as (_ & _ & _ & H).
  rewrite H by (vm_compute; discriminate). vm_compute. reflexivity.
Defined.

(** ** Counting sessions *)
Definition cnt (P : string * liveRealtimeSession -> bool) (ss : gmap string liveRealtimeSession) : nat :=
  list_sum_with (fun kv => if P kv then 1 else 0)%nat (map_to_list ss).

Lemma cnt_insert P id s ss :
  (cnt P (<[id := s]> ss) + from_option (fun s0 => if P (id, s0) then 1 else 0) 0 (ss !! id) =
   (if P (id, s) then 1 else 0) + cnt P ss)%nat.
Proof.
  assert (forall ss s, ss !! id = None -> cnt P (<[id := s]> ss) = ((if P (id, s) then 1 else 0) + cnt P ss)%nat) as H.
  { intros ss' s' Hn. unfold cnt. by rewrite (list_sum_with_perm _ _ _ (map_to_list_insert ss' id s' Hn)). }
  destruct (ss !! id) as [s0|] eqn:Hs; cbn; [|rewrite H by done; lia].
  rewrite <- (insert_delete_id ss id s0 Hs) at 2. rewrite <- insert_delete_eq.
  rewrite !H by apply lookup_delete_eq. lia.
Qed.

Lemma cnt_pos P id s ss : ss !! id = Some s -> P (id, s) = true -> 0 < Z.of_nat (cnt P ss).
Proof.
  intros Hs HP. unfold cnt. assert ((id, s) ∈ map_to_list ss) as Hin by by apply elem_of_map_to_list.
  induction Hin as [l|x y l Hin IH]; cbn; [rewrite HP; lia|]. specialize (IH HP). lia.
Qed.

(** A counter of the model filed under [k], 0 when there is none. *)
Definition field (F : liveRealtimeModelMetrics -> Z) (k : string) (c : Collector) : Z :=
  from_option F 0 (models c !! k).

Lemma field_with_model F k p m f c :
  field F k (with_model p m f c) =
  if decide (k = liveRealtimeModelKey p m) then F (f (ensureModel p m c)) else field F k c.
Proof.
  unfold field, with_model. cbn. case_decide as Hk.
  - subst. by rewrite lookup_insert_eq.
  - by rewrite lookup_insert_ne by congruence.
Qed.
Lemma field_ensure F p m c : F (newLiveRealtimeModelMetrics p m) = 0 ->
  F (ensureModel p m c) = field F (liveRealtimeModelKey p m) c.
Proof. unfold field, ensureModel. destruct (models c !! _); done. Qed.

(** ** Event streams *)
Inductive live_event : Type :=
  | EvSession (id provider modelName : string) (startedAt : Time)
  | EvDelta (delta : AgentDelta)
  | EvComplete (id provider modelName : string) (finishedAt : Time) (failed : bool).

Section Stream.
Context (fmt_Sprint : any -> string).

Definition live_apply (c : Collector) (e : live_event) : Collector :=
  match e with
  | EvSession id p m t => ObserveSession id p m t c
  | EvDelta d => ObserveDelta fmt_Sprint d c
  | EvComplete id p m t failed => CompleteSession id p m t failed c
  end.
Definition live_run (es : list live_event) : Collector := foldl live_apply NewLiveRealtimeMetricsCollector es.

(** The streams whose sessions are accounted for: a session that has completed is not started again
    under another provider or model, and the completion of a session never seen before names its
    provider and model.  A running session may move from model to model. *)
Definition orderly_event (c : Collector) (e : live_event) : Prop :=
  match e with
  | EvSession id p m _ => forall s, sessions c !! id = Some s -> Completed s = true ->
      p = LsProvider s /\ m = LsModelName s
  | EvDelta _ => True
  | EvComplete id p m _ _ => sessions c !! id = None -> is_blank p = false /\ is_blank m = false
  end.
Fixpoint orderly (c : Collector) (es : list live_event) : Prop :=
  match es with
  | [] => True
  | e :: es => orderly_event c e /\ orderly (live_apply c e) es
  end.

(** The model a session is filed under. *)
Definition session_key (s : liveRealtimeSession) : string :=
  liveRealtimeModelKey (LsProvider s) (LsModelName s).
Definition under (f : liveRealtimeSession -> bool) (k : string) (s : liveRealtimeSession) : bool :=
  f s && bool_decide (session_key s = k).
Definition active_under (k : string) (kv : string * liveRealtimeSession) : bool := under Active k kv.2.
Definition completed_under (k : string) (kv : string * liveRealtimeSession) : bool := under Completed k kv.2.

Definition session_ok (s : liveRealtimeSession) : Prop :=
  is_blank (LsProvider s) = false /\ is_blank (LsModelName s) = false /\ Completed s = negb (Active s).

Record counted (c : Collector) : Prop := mkCounted {
  ct_session : forall id s, sessions c !! id = Some s -> session_ok s;
  ct_active : forall k, field ActiveSessions k c = Z.of_nat (cnt (active_under k) (sessions c));
  ct_completed : forall k, field SessionsCompleted k c = Z.of_nat (cnt (completed_under k) (sessions c));
  ct_failed : forall k, 0 <= field SessionsFailed k c <= field SessionsCompleted k c }.

Definition b2z (b : bool) : Z := if b then 1 else 0.
Definition old_under (f : liveRealtimeSession -> bool) (k id : string) (c : Collector) : Z :=
  from_option (fun s => b2z (under f k s)) 0 (sessions c !! id).

Lemma cnt_under f k id s c :
  Z.of_nat (cnt (fun kv => under f k kv.2) (<[id := s]> (sessions c))) =
  Z.of_nat (cnt (fun kv => under f k kv.2) (sessions c)) + b2z (under f k s) - old_under f k id c.
Proof.
  pose proof (cnt_insert (fun kv => under f k kv.2) id s (sessions c)) as H. unfold old_under.
  destruct (sessions c !! id) as [s0|]; cbn in *; destruct (under f k s); try destruct (under f k s0); cbn in *; lia.
Qed.

(** One session changes, and the counters of the models it leaves and enters with it. *)
Lemma counted_step c c' id s :
  counted c -> session_ok s -> sessions c' = <[id := s]> (sessions c) ->
  (forall k, field ActiveSessions k c' = field ActiveSessions k c + b2z (under Active k s) - old_under Active k id c) ->
  (forall k, field SessionsCompleted k c' = field SessionsCompleted k c + b2z (under Completed k s) - old_under Completed k id c) ->
  (forall k, 0 <= field SessionsFailed k c' - field SessionsFailed k c
     <= field SessionsCompleted k c' - field SessionsCompleted k c) -> counted c'.
Proof.
  intros [Hs Ha Hc Hf] Hok Hss Ha' Hc' Hf'. split.
  - intros j sj. rewrite Hss. intros [[<- <-]|[_ Hj]]%lookup_insert_Some; [done|by eapply Hs].
  - intros k. rewrite Ha', Ha, Hss. unfold active_under. by rewrite cnt_under.
  - intros k. rewrite Hc', Hc, Hss. unfold completed_under. by rewrite cnt_under.
  - intros k. specialize (Hf k). specialize (Hf' k). lia.
Qed.

Lemma blank_empty s : is_blank s = false -> String.eqb "" s = false /\ String.eqb s "" = false.
Proof. intros H. destruct s; [by vm_compute in H|done]. Qed.

Lemma started_frame s t b :
  (if b : bool then s <| LsStartedAt := t |> else s) = s <| LsStartedAt := if b then t else LsStartedAt s |>.
Proof. destruct b; [done|]. by destruct s. Qed.

Lemma field_put_session F k id s c : field F k (put_session id s c) = field F k c.
Proof. done. Qed.

(** A change of a model's metrics that moves a counter by a fixed amount. *)
Lemma field_add F d p m f k c : F (newLiveRealtimeModelMetrics p m) = 0 -> (forall x, F (f x) = F x + d) ->
  field F k (with_model p m f c) = field F k c + d * b2z (bool_decide (k = liveRealtimeModelKey p m)).
Proof.
  intros H0 Hf. rewrite field_with_model. case_decide as Hk.
  - rewrite bool_decide_eq_true_2, Hf, field_ensure by done. subst k. cbn. lia.
  - rewrite bool_decide_eq_false_2 by done. cbn. lia.
Qed.
Lemma field_keep F p m f k c : F (newLiveRealtimeModelMetrics p m) = 0 -> (forall x, F (f x) = F x) ->
  field F k (with_model p m f c) = field F k c.
Proof. intros H0 Hf. rewrite (field_add F 0) by (done || (intros x; rewrite Hf; lia)). lia. Qed.
Lemma field_dropped p m k c : 0 < field ActiveSessions (liveRealtimeModelKey p m) c ->
  field ActiveSessions k (with_model p m drop_active c) =
  field ActiveSessions k c - b2z (bool_decide (k = liveRealtimeModelKey p m)).
Proof.
  intros Hpos. rewrite field_with_model. case_decide as Hk.
  - rewrite bool_decide_eq_true_2 by done. unfold drop_active. rewrite field_ensure by done.
    rewrite (proj2 (Z.ltb_lt _ _) Hpos). cbn. rewrite field_ensure by done. subst k. lia.
  - rewrite bool_decide_eq_false_2 by done. cbn. lia.
Qed.
Lemma dropped_keeps F p m k c : F ∈ [SessionsCompleted; SessionsFailed] ->
  field F k (with_model p m drop_active c) = field F k c.
Proof.
  rewrite !elem_of_cons. intros [->|[->|HF]]; [..|by apply not_elem_of_nil in HF];
    (apply field_keep; [done|]; intros x; unfold drop_active; by case_match).
Qed.
Lemma unstarted_keeps F p m k c : F ∈ [ActiveSessions; SessionsCompleted; SessionsFailed] ->
  field F k (with_model p m drop_started c) = field F k c.
Proof.
  rewrite !elem_of_cons. intros [->|[->|[->|HF]]]; [..|by apply not_elem_of_nil in HF];
    (apply field_keep; [done|]; intros x; unfold drop_started; by case_match).
Qed.

(** An active session is among those its model counts. *)
Lemma active_pos c id s : counted c -> sessions c !! id = Some s -> Active s = true ->
  0 < field ActiveSessions (session_key s) c.
Proof.
  intros Hc Hs Ha. rewrite (ct_active c Hc). apply (cnt_pos _ id s); [done|].
  unfold active_under, under. cbn. by rewrite Ha, bool_decide_eq_true_2.
Qed.

Lemma under_names f k s s' : f s' = f s -> LsProvider s' = LsProvider s -> LsModelName s' = LsModelName s ->
  under f k s' = under f k s.
Proof. unfold under, session_key. by intros -> -> ->. Qed.
Lemma key_sym k k' : bool_decide (k = k' :> string) = bool_decide (k' = k).
Proof. apply bool_decide_ext. split; congruence. Qed.

(** A session that keeps its model, activity and completion leaves every counter alone. *)
Lemma counted_same c c' id s s0 : counted c -> sessions c !! id = Some s0 ->
  LsProvider s = LsProvider s0 -> LsModelName s = LsModelName s0 -> Active s = Active s0 -> Completed s = Completed s0 ->
  sessions c' = <[id := s]> (sessions c) ->
  (forall F k, F ∈ [ActiveSessions; SessionsCompleted; SessionsFailed] -> field F k c' = field F k c) -> counted c'.
Proof.
  intros Hc Hs Hp Hm Ha Hco Hss HF. destruct (ct_session c Hc _ _ Hs) as (O1 & O2 & O3).
  assert (forall f k, f s = f s0 -> old_under f k id c = b2z (under f k s)) as Hold
    by (intros f k Hf; unfold old_under; rewrite Hs; cbn; by rewrite (under_names f k s0 s)).
  apply (counted_step c _ id s); [done|split_and!; congruence|done|..]; intros k.
  - rewrite (HF ActiveSessions), Hold by (done || set_solver). lia.
  - rewrite (HF SessionsCompleted), Hold by (done || set_solver). lia.
  - rewrite (HF SessionsCompleted), (HF SessionsFailed) by set_solver. lia.
Qed.

(** A session seen for the first time under a named model. *)
Lemma counted_begins c c' id s : counted c -> sessions c !! id = None ->
  is_blank (LsProvider s) = false -> is_blank (LsModelName s) = false -> Active s = true -> Completed s = false ->
  sessions c' = <[id := s]> (sessions c) ->
  (forall F k, field F k c' = field F k (with_model (LsProvider s) (LsModelName s) session_begins c)) -> counted c'.
Proof.
  intros Hc Hs Hp Hm Ha Hco Hss HF.
  assert (forall f k, old_under f k id c = 0) as Hold by (intros f k; unfold old_under; by rewrite Hs).
  apply (counted_step c _ id s); [done|split_and!; by rewrite ?Ha|done|..]; intros k; rewrite ?Hold, ?HF.
  - rewrite (field_add ActiveSessions 1) by done. unfold under. rewrite Ha. cbn [andb].
    rewrite (key_sym (session_key s)). fold (session_key s). lia.
  - rewrite field_keep by done. unfold under. rewrite Hco. cbn. lia.
  - rewrite !(field_keep _ _ _ session_begins) by done. lia.
Qed.

Lemma session_counted c id p m t : counted c -> orderly_event c (EvSession id p m t) -> counted (ObserveSession id p m t c).
Proof.
  intros Hc Ho. unfold ObserveSession. destruct (is_blank id); [done|].
  destruct (is_blank p) eqn:Hbp; [done|]. destruct (is_blank m) eqn:Hbm; [done|]. cbn [orb].
  destruct (blank_empty _ Hbp) as [Hp1 Hp2], (blank_empty _ Hbm) as [Hm1 Hm2].
  destruct (sessions c !! id) as [s0|] eqn:Hs; cbn [default from_option].
  - destruct (ct_session c Hc _ _ Hs) as (H1 & H2 & H3). change (Datatypes.id s0) with s0.
    rewrite started_frame. set (s1 := s0 <| LsStartedAt := _ |>).
    assert (Active s1 = Active s0 /\ Completed s1 = Completed s0 /\ LsProvider s1 = LsProvider s0 /\
      LsModelName s1 = LsModelName s0) as (E1 & E2 & E3 & E4) by done.
    clearbody s1. cbv zeta. rewrite E1, E2, H3.
    assert (negb (Active s0) && negb (negb (Active s0)) = false) as -> by by destruct (Active s0).
    rewrite E3, E4, (proj2 (blank_empty _ H1)), (proj2 (blank_empty _ H2)). cbn [negb andb].
    destruct (String.eqb_spec (LsProvider s0) p) as [Ep|Ep], (String.eqb_spec (LsModelName s0) m) as [Em|Em]; cbn [negb orb andb].
    { by apply (counted_same c _ id s1 s0). }
    all: assert (Active s0 = true) as Hact
      by (destruct (Active s0) eqn:Hact; [done|]; destruct (Ho s0 Hs H3); congruence);
      pose proof (active_pos c id s0 Hc Hs Hact) as Hpos;
      match goal with |- counted (with_model _ _ _ (put_session _ _ ?c1)) => set (c2 := c1) end;
      apply (counted_step c _ id (s1 <| LsProvider := p |> <| LsModelName := m |>));
      [done|split_and!; cbn; by rewrite ?E2, ?E1, ?H3|subst c2; destruct (negb (has_output s1)); cbn; by rewrite insert_insert_eq|..];
      intros k; rewrite ?(field_add ActiveSessions 1 p m session_begins), ?(field_keep _ p m session_begins),
        ?field_put_session by done; unfold old_under; rewrite ?Hs; cbn [from_option];
      assert (field ActiveSessions k c2 = field ActiveSessions k c - b2z (bool_decide (k = session_key s0)) /\
        field SessionsCompleted k c2 = field SessionsCompleted k c /\
        field SessionsFailed k c2 = field SessionsFailed k c) as (G1 & G2 & G3)
        by (subst c2; destruct (negb (has_output s1)); rewrite ?unstarted_keeps by set_solver;
            rewrite field_dropped by exact Hpos; rewrite !dropped_keeps by set_solver; done);
      rewrite ?G1, ?G2, ?G3; unfold under;
      change (session_key (s1 <| LsProvider := p |> <| LsModelName := m |>)) with (liveRealtimeModelKey p m);
      change (Active (s1 <| LsProvider := p |> <| LsModelName := m |>)) with (Active s1);
      change (Completed (s1 <| LsProvider := p |> <| LsModelName := m |>)) with (Completed s1);
      rewrite ?E1, ?E2, ?H3, ?Hact, ?(key_sym k (session_key s0)), ?(key_sym k (liveRealtimeModelKey p m));
      cbn [andb negb b2z]; fold (session_key s0); try lia.
  - rewrite started_frame. cbv zeta. set (s1 := new_session id "" "" t true <| LsStartedAt := _ |>).
    assert (Active s1 = true /\ LsProvider s1 = "" /\ LsModelName s1 = "") as (E1 & E2 & E3) by done.
    rewrite E1. cbn [negb andb]. rewrite E2, E3, Hp1, Hm1. cbn [String.eqb andb orb negb].
    apply (counted_begins c _ id (s1 <| LsProvider := p |> <| LsModelName := m |>)); try done.
    cbn. by rewrite insert_insert_eq.
Qed.

(** Deltas count events; they do not begin or end sessions. *)
Definition session_kept (s s' : liveRealtimeSession) : Prop :=
  LsProvider s' = LsProvider s /\ LsModelName s' = LsModelName s /\ Active s' = Active s /\ Completed s' = Completed s.
Definition totals_kept (m m' : liveRealtimeModelMetrics) : Prop :=
  ActiveSessions m' = ActiveSessions m /\ SessionsCompleted m' = SessionsCompleted m /\ SessionsFailed m' = SessionsFailed m.

Lemma delta_steps_keep mode kind t s m s' m' :
  let '(s1, m1) := transport_step mode (s, m) in
  kind_step kind t (if IsZero (LsStartedAt s1) then s1 <| LsStartedAt := t |> else s1, m1) = (s', m') ->
  session_kept s s' /\ totals_kept m m'.
Proof.
  unfold transport_step, session_kept, totals_kept.
  destruct (TransportCounted s); [|destruct mode]; destruct (IsZero _);
    destruct kind; cbn -[Observe latencyMS]; repeat case_match; intros [= <- <-]; cbn -[Observe latencyMS]; by split_and!.
Qed.

Lemma delta_counted c d : counted c -> counted (ObserveDelta fmt_Sprint d c).
Proof.
  intros Hc. set (id := DeltaSessionID d) in *. unfold ObserveDelta. fold id.
  destruct (is_blank id); [done|]. destruct (is_blank (DeltaProvider d)) eqn:Hbp; [done|].
  destruct (is_blank (DeltaModelName d)) eqn:Hbm; [done|]. cbn [orb].
  assert (exists s c1, delta_session d c = (s, c1) /\ counted (put_session id s c1)) as (s & c1 & -> & Hc1).
  { unfold delta_session. fold id. destruct (sessions c !! id) as [s0|] eqn:Hs.
    - destruct (ct_session c Hc _ _ Hs) as (H1 & H2 & H3).
      rewrite (proj2 (blank_empty _ H1)), (proj2 (blank_empty _ H2)). cbn [orb]. exists s0, c.
      split; [done|]. by apply (counted_same c _ id s0 s0).
    - cbn [LsProvider LsModelName new_session].
      rewrite (proj2 (blank_empty _ Hbp)), (proj2 (blank_empty _ Hbm)). cbn [orb]. eexists _, _.
      split; [done|]. by eapply (counted_begins c _ id (new_session id (DeltaProvider d) (DeltaModelName d) (Timestamp d) true)). }
  destruct (transport_step _ _) as [s1 m1] eqn:Ht. destruct (kind_step _ _ _) as [s2 m2] eqn:Hk.
  pose proof (delta_steps_keep (liveTransportMode fmt_Sprint d) (DeltaKind d) (Timestamp d) s
    (ensureModel (LsProvider s) (LsModelName s) c1) s2 m2) as Hkeep. rewrite Ht in Hkeep.
  specialize (Hkeep Hk) as [(K1 & K2 & K3 & K4) (M1 & M2 & M3)].
  apply (counted_same (put_session id s c1) _ id s2 s); try done; [cbn; by rewrite lookup_insert_eq| |].
  - cbn. by rewrite insert_insert_eq.
  - intros F k HF. rewrite !field_put_session, K1, K2, field_with_model. case_decide as Hkey; [subst k|done].
    rewrite !elem_of_cons in HF. destruct HF as [->|[->|[->|HF]]]; [..|by apply not_elem_of_nil in HF];
      rewrite ?M1, ?M2, ?M3; by apply field_ensure.
Qed.

Lemma complete_counted c id p m t failed :
  counted c -> orderly_event c (EvComplete id p m t failed) -> counted (CompleteSession id p m t failed c).
Proof.
  intros Hc Ho. unfold CompleteSession. destruct (is_blank id); [done|]. cbv zeta.
  set (s0 := default (new_session id p m t false) (sessions c !! id)).
  assert (is_blank (LsProvider s0) = false /\ is_blank (LsModelName s0) = false /\
    (Active s0 = true -> 0 < field ActiveSessions (session_key s0) c) /\
    (forall k, old_under Active k id c = b2z (under Active k s0)) /\
    (forall k, old_under Completed k id c = b2z (under Completed k s0)) /\
    (Completed s0 = true -> Active s0 = false)) as (B1 & B2 & Hpos & Ha & Hco & Hex).
  { subst s0. unfold old_under. destruct (sessions c !! id) as [s|] eqn:Hs.
    - destruct (ct_session c Hc _ _ Hs) as (H1 & H2 & H3). change (default _ (Some s)) with s.
      split_and!; try done; [by eapply active_pos|rewrite H3; by destruct (Active s)].
    - destruct (Ho Hs). split_and!; done. }
  clearbody s0. rewrite (proj2 (blank_empty _ B1)). cbv iota. rewrite (proj2 (blank_empty _ B2)). cbv iota.
  rewrite B1, B2. cbn [orb]. set (s1 := s0 <| Active := false |>).
  set (c1 := with_model (LsProvider s0) (LsModelName s0) (if Active s0 then drop_active else fun x => x) c).
  assert (forall k, field ActiveSessions k c1 = field ActiveSessions k c - b2z (under Active k s0)) as Ha1.
  { intros k. subst c1. unfold under. destruct (Active s0); cbn [andb].
    - rewrite field_dropped by by apply Hpos. by rewrite (key_sym k).
    - rewrite field_keep by done. cbn. lia. }
  assert (forall F k, F ∈ [SessionsCompleted; SessionsFailed] -> field F k c1 = field F k c) as Hk1.
  { intros F k HF. subst c1. destruct (Active s0); [by apply dropped_keeps|].
    apply field_keep; [|done]. rewrite !elem_of_cons in HF. destruct HF as [->|[->|HF]]; [done|done|by apply not_elem_of_nil in HF]. }
  change (Completed s1) with (Completed s0). destruct (Completed s0) eqn:Hcm.
  - apply (counted_step c _ id s1); [done|split_and!; cbn; by rewrite ?Hcm|done|..]; intros k;
      rewrite field_put_session, ?Ha1, ?Hk1 by set_solver; rewrite ?Ha, ?Hco.
    + unfold under. cbn. lia.
    + rewrite (under_names Completed k s0 s1) by done. lia.
    + rewrite field_put_session, Hk1 by set_solver. lia.
  - change (LsProvider (s1 <| Completed := true |>)) with (LsProvider s0).
    change (LsModelName (s1 <| Completed := true |>)) with (LsModelName s0).
    match goal with |- context [put_session _ _ (with_model _ _ ?g c1)] => set (f := g) end.
    assert (forall x, ActiveSessions (f x) = ActiveSessions x + 0 /\ SessionsCompleted (f x) = SessionsCompleted x + 1 /\
      SessionsFailed (f x) = SessionsFailed x + b2z failed) as Hf.
    { intros x. subst f. cbn -[Observe milliseconds]. destruct failed, (_ && _); cbn -[Observe milliseconds]; lia. }
    clearbody f.
    assert (forall k, field SessionsCompleted k (with_model (LsProvider s0) (LsModelName s0) f c1) =
      field SessionsCompleted k c + b2z (bool_decide (session_key s0 = k))) as Hcompleted.
    { intros k. rewrite (field_add _ 1) by (done || apply Hf). rewrite Hk1, (key_sym k) by set_solver.
      fold (session_key s0). lia. }
    apply (counted_step c _ id (s1 <| Completed := true |>)); [done|by split_and!|done|..]; intros k;
      rewrite !field_put_session, ?Hcompleted, ?Ha, ?Hco.
    + rewrite (field_add _ 0), Ha1 by (done || apply Hf). unfold under. cbn. lia.
    + unfold under. rewrite Hcm. cbn. change (session_key _) with (session_key s0). lia.
    + rewrite (field_add _ (b2z failed)), Hk1, (key_sym k) by (done || apply Hf || set_solver).
      fold (session_key s0). destruct failed, (bool_decide _); cbn; lia.
Qed.

Lemma run_counted es c : counted c -> orderly c es -> counted (foldl live_apply c es).
Proof.
  revert c. induction es as [|e es IH]; intros c Hc; cbn [orderly foldl]; [done|]. intros [He Hes].
  apply IH; [|done]. destruct e; cbn; [by apply session_counted|by apply delta_counted|by apply complete_counted].
Qed.

Lemma new_counted : counted NewLiveRealtimeMetricsCollector.
Proof.
  assert (forall F k, field F k NewLiveRealtimeMetricsCollector = 0) as H0
    by (intros F k; unfold field; cbn; by rewrite lookup_empty).
  split; cbn; [intros id s; by rewrite lookup_empty|..]; intros k; rewrite !H0;
    [unfold cnt; by rewrite map_to_list_empty..|lia].
Qed.

(** C24: the counters of a model are exact after any stream of starts, deltas and completions in which
    no completed session is started again under another provider or model and no session's first
    event is a completion without a provider or model; running sessions may move between models.  A
    model's active sessions are the sessions filed under it that are active, its completed sessions
    those that have completed, each counted once however often it is completed, and the failed are
    among the completed; no session is both active and completed.  ([moved_session_leaks] shows what
    happens to a completed session that is started again under another model.) *)
Theorem session_counters_exact es : orderly NewLiveRealtimeMetricsCollector es ->
  let c := live_run es in
  (forall k, field ActiveSessions k c = Z.of_nat (cnt (active_under k) (sessions c)) /\
     field SessionsCompleted k c = Z.of_nat (cnt (completed_under k) (sessions c)) /\
     0 <= field SessionsFailed k c <= field SessionsCompleted k c) /\
  forall id s, sessions c !! id = Some s -> Completed s = negb (Active s).
Proof.
  intros Hes. cbv zeta. pose proof (run_counted es _ new_counted Hes : counted (live_run es)) as [Hs Ha Hc Hf].
  split; [by intros k; split_and!; auto; apply Hf|]. intros id s Hid. by destruct (Hs _ _ Hid) as (_ & _ & ?).
Qed.
End Stream.

(** Three sessions: one finished (reported twice), one that falls back to a local model while it
    runs, and one reported only when it ends. *)
Definition demo_delta (id : string) (kind : AgentDeltaKind) (t : Time) : AgentDelta :=
  mkAgentDelta id "task" "agent" "OpenAI" "gpt" kind 1 "" t [].
Definition demo_events : list live_event :=
  [EvSession "s1" "OpenAI" "gpt" 1000; EvDelta (demo_delta "s2" AgentDeltaToken 2000);
   EvDelta (demo_delta "s1" AgentDeltaToken 3000); EvSession "s2" "local" "qwen" 4000;
   EvComplete "s1" "OpenAI" "gpt" 9000 true; EvComplete "s1" "OpenAI" "gpt" 9500 false;
   EvComplete "s3" "local" "qwen" 9900 false].

Lemma demo_orderly : orderly (fun _ => "") NewLiveRealtimeMetricsCollector demo_events.
Proof.
  unfold demo_events. cbn [orderly orderly_event]. split_and!; try exact I.
  all: try (intros s0 Hs Hcm; vm_compute in Hs; first [discriminate Hs | injection Hs as <-; discriminate Hcm]).
  all: intros Hs; vm_compute in Hs; first [discriminate Hs | vm_compute; split; reflexivity].
Qed.

Lemma session_counters_exact_witness :
  let c := live_run (fun _ => "") demo_events in
  field ActiveSessions "openai::gpt" c = 0 /\ field SessionsCompleted "openai::gpt" c = 1 /\
  field ActiveSessions "local::qwen" c = 1 /\ field SessionsCompleted "local::qwen" c = 1.
Proof.
  destruct (session_counters_exact (fun _ => "") demo_events demo_orderly) as [Hk _].
  destruct (Hk "openai::gpt") as (H1 & H2 & _), (Hk "local::qwen") as (H3 & H4 & _). cbv zeta in *.
  rewrite H1, H2, H3, H4. vm_compute. split_and!; reflexivity.
Defined.

(** A session that is filed under a model, completed and not active. *)
Definition closed_under (id p m : string) (c : Collector) : Prop :=
  exists s, sessions c = {[id := s]} /\ LsProvider s = p /\ LsModelName s = m /\ Active s = false /\ Completed s = true.

Lemma complete_closed id p m t failed c :
  is_blank p = false -> is_blank m = false -> closed_under id p m c ->
  closed_under id p m (CompleteSession id p m t failed c) /\
  forall k, field ActiveSessions k (CompleteSession id p m t failed c) = field ActiveSessions k c.
Proof.
  intros Hp Hm (s & Hs & E1 & E2 & E3 & E4). unfold CompleteSession. destruct (is_blank id); [split; [by exists s|done]|].
  rewrite Hs, lookup_singleton_eq. cbn [default from_option]. change (Datatypes.id s) with s.
  destruct (blank_empty _ Hp) as [_ Hp2], (blank_empty _ Hm) as [_ Hm2].
  rewrite E1, Hp2. cbv zeta iota. rewrite E2, Hm2. cbv iota. rewrite E1, E2, Hp, Hm, E3. cbn [orb].
  change (Completed (s <| Active := false |>)) with (Completed s). rewrite E4. split.
  - exists (s <| Active := false |>). cbn. rewrite Hs, insert_singleton_eq. by split_and!.
  - intros k. rewrite field_put_session, field_with_model. case_decide as Hk; [|done]. by rewrite field_ensure, Hk.
Qed.

(** The first report of a session, its completion, and a later report under another model. *)
Lemma first_report id p m t c :
  is_blank id = false -> is_blank p = false -> is_blank m = false -> sessions c !! id = None ->
  exists s, sessions (ObserveSession id p m t c) = <[id := s]> (sessions c) /\
    LsProvider s = p /\ LsModelName s = m /\ Active s = true /\ Completed s = false /\
    forall F k, k <> liveRealtimeModelKey p m -> field F k (ObserveSession id p m t c) = field F k c.
Proof.
  intros Hid Hp Hm Hs. unfold ObserveSession. rewrite Hid, Hp, Hm, Hs. cbn [orb default from_option].
  destruct (blank_empty _ Hp) as [Hp1 Hp2], (blank_empty _ Hm) as [Hm1 Hm2].
  rewrite started_frame. cbv zeta. set (s1 := new_session id "" "" t true <| LsStartedAt := _ |>).
  assert (Active s1 = true /\ LsProvider s1 = "" /\ LsModelName s1 = "") as (E1 & E2 & E3) by done.
  rewrite E1. cbn [negb andb]. rewrite E2, E3, Hp1, Hm1. cbn [String.eqb andb orb negb].
  exists (s1 <| LsProvider := p |> <| LsModelName := m |>). split_and!; try done.
  - cbn. by rewrite insert_insert_eq.
  - intros F k Hk. by rewrite field_with_model, decide_False.
Qed.

Lemma completion id p m t failed s c :
  is_blank id = false -> is_blank p = false -> is_blank m = false -> sessions c !! id = Some s ->
  LsProvider s = p -> LsModelName s = m -> Completed s = false ->
  exists s', sessions (CompleteSession id p m t failed c) = <[id := s']> (sessions c) /\
    LsProvider s' = p /\ LsModelName s' = m /\ Active s' = false /\ Completed s' = true /\
    forall F k, k <> liveRealtimeModelKey p m -> field F k (CompleteSession id p m t failed c) = field F k c.
Proof.
  intros Hid Hp Hm Hs E1 E2 E3. unfold CompleteSession. rewrite Hid, Hs. cbn [default from_option].
  change (Datatypes.id s) with s. destruct (blank_empty _ Hp) as [_ Hp2], (blank_empty _ Hm) as [_ Hm2].
  rewrite E1, Hp2. cbv zeta iota. rewrite E2, Hm2. cbv iota. rewrite E1, E2, Hp, Hm. cbn [orb].
  change (Completed (s <| Active := false |>)) with (Completed s). rewrite E3.
  exists (s <| Active := false |> <| Completed := true |>). split_and!; try done.
  intros F k Hk. rewrite field_put_session, field_with_model.
  change (LsProvider (s <| Active := false |> <| Completed := true |>)) with (LsProvider s).
  change (LsModelName (s <| Active := false |> <| Completed := true |>)) with (LsModelName s).
  rewrite E1, E2, decide_False by done.
  by rewrite field_with_model, decide_False.
Qed.

Lemma moved_report id p1 m1 p2 m2 t s c :
  is_blank id = false -> is_blank p1 = false -> is_blank m1 = false -> is_blank p2 = false -> is_blank m2 = false ->
  liveRealtimeModelKey p1 m1 <> liveRealtimeModelKey p2 m2 -> sessions c !! id = Some s ->
  LsProvider s = p1 -> LsModelName s = m1 -> Active s = false -> Completed s = true ->
  exists s', sessions (ObserveSession id p2 m2 t c) = <[id := s']> (sessions c) /\
    LsProvider s' = p2 /\ LsModelName s' = m2 /\ Active s' = false /\ Completed s' = true /\
    field ActiveSessions (liveRealtimeModelKey p2 m2) (ObserveSession id p2 m2 t c) =
    field ActiveSessions (liveRealtimeModelKey p2 m2) c + 1.
Proof.
  intros Hid Hp1 Hm1 Hp2 Hm2 Hkey Hs E1 E2 E3 E4. unfold ObserveSession. rewrite Hid, Hp2, Hm2, Hs.
  cbn [orb default from_option]. change (Datatypes.id s) with s. rewrite started_frame. cbv zeta.
  set (s1 := s <| LsStartedAt := _ |>).
  assert (Active s1 = false /\ Completed s1 = true /\ LsProvider s1 = p1 /\ LsModelName s1 = m1) as (F1 & F2 & F3 & F4)
    by (by subst s1).
  assert (Active (s1 <| LsProvider := p2 |> <| LsModelName := m2 |>) = false) as F5 by done.
  rewrite F1, F2. cbn [negb andb]. rewrite F3, F4, F5, !andb_false_r.
  destruct (blank_empty _ Hp1) as [_ Hp1'], (blank_empty _ Hm1) as [_ Hm1']. rewrite Hp1', Hm1'. cbn [negb andb].
  assert (String.eqb p1 p2 && String.eqb m1 m2 = false) as Hne.
  { destruct (String.eqb_spec p1 p2), (String.eqb_spec m1 m2); try done. by subst. }
  assert (negb (String.eqb p1 p2) || negb (String.eqb m1 m2) = true) as Hch
    by (rewrite <- negb_andb, Hne; done).
  rewrite Hne, Hch.
  exists (s1 <| LsProvider := p2 |> <| LsModelName := m2 |>). split_and!; try done.
  - destruct (negb (has_output s1)); cbn; by rewrite insert_insert_eq.
  - rewrite field_with_model, decide_True by done. cbn. rewrite field_ensure, field_put_session by done.
    destruct (negb (has_output s1)); rewrite !field_with_model, !decide_False, ?field_put_session by congruence; unfold Z.succ; done.
Qed.

(** A session that has completed and is then reported under another model is counted as active
    there for ever: whatever is reported about it later under that model, the collector shows one
    active session of the model and no session is active. *)
Theorem moved_session_leaks (fmt_Sprint : any -> string) (id p1 m1 p2 m2 : string) (t0 t1 t2 : Time) (failed : bool)
  (later : list (Time * bool)) :
  is_blank id = false -> is_blank p1 = false -> is_blank m1 = false -> is_blank p2 = false -> is_blank m2 = false ->
  liveRealtimeModelKey p1 m1 <> liveRealtimeModelKey p2 m2 ->
  let c := live_run fmt_Sprint
    ([EvSession id p1 m1 t0; EvComplete id p1 m1 t1 failed; EvSession id p2 m2 t2] ++
     map (fun tf => EvComplete id p2 m2 tf.1 tf.2) later) in
  field ActiveSessions (liveRealtimeModelKey p2 m2) c = 1 /\
  forall j s, sessions c !! j = Some s -> Active s = false.
Proof.
  intros Hid Hp1 Hm1 Hp2 Hm2 Hkey. cbv zeta. unfold live_run. rewrite foldl_app.
  set (c0 := foldl _ NewLiveRealtimeMetricsCollector _).
  assert (closed_under id p2 m2 c0 /\ field ActiveSessions (liveRealtimeModelKey p2 m2) c0 = 1) as [Hc0 Hf0].
  { subst c0. cbn [foldl live_apply].
    destruct (first_report id p1 m1 t0 NewLiveRealtimeMetricsCollector) as (s1 & S1 & A1 & A2 & A3 & A4 & A5); try done.
    set (c1 := ObserveSession _ _ _ _ _) in *.
    destruct (completion id p1 m1 t1 failed s1 c1) as (s2 & S2 & B1 & B2 & B3 & B4 & B5);
      try done; [by rewrite S1, lookup_insert_eq|]. set (c2 := CompleteSession _ _ _ _ _ _) in *.
    destruct (moved_report id p1 m1 p2 m2 t2 s2 c2) as (s3 & S3 & D1 & D2 & D3 & D4 & D5);
      try done; [by rewrite S2, lookup_insert_eq|].
    split.
    - exists s3. rewrite S3, S2, S1. cbn. by rewrite !insert_insert_eq.
    - rewrite D5, B5, A5 by done. unfold field. cbn. by rewrite lookup_empty. }
  clearbody c0. revert c0 Hc0 Hf0. induction later as [|[t f] later IH]; intros c0 Hc0 Hf0; cbn [map foldl live_apply].
  - split; [done|]. intros j s. destruct Hc0 as (s0 & -> & _ & _ & H3 & _).
    intros [<- <-]%lookup_singleton_Some. done.
  - destruct (complete_closed id p2 m2 t f c0 Hp2 Hm2 Hc0) as [H1 H2]. apply IH; [done|]. by rewrite H2.
Qed.

Lemma moved_session_leaks_witness :
  let c := live_run (fun _ => "")
    [EvSession "s" "openai" "gpt" 1; EvComplete "s" "openai" "gpt" 2 false; EvSession "s" "local" "qwen" 3;
     EvComplete "s" "local" "qwen" 4 false] in
  field ActiveSessions "local::qwen" c = 1 /\ map_Forall (fun _ s => Active s = false) (sessions c).
Proof.
  destruct (moved_session_leaks (fun _ => "") "s" "openai" "gpt" "local" "qwen" 1 2 3 false [(4, false)]) as [H1 H2];
    [reflexivity..|vm_compute; discriminate|].
  split; [exact H1|exact H2].
Defined.
