(* ===== verification/Router.v ===== *)
(** * The router (kernel/router.go)

    Chooses the agent of a task: a preferred agent or the orchestrator when the task asks for it,
    else the best scored of the agents that can take it.  Routing reads the runtime manager, and
    reading may write a state back, so it runs in the same state monad; the runtime's registry is
    the router's.  Also here: [EvaluateRiskContext] of kernel/model_selector.go. *)
From S2P Require Import Prelude GoLib GoJSON Domain TaskPolicy Config StateMonad AgentRegistry RuntimeManager LiveRealtime.
From Stdlib Require Import PrimFloat FloatOps SpecFloat.

(** ** Risk (kernel/model_selector.go) *)
Definition baseHighRiskKeywords : list string :=
  ["security"; "auth"; "rbac"; "payment"; "secret"; "production"; "migration"; "destructive"].
Definition permissionContextKeywords : list string :=
  ["auth"; "authorization"; "role"; "rbac"; "admin"; "security"; "token"; "database"; "migration"; "tenant"].
Definition lowRiskPermissionExemptions : list string :=
  ["permissions-sync-fix"; "permission docs cleanup"; "permission ui label"; "permission comments";
   "permission formatting"].

Record RiskEvaluation : Type := mkRiskEvaluation {
  RiskDetectedKeywords : list string;
  RiskMatchedHighRiskRules : list string;
  RiskMatchedLowRiskExemptions : list string;
  HighRisk : bool }.

Definition EvaluateRiskContext (text : string) : RiskEvaluation :=
  let text := ToLower (TrimSpace text) in
  let high := List.filter (Contains text) baseHighRiskKeywords in
  let permissionContext := existsb (Contains text) permissionContextKeywords in
  let low := if permissionContext then List.filter (Contains text) lowRiskPermissionExemptions else [] in
  mkRiskEvaluation high high low (negb (length high =? 0)%nat && (length low =? 0)%nat).

(** ** Hints *)

(** [kernelString] (kernel/orchestrator.go). *)
Definition kernelString (value : any) : string := match value with AString s => s | _ => "" end.

Definition taskHintInt (value : any) : Z :=
  match value with
  | AInt v => v
  | AFloat v => int_of_float v
  | AString v => default 0 (Atoi (TrimSpace v))
  | _ => 0
  end.

(** The first of the listed hints that holds a non-empty text. *)
Fixpoint first_hint (keys : list string) (hints : anymap) : string :=
  match keys with
  | [] => ""
  | key :: keys =>
      let text := TrimSpace (toString (aget_any hints key)) in
      if String.eqb text "" then first_hint keys hints else text
  end.
Definition preferredAgentID (hints : anymap) : string :=
  first_hint ["preferred_agent_id"; "batch_forced_agent_id"; "forced_agent_id"] hints.

Definition routeModeOrchestrator (hints : anymap) : bool :=
  if EqualFold (TrimSpace (toString (aget_any hints "route_mode"))) "orchestrator" then true
  else match aget hints "force_orchestrator" with Some (ABool flag) => flag | _ => false end.

Definition isAgentRoutable (status : AgentStatus) : bool :=
  bool_decide (status = AgentStatusReady) || bool_decide (status = AgentStatusBusy) ||
  bool_decide (status = AgentStatusDegraded).

Definition shouldRelaxAssignedProvider (task : Task) : bool :=
  let hints := RoutingHints task in
  if match aget hints "p2p_attempt" with
     | Some (AInt attempt) => 1 <? attempt
     | Some (AFloat attempt) => (1 <? attempt)%float
     | _ => false
     end then true
  else match aget hints "peer_failures" with
       | Some (AList failures) => negb (length failures =? 0)%nat
       | Some (AMaps failures) => negb (length failures =? 0)%nat
       | _ => false
       end.

Definition taskWorkerClass (task : Task) (capability : string) : string :=
  let value := ToLower (TrimSpace (kernelString (aget_any (RoutingHints task) "worker_class"))) in
  if negb (String.eqb value "") then value
  else
    let value := ToLower (TrimSpace (kernelString (aget_any (ExecutionContract task) "worker_class"))) in
    if negb (String.eqb value "") then value else ToLower (TrimSpace capability).

Definition taskContextBudget (task : Task) : Z :=
  let value := taskHintInt (aget_any (RoutingHints task) "context_budget") in
  if 0 <? value then value else taskHintInt (aget_any (ExecutionContract task) "context_budget").

(** ** Scores *)
Definition clampRouterScore (score : float) : float :=
  (if score <? 0 then 0 else if 1 <? score then 1 else score)%float.
Definition clampPolicyScore (score : float) : float := clampRouterScore ((score - 80) / 160)%float.

Definition liveLoadScore (state : AgentRuntimeState) : float :=
  (let pressure := AgentSlotUsage state in
   let pressure := if pressure <? ModelSlotUsage state then ModelSlotUsage state else pressure in
   let pressure := if pressure <? GlobalSlotUsage state then GlobalSlotUsage state else pressure in
   clampRouterScore (1 - pressure))%float.

Definition high_complexity (complexity : Complexity) : bool :=
  bool_decide (complexity = ComplexityHigh) || bool_decide (complexity = ComplexityCritical).

(** The part of [memory.RetrievalSnapshot] the router and the model selector read. *)
Record RetrievalKPI : Type := mkRetrievalKPI {
  Tier : string;
  PackedCount : Z;
  CoverageRatio : float;
  TruncationRatio : float;
  BestScore : float }.
Definition zero_kpi : RetrievalKPI := mkRetrievalKPI "" 0 0 0 0.

(** Adds [x] when the condition holds. *)
Definition plus_if (condition : bool) (x score : float) : float :=
  if condition then (score + x)%float else score.
Definition minus_if (condition : bool) (x score : float) : float :=
  if condition then (score - x)%float else score.

Section Router.
(** [strconv.ParseFloat(s, 64)] *)
Context (ParseFloat : string -> option float).
(** The provider model registry's [Snapshot], or nil. *)
Context (providerRegistry : option (string -> option ProviderCatalogSnapshot)).
(** Whether a runtime manager is attached. *)
Context (hasRuntime : bool).
(** The route memory's history score and the retriever's indicators, or nil; [None] is an error. *)
Context (routeMemory : option (Task -> AgentInfo -> option float)).
Context (retriever : option (Task -> option RetrievalKPI)).
Context (liveRealtime : option Collector).
Context (now : Time).

Definition taskHintFloat (value : any) : float :=
  match value with
  | AFloat v => v
  | AInt v => float_of_int v
  | AString v => default 0%float (ParseFloat (TrimSpace v))
  | _ => 0%float
  end.
Definition taskWeight (task : Task) : float :=
  let value := taskHintFloat (aget_any (RoutingHints task) "task_weight") in
  if (0 <? value)%float then value else taskHintFloat (aget_any (ExecutionContract task) "task_weight").

(** ** Who can take the task *)
Definition candidateMatchesAssignedModel (candidate : Agent) (assignedModel : string) : bool :=
  let assignedModel := TrimSpace assignedModel in
  let info := Info candidate in
  let registry := if hasRuntime then providerRegistry else None in
  if String.eqb assignedModel "" then false
  else if EqualFold (TrimSpace (InfoModelName info)) assignedModel then
    match registry with
    | None => true
    | Some _ =>
        let '(ready, known) := ProviderModelReadyStatus providerRegistry now (InfoProvider info) assignedModel in
        known && ready
    end
  else match registry with
       | None => false
       | Some _ => SupportsAssignedModel providerRegistry now candidate assignedModel
       end.

Definition canRouteAgent (task : Task) (agent : Agent) (capability : string) : RT bool :=
  let info := Info agent in
  if negb (isAgentRoutable (InfoStatus info)) then mret false
  else
    runnable ← (if hasRuntime then
                  allowed ← Allows now info;
                  if negb allowed then mret false
                  else weight ← RoutingWeight now (InfoID info); mret (negb (weight <=? 0)%float)
                else mret true);
    mret (if negb runnable then false
          else if negb (supportsCapability (Capabilities info) capability) then false
          else CanAccept agent task).

Definition filterCandidatesByAssignedProvider (task : Task) (candidates : list Agent)
  (relaxAssignedProvider : bool) : list Agent :=
  let assignedProvider := TrimSpace (AssignedProvider task) in
  if String.eqb assignedProvider "" || relaxAssignedProvider || shouldRelaxAssignedProvider task
  then candidates
  else List.filter (fun c => EqualFold (TrimSpace (InfoProvider (Info c))) assignedProvider) candidates.

Definition filterCandidatesByAssignedModel (task : Task) (candidates : list Agent)
  (relaxAssignedModel : bool) : list Agent :=
  let assignedModel := TrimSpace (AssignedModel task) in
  if String.eqb assignedModel "" || relaxAssignedModel then candidates
  else List.filter (fun c => candidateMatchesAssignedModel c assignedModel) candidates.

(** ** Scoring *)
Definition clusterPolicyDelta (task : Task) (info : AgentInfo) (capability : string)
  (complexity : Complexity) (risk : RiskEvaluation) : float :=
  let workerClass := taskWorkerClass task capability in
  if String.eqb workerClass "" then 0%float
  else
    let provider := ToLower (TrimSpace (InfoProvider info)) in
    let agentType := ToLower (TrimSpace (InfoType info)) in
    let has := Contains agentType in
    let cls := String.eqb workerClass in
    let contextBudget := taskContextBudget task in
    let weight := taskWeight task in
    let local := mem_string provider ["local"; "ai_kernel"] in
    let medium := mem_string provider ["mistral"; "antigravity"; "mimo"] in
    let cloud := mem_string provider ["openai"; "codexsale"] in
    let delta := 0%float in
    let delta := plus_if (has workerClass) 18 delta in
    let delta := plus_if (cls "code" && (has "coding" || has "coder")) 16 delta in
    let delta := plus_if (cls "review" && has "review") 22 delta in
    let delta := plus_if (cls "test" && has "test") 18 delta in
    let delta := plus_if (cls "retrieval" && (has "research" || has "analysis")) 15 delta in
    let delta := plus_if (cls "merge" && (has "review" || has "analysis" || has "orchestrator")) 18 delta in
    let delta := plus_if (cls "planner" && (has "plan" || has "analysis")) 16 delta in
    let smallContext := (0 <? contextBudget) && (contextBudget <=? 900) in
    let largeContext := (1800 <=? contextBudget) || high_complexity complexity || HighRisk risk in
    let lightWeight := ((0 <? weight) && (weight <=? 1.5))%float in
    let heavyWeight := (3.5 <=? weight)%float in
    let delta :=
      if mem_string workerClass ["code"; "test"; "retrieval"; "verification"] then
        minus_if cloud 10 (plus_if medium 12 (plus_if local 26 delta))
      else if mem_string workerClass ["review"; "merge"; "planner"; "research"] then
        if largeContext || heavyWeight
        then plus_if local 4 (plus_if medium 10 (plus_if cloud 24 delta)) else delta
      else delta in
    let delta := if smallContext then minus_if cloud 14 (plus_if local 16 delta) else delta in
    let delta := plus_if (lightWeight && local) 12 delta in
    if heavyWeight && largeContext then minus_if local 8 (plus_if cloud 10 delta) else delta.

Definition policyScore (agent : Agent) (task : Task) (capability : string) (complexity : Complexity)
  (risk : RiskEvaluation) : float :=
  let info := Info agent in
  let type_ := ToLower (InfoType info) in
  let score := 100%float in
  let score := plus_if (bool_decide (InfoStatus info = AgentStatusReady)) 20 score in
  let score := plus_if (bool_decide (InfoStatus info = AgentStatusBusy)) 5 score in
  let score := plus_if (supportsCapability (Capabilities info) capability) 40 score in
  let score := plus_if (negb (String.eqb (AssignedProvider task) "") &&
                        EqualFold (InfoProvider info) (AssignedProvider task)) 35 score in
  let score := plus_if (negb (String.eqb (AssignedModel task) "") &&
                        candidateMatchesAssignedModel agent (AssignedModel task)) 15 score in
  let score := plus_if (String.eqb (preferredAgentID (RoutingHints task)) (InfoID info)) 120 score in
  let score :=
    if high_complexity complexity || HighRisk risk then
      plus_if (Contains type_ "review") 12
        (plus_if (EqualFold (InfoProvider info) "openai" || EqualFold (InfoProvider info) "codexsale") 40 score)
    else
      let provider := ToLower (InfoProvider info) in
      if mem_string provider ["local"; "ai_kernel"] then (score + 25)%float
      else if mem_string provider ["mistral"; "antigravity"; "mimo"] then (score + 15)%float
      else if mem_string provider ["openai"; "codexsale"] then (score - 20)%float else score in
  let score := plus_if (isSourcecraftWork task && String.eqb (InfoID info) "orchestrator") 100 score in
  let score := plus_if (Contains type_ (task_type_string (Type_ task))) 10 score in
  let score := plus_if (bool_decide (complexity = ComplexityLow) && EqualFold (InfoProvider info) "local") 10 score in
  clampPolicyScore (score + clusterPolicyDelta task info capability complexity risk)%float.

Definition historyScore (info : AgentInfo) (task : Task) : float :=
  match routeMemory with
  | None => 0%float
  | Some routeHistoryScore =>
      match routeHistoryScore task info with Some score => clampRouterScore score | None => 0%float end
  end.

Definition runtimeScore (info : AgentInfo) (task : Task) (capability : string) : RT float :=
  if negb hasRuntime then mret 0.5%float
  else
    weight ← RoutingWeight now (InfoID info);
    let weight := clampRouterScore weight in
    state ← State now (InfoID info);
    match state with
    | None => mret weight
    | Some state =>
        let priority := clampRouterScore (PriorityScore state) in
        let errorPenalty := clampRouterScore (1 - ErrorRate state)%float in
        let loadScore := liveLoadScore state in
        pressure ← CapacityPressure now info (taskWorkerClass task capability);
        let capacityScore := clampRouterScore (1 - pressure)%float in
        mret (clampRouterScore (weight * 0.30 + priority * 0.20 + errorPenalty * 0.18 +
                                loadScore * 0.16 + capacityScore * 0.16)%float)
    end.

Definition retrievalScore (info : AgentInfo) (task : Task) (complexity : Complexity) : float :=
  let kpi := match retriever with
             | None => zero_kpi
             | Some retrieve => default zero_kpi (retrieve task) end in
  let heavyRetrieval := high_complexity complexity || bool_decide (Type_ task = TaskTypeResearch) ||
    bool_decide (Type_ task = TaskTypeReview) || String.eqb (Tier kpi) "high" ||
    (0.55 <=? CoverageRatio kpi)%float || (3 <=? PackedCount kpi) in
  if negb heavyRetrieval then 0.5%float
  else
    let name := ToLower (InfoModelName info) in
    let provider := ToLower (InfoProvider info) in
    let agentType := ToLower (InfoType info) in
    let score := 0.35%float in
    let score := plus_if (mem_string provider ["openai"; "codexsale"]) 0.25 score in
    let score := plus_if (mem_string provider ["ai_kernel"; "local"]) 0.08 score in
    let score := plus_if (existsb (Contains agentType) ["research"; "review"; "analysis"]) 0.18 score in
    let score := plus_if (existsb (Contains name) ["gpt"; "claude"; "gemini"; "qwen"; "mistral"]) 0.18 score in
    let score := minus_if (Contains name "mini") 0.12 score in
    let score := plus_if (String.eqb (Tier kpi) "high") 0.1 score in
    let score := plus_if (0.6 <=? CoverageRatio kpi)%float 0.08 score in
    let score := plus_if (0.35 <=? TruncationRatio kpi)%float 0.06 score in
    clampRouterScore score.

Definition realtimeQualityScore (info : AgentInfo) : float :=
  match liveRealtime with
  | None => 0.5%float
  | Some collector =>
      match ModelSummary (InfoProvider info) (InfoModelName info) collector with
      | None => 0.5%float
      | Some summary =>
          let transportScore :=
            (if (0 <? SumNativeStreamSessions summary)%Z then 1
             else if (0 <? SumPseudoRealtimeSessions summary)%Z then 0.7
             else if (0 <? SumBufferedSessions summary)%Z then 0.25 else 0.35)%float in
          let speed ms scale := (if (0 <? ms)%Z then 1 / (1 + float_of_int ms / scale) else 1)%float in
          let ttftScore := speed (SumAvgTimeToFirstTokenMS summary) 600%float in
          let completionScore := speed (SumAvgTotalCompletionMS summary) 4000%float in
          let failurePenalty := (1 - SumFailureRate summary)%float in
          let failurePenalty := (if failurePenalty <? 0 then 0 else failurePenalty)%float in
          (0.35 * transportScore + 0.25 * ttftScore + 0.20 * completionScore + 0.20 * failurePenalty)%float
      end
  end.

Definition scoreAgent (agent : Agent) (task : Task) (capability : string) (complexity : Complexity)
  (risk : RiskEvaluation) : RT float :=
  let info := Info agent in
  let policyScore := policyScore agent task capability complexity risk in
  let historyScore := historyScore info task in
  runtimeScore ← runtimeScore info task capability;
  let retrievalScore := retrievalScore info task complexity in
  let realtimeScore := realtimeQualityScore info in
  let finalScore := (0.39 * policyScore + 0.18 * historyScore + 0.20 * runtimeScore +
                     0.11 * retrievalScore + 0.12 * realtimeScore)%float in
  mret (finalScore * 100)%float.

(** ** Routing *)
Definition accepted (task : Task) (plan : ExecutionPlan) (agent : Agent) (capability reason : string)
  : TaskAcceptance :=
  let info := Info agent in
  let assignedModel := TrimSpace (AssignedModel task) in
  let modelName :=
    if negb (String.eqb assignedModel "") && candidateMatchesAssignedModel agent assignedModel
    then assignedModel else InfoModelName info in
  mkTaskAcceptance (ID task) TaskStatusAccepted (InfoID info) (PlanComplexity plan) reason capability
    (InfoProvider info) modelName (SelRequiresSecondaryReview (Selection plan)) now.
Definition rejected (task : Task) (complexity : Complexity) (capability reason : string) : TaskAcceptance :=
  mkTaskAcceptance (ID task) TaskStatusRejected "" complexity reason capability "" "" false now.

Abbreviation routing := (TaskAcceptance * option Agent)%type.

(** The named agent when it is not excluded, registered and can take the task. *)
Definition try_agent (task : Task) (exclude : gset string) (capability id : string) : RT (option Agent) :=
  if decide (id ∈ exclude) then mret None
  else
    agent ← gets (fun m => AgentByID id (registry m));
    match agent with
    | None => mret None
    | Some agent =>
        ok ← canRouteAgent task agent capability;
        mret (if ok : bool then Some agent else None)
    end.

(** The loops over the registered agents. *)
Fixpoint collect_candidates (task : Task) (exclude : gset string) (capability : string)
  (agents : list Agent) : RT (list Agent) :=
  match agents with
  | [] => mret []
  | agent :: agents =>
      if decide (InfoID (Info agent) ∈ exclude) then collect_candidates task exclude capability agents
      else
        ok ← canRouteAgent task agent capability;
        rest ← collect_candidates task exclude capability agents;
        mret (if ok : bool then agent :: rest else rest)
  end.

(** Keeps the first candidate with the highest score above the starting score. *)
Fixpoint best_candidate (score : Agent -> RT float) (candidates : list Agent)
  (best : option Agent) (bestScore : float) : RT (option Agent) :=
  match candidates with
  | [] => mret best
  | candidate :: candidates =>
      s ← score candidate;
      if (bestScore <? s)%float then best_candidate score candidates (Some candidate) s
      else best_candidate score candidates best bestScore
  end.
Definition lowest_score : float := (-1e9)%float.

Definition route_capability (task : Task) (plan : ExecutionPlan) : string :=
  if String.eqb (PrimaryCapability plan) "" then resolvedCapability task else PrimaryCapability plan.

(** The reason of a rejection for want of candidates. *)
Definition no_candidate_reason (task : Task) (capability : string) : string :=
  if negb (String.eqb (TrimSpace (AssignedModel task)) "")
  then "no available agent matched assigned model " +:+ AssignedModel task
  else if negb (String.eqb (TrimSpace (AssignedProvider task)) "")
  then "no available agent matched assigned provider " +:+ AssignedProvider task
  else "no available agent for capability " +:+ capability.

(** Scored routing over all agents, the end of [route]. *)
Definition route_scored (task : Task) (plan : ExecutionPlan) (exclude : gset string) : RT routing :=
  let capability := route_capability task plan in
  let complexity := PlanComplexity plan in
  let relaxAssignedProvider := bool_decide (exclude <> ∅) in
  agents ← gets (fun m => Agents (registry m));
  candidates ← collect_candidates task exclude capability agents;
  let candidates := filterCandidatesByAssignedProvider task candidates relaxAssignedProvider in
  let candidates := filterCandidatesByAssignedModel task candidates
                      (relaxAssignedProvider || shouldRelaxAssignedProvider task) in
  if (length candidates =? 0)%nat
  then mret (rejected task complexity capability (no_candidate_reason task capability), None)
  else
    let risk := EvaluateRiskContext (taskText task) in
    best ← best_candidate (fun c => scoreAgent c task capability complexity risk) candidates None lowest_score;
    mret match best with
    | None => (rejected task complexity capability ("no healthy agent selected for capability " +:+ capability), None)
    | Some best => (accepted task plan best capability "policy routing", Some best)
    end.

Definition route (task : Task) (plan : ExecutionPlan) (exclude : gset string) : RT routing :=
  let capability := route_capability task plan in
  let preferred := preferredAgentID (RoutingHints task) in
  first ← (if String.eqb preferred "" then mret None else try_agent task exclude capability preferred);
  match first with
  | Some agent => mret (accepted task plan agent capability "preferred agent routing", Some agent)
  | None =>
      second ← (if routeModeOrchestrator (RoutingHints task)
                then try_agent task exclude capability "orchestrator" else mret None);
      match second with
      | Some agent => mret (accepted task plan agent capability "orchestrator route override", Some agent)
      | None =>
          third ← (if isSourcecraftWork task
                   then try_agent task exclude capability "orchestrator" else mret None);
          match third with
          | Some agent => mret (accepted task plan agent capability "sourcecraft route", Some agent)
          | None => route_scored task plan exclude
          end
      end
  end.
Definition Route (task : Task) (plan : ExecutionPlan) : RT routing := route task plan ∅.
Definition RouteExcluding (task : Task) (plan : ExecutionPlan) (exclude : gset string) : RT routing :=
  route task plan exclude.

(** The normalised providers in order of first mention. *)
Fixpoint ordered_providers (providers seen : list string) : list string :=
  match providers with
  | [] => seen
  | provider :: providers =>
      let trimmed := ToLower (TrimSpace provider) in
      if String.eqb trimmed "" || mem_string trimmed seen then ordered_providers providers seen
      else ordered_providers providers (seen ++ [trimmed])
  end.
Fixpoint rank_of (provider : string) (ranks : list string) : option Z :=
  match ranks with
  | [] => None
  | p :: ranks => if String.eqb provider p then Some 0 else Z.succ <$> rank_of provider ranks
  end.

Fixpoint best_within (task : Task) (capability : string) (complexity : Complexity) (risk : RiskEvaluation)
  (orderedProviders : list string) (exclude : gset string) (agents : list Agent)
  (best : option Agent) (bestScore : float) : RT (option Agent) :=
  match agents with
  | [] => mret best
  | candidate :: agents =>
      let next := best_within task capability complexity risk orderedProviders exclude agents in
      let info := Info candidate in
      if decide (InfoID info ∈ exclude) then next best bestScore
      else match rank_of (ToLower (TrimSpace (InfoProvider info))) orderedProviders with
      | None => next best bestScore
      | Some rank =>
          ok ← canRouteAgent task candidate capability;
          if negb ok then next best bestScore
          else
            s ← scoreAgent candidate task capability complexity risk;
            let score := (s - float_of_int (rank * 15))%float in
            if (bestScore <? score)%float then next (Some candidate) score else next best bestScore
      end
  end.

(** The zero acceptance when no provider is named. *)
Definition RouteWithinProviders (task : Task) (plan : ExecutionPlan) (providers : list string)
  (exclude : gset string) : RT (option TaskAcceptance * option Agent) :=
  let capability := route_capability task plan in
  let complexity := PlanComplexity plan in
  let orderedProviders := ordered_providers providers [] in
  if (length orderedProviders =? 0)%nat then mret (None, None)
  else
    let risk := EvaluateRiskContext (taskText task) in
    agents ← gets (fun m => Agents (registry m));
    best ← best_within task capability complexity risk orderedProviders exclude agents None lowest_score;
    mret match best with
    | None => (Some (rejected task complexity capability "no available agent matched fallback providers"), None)
    | Some best => (Some (accepted task plan best capability "budget fallback routing"), Some best)
    end.
End Router.
