(* ===== verification/RouterProps.v ===== *)
(** * Properties of the router

    Routing equals a reference that makes every decision on the runtime as it was at the start;
    from the reference follow what an accepted and a rejected routing mean, that the best scored
    candidate wins, and what happens to a lane whose suppression has run out. *)
From S2P Require Import Prelude GoLib GoJSON Domain TaskPolicy StateMonad AgentRegistry RuntimeManager RuntimeViews.
From S2P Require Import RuntimeManagerProps LiveRealtime Router.
From Stdlib Require Import PrimFloat.

(** ** The best of a list *)
Fixpoint pick {A} (score : A -> float) (l : list A) (best : option A) (bestScore : float) : option A :=
  match l with
  | [] => best
  | c :: l => if (bestScore <? score c)%float then pick score l (Some c) (score c)
              else pick score l best bestScore
  end.

(** [a] is in the list, above the floor, strictly above what precedes it and not below what
    follows. *)
Definition best_of {A} (score : A -> float) (floor : float) (l : list A) (a : A) : Prop :=
  exists l1 l2, l = l1 ++ a :: l2 /\ (floor <? score a)%float = true /\
    Forall (fun b => (score a <=? score b)%float = false) l1 /\
    Forall (fun b => (score a <? score b)%float = false) l2.

Lemma pick_spec {A} (score : A -> float) l best floor :
  (pick score l best floor = best /\ Forall (fun b => (floor <? score b)%float = false) l) \/
  (exists a, pick score l best floor = Some a /\ best_of score floor l a).
Proof.
  revert best floor. induction l as [|c l IH]; intros best floor; [by left|]. cbn.
  destruct (floor <? score c)%float eqn:Hc.
  - right. destruct (IH (Some c) (score c)) as [[-> Hl]|(a & -> & l1 & l2 & -> & Ha & H1 & H2)].
    + exists c. split; [done|]. by exists [], l.
    + exists a. split; [done|]. exists (c :: l1), l2. split_and!; [done| | |done].
      * by eapply float_ltb_trans.
      * constructor; [by apply float_ltb_leb|done].
  - destruct (IH best floor) as [[-> Hl]|(a & -> & l1 & l2 & -> & Ha & H1 & H2)].
    + left. split; [done|by constructor].
    + right. exists a. split; [done|]. exists (c :: l1), l2. split_and!; [done|done| |done].
      constructor; [|done]. destruct (score a <=? score c)%float eqn:E; [|done].
      by rewrite (float_ltb_leb_trans _ _ _ Ha E) in Hc.
Qed.

Section RouterProps.
Context (ParseFloat : string -> option float).
Context (providerRegistry : option (string -> option ProviderCatalogSnapshot)).
Context (hasRuntime : bool).
Context (routeMemory : option (Task -> AgentInfo -> option float)).
Context (retriever : option (Task -> option RetrievalKPI)).
Context (liveRealtime : option Collector).
Context (now : Time).

Abbreviation canRouteAgent := (canRouteAgent hasRuntime now).
Abbreviation scoreAgent :=
  (scoreAgent ParseFloat providerRegistry hasRuntime routeMemory retriever liveRealtime now).
Abbreviation route := (route ParseFloat providerRegistry hasRuntime routeMemory retriever liveRealtime now).
Abbreviation accepted := (accepted providerRegistry hasRuntime now).
Abbreviation rejected := (rejected now).
Abbreviation try_agent := (try_agent hasRuntime now).
Abbreviation collect_candidates := (collect_candidates hasRuntime now).

(** ** The reference *)
Section Reference.
Context (task : Task) (plan : ExecutionPlan) (exclude : gset string) (m : Runtime).

Definition can_take (a : Agent) : bool := eval (canRouteAgent task a (route_capability task plan)) m.
Definition named_agent (id : string) : option Agent :=
  if decide (id ∈ exclude) then None
  else a ← agents (registry m) !! id; if can_take a then Some a else None.

(** The agents that compete, in order of their ids. *)
Definition competing : list Agent :=
  let relax := bool_decide (exclude <> ∅) in
  filterCandidatesByAssignedModel providerRegistry hasRuntime now task
    (filterCandidatesByAssignedProvider task
       (List.filter (fun a => bool_decide (InfoID (Info a) ∉ exclude) && can_take a) (Agents (registry m))) relax)
    (relax || shouldRelaxAssignedProvider task).
Definition score_of (a : Agent) : float :=
  eval (scoreAgent a task (route_capability task plan) (PlanComplexity plan) (EvaluateRiskContext (taskText task))) m.

Definition route_reference : TaskAcceptance * option Agent :=
  let capability := route_capability task plan in
  let accept reason a := (accepted task plan a capability reason, Some a) in
  let preferred := preferredAgentID (RoutingHints task) in
  match (if String.eqb preferred "" then None else named_agent preferred) with
  | Some a => accept "preferred agent routing" a
  | None =>
      match (if routeModeOrchestrator (RoutingHints task) then named_agent "orchestrator" else None) with
      | Some a => accept "orchestrator route override" a
      | None =>
          match (if isSourcecraftWork task then named_agent "orchestrator" else None) with
          | Some a => accept "sourcecraft route" a
          | None =>
              match pick score_of competing None lowest_score with
              | Some a => accept "policy routing" a
              | None =>
                  (rejected task (PlanComplexity plan) capability
                     (if (length competing =? 0)%nat then no_candidate_reason task capability
                      else "no healthy agent selected for capability " +:+ capability), None)
              end
          end
      end
  end.
End Reference.

(** ** Routing reads *)
Section Reads.
Context (ags : gmap string Agent) (ws : gmap string float).
Abbreviation Reader := (Reader now ags ws).
Abbreviation settled := (settled ags ws).

Lemma reader_canRouteAgent task a capability :
  is_Some (ags !! InfoID (Info a)) -> Reader (canRouteAgent task a capability).
Proof.
  intros Ha. pose proof (reader_RoutingWeight now ags ws _ Ha). unfold Router.canRouteAgent. apply _.
Qed.

Lemma reader_scoreAgent a task capability complexity risk :
  is_Some (ags !! InfoID (Info a)) -> Reader (scoreAgent a task capability complexity risk).
Proof.
  intros Ha. pose proof (reader_RoutingWeight now ags ws _ Ha). unfold Router.scoreAgent, runtimeScore. apply _.
Qed.

Lemma reader_try_agent task exclude capability id :
  (forall i a, ags !! i = Some a -> InfoID (Info a) = i) -> Reader (try_agent task exclude capability id).
Proof.
  intros Hf. unfold Router.try_agent. apply reader_decide; [apply _|].
  apply reader_bind_at; [apply _|]. intros m Hm. rewrite eval_gets. unfold AgentByID.
  destruct (agents (registry m) !! id) as [a|] eqn:Ha; [|apply _].
  rewrite (se_agents _ _ _ Hm) in Ha. assert (is_Some (ags !! InfoID (Info a))) as Hi by (rewrite (Hf _ _ Ha); eauto).
  pose proof (reader_canRouteAgent task a capability Hi). apply _.
Qed.

Lemma try_agent_value task exclude capability id m :
  settled m -> eval (try_agent task exclude capability id) m =
  (if decide (id ∈ exclude) then None
   else a ← agents (registry m) !! id; if eval (canRouteAgent task a capability) m then Some a else None).
Proof.
  intros Hm. unfold Router.try_agent. case_decide; [done|].
  rewrite eval_bind, eval_gets, exec_gets. unfold AgentByID.
  destruct (agents (registry m) !! id) as [a|]; [|done]. cbn. by rewrite eval_bind.
Qed.

Definition all_registered (l : list Agent) : Prop := Forall (fun a => is_Some (ags !! InfoID (Info a))) l.

Lemma reader_collect task exclude capability l :
  all_registered l -> Reader (collect_candidates task exclude capability l).
Proof.
  induction 1 as [|a l Ha Hl IH]; cbn; [apply _|].
  pose proof (reader_canRouteAgent task a capability Ha). apply _.
Qed.

Lemma collect_value task exclude capability l m :
  settled m -> all_registered l ->
  eval (collect_candidates task exclude capability l) m =
  List.filter (fun a => bool_decide (InfoID (Info a) ∉ exclude) && eval (canRouteAgent task a capability) m) l.
Proof.
  intros Hm. induction 1 as [|a l Ha Hl IH]; [done|]. cbn.
  pose proof (reader_canRouteAgent task a capability Ha). pose proof (reader_collect task exclude capability l Hl).
  case_decide as Hd.
  - rewrite bool_decide_eq_false_2 by tauto. done.
  - rewrite bool_decide_eq_true_2 by done. rewrite (reader_bind_value now ags ws) by (done || apply _).
    rewrite (reader_bind_value now ags ws) by (done || apply _). rewrite IH, eval_ret. cbn.
    by destruct (eval (canRouteAgent task a capability) m).
Qed.

Lemma reader_best (score : Agent -> RT float) l best floor :
  Forall (fun a => Reader (score a)) l -> Reader (best_candidate score l best floor).
Proof.
  intros Hl. revert best floor. induction Hl as [|a l Ha Hl IH]; intros best floor; cbn; [apply _|].
  apply reader_bind; [done|]. intros s. by apply reader_if.
Qed.

Lemma best_value (score : Agent -> RT float) l best floor m :
  settled m -> Forall (fun a => Reader (score a)) l ->
  eval (best_candidate score l best floor) m = pick (fun a => eval (score a) m) l best floor.
Proof.
  intros Hm Hl. revert best floor. induction Hl as [|a l Ha Hl IH]; intros best floor; [done|]. cbn.
  rewrite (reader_bind_value now ags ws); [|done..|apply reader_if; by apply reader_best].
  by destruct (floor <? eval (score a) m)%float.
Qed.

Lemma all_registered_filter (f : Agent -> bool) l : all_registered l -> all_registered (List.filter f l).
Proof.
  unfold all_registered. induction 1 as [|a l Ha Hl IH]; cbn; [done|]. destruct (f a); [by constructor|done].
Qed.
Lemma all_registered_competing task l relax relax' :
  all_registered l -> all_registered (filterCandidatesByAssignedModel providerRegistry hasRuntime now task
                        (filterCandidatesByAssignedProvider task l relax) relax').
Proof.
  intros Hl. unfold filterCandidatesByAssignedModel, filterCandidatesByAssignedProvider.
  destruct (_ || relax'), (_ || shouldRelaxAssignedProvider task); auto using all_registered_filter.
Qed.

Lemma all_registered_Agents m : settled m -> all_registered (Agents (registry m)).
Proof.
  intros Hm. apply Forall_forall. intros a Ha%(elem_of_Agents _ _ (se_ok _ _ _ Hm)).
  rewrite <- (se_agents _ _ _ Hm). eauto.
Qed.

Abbreviation route_scored :=
  (route_scored ParseFloat providerRegistry hasRuntime routeMemory retriever liveRealtime now).

Lemma route_scored_reads task plan exclude :
  Reader (route_scored task plan exclude) /\
  forall m, settled m -> eval (route_scored task plan exclude) m =
    let capability := route_capability task plan in
    match pick (score_of task plan m) (competing task plan exclude m) None lowest_score with
    | Some a => (accepted task plan a capability "policy routing", Some a)
    | None =>
        (rejected task (PlanComplexity plan) capability
           (if (length (competing task plan exclude m) =? 0)%nat then no_candidate_reason task capability
            else "no healthy agent selected for capability " +:+ capability), None)
    end.
Proof.
  assert (forall l, all_registered l -> Forall (fun a => Reader
    (scoreAgent a task (route_capability task plan) (PlanComplexity plan) (EvaluateRiskContext (taskText task)))) l) as Hsc.
  { intros l Hl. eapply Forall_impl; [exact Hl|]. intros a. apply reader_scoreAgent. }
  unfold Router.route_scored. split.
  - apply reader_bind_at; [apply _|]. intros m Hm. rewrite eval_gets.
    pose proof (all_registered_Agents m Hm) as Hag.
    pose proof (reader_collect task exclude (route_capability task plan) _ Hag).
    apply reader_bind_at; [done|]. intros m' Hm'. rewrite (collect_value _ _ _ _ m' Hm' Hag).
    apply reader_if; [apply _|]. apply reader_bind; [|intros; apply _].
    apply reader_best, Hsc. by apply all_registered_competing, all_registered_filter.
  - intros m Hm. pose proof (all_registered_Agents m Hm) as Hag.
    rewrite eval_bind, eval_gets, exec_gets.
    pose proof (reader_collect task exclude (route_capability task plan) _ Hag) as Hr1.
    assert (forall l, all_registered l ->
      Reader (best_candidate (fun c => scoreAgent c task (route_capability task plan) (PlanComplexity plan)
                (EvaluateRiskContext (taskText task))) l None lowest_score)) as Hrb
      by (intros l Hl; by apply reader_best, Hsc).
    rewrite (reader_bind_value now ags ws); [|done..|].
    + rewrite collect_value by done.
      change (filterCandidatesByAssignedModel _ _ _ _ _ _) with (competing task plan exclude m).
      assert (all_registered (competing task plan exclude m)) as Hc
        by by apply all_registered_competing, all_registered_filter.
      cbv zeta. destruct (length (competing task plan exclude m) =? 0)%nat eqn:Hz.
      * apply Nat.eqb_eq in Hz. apply length_zero_iff_nil in Hz. by rewrite Hz.
      * rewrite eval_bind, best_value by auto. fold (score_of task plan m). by destruct (pick _ _ _ _).
    + rewrite collect_value by done. apply reader_if; [apply _|]. apply reader_bind; [|intros; apply _].
      by apply Hrb, all_registered_competing, all_registered_filter.
Qed.

Lemma route_reads task plan exclude m :
  settled m -> same_view now m (exec (route task plan exclude) m) /\
  eval (route task plan exclude) m = route_reference task plan exclude m.
Proof.
  intros Hm. destruct (route_scored_reads task plan exclude) as [Hrs Hvs].
  assert (forall i a, ags !! i = Some a -> InfoID (Info a) = i) as Hf
    by (rewrite <- (se_agents _ _ _ Hm); apply (agents_filed _ (se_ok _ _ _ Hm))).
  set (cap := route_capability task plan).
  pose proof (fun id => reader_try_agent task exclude cap id Hf) as Htry.
  unfold Router.route. fold cap. split.
  - by apply (reader_state now ags ws).
  - unfold route_reference. fold cap.
    assert (forall id, eval (try_agent task exclude cap id) m = named_agent task plan exclude m id) as Hn
      by (intros id; by apply try_agent_value).
    rewrite (reader_bind_value now ags ws) by (done || apply _).
    assert (forall (b : bool) (f g : RT (option Agent)), eval (if b then f else g) m = if b then eval f m else eval g m)
      as Hif by (intros []; done).
    rewrite Hif, eval_ret, Hn.
    destruct (if String.eqb _ _ then _ else _); [done|].
    rewrite (reader_bind_value now ags ws) by (done || apply _). rewrite Hif, eval_ret, Hn.
    destruct (if routeModeOrchestrator _ then _ else _); [done|].
    rewrite (reader_bind_value now ags ws) by (done || apply _). rewrite Hif, eval_ret, Hn.
    destruct (if isSourcecraftWork _ then _ else _); [done|].
    by apply Hvs.
Qed.

(** *** Routing within a list of providers *)
Abbreviation best_within :=
  (best_within ParseFloat providerRegistry hasRuntime routeMemory retriever liveRealtime now).

Definition penalised (task : Task) (plan : ExecutionPlan) (ranks : list string) (m : Runtime) (a : Agent) : float :=
  (score_of task plan m a -
   float_of_int (default 0 (rank_of (ToLower (TrimSpace (InfoProvider (Info a)))) ranks) * 15)%Z)%float.
Definition within (ranks : list string) (a : Agent) : bool :=
  bool_decide (is_Some (rank_of (ToLower (TrimSpace (InfoProvider (Info a)))) ranks)).

Lemma best_within_reads task plan ranks exclude l :
  all_registered l -> forall best floor,
  let f := best_within task (route_capability task plan) (PlanComplexity plan)
             (EvaluateRiskContext (taskText task)) ranks exclude l best floor in
  Reader f /\ forall m, settled m -> eval f m =
    pick (penalised task plan ranks m)
      (List.filter (fun a => bool_decide (InfoID (Info a) ∉ exclude) && within ranks a && can_take task plan m a) l)
      best floor.
Proof.
  induction 1 as [|a l Ha Hl IH]; intros best floor; cbn zeta.
  { split; [apply _|done]. }
  cbn [Router.best_within List.filter]. case_decide as Hx.
  { rewrite bool_decide_eq_false_2 by tauto. apply IH. }
  rewrite bool_decide_eq_true_2 by done. unfold within at 1 2. cbn [andb].
  destruct (rank_of _ ranks) as [rank|] eqn:Hrank; [|rewrite bool_decide_eq_false_2 by (by intros []); apply IH].
  rewrite bool_decide_eq_true_2 by eauto. cbn [andb].
  pose proof (reader_canRouteAgent task a (route_capability task plan) Ha) as Hc.
  pose proof (reader_scoreAgent a task (route_capability task plan) (PlanComplexity plan)
    (EvaluateRiskContext (taskText task)) Ha) as Hs.
  assert (forall best floor, Reader (best_within task (route_capability task plan) (PlanComplexity plan)
    (EvaluateRiskContext (taskText task)) ranks exclude l best floor)) as Hn by (intros; apply IH).
  split; [apply _|]. intros m Hm. rewrite (reader_bind_value now ags ws) by (done || apply _).
  unfold can_take at 1. destruct (eval (canRouteAgent task a _) m); cbn [negb]; [|by apply IH].
  rewrite (reader_bind_value now ags ws) by (done || apply _). cbn [pick].
  assert (penalised task plan ranks m a = (score_of task plan m a - float_of_int (rank * 15))%float) as ->
    by (unfold penalised; by rewrite Hrank).
  unfold score_of at 1 2. destruct (floor <? _)%float; by apply IH.
Qed.

Lemma RouteWithinProviders_reads task plan providers exclude m :
  settled m ->
  let f := RouteWithinProviders ParseFloat providerRegistry hasRuntime routeMemory retriever liveRealtime now
             task plan providers exclude in
  let ranks := ordered_providers providers [] in
  same_view now m (exec f m) /\ eval f m =
    if (length ranks =? 0)%nat then (None, None)
    else match pick (penalised task plan ranks m)
                 (List.filter (fun a => bool_decide (InfoID (Info a) ∉ exclude) && within ranks a && can_take task plan m a)
                    (Agents (registry m))) None lowest_score with
         | Some a => (Some (accepted task plan a (route_capability task plan) "budget fallback routing"), Some a)
         | None => (Some (rejected task (PlanComplexity plan) (route_capability task plan)
                            "no available agent matched fallback providers"), None)
         end.
Proof.
  intros Hm f ranks. unfold f, RouteWithinProviders. fold ranks.
  destruct (length ranks =? 0)%nat; [done|].
  pose proof (fun m Hm => best_within_reads task plan ranks exclude _ (all_registered_Agents m Hm) None lowest_score) as Hb.
  split.
  - eapply @reader_state; [|exact Hm]. apply reader_bind_at; [apply _|].
    intros m' Hm'. rewrite eval_gets. destruct (Hb m' Hm'). apply _.
  - rewrite eval_bind, eval_gets, exec_gets. destruct (Hb m Hm) as [Hr Hv].
    rewrite eval_bind, Hv by done. by destruct (pick _ _ _ _).
Qed.
End Reads.

Lemma rank_of_elem p ranks r : rank_of p ranks = Some r -> p ∈ ranks.
Proof.
  revert r. induction ranks as [|q ranks IH]; intros r; cbn; [done|].
  destruct (String.eqb_spec p q) as [->|]; [by left|]. destruct (rank_of p ranks); [|done]. right. by eapply IH.
Qed.

(** ** What routing guarantees *)

(** Every registered agent has a lane and a cached weight; [RefreshRoutingWeights] gives this. *)
Definition ready (m : Runtime) : Prop :=
  registry_ok (registry m) /\
  forall id, is_Some (agents (registry m) !! id) ->
    is_Some (runtimeStates (registry m) !! id) /\ is_Some (routingWeights m !! id).

Lemma ready_settled m : ready m -> settled (agents (registry m)) (routingWeights m) m.
Proof. intros [Hok H]. split; [done|done|done|..]; intros id Hi; by apply H. Qed.

(** C9: Routing decides on one consistent view.  Although it reads lanes one after the other and
    writes normalised states back on the way, its result is that of the reference, which takes every
    decision (who can take the task, every score) on the runtime as it was when routing began; and
    it leaves a runtime that no later read can tell from the one it found. *)
Theorem route_equals_reference task plan exclude m : ready m ->
  eval (route task plan exclude) m = route_reference task plan exclude m /\
  same_view now m (exec (route task plan exclude) m).
Proof. intros Hm. destruct (route_reads _ _ task plan exclude m (ready_settled m Hm)). by split. Qed.

(** An agent can take a task when it declares itself routable, its lane lets tasks through at a
    positive weight, it has the capability and accepts the task itself. *)
Lemma can_take_spec task plan m a : ready m -> agents (registry m) !! InfoID (Info a) = Some a ->
  can_take task plan m a =
    isAgentRoutable (InfoStatus (Info a)) &&
    (negb hasRuntime || (eval (Allows now (Info a)) m &&
       negb (default 0%float (routingWeights m !! InfoID (Info a)) <=? 0)%float)) &&
    supportsCapability (Capabilities (Info a)) (route_capability task plan) && CanAccept a task.
Proof.
  intros Hm Ha. pose proof (ready_settled m Hm) as Hs.
  assert (is_Some (agents (registry m) !! InfoID (Info a))) as Hi by eauto.
  pose proof (reader_RoutingWeight now _ (routingWeights m) _ Hi) as Hr.
  assert (eval (RoutingWeight now (InfoID (Info a))) m = default 0%float (routingWeights m !! InfoID (Info a))) as Hw.
  { destruct (proj2 (proj2 Hm _ Hi)) as [w Hwt]. unfold RoutingWeight, get, eval, mbind, st_bind. cbn. by rewrite Hwt. }
  unfold can_take, Router.canRouteAgent. destruct (isAgentRoutable _); [|done]. cbn [negb andb].
  rewrite eval_bind, eval_ret. destruct hasRuntime; cbn [negb orb].
  - rewrite (reader_bind_value now (agents (registry m)) (routingWeights m)) by (done || apply _).
    destruct (eval (Allows now (Info a)) m); cbn [negb andb]; [|done].
    rewrite eval_bind, Hw, eval_ret. destruct (_ <=? _)%float; [done|]. cbn [negb].
    by destruct (supportsCapability _ _).
  - rewrite eval_ret. cbn [negb]. by destruct (supportsCapability _ _).
Qed.

(** A candidate of the scored routing: it can take the task and matches the assigned provider and
    model, unless the task has peer failures or agents to avoid, which relaxes both. *)
Definition relaxed (task : Task) (exclude : gset string) : bool :=
  bool_decide (exclude <> ∅) || shouldRelaxAssignedProvider task.
Definition matches_assignment (task : Task) (exclude : gset string) (a : Agent) : bool :=
  relaxed task exclude ||
  ((String.eqb (TrimSpace (AssignedProvider task)) "" ||
    EqualFold (TrimSpace (InfoProvider (Info a))) (TrimSpace (AssignedProvider task))) &&
   (String.eqb (TrimSpace (AssignedModel task)) "" ||
    candidateMatchesAssignedModel providerRegistry hasRuntime now a (TrimSpace (AssignedModel task)))).

Lemma filter_filter {A} (f g : A -> bool) l :
  List.filter f (List.filter g l) = List.filter (fun x => g x && f x) l.
Proof. induction l as [|x l IH]; [done|]. cbn. destruct (g x); cbn; rewrite IH; done. Qed.
Lemma filter_true {A} (l : list A) : l = List.filter (fun _ => true) l.
Proof. induction l as [|x l IH]; [done|]. cbn. by f_equal. Qed.

Lemma competing_spec task plan exclude m :
  competing task plan exclude m =
  List.filter (fun a => bool_decide (InfoID (Info a) ∉ exclude) && can_take task plan m a &&
                        matches_assignment task exclude a) (Agents (registry m)).
Proof.
  unfold competing, filterCandidatesByAssignedModel, filterCandidatesByAssignedProvider, matches_assignment, relaxed.
  cbv zeta. set (l := List.filter _ (Agents (registry m))).
  destruct (bool_decide (exclude <> ∅)) eqn:Hx, (shouldRelaxAssignedProvider task) eqn:Hr,
    (String.eqb (TrimSpace (AssignedProvider task)) "") eqn:Hp, (String.eqb (TrimSpace (AssignedModel task)) "") eqn:Hmo;
    cbn [orb andb]; subst l; rewrite ?filter_filter; apply filter_ext; intros a;
    repeat match goal with |- context [bool_decide ?P] => destruct (bool_decide P) end;
    destruct (can_take task plan m a); cbn [andb]; rewrite ?andb_true_r; done.
Qed.

Lemma elem_of_competing task plan exclude m a : registry_ok (registry m) ->
  a ∈ competing task plan exclude m <->
  agents (registry m) !! InfoID (Info a) = Some a /\ InfoID (Info a) ∉ exclude /\
  can_take task plan m a = true /\ matches_assignment task exclude a = true.
Proof.
  intros Hok. rewrite competing_spec, list_elem_of_In, filter_In, <- list_elem_of_In, elem_of_Agents by done.
  rewrite !andb_true_iff, bool_decide_eq_true. tauto.
Qed.

Lemma named_agent_spec task plan exclude m id a : registry_ok (registry m) ->
  named_agent task plan exclude m id = Some a ->
  agents (registry m) !! InfoID (Info a) = Some a /\ InfoID (Info a) = id /\ InfoID (Info a) ∉ exclude /\
  can_take task plan m a = true.
Proof.
  intros Hok. unfold named_agent. case_decide; [done|]. destruct (agents (registry m) !! id) as [b|] eqn:Hb; [|done].
  cbn. destruct (can_take task plan m b) eqn:Hc; [|done]. intros [= ->].
  by rewrite (agents_filed _ Hok _ _ Hb).
Qed.

Lemma route_reference_cases task plan exclude m :
  let preferred := preferredAgentID (RoutingHints task) in
  let capability := route_capability task plan in
  (exists a reason, route_reference task plan exclude m = (accepted task plan a capability reason, Some a) /\
     (named_agent task plan exclude m preferred = Some a \/ named_agent task plan exclude m "orchestrator" = Some a)) \/
  ((preferred <> "" -> named_agent task plan exclude m preferred = None) /\
   match pick (score_of task plan m) (competing task plan exclude m) None lowest_score with
   | Some a => route_reference task plan exclude m = (accepted task plan a capability "policy routing", Some a)
   | None => exists reason, route_reference task plan exclude m = (rejected task (PlanComplexity plan) capability reason, None)
   end).
Proof.
  intros preferred capability. unfold route_reference. cbv zeta. fold preferred capability.
  destruct (named_agent task plan exclude m "orchestrator") as [o|];
    (destruct (String.eqb_spec preferred "") as [Hp|Hp]; [|destruct (named_agent task plan exclude m preferred) as [p|] eqn:Hn]);
    destruct (routeModeOrchestrator (RoutingHints task)), (isSourcecraftWork task);
    try (left; eexists _, _; split; [reflexivity|by auto]).
  all: right; split; [done|]; destruct (pick _ _ _ _); eauto.
Qed.

Lemma route_promise task plan exclude m : ready m ->
  let '(acc, chosen) := eval (route task plan exclude) m in
  let lowest := lowest_score in
  match chosen with
  | Some a =>
      (agents (registry m) !! InfoID (Info a) = Some a /\ InfoID (Info a) ∉ exclude /\ can_take task plan m a = true) /\
      (AccStatus acc = TaskStatusAccepted /\ AccTaskID acc = ID task /\ AccAgentID acc = InfoID (Info a) /\
       AccProvider acc = InfoProvider (Info a)) /\
      (InfoID (Info a) = preferredAgentID (RoutingHints task) \/ InfoID (Info a) = "orchestrator" \/
       matches_assignment task exclude a = true /\
       best_of (score_of task plan m) lowest (competing task plan exclude m) a)
  | None =>
      AccStatus acc = TaskStatusRejected /\
      (preferredAgentID (RoutingHints task) <> "" ->
       named_agent task plan exclude m (preferredAgentID (RoutingHints task)) = None) /\
      forall a, agents (registry m) !! InfoID (Info a) = Some a -> InfoID (Info a) ∉ exclude ->
        can_take task plan m a = true -> matches_assignment task exclude a = true ->
        (lowest <? score_of task plan m a)%float = false
  end.
Proof.
  intros Hm. rewrite (proj2 (route_reads _ _ task plan exclude m (ready_settled m Hm))).
  pose proof (proj1 Hm) as Hok.
  destruct (route_reference_cases task plan exclude m) as [(a & reason & -> & Hn)|[Hp Hs]].
  { destruct Hn as [Hn|Hn]; apply (named_agent_spec _ _ _ _ _ _ Hok) in Hn as (? & ? & ? & ?);
      cbv beta iota zeta; split_and!; auto. }
  destruct (pick_spec (score_of task plan m) (competing task plan exclude m) None lowest_score)
    as [[Hnone Hl]|(a & Hsome & Hb)].
  - rewrite Hnone in Hs. destruct Hs as [reason ->]. cbv beta iota zeta. split_and!; [done|done|].
    intros a Ha Hx Hc Hma. eapply (proj1 (Forall_forall _ _) Hl). by apply elem_of_competing.
  - rewrite Hsome in Hs. rewrite Hs. cbv beta iota zeta.
    assert (a ∈ competing task plan exclude m) as Hin
      by (destruct Hb as (l1 & l2 & -> & _); apply elem_of_app; right; by left).
    apply (elem_of_competing _ _ _ _ _ Hok) in Hin as (Ha & Hx & Hc & Hma).
    split_and!; auto.
Qed.

(** C10: What routing promises.  An agent it returns is registered, not excluded and can take the task
    now, and the acceptance names it; it is the preferred agent, the orchestrator, or the best of the
    candidates: no candidate has a higher score, and none of the candidates with smaller ids reaches its score.
    When it returns none, the acceptance is a rejection, the preferred agent cannot take the task, and
    no registered agent that is not excluded, can take the task and matches its assignment has a
    score above the floor. *)
Theorem route_selects_best task plan exclude m : ready m ->
  let '(acc, chosen) := eval (route task plan exclude) m in
  let lowest := lowest_score in
  match chosen with
  | Some a =>
      (agents (registry m) !! InfoID (Info a) = Some a /\ InfoID (Info a) ∉ exclude /\ can_take task plan m a = true) /\
      (AccStatus acc = TaskStatusAccepted /\ AccTaskID acc = ID task /\ AccAgentID acc = InfoID (Info a) /\
       AccProvider acc = InfoProvider (Info a)) /\
      (InfoID (Info a) = preferredAgentID (RoutingHints task) \/ InfoID (Info a) = "orchestrator" \/
       matches_assignment task exclude a = true /\
       best_of (score_of task plan m) lowest (competing task plan exclude m) a)
  | None =>
      AccStatus acc = TaskStatusRejected /\
      (preferredAgentID (RoutingHints task) <> "" ->
       named_agent task plan exclude m (preferredAgentID (RoutingHints task)) = None) /\
      forall a, agents (registry m) !! InfoID (Info a) = Some a -> InfoID (Info a) ∉ exclude ->
        can_take task plan m a = true -> matches_assignment task exclude a = true ->
        (lowest <? score_of task plan m a)%float = false
  end.
Proof. exact (route_promise task plan exclude m). Qed.

(** Fallback routing within a list of providers.  It returns a registered agent of a listed
    provider that is not excluded and can take the task, the best one when every place a provider
    is further down the list costs fifteen points; it returns none exactly when there is no such
    agent with a score above the floor; and it too leaves the runtime as it was to every reader. *)
Theorem fallback_routes_best task plan providers exclude m : ready m ->
  let f := RouteWithinProviders ParseFloat providerRegistry hasRuntime routeMemory retriever liveRealtime now
             task plan providers exclude in
  let ranks := ordered_providers providers [] in
  let score := penalised task plan ranks m in
  same_view now m (exec f m) /\
  match (eval f m).2 with
  | Some a =>
      agents (registry m) !! InfoID (Info a) = Some a /\ InfoID (Info a) ∉ exclude /\
      can_take task plan m a = true /\ ToLower (TrimSpace (InfoProvider (Info a))) ∈ ranks /\
      exists l, best_of score lowest_score l a /\
        forall b, b ∈ l <-> agents (registry m) !! InfoID (Info b) = Some b /\ InfoID (Info b) ∉ exclude /\
          within ranks b = true /\ can_take task plan m b = true
  | None =>
      forall a, agents (registry m) !! InfoID (Info a) = Some a -> InfoID (Info a) ∉ exclude ->
        within ranks a = true -> can_take task plan m a = true -> (lowest_score <? score a)%float = false
  end.
Proof.
  intros Hm f ranks score.
  destruct (RouteWithinProviders_reads _ _ task plan providers exclude m (ready_settled m Hm)) as [Hv He].
  split; [done|]. fold f ranks in He. rewrite He. clear He Hv.
  set (l := List.filter _ _) in *.
  assert (forall b, b ∈ l <-> agents (registry m) !! InfoID (Info b) = Some b /\ InfoID (Info b) ∉ exclude /\
          within ranks b = true /\ can_take task plan m b = true) as Hl.
  { intros b. subst l. rewrite list_elem_of_In, filter_In, <- list_elem_of_In, elem_of_Agents by apply Hm.
    rewrite !andb_true_iff, bool_decide_eq_true. tauto. }
  destruct (length ranks =? 0)%nat eqn:Hz.
  { cbn. intros a _ _ Hw. apply Nat.eqb_eq, length_zero_iff_nil in Hz. unfold within in Hw. rewrite Hz in Hw. done. }
  destruct (pick_spec score l None lowest_score) as [[Hnone Hf]|(a & Hsome & Hb)]; fold score.
  - rewrite Hnone. cbn. intros a Ha Hx Hw Hc. eapply (proj1 (Forall_forall _ _) Hf). by apply Hl.
  - rewrite Hsome. cbn. assert (a ∈ l) as Ha by (destruct Hb as (l1 & l2 & -> & _); apply elem_of_app; right; by left).
    pose proof (proj1 (Hl a) Ha) as (Ha1 & Ha2 & Ha3 & Ha4). split_and!; [done..| |by exists l].
    unfold within in Ha3. apply bool_decide_eq_true in Ha3 as [r Hr]. by eapply rank_of_elem.
Qed.
End RouterProps.

(** ** Refreshing makes a runtime ready *)
Lemma refresh_loop_keys now infos w m id :
  is_Some (w !! id) \/ id ∈ map InfoID infos -> is_Some (eval (refresh_loop now infos w) m !! id).
Proof.
  revert w m. induction infos as [|i infos IH]; intros w m H.
  - destruct H as [H|H]; [done|]. by apply not_elem_of_nil in H.
  - cbn [refresh_loop]. st_simpl. apply IH. destruct (decide (InfoID i = id)) as [<-|Hne].
    + left. rewrite lookup_insert_eq. eauto.
    + rewrite lookup_insert_ne by done. cbn [map] in H. rewrite elem_of_cons in H. naive_solver.
Qed.

Lemma refreshed_ready now m lanes : tracks m lanes -> ready (exec (RefreshRoutingWeights now) m).
Proof.
  intros Ht. pose proof (Refresh_tracks now m lanes Ht) as Ht'. split; [apply Ht'|].
  intros id [a Ha]. destruct (tr_lane _ _ Ht' _ _ Ha) as (_ & _ & _ & s & Hs & _). split; [eauto|].
  rewrite Refresh_agents in Ha. unfold RefreshRoutingWeights. st_simpl. cbn [routingWeights field_map].
  apply refresh_loop_keys. right. eapply registered_AgentInfos; [apply Ht|done].
Qed.

(** ** Expired suppressions *)

(** A suppression that has run out keeps a lane out of routing.  Suppressing an agent caches the
    weight zero for it; when the suppression ends, [Allows] admits the agent again, but the cached weight
    is only recomputed by the next operation that changes some lane, so until then the router refuses
    the agent, at every later time and for every task. *)
Theorem expired_suppression_not_routed (t0 : Time) (ags : list Agent) (ops : list (Time * string * lane_op))
  (id reason : string) (seconds : Z) (t now : Time) (task : Task) (capability : string) (a : Agent) :
  Forall well_declared ags -> Forall (addressed (register_all t0 ags)) ops ->
  t < suppress_until t seconds -> suppress_until t seconds <= now ->
  let before := exec (run_ops ops) (NewRuntimeManager (register_all t0 ags)) in
  agents (registry before) !! id = Some a ->
  let m := exec (SuppressLane t id reason seconds) before in
  eval (Allows now (Info a)) m = true /\ eval (canRouteAgent true now task a capability) m = false.
Proof.
  intros Hw Hops Ht Hnow before Ha m.
  destruct (run_ops_tracks (declared (register_all t0 ags)) ops _ _ (fresh_tracks _ (register_all_fresh t0 ags Hw)) Hops)
    as [Htr Hag]; [intros j b Hj; unfold declared; cbn in Hj; by rewrite Hj|].
  fold before in Htr, Hag. set (lanes := foldl _ _ _) in Htr.
  assert (InfoID (Info a) = id) as Hid by apply (agents_filed _ (tr_registry _ _ Htr) _ _ Ha).
  destruct (run_op_tracks t before lanes id (OpSuppress reason seconds) (declared (registry before)) Htr)
    as [Htr' Hag']; [split; [by eexists|done]|intros j b Hj; unfold declared; by rewrite Hj|].
  assert (exec (run_op t id (OpSuppress reason seconds)) before = m) as E by (cbn [run_op]; by st_simpl).
  rewrite E in Htr', Hag'. rewrite <- Hag' in Ha.
  assert (eval (Allows now (Info a)) m = true) as Hal.
  { rewrite (Allows_tracks now m _ id a Htr' Ha). cbn. rewrite decide_True by done.
    unfold lane_step, lane_apply. unfold tick at 2. cbn. rewrite (proj2 (Z.ltb_lt _ _) Ht).
    unfold tick. cbn. by rewrite (proj2 (Z.ltb_ge _ _) Hnow). }
  split; [done|]. rewrite Hag' in Ha.
  pose proof (SuppressLane_weight t reason seconds before lanes id a Htr Ha Ht) as Hwt. fold m in Hwt.
  unfold canRouteAgent. destruct (isAgentRoutable _); [|done]. cbn [negb]. st_simpl.
  rewrite Hal. cbn [negb]. st_simpl.
  assert (routingWeights (exec (Allows now (Info a)) m) = routingWeights m) as Hws
    by (unfold Allows; st_simpl; apply State_weights).
  assert (eval (RoutingWeight now (InfoID (Info a))) (exec (Allows now (Info a)) m) = 0%float) as ->; [|done].
  unfold RoutingWeight, get, eval, mbind, st_bind. cbn. by rewrite Hws, Hid, Hwt.
Qed.

(** A coder and a cheaper local coder, both ready. *)
Definition local_coder : Agent :=
  mkAgent (mkAgentInfo "local-coder" "coder" "local" "qwen" ["implementation"] AgentStatusReady) (fun _ => true) false.
Definition coders : list Agent :=
  [mkAgent (mkAgentInfo "cloud-coder" "coder" "openai" "gpt" ["implementation"] AgentStatusReady) (fun _ => true) false;
   local_coder].
Definition coders_runtime : Runtime := exec (RefreshRoutingWeights 5) (NewRuntimeManager (register_all 1 coders)).
Definition coding_task : Task := zero_task <| ID := "t1" |> <| RequiredCapability := "implementation" |>.
Definition coding_plan : ExecutionPlan := mkExecutionPlan "t1" ComplexityLow "implementation" zero_selection [] 0.

Lemma coders_ready : ready coders_runtime.
Proof. eapply refreshed_ready, fresh_tracks, register_all_fresh. by repeat constructor. Qed.

Abbreviation demo f := (f (fun _ => None) None true None None None 10).

Lemma route_equals_reference_witness :
  ready coders_runtime /\
  (eval (demo route coding_task coding_plan ∅) coders_runtime).2 = coders !! 1%nat.
Proof.
  split; [exact coders_ready|].
  rewrite (proj1 (route_equals_reference (fun _ => None) None true None None None 10 coding_task coding_plan ∅
    coders_runtime coders_ready)).
  vm_compute. reflexivity.
Defined.

Lemma route_selects_best_witness :
  let '(acc, chosen) := eval (demo route coding_task coding_plan {["local-coder"]}) coders_runtime in
  AccStatus acc = TaskStatusAccepted /\ InfoID ∘ Info <$> chosen = Some "cloud-coder".
Proof.
  pose proof (route_selects_best (fun _ => None) None true None None None 10 coding_task coding_plan
    {["local-coder"]} coders_runtime coders_ready) as H.
  assert ((eval (demo route coding_task coding_plan {["local-coder"]}) coders_runtime).2 = coders !! 0%nat) as E
    by (vm_compute; reflexivity).
  destruct (eval _ _) as [acc chosen]. cbn [snd] in E. subst chosen. cbn in H |- *. split; [apply H|done].
Defined.

Lemma fallback_routes_best_witness :
  (eval (demo RouteWithinProviders coding_task coding_plan [" OpenAI "; "local"] ∅) coders_runtime).2 = coders !! 0%nat /\
  agents (registry coders_runtime) !! "cloud-coder" = coders !! 0%nat.
Proof.
  pose proof (proj2 (fallback_routes_best (fun _ => None) None true None None None 10 coding_task coding_plan
    [" OpenAI "; "local"] ∅ coders_runtime coders_ready)) as H.
  assert ((eval (demo RouteWithinProviders coding_task coding_plan [" OpenAI "; "local"] ∅) coders_runtime).2 =
    coders !! 0%nat) as E by (vm_compute; reflexivity).
  rewrite E in H. split; [exact E|apply H].
Defined.

Lemma expired_suppression_not_routed_witness :
  let m := exec (SuppressLane 10 "local-coder" "noisy" 60) (NewRuntimeManager (register_all 1 coders)) in
  let now := 10 + 3600 * second in
  eval (Allows now (Info local_coder)) m = true /\
  eval (canRouteAgent true now coding_task local_coder "implementation") m = false.
Proof.
  intros m now.
  apply (expired_suppression_not_routed 1 coders [] "local-coder" "noisy" 60 10 now coding_task "implementation").
  - by repeat constructor.
  - constructor.
  - vm_compute. reflexivity.
  - vm_compute. discriminate.
  - vm_compute. reflexivity.
Defined.
