(* ===== verification/ModelInventory.v ===== *)
(** * Provider inventories (kernel/model_registry.go, kernel/model_catalog.go,
      agents/openai_compatible.go)

    Which models a provider offers: the provider's configuration, the inventory rows read from
    its answers, what a model's name and metadata say about it, and the catalog file that
    restricts them.  Network answers come in with the results [json.Unmarshal] gives for them;
    model names are ASCII. *)
From S2P Require Import Prelude GoLib GoJSON Domain TaskPolicy Config.
From Stdlib Require Import PrimFloat SpecFloat FloatOps.

(** ** Configuration of a provider *)
Record OpenAICompatibleConfig : Type := mkOpenAICompatibleConfig {
  CfgProvider : string;
  CfgProviderID : string;
  CfgBaseURL : string;
  CfgAPIKey : string;
  CfgDefaultModel : string;
  CfgModelsEndpoint : string;
  CfgChatCompletionsEndpoint : string;
  CfgResponsesEndpoint : string;
  CfgMessagesEndpoint : string;
  CfgMessagesCountTokensEndpoint : string;
  CfgCodexEndpoint : string;
  CfgTimeout : Z;
  RequireKey : bool;
  CfgNativeStreaming : bool;
  AllowPseudoRealtime : bool }.


(** [strings.TrimRight(s, "/")] *)
Fixpoint drop_slashes (s : string) : string :=
  match s with
  | String c r => if byte_is c 47 then drop_slashes r else s
  | "" => ""
  end.
Definition TrimRightSlash (s : string) : string := String.rev (drop_slashes (String.rev s)).

Fixpoint firstNonEmpty (values : list string) : string :=
  match values with
  | [] => ""
  | v :: values => if non_blank v then TrimSpace v else firstNonEmpty values
  end.

Section Urls.
Context (c : OpenAICompatibleConfig).

Definition CfgConfigured : bool :=
  non_blank (CfgBaseURL c) && non_blank (CfgDefaultModel c) &&
  (negb (RequireKey c) || non_blank (CfgAPIKey c)).
Definition SupportsNativeStreaming : bool := CfgNativeStreaming c.
Definition SupportsPseudoRealtime : bool := AllowPseudoRealtime c.
Definition EffectiveProviderID : string := firstNonEmpty [CfgProviderID c; CfgProvider c].
Definition ModelsURL : string :=
  firstNonEmpty [TrimSpace (CfgModelsEndpoint c); TrimRightSlash (CfgBaseURL c) +:+ "/models"].
Definition ChatCompletionsURL : string :=
  firstNonEmpty [TrimSpace (CfgChatCompletionsEndpoint c);
                 TrimRightSlash (CfgBaseURL c) +:+ "/chat/completions"].
Definition endpoint_or (endpoint path : string) : string :=
  let endpoint := TrimSpace endpoint in
  if negb (String.eqb endpoint "") then endpoint
  else
    let base := TrimRightSlash (CfgBaseURL c) in
    if String.eqb base "" then "" else base +:+ path.
Definition ResponsesURL : string := endpoint_or (CfgResponsesEndpoint c) "/responses".
Definition MessagesURL : string := endpoint_or (CfgMessagesEndpoint c) "/messages".
Definition MessagesCountTokensURL : string :=
  endpoint_or (CfgMessagesCountTokensEndpoint c) "/messages/count_tokens".
Definition CodexURL : string := TrimSpace (CfgCodexEndpoint c).

(** The transport models are probed with, and its URL. *)
Definition selectValidationTransport : string * string :=
  if non_blank ChatCompletionsURL then ("chat_completions", ChatCompletionsURL)
  else if non_blank ResponsesURL then ("responses", ResponsesURL)
  else if non_blank MessagesURL then ("messages", MessagesURL)
  else ("unsupported", "").
End Urls.

(** The part before the first question mark. *)
Fixpoint before_query (s : string) : string :=
  match s with
  | String c r => if byte_is c 63 then "" else String c (before_query r)
  | "" => ""
  end.
Definition sanitizedURL (raw : string) : string := before_query (TrimSpace raw).

(** ** Reading metadata *)
Fixpoint anyString (values : list any) : string :=
  match values with
  | AString s :: values => if non_blank s then TrimSpace s else anyString values
  | _ :: values => anyString values
  | [] => ""
  end.

(** [strconv.ParseBool] *)
Definition ParseBool (s : string) : option bool :=
  if mem_string s ["1"; "t"; "T"; "TRUE"; "true"; "True"] then Some true
  else if mem_string s ["0"; "f"; "F"; "FALSE"; "false"; "False"] then Some false
  else None.

Definition boolMetadata (value : any) : option bool :=
  match value with
  | ABool b => Some b
  | AString s => let trimmed := TrimSpace s in
                 if String.eqb trimmed "" then None else ParseBool trimmed
  | _ => None
  end.
Definition metadataMap (value : any) : option anymap :=
  match value with AMap m => Some m | _ => None end.
Definition stringSliceMetadata (value : any) : list string :=
  match value with
  | AStrings l => l
  | AList l => omap (fun item => match item with
                 | AString text => if non_blank text then Some (TrimSpace text) else None
                 | _ => None
                 end) l
  | _ => []
  end.
Definition boolValueDefault (value : any) (fallback : bool) : bool :=
  match value with
  | ABool b => b
  | AString s =>
      let trimmed := TrimSpace (ToLower s) in
      if mem_string trimmed ["true"; "1"; "yes"; "y"; "on"] then true
      else if mem_string trimmed ["false"; "0"; "no"; "n"; "off"] then false
      else fallback
  | _ => fallback
  end.
Definition appendUniqueString (items : list string) (value : string) : list string :=
  let value := TrimSpace value in
  if String.eqb value "" then items
  else if mem_string value items then items
  else sort_slice String.ltb (items ++ [value]).

(** ** What a model's name says *)
Definition inferModelFamily (modelName : string) : string :=
  let name := ToLower (TrimSpace modelName) in
  let starts p := has_prefix p name in
  let has := Contains name in
  if starts "claude-" then "claude"
  else if starts "gpt-" || starts "o1" || starts "o3" || starts "o4" then "gpt"
  else if starts "gemini-" then "gemini"
  else if starts "gemma-" || starts "gemma" || has "gemma" then "gemma"
  else if starts "deepseek-" then "deepseek"
  else if starts "glm-" then "glm"
  else if starts "kimi-" then "kimi"
  else if starts "qwen-" || starts "qwen" || has "qwen" then "qwen"
  else if starts "mistral-" || starts "codestral-" || starts "devstral-" ||
          starts "magistral-" || has "mistral" then "mistral"
  else if starts "llama-" then "llama" else "".

Definition familyAliases (family : string) : list string :=
  let family := ToLower (TrimSpace family) in
  if String.eqb family "claude" then ["anthropic"]
  else if String.eqb family "gpt" then ["openai"] else [].

Record ModelCapabilities : Type := mkModelCapabilities {
  Streaming : bool;
  ToolCalling : bool;
  PatchStreaming : bool;
  TestStreaming : bool;
  LongContext : bool }.

Definition inferModelCapabilities (modelName : string) : ModelCapabilities :=
  let name := ToLower (TrimSpace modelName) in
  let family := inferModelFamily modelName in
  let streaming := mem_string family
    ["claude"; "gpt"; "gemini"; "gemma"; "deepseek"; "glm"; "kimi"; "qwen"; "mistral"; "llama"] in
  let patch := existsb (Contains name)
    ["coder"; "codex"; "codestral"; "devstral"; "antigravity"; "mimo"; "sol"] in
  let patch := patch || (streaming &&
    mem_string family ["mistral"; "deepseek"; "qwen"; "gemma"; "llama"]) in
  mkModelCapabilities streaming
    (mem_string family
       ["claude"; "gpt"; "gemini"; "deepseek"; "glm"; "kimi"; "qwen"; "mistral"])
    patch patch (mem_string family ["claude"; "gpt"; "gemini"]).

Definition modelCapabilitiesFromMetadata (modelName : string) (metadata : anymap)
  : ModelCapabilities :=
  let caps := inferModelCapabilities modelName in
  let read key := boolValueDefault (aget_any metadata key) in
  mkModelCapabilities (read "streaming" (Streaming caps)) (read "tool_calling" (ToolCalling caps))
    (read "patch_streaming" (PatchStreaming caps)) (read "test_streaming" (TestStreaming caps))
    (read "long_context" (LongContext caps)).

Definition annotateProviderModelMetadata (modelName : string) (metadata : anymap) : anymap :=
  let family := inferModelFamily modelName in
  let metadata :=
    if negb (String.eqb family "") then
      let metadata := aset metadata "model_family" (AString family) in
      let metadata := aset metadata "resource_pool" (AString family) in
      let aliases := familyAliases family in
      let metadata := match aliases with
        | [] => metadata
        | _ => aset metadata "family_aliases" (AStrings aliases)
        end in
      aset metadata "resource_pools" (AStrings (foldl appendUniqueString [family] aliases))
    else metadata in
  let caps := modelCapabilitiesFromMetadata modelName metadata in
  let put key fallback metadata :=
    aset metadata key (ABool (boolValueDefault (aget_any metadata key) fallback)) in
  put "long_context" (LongContext caps)
    (put "test_streaming" (TestStreaming caps)
      (put "patch_streaming" (PatchStreaming caps)
        (put "tool_calling" (ToolCalling caps) (put "streaming" (Streaming caps) metadata)))).

(** ** Inventory rows *)

(** What [json.Unmarshal] makes of a response body: into a struct with fields [data] and [models],
    into a list of objects, and into [any] ([inr]) or an error text. *)
Record DecodedBody : Type := mkDecodedBody {
  AsWrapped : option (list anymap * list anymap);
  AsList : option (list anymap);
  AsAny : string + any }.

Definition discovered_reason : string :=
  "model discovered in provider inventory and awaiting transport verification".

Section Parse.
Context (provider : string) (now : Time).

Definition disabled_item (raw : anymap) : bool :=
  match aget raw "disabled" with Some (ABool disabled) => disabled | _ => false end.
Definition inventory_row (name : string) (raw : anymap) : ProviderModelStatus :=
  let disabled := disabled_item raw in
  mkProviderModelStatus provider name false
    (if disabled then "disabled" else "verification_pending")
    (if disabled then "provider reported model as disabled" else discovered_reason)
    "inventory_verified"
    (if disabled then "transport_unavailable" else "transport_pending")
    (if disabled then "unconfirmed" else "verifying")
    "" now false (annotateProviderModelMetadata name raw) 0 0 None None None None None None
    0 0 0 0 "" 0 0 None.
Definition listed (name : string) (rows : list ProviderModelStatus) : bool :=
  existsb (fun row => EqualFold (ModelName row) name) rows.
Definition appendModel (rows : list ProviderModelStatus) (name : string) (raw : anymap)
  : list ProviderModelStatus :=
  let name := TrimSpace name in
  if String.eqb name "" then rows
  else if listed name rows then rows
  else rows ++ [inventory_row name raw].

Definition item_name (item : anymap) : string :=
  anyString [aget_any item "id"; aget_any item "name"; aget_any item "model"].
Definition append_items (items : list anymap) (rows : list ProviderModelStatus)
  : list ProviderModelStatus :=
  foldl (fun rows item => appendModel rows (item_name item) item) rows items.

(** An object anywhere in the answer that has a name is a row.  Recording it rewrites some of the
    object's own entries, with texts and booleans; the loop over the object no longer sees the
    entries that were replaced. *)
Definition annotated (name key : string) : bool :=
  mem_string key ["streaming"; "tool_calling"; "patch_streaming"; "test_streaming";
                  "long_context"] ||
  (negb (String.eqb (inferModelFamily name) "") &&
   (mem_string key ["model_family"; "resource_pool"; "resource_pools"] ||
    (String.eqb key "family_aliases" &&
     match familyAliases (inferModelFamily name) with [] => false | _ => true end))).

Fixpoint collectProviderModels (raw : any) (rows : list ProviderModelStatus) {struct raw}
  : list ProviderModelStatus :=
  match raw with
  | AMap typed =>
      let name := anyString [aget_any typed "id"; aget_any typed "name"; aget_any typed "model";
                             aget_any typed "slug"] in
      let recorded := negb (String.eqb name "") && negb (listed (TrimSpace name) rows) in
      let rows := if negb (String.eqb name "") then appendModel rows name typed else rows in
      (fix entries l rows := match l with
       | [] => rows
       | (key, value) :: l =>
           entries l (if recorded && annotated (TrimSpace name) key then rows
                      else collectProviderModels value rows)
       end) typed rows
  | AList typed =>
      (fix items l rows := match l with
       | [] => rows
       | value :: l => items l (collectProviderModels value rows)
       end) typed rows
  | _ => rows
  end.

Definition display_variant (row : ProviderModelStatus) (level : string) : option any :=
  let level := TrimSpace level in
  if String.eqb level "" then None
  else Some (AMap [("id", AString (ModelName row +:+ " " +:+ level));
                   ("display_name", AString (ModelName row +:+ " " +:+ level));
                   ("routing_model", AString (ModelName row));
                   ("reasoning_level", AString level)]).
Definition with_display_variants (row : ProviderModelStatus) : ProviderModelStatus :=
  let levels := stringSliceMetadata (aget_any (ModelMetadata row) "supported_reasoning_levels") in
  match omap (display_variant row) levels with
  | [] => row
  | variants => row <| ModelMetadata ::= (fun m => aset m "display_variants" (AList variants)) |>
  end.
Definition appendDisplayVariants : list ProviderModelStatus -> list ProviderModelStatus :=
  map with_display_variants.

Definition name_less (a b : ProviderModelStatus) : bool :=
  String.ltb (ModelName a) (ModelName b).
Definition finish_rows (rows : list ProviderModelStatus) : list ProviderModelStatus :=
  sort_slice name_less (appendDisplayVariants rows).

(** The rows, or the text of the error. *)
Definition parseProviderModels (body : DecodedBody) : string + list ProviderModelStatus :=
  let rows := match AsWrapped body with
    | Some (data, models) => append_items models (append_items data [])
    | None => []
    end in
  match rows with
  | _ :: _ => inr (finish_rows rows)
  | [] =>
      match AsList body with
      | Some items => inr (finish_rows (append_items items []))
      | None =>
          match AsAny body with
          | inl err => inl err
          | inr raw => inr (finish_rows (collectProviderModels raw []))
          end
      end
  end.
End Parse.

(** ** Reading the sources of a provider *)
Record inventorySource : Type := mkInventorySource {
  source_name : string;
  source_url : string;
  optional : bool }.

Record inventorySourceError : Type := mkInventorySourceError {
  err_source : inventorySource;
  err_statusCode : Z;
  err_message : string;
  err_cause : option string }.

Definition source_error_text (e : inventorySourceError) : string :=
  let prefix := source_name (err_source e) +:+ " inventory request failed" in
  match err_cause e with
  | Some cause => prefix +:+ ": " +:+ cause
  | None => if non_blank (err_message e) then prefix +:+ ": " +:+ err_message e else prefix
  end.

(** [error] values of the inventory: a failed request, or a body that cannot be read. *)
Inductive SourceFailure : Type :=
  | RequestFailed (e : inventorySourceError)
  | ParseFailed (source : inventorySource) (cause : string).
Definition failure_text (f : SourceFailure) : string :=
  match f with
  | RequestFailed e => source_error_text e
  | ParseFailed source cause => source_name source +:+ " inventory parse failed: " +:+ cause
  end.

Definition code_not_found_marker : string :=
  dquote +:+ "code" +:+ dquote +:+ ":" +:+ dquote +:+ "not_found" +:+ dquote.
Definition invalid_request_marker : string :=
  dquote +:+ "type" +:+ dquote +:+ ":" +:+ dquote +:+ "invalid_request_error" +:+ dquote.
Definition looksLikeNotFoundMessage (reason : string) : bool :=
  let normalized := ToLower (TrimSpace reason) in
  if String.eqb normalized "" then false
  else Contains normalized code_not_found_marker ||
       (Contains normalized invalid_request_marker && Contains normalized "not found") ||
       Contains normalized " not found".

Definition shouldIgnoreInventorySourceError (source : inventorySource) (err : SourceFailure)
  (haveModels : bool) : bool :=
  if negb (optional source) || negb haveModels then false
  else match err with
       | ParseFailed _ _ => false
       | RequestFailed e =>
           if err_statusCode e =? 404 then true else looksLikeNotFoundMessage (err_message e)
       end.

Definition mergeProviderModelStatus (left right : ProviderModelStatus) (source : string)
  : ProviderModelStatus :=
  let merged := left <| ModelAvailable := ModelAvailable left || ModelAvailable right |>
                     <| IsDefault := IsDefault left || IsDefault right |> in
  let metadata := foldl (fun m '(key, value) =>
      match aget m key with Some _ => m | None => aset m key value end)
    (ModelMetadata merged) (ModelMetadata right) in
  let existing := stringSliceMetadata (aget_any metadata "inventory_sources") in
  merged <| ModelMetadata :=
              aset metadata "inventory_sources" (AStrings (appendUniqueString existing source)) |>.

(** An answer: the status, the text of the body and what it decodes to; or the text of the error
    of [providerhttp.Do]. *)
Record InventoryResponse : Type := mkInventoryResponse {
  InvStatusCode : Z;
  InvBodyText : string;
  InvBody : DecodedBody }.

Definition modelLifecycleKey (name : string) : string := ToLower (TrimSpace name).

Section Fetch.
Context (StatusText : Z -> string).
Context (provider : string) (cfg : OpenAICompatibleConfig) (now : Time).
Context (get : inventorySource -> string + InventoryResponse).

Definition fetchProviderModelsFromSource (source : inventorySource)
  : SourceFailure + list ProviderModelStatus :=
  match get source with
  | inl err => inl (RequestFailed (mkInventorySourceError source 0 "" (Some err)))
  | inr response =>
      let code := InvStatusCode response in
      if (code <? 200) || (300 <=? code) then
        let msg := TrimSpace (InvBodyText response) in
        let msg := if String.eqb msg "" then StatusText code else msg in
        inl (RequestFailed (mkInventorySourceError source code msg None))
      else
        match parseProviderModels provider now (InvBody response) with
        | inl err => inl (ParseFailed source err)
        | inr rows => inr (map (fun row => row <| ModelMetadata ::=
            (fun m => aset m "inventory_source" (AString (source_name source))) |>) rows)
        end
  end.

Definition inventory_sources : list inventorySource :=
  let codexURL := CodexURL cfg in
  mkInventorySource "models" (ModelsURL cfg) false ::
  (if negb (String.eqb codexURL "") && negb (String.eqb codexURL (ModelsURL cfg))
   then [mkInventorySource "codex" codexURL true] else []).

(** [seen] is the index of the row of a key. *)
Definition merge_row (source : inventorySource)
  (acc : list ProviderModelStatus * gmap string nat) (row : ProviderModelStatus)
  : list ProviderModelStatus * gmap string nat :=
  let '(merged, seen) := acc in
  let key := modelLifecycleKey (ModelName row) in
  match seen !! key with
  | Some idx =>
      (alter (fun left => mergeProviderModelStatus left row (source_name source)) idx merged, seen)
  | None =>
      let row := row <| ModelMetadata ::= (fun m =>
        aset (aset m "inventory_source" (AString (source_name source)))
          "inventory_sources" (AStrings [source_name source])) |> in
      (merged ++ [row], <[key := length merged]> seen)
  end.

Fixpoint read_sources (sources : list inventorySource)
  (acc : list ProviderModelStatus * gmap string nat) (errs : list string)
  : list ProviderModelStatus * list string :=
  match sources with
  | [] => (acc.1, errs)
  | source :: sources =>
      match fetchProviderModelsFromSource source with
      | inl err =>
          read_sources sources acc
            (if shouldIgnoreInventorySourceError source err (negb (length acc.1 =? 0)%nat)
             then errs else errs ++ [failure_text err])
      | inr rows => read_sources sources (foldl (merge_row source) acc rows) errs
      end
  end.
Definition fetchProviderModels : list ProviderModelStatus * list string :=
  let '(merged, errs) := read_sources inventory_sources ([], ∅) [] in
  (sort_slice name_less merged, errs).
End Fetch.

(** ** The catalog file (kernel/model_catalog.go)

    The models a provider may use, per provider; a provider without an entry is unrestricted. *)
Definition modelCatalog := gmap string (gset string).

Definition catalog_add (provider model : string) (c : modelCatalog) : modelCatalog :=
  let provider := ToLower (TrimSpace provider) in
  let model := ToLower (TrimSpace model) in
  if String.eqb provider "" || String.eqb model "" then c
  else <[provider := {[model]} ∪ default ∅ (c !! provider)]> c.

(** [strings.Cut(line, ":")] *)
Fixpoint cut_colon (line : string) : option (string * string) :=
  match line with
  | "" => None
  | String c rest =>
      if byte_is c 58 then Some ("", rest)
      else match cut_colon rest with
           | Some (before, after) => Some (String c before, after)
           | None => None
           end
  end.
Definition parseCatalogEntry (line : string) : option (string * string) :=
  match cut_colon line with
  | None => None
  | Some (provider, model) =>
      let provider := ToLower (TrimSpace provider) in
      let model := TrimSpace model in
      if String.eqb provider "" || String.eqb model "" then None else Some (provider, model)
  end.
(** [loadModelCatalog] of the lines of an existing file. *)
Definition load_line (c : modelCatalog) (line : string) : modelCatalog :=
  let line := TrimSpace line in
  if String.eqb line "" || has_prefix "#" line then c
  else match parseCatalogEntry line with
       | None => c
       | Some (provider, model) => catalog_add provider model c
       end.
Definition loadModelCatalog (lines : list string) : modelCatalog := foldl load_line ∅ lines.

Definition catalog_filter (provider : string) (models : list ProviderModelStatus)
  (c : modelCatalog) : list ProviderModelStatus :=
  match c !! ToLower (TrimSpace provider) with
  | None => models
  | Some allowed =>
      if bool_decide (allowed = ∅) then models
      else List.filter (fun model =>
             bool_decide (ToLower (TrimSpace (ModelName model)) ∈ allowed)) models
  end.

Definition catalog_wants (model : ProviderModelStatus) : bool :=
  if negb (non_blank (ModelName model)) then false
  else if mem_string (ModelStatus model) ["missing"; "disabled"] ||
          String.eqb (InventoryStatus model) "inventory_missing" then false
  else ModelAvailable model || String.eqb (InventoryStatus model) "inventory_verified" ||
       String.eqb (VerificationStatus model) "verifying" || IsDefault model.
Definition syncProvider (provider : string) (models : list ProviderModelStatus)
  (c : modelCatalog) : modelCatalog :=
  foldl (fun c model => if catalog_wants model
                        then catalog_add (ToLower (TrimSpace provider)) (ModelName model) c
                        else c) c models.

(** The lines [writeLocked] stores. *)
Definition catalog_lines (c : modelCatalog) : list string :=
  "# provider:model" ::
  "# This file is maintained by go-core model registry and can be edited manually." ::
  concat (map (fun provider =>
      map (fun model => provider +:+ ":" +:+ model)
        (sort_slice String.ltb (elements (default ∅ (c !! provider)))))
    (sort_slice String.ltb (map fst (map_to_list c)))).
