(* ===== verification/ModelRegistry.v ===== *)
(** * The provider model registry (kernel/model_registry.go)

    Which models of a provider may be routed to.  A refresh reads the inventory, carries each
    model's verification history over from the last snapshot, probes the models that are due
    within the limits and summarises the provider.  The clock of a refresh is read once, as
    [now]; the network is a function from requests to answers. *)
From S2P Require Import Prelude GoLib GoJSON Domain TaskPolicy Config RuntimeManager ModelInventory.
From Stdlib Require Import PrimFloat.

(** ** The verification record of one model *)
Definition setModelState (status inventoryStatus transportStatus verificationStatus reason : string)
  (now : Time) (model : ProviderModelStatus) : ProviderModelStatus :=
  let or_keep new old := if String.eqb new "" then old else new in
  let changed := negb (String.eqb (ModelStatus model) status) ||
                 negb (String.eqb (ModelReason model) reason) in
  model <| InventoryStatus ::= or_keep inventoryStatus |>
        <| TransportStatus ::= or_keep transportStatus |>
        <| VerificationStatus ::= or_keep verificationStatus |>
        <| LastStateChangeAt ::= (fun old => if changed then Some now else old) |>
        <| ModelStatus := status |>
        <| ModelReason := reason |>.

Definition note_probe (status : string) (model : ProviderModelStatus) : ProviderModelStatus :=
  model <| ModelMetadata ::= (fun m => aset m "probe_status" (AString status)) |>.

(** [previous] is [None] when the last snapshot did not list the model: the zero value. *)
Definition mergeProviderLifecycle (model : ProviderModelStatus)
  (previous : option ProviderModelStatus) (now : Time) (verificationIntervalSec : Z)
  : ProviderModelStatus :=
  let model := model <| ModelObservedAt := now |>
                     <| VerificationIntervalSec := verificationIntervalSec |> in
  let is_new := match previous with
    | Some previous => String.eqb (ModelName previous) ""
    | None => true
    end in
  match previous with
  | Some previous =>
      if is_new then model <| FirstSeenAt := Some now |> <| LastStateChangeAt := Some now |>
      else
        let or_old {A} (absent : A -> bool) (old : A) (new : A) := if absent new then old else new in
        model
          <| FirstSeenAt := match FirstSeenAt previous with Some t => Some t | None => Some now end |>
          <| VerificationStartedAt := VerificationStartedAt previous |>
          <| LastStateChangeAt := LastStateChangeAt previous |>
          <| LastSuccessAt := LastSuccessAt previous |>
          <| NextVerificationAt := NextVerificationAt previous |>
          <| ExpiresAt := ExpiresAt previous |>
          <| ConsecutiveFailures := ConsecutiveFailures previous |>
          <| ConsecutiveSuccesses := ConsecutiveSuccesses previous |>
          <| RegistrationAttempts := RegistrationAttempts previous |>
          <| PendingCycles := PendingCycles previous |>
          <| QueueStatus := TrimSpace (QueueStatus previous) |>
          <| QueuePosition := QueuePosition previous |>
          <| Transport ::= or_old (fun s => String.eqb s "") (Transport previous) |>
          <| LastHTTPStatus ::= or_old (fun z => z =? 0) (LastHTTPStatus previous) |>
          <| ModelProbeLatencyMS ::= or_old (fun z => z =? 0) (ModelProbeLatencyMS previous) |>
          <| ModelLastError ::= or_old (fun e => match e with None => true | _ => false end)
                                  (ModelLastError previous) |>
          <| ModelMetadata ::= (fun m => foldl (fun m '(k, v) =>
               match aget m k with Some _ => m | None => aset m k v end) m (ModelMetadata previous)) |>
  | None => model <| FirstSeenAt := Some now |> <| LastStateChangeAt := Some now |>
  end.

Definition canParticipateInRegistration (model : ProviderModelStatus) : bool :=
  negb (mem_string (ModelStatus model) ["disabled"; "missing"; "transport_inapplicable"]).

(** Whether a confirmed model is kept, and its record. *)
Definition keepConfirmedModelFresh (now : Time) (confirmationTTL : Z) (model : ProviderModelStatus)
  : bool * ProviderModelStatus :=
  if negb (String.eqb (TrimSpace (VerificationStatus model)) "confirmed") ||
     negb (ModelAvailable model) then (false, model)
  else
    let expiry := match ExpiresAt model with
      | Some t => Some t
      | None => (fun t => t + confirmationTTL) <$> LastSuccessAt model
      end in
    match expiry with
    | None => (false, model)
    | Some expiresAt =>
        let model := model <| ExpiresAt := Some expiresAt |> in
        if expiresAt <? now then
          (false, setModelState "registration_stale" "inventory_verified" "transport_stale" "stale"
             "confirmed model reached its verification TTL and must be re-registered" now model
             <| ModelAvailable := false |>)
        else
          (true, setModelState "ready" "inventory_verified" "transport_verified" "confirmed" "" now
                   model
             <| QueueStatus := "confirmed" |> <| QueuePosition := 0 |>
             <| NextVerificationAt := Some expiresAt |>)
    end.

(** The three parts of [prepareModelForRegistration]: missing statuses, the times, and the state of
    a model that waits. *)
Definition prepare_statuses (model : ProviderModelStatus) : ProviderModelStatus :=
  let model := if String.eqb (InventoryStatus model) ""
               then model <| InventoryStatus := "inventory_verified" |> else model in
  if String.eqb (TransportStatus model) "" || String.eqb (TransportStatus model) "transport_verified"
  then model <| TransportStatus := "transport_pending" |> else model.
Definition prepare_times (now : Time) (pendingTTL confirmationTTL : Z) (model : ProviderModelStatus)
  : ProviderModelStatus :=
  let model := match VerificationStartedAt model with
    | None => model <| VerificationStartedAt := Some now |>
    | Some started =>
        if (0 <? pendingTTL) && (pendingTTL <=? time_sub now started)
        then setModelState "registration_stale" (InventoryStatus model) "transport_pending" "stale"
               "model exceeded the pending registration TTL and is waiting for a retry slot" now model
        else model
    end in
  match LastSuccessAt model, ExpiresAt model with
  | Some success, None => if 0 <? confirmationTTL
                          then model <| ExpiresAt := Some (success + confirmationTTL) |> else model
  | _, _ => model
  end.
Definition prepare_waiting (now : Time) (model : ProviderModelStatus) : ProviderModelStatus :=
  let model := model <| ModelAvailable := false |> in
  let model := if String.eqb (TrimSpace (VerificationStatus model)) "confirmed"
               then model <| VerificationStatus := "stale" |> else model in
  let model := if mem_string (ModelStatus model) [""; "ready"]
               then setModelState "verification_pending" (InventoryStatus model)
                      (TransportStatus model) "verifying" discovered_reason now model
               else model in
  model <| PendingCycles ::= (fun n => Int.wrap (n + 1)) |>.
Definition prepareModelForRegistration (now : Time) (pendingTTL confirmationTTL : Z)
  (model : ProviderModelStatus) : ProviderModelStatus :=
  prepare_waiting now (prepare_times now pendingTTL confirmationTTL (prepare_statuses model)).

Definition registrationDue (now : Time) (model : ProviderModelStatus) : bool :=
  match NextVerificationAt model with
  | None => true
  | Some next => negb (now <? next)
  end.

Definition verificationStatusOr (model : ProviderModelStatus) (fallback : string) : string :=
  if non_blank (VerificationStatus model) then VerificationStatus model else fallback.

Definition markModelCooldown (now : Time) (model : ProviderModelStatus) : ProviderModelStatus :=
  let reason := if String.eqb (VerificationStatus model) "stale"
    then "confirmed model expired and is cooling down before re-registration"
    else "model is cooling down before the next registration attempt" in
  note_probe "cooldown"
    (setModelState "verification_cooldown" (InventoryStatus model) (TransportStatus model)
       (verificationStatusOr model "cooldown") reason now model
     <| QueueStatus := "cooldown" |> <| QueuePosition := 0 |> <| ModelAvailable := false |>).

Definition markModelTransportInapplicable (now : Time) (reason : string)
  (model : ProviderModelStatus) : ProviderModelStatus :=
  note_probe "inapplicable"
    (setModelState "transport_inapplicable" "inventory_verified" "transport_inapplicable" "skipped"
       reason now
       (model <| ModelAvailable := false |> <| NextVerificationAt := None |>
              <| ModelLastError := None |> <| QueueStatus := "skipped" |> <| QueuePosition := 0 |>)).

Definition markModelQueued (now : Time) (position : Z) (model : ProviderModelStatus)
  : ProviderModelStatus :=
  note_probe "queued"
    (setModelState "registration_queued" (InventoryStatus model) "transport_pending"
       (verificationStatusOr model "verifying") "model is queued for registration" now model
     <| QueueStatus := "queued" |> <| QueuePosition := position |> <| ModelAvailable := false |>).

Definition markModelQueueOverflow (now : Time) (model : ProviderModelStatus) : ProviderModelStatus :=
  note_probe "overflow"
    (setModelState "registration_overflow" (InventoryStatus model) "transport_pending"
       (verificationStatusOr model "verifying")
       "model could not enter the registration queue because the queue limit was reached" now model
     <| QueueStatus := "overflow" |> <| QueuePosition := 0 |> <| ModelAvailable := false |>).

Definition startModelVerification (now : Time) (model : ProviderModelStatus) : ProviderModelStatus :=
  let model := model
    <| VerificationStartedAt ::= (fun t => match t with Some t => Some t | None => Some now end) |>
    <| RegistrationAttempts ::= (fun n => Int.wrap (n + 1)) |> in
  note_probe "probing"
    (setModelState "verification_pending" (InventoryStatus model) "transport_pending" "verifying"
       "model registration is in progress" now model
     <| QueueStatus := "probing" |> <| QueuePosition := 0 |>).

(** ** Probe results *)
Record modelProbeResult : Type := mkModelProbeResult {
  Validated : bool;
  ProbeRetryable : bool;
  ProbeReason : string;
  ProbeTransport : string;
  ProbeHTTPStatus : Z;
  ProbeLatencyMS : Z;
  ProbeRequestID : string;
  ProbeError : option ProviderAPIError;
  ProbeObservedAt : Time;
  SucceededAt : option Time }.
Definition SucceededAtOr (r : modelProbeResult) (fallback : Time) : Time :=
  default fallback (SucceededAt r).

Definition failureTransportStatus (err : option ProviderAPIError) : string :=
  match err with
  | None => "transport_failed"
  | Some err =>
      if mem_string (Category err) ["chat_endpoint_not_found"; "provider_route_not_found";
           "endpoint_misconfigured"; "redirect_error"] then "endpoint_misconfigured"
      else if mem_string (Category err) ["unsupported_model"; "model_not_found"; "invalid_request";
           "auth_error"; "permission_error"] then "transport_failed"
      else if Retryable err then "retryable_failure" else "transport_failed"
  end.

Definition markModelConfirmed (result : modelProbeResult) (now : Time) (confirmationTTL : Z)
  (model : ProviderModelStatus) : ProviderModelStatus :=
  let succeededAt := SucceededAtOr result now in
  let expiresAt := if 0 <? confirmationTTL then Some (succeededAt + confirmationTTL) else None in
  note_probe "validated"
    (setModelState "ready" "inventory_verified" "transport_verified" "confirmed" "" now
       (model <| ModelAvailable := true |> <| ModelLastError := None |>
              <| ConsecutiveFailures := 0 |>
              <| ConsecutiveSuccesses ::= (fun n => Int.wrap (n + 1)) |>
              <| PendingCycles := 0 |> <| QueueStatus := "confirmed" |> <| QueuePosition := 0 |>
              <| LastSuccessAt := Some succeededAt |>
              <| ExpiresAt := expiresAt |> <| NextVerificationAt := expiresAt |>)).

Definition markModelFailure (result : modelProbeResult) (now : Time) (retryCooldown : Z)
  (model : ProviderModelStatus) : ProviderModelStatus :=
  let model := model <| ModelReason := ProbeReason result |> <| ModelLastError := ProbeError result |>
    <| ConsecutiveFailures ::= (fun n => Int.wrap (n + 1)) |> <| ConsecutiveSuccesses := 0 |>
    <| ModelAvailable := false |> in
  if ProbeRetryable result then
    let model := if 0 <? retryCooldown
                 then model <| NextVerificationAt := Some (now + retryCooldown) |> else model in
    note_probe "transient_failure"
      (setModelState "verification_cooldown" (InventoryStatus model) "retryable_failure" "verifying"
         (ProbeReason result) now model
       <| QueueStatus := "cooldown" |> <| QueuePosition := 0 |>)
  else
    note_probe "validation_failed"
      (setModelState "validation_failed" (InventoryStatus model)
         (failureTransportStatus (ProbeError result)) "unconfirmed" (ProbeReason result) now
         (model <| NextVerificationAt := None |>)
       <| QueueStatus := "failed" |> <| QueuePosition := 0 |>).

Definition record_probe (result : modelProbeResult) (model : ProviderModelStatus)
  : ProviderModelStatus :=
  model <| ModelObservedAt := ProbeObservedAt result |>
    <| Transport := ProbeTransport result |> <| LastHTTPStatus := ProbeHTTPStatus result |>
    <| ModelProbeLatencyMS := ProbeLatencyMS result |>
    <| ModelMetadata ::= (fun m => if negb (String.eqb (ProbeRequestID result) "")
         then aset m "request_id" (AString (ProbeRequestID result)) else m) |>.
Definition applyProbeResult (result : modelProbeResult) (now : Time)
  (retryCooldown confirmationTTL : Z) (model : ProviderModelStatus) : ProviderModelStatus :=
  let model := record_probe result model in
  if Validated result then markModelConfirmed result now confirmationTTL model
  else markModelFailure result now retryCooldown model.

(** ** Classifying provider errors *)
Definition contains_any (text : string) (tokens : list string) : bool := existsb (Contains text) tokens.

Definition looksLikeRateLimitMessage (reason : string) : bool :=
  let normalized := ToLower (TrimSpace reason) in
  if String.eqb normalized "" then false
  else contains_any normalized
    ["service_busy"; "rate_limit_error"; "rate limit"; "too many requests"; "retry after"].
Definition isRetryableProbeFailure (statusCode : Z) (reason : string) : bool :=
  if (statusCode =? 429) || (500 <=? statusCode) then true
  else contains_any (ToLower (TrimSpace reason))
    ["busy"; "overload"; "temporar"; "timeout"; "try again"; "unavailable"; "upstream";
     "rate limit"; "retry after"].
Definition categorizeNotFound (endpointKind message : string) : string :=
  if Contains message "model" then "model_not_found"
  else if String.eqb endpointKind "chat_completions" then "chat_endpoint_not_found"
  else if mem_string endpointKind ["responses"; "messages"] then "provider_route_not_found"
  else "endpoint_misconfigured".

(** Category and whether to retry, from the status code and then from the message. *)
Definition classify_status (endpointKind normalized : string) (statusCode : Z) (retryable : bool)
  : string * bool :=
  if (100 <=? statusCode) && (statusCode <? 200) then ("bad_response_schema", false)
  else if (300 <=? statusCode) && (statusCode <? 400) then ("redirect_error", false)
  else if statusCode =? 400 then ("invalid_request", retryable)
  else if statusCode =? 401 then ("auth_error", retryable)
  else if statusCode =? 403 then ("permission_error", retryable)
  else if statusCode =? 404 then (categorizeNotFound endpointKind normalized, false)
  else if statusCode =? 408 then ("timeout", true)
  else if statusCode =? 409 then ("provider_internal_error", retryable)
  else if statusCode =? 422 then ("invalid_request", false)
  else if statusCode =? 429 then ("rate_limit", true)
  else if 500 <=? statusCode then ("upstream_unavailable", true)
  else ("invalid_request", retryable).
Definition classify_message (normalized : string) (c : string * bool) : string * bool :=
  let c := if looksLikeRateLimitMessage normalized then ("rate_limit", true) else c in
  let c := if Contains normalized "model" && Contains normalized "not found"
           then ("model_not_found", false) else c in
  if Contains normalized "unsupported" then ("unsupported_model", false) else c.
Definition classifyProviderAPIError (provider model operation endpointKind endpoint : string)
  (statusCode : Z) (message requestID : string) (observedAt : Time) (latencyMS : Z)
  : ProviderAPIError :=
  let normalized := ToLower (TrimSpace message) in
  let '(category, retryable) := classify_message normalized
    (classify_status endpointKind normalized statusCode (isRetryableProbeFailure statusCode message)) in
  mkProviderAPIError provider model operation endpoint endpointKind statusCode "" "" message
    retryable category requestID observedAt latencyMS.

(** ** Probing a model *)

(** What [providerhttp.Do] answers: an error text, or a response; [ReplyDecoded] is the field
    [error] of the body, or the error of decoding it. *)
Record ProbeReply : Type := mkProbeReply {
  ReplyStatus : Z;
  ReplyBody : string;
  ReplyRequestID : string;
  ReplyDecoded : string + any }.
Record ProbeAnswer : Type := mkProbeAnswer {
  AnswerLatencyMS : Z;
  Answer : string + ProbeReply }.

(** Texts always have an encoding, so [Marshal] gives one. *)
Definition validationPayload (transport model : string) : string + string :=
  let ping := AMap [("role", AString "user"); ("content", AString "ping")] in
  let encode payload := match Marshal payload with Some body => inr body | None => inl "" end in
  if String.eqb transport "chat_completions" then
    encode (AMap [("model", AString model); ("messages", AList [ping]); ("max_tokens", AInt 1)])
  else if String.eqb transport "responses" then
    encode (AMap [("model", AString model); ("input", AString "ping"); ("max_output_tokens", AInt 1)])
  else if String.eqb transport "messages" then
    encode (AMap [("model", AString model); ("max_tokens", AInt 1);
      ("messages", AList [AMap [("role", AString "user"); ("content", AList
         [AMap [("type", AString "text"); ("text", AString "ping")]])]])])
  else inl ("no supported validation payload for transport " +:+ dquote +:+ transport +:+ dquote).

Section Probe.
Context (StatusText : Z -> string).
Context (cfg : OpenAICompatibleConfig).
(** URL and payload to the answer. *)
Context (post : string -> string -> ProbeAnswer).

Definition failed_probe (err : ProviderAPIError) : modelProbeResult :=
  mkModelProbeResult false (Retryable err) (Message err) (EndpointKind err) (HTTPStatus err)
    (LatencyMS err) (RequestID err) (Some err) (ApiObservedAt err) None.

Definition validateModelViaTransport (observedAt : Time) (model : string) : modelProbeResult :=
  let '(transport, url) := selectValidationTransport cfg in
  let api_error endpoint code message retryable category requestID latencyMS :=
    mkProviderAPIError (CfgProvider cfg) model "probe" endpoint transport code "" "" message retryable
      category requestID observedAt latencyMS in
  if negb (non_blank url) then
    failed_probe (api_error "" 0 "no validation transport endpoint is configured" false
      "unsupported_endpoint" "" 0)
  else
    match validationPayload transport model with
    | inl err => failed_probe (api_error (sanitizedURL url) 0 err false "invalid_request" "" 0)
    | inr payload =>
        let answer := post url payload in
        let latencyMS := AnswerLatencyMS answer in
        match Answer answer with
        | inl err =>
            failed_probe (api_error (sanitizedURL url) 0 err true "network_error" "" latencyMS)
        | inr response =>
            let requestID := TrimSpace (ReplyRequestID response) in
            let code := ReplyStatus response in
            let reject message category :=
              failed_probe (api_error (sanitizedURL url) code message false category requestID
                              latencyMS) in
            if (200 <=? code) && (code <? 300) then
              if String.eqb (ReplyBody response) "" then
                reject "provider returned an empty response body" "empty_response"
              else
                match ReplyDecoded response with
                | inl err => reject err "bad_response_schema"
                | inr ANil => mkModelProbeResult true false "" transport code latencyMS requestID None
                                observedAt (Some observedAt)
                | inr error => reject ("provider returned error payload: " +:+ Sprint error)
                                 "invalid_request"
                end
            else
              let msg := TrimSpace (ReplyBody response) in
              let msg := if String.eqb msg "" then StatusText code else msg in
              failed_probe (classifyProviderAPIError (CfgProvider cfg) model "probe" transport
                (sanitizedURL url) code msg requestID observedAt latencyMS)
        end
    end.
End Probe.

(** ** Which models can be probed *)
Definition non_chat_markers : list string :=
  ["embed"; "embedding"; "moderation"; "ocr"; "realtime"; "transcribe"; "tts"].
Definition modelSupportsTransport (model : ProviderModelStatus) (transport : string) : bool :=
  if mem_string transport [""; "unsupported"] then true
  else
    let declared := match metadataMap (aget_any (ModelMetadata model) "capabilities") with
      | None => None
      | Some capabilities =>
          if String.eqb transport "chat_completions"
          then boolMetadata (aget_any capabilities "completion_chat")
          else if String.eqb transport "responses" then boolMetadata (aget_any capabilities "responses")
          else if String.eqb transport "messages" then boolMetadata (aget_any capabilities "messages")
          else None
      end in
    match declared with
    | Some supported => supported
    | None =>
        let name := ToLower (TrimSpace (ModelName model)) in
        if String.eqb name "" then true else negb (contains_any name non_chat_markers)
    end.
Definition inapplicableValidationReason (model : ProviderModelStatus) (cfg : OpenAICompatibleConfig)
  : string :=
  let transport := (selectValidationTransport cfg).1 in
  if mem_string transport [""; "unsupported"] then ""
  else if modelSupportsTransport model transport then ""
  else "model is present in provider inventory but does not support the configured " +:+ transport
       +:+ " validation transport".

(** The default model first, then the rest in order. *)
Definition default_index (models : list ProviderModelStatus) (defaultModel : string) : option nat :=
  fst <$> list_find (fun m => EqualFold (ModelName m) defaultModel = true) models.
Definition prioritizeModelValidation (models : list ProviderModelStatus) (defaultModel : string)
  : list nat :=
  let defaultModel := TrimSpace defaultModel in
  let first := if String.eqb defaultModel "" then None else default_index models defaultModel in
  let all := seq 0 (length models) in
  match first with
  | None => all
  | Some i => i :: List.filter (fun j => negb (j =? i)%nat) all
  end.

Definition indexProviderModels (models : list ProviderModelStatus)
  : gmap string ProviderModelStatus :=
  foldl (fun indexed model =>
    let key := modelLifecycleKey (ModelName model) in
    if String.eqb key "" then indexed else <[key := model]> indexed) ∅ models.

Fixpoint indexInQueue_from (i : Z) (queue : list nat) (target : nat) : Z :=
  match queue with
  | [] => -1
  | idx :: queue => if (idx =? target)%nat then i else indexInQueue_from (i + 1) queue target
  end.
Definition indexInQueue : list nat -> nat -> Z := indexInQueue_from 0.

(** ** One round of registrations *)
Record RegistrySettings : Type := mkRegistrySettings {
  refreshInterval : Z;
  reg_timeout : Z;
  enabled : bool;
  validateModels : bool;
  validationLimit : Z;
  pendingTTL : Z;
  confirmationTTL : Z;
  retryCooldown : Z;
  unregisteredQLimit : Z }.

(** The rows, the queued indexes and those of them that are probed now. *)
Record Round : Type := mkRound {
  round_models : list ProviderModelStatus;
  queuedIndexes : list nat;
  probeIndexes : list nat }.
#[export] Instance eta_Round : Updatable Round := fun r =>
  mkRound (round_models r) (queuedIndexes r) (probeIndexes r).

Section Validate.
Context (r : RegistrySettings) (cfg : OpenAICompatibleConfig) (now : Time).
(** [validateModelViaTransport] of a model name. *)
Context (probe : string -> modelProbeResult).

Definition verification_interval : Z := int_of_float (duration_seconds (refreshInterval r)).
Definition lifecycle (previous : gmap string ProviderModelStatus) (model : ProviderModelStatus)
  : ProviderModelStatus :=
  mergeProviderLifecycle model (previous !! modelLifecycleKey (ModelName model)) now
    verification_interval.
Definition effective_queue_limit (models : list ProviderModelStatus) : Z :=
  if unregisteredQLimit r <=? 0 then len models else unregisteredQLimit r.

(** One turn of the loop over the ordered indexes. *)
Definition consider (queueLimit : Z) (st : Round) (idx : nat) : Round :=
  match round_models st !! idx with
  | None => st
  | Some model =>
      let store m := st <| round_models ::= <[idx := m]> |> in
      if negb (canParticipateInRegistration model) then st
      else
        let '(fresh, model) := keepConfirmedModelFresh now (confirmationTTL r) model in
        if fresh then store model
        else
          let reason := inapplicableValidationReason model cfg in
          if negb (String.eqb reason "") then store (markModelTransportInapplicable now reason model)
          else
            let model := prepareModelForRegistration now (pendingTTL r) (confirmationTTL r) model in
            if negb (registrationDue now model) then store (markModelCooldown now model)
            else if queueLimit <=? len (queuedIndexes st) then store (markModelQueueOverflow now model)
            else
              let queued := queuedIndexes st ++ [idx] in
              if (validationLimit r <=? 0) || (len (probeIndexes st) <? validationLimit r)
              then store model <| queuedIndexes := queued |> <| probeIndexes ::= (fun l => l ++ [idx]) |>
              else store (markModelQueued now (len queued) model) <| queuedIndexes := queued |>
  end.

Definition probe_model (model : ProviderModelStatus) : ProviderModelStatus :=
  let model := startModelVerification now model in
  applyProbeResult (probe (ModelName model)) now (retryCooldown r) (confirmationTTL r) model.

Definition registration_round (models : list ProviderModelStatus) : Round :=
  foldl (consider (effective_queue_limit models)) (mkRound models [] [])
    (prioritizeModelValidation models (CfgDefaultModel cfg)).

(** The rows after the loops. *)
Definition registered_rows (models : list ProviderModelStatus)
  (previous : gmap string ProviderModelStatus) : list ProviderModelStatus :=
  let st := registration_round (map (lifecycle previous) models) in
  let models := foldl (fun models idx => alter probe_model idx models) (round_models st)
                  (probeIndexes st) in
  foldl (fun models idx =>
      alter (markModelQueued now (indexInQueue (queuedIndexes st) idx + 1)) idx models)
    models (drop (length (probeIndexes st)) (queuedIndexes st)).

(** [None] is a run-time panic: the capacity of the slice of probes must not be negative. *)
Definition minInt (a b : Z) : Z := if a <? b then a else b.
Definition validateDiscoveredModels (models : list ProviderModelStatus)
  (previous : gmap string ProviderModelStatus) : option (list ProviderModelStatus) :=
  if minInt (validationLimit r) (len models) <? 0 then None
  else Some (registered_rows models previous).
End Validate.

(** ** The snapshot of a provider *)
Definition shouldValidateProvider (r : RegistrySettings) (cfg : OpenAICompatibleConfig) : bool :=
  validateModels r && CfgConfigured cfg &&
  (non_blank (ChatCompletionsURL cfg) || non_blank (ResponsesURL cfg) || non_blank (MessagesURL cfg)).

Fixpoint aggregateModelError (models : list ProviderModelStatus) (fallback : string) : string :=
  match models with
  | [] => fallback
  | model :: models =>
      let otherwise := if non_blank (ModelReason model)
        then ModelName model +:+ ": " +:+ ModelReason model else aggregateModelError models fallback in
      match ModelLastError model with
      | Some err => if non_blank (Message err) then ModelName model +:+ ": " +:+ Message err
                    else otherwise
      | None => otherwise
      end
  end.
Definition aggregateSourceErrors (errors : list string) (fallback : string) : string :=
  match errors with [] => fallback | _ => Join errors "; " end.

Definition with_verification (v : string) (models : list ProviderModelStatus)
  : list ProviderModelStatus :=
  List.filter (fun m => String.eqb (TrimSpace (VerificationStatus m)) v) models.
Definition confirmedCount (models : list ProviderModelStatus) : Z :=
  len (with_verification "confirmed" models).
Definition pendingCount (models : list ProviderModelStatus) : Z :=
  len (with_verification "verifying" models).
Definition inapplicableCount (models : list ProviderModelStatus) : Z :=
  len (with_verification "skipped" models).
Definition failedCount (models : list ProviderModelStatus) : Z :=
  len (List.filter (fun m => negb (mem_string (TrimSpace (VerificationStatus m))
                                     ["confirmed"; "verifying"; "skipped"])) models).

(** Status and error text of a snapshot that has no error yet. *)
Definition snapshot_status (models : list ProviderModelStatus) (sourceErrors : list string)
  : string * string :=
  let confirmed := 0 <? confirmedCount models in
  let pending := 0 <? pendingCount models in
  let failed := 0 <? failedCount models in
  let inapplicable := 0 <? inapplicableCount models in
  let no_errors := match sourceErrors with [] => true | _ => false end in
  if confirmed && (pending || failed || negb no_errors) then
    ("degraded", aggregateSourceErrors sourceErrors
       (aggregateModelError models "one or more models are degraded or still verifying"))
  else if confirmed then ("ready", "")
  else if pending then
    ("verifying", aggregateSourceErrors sourceErrors
       (aggregateModelError models "provider inventory discovered models that are still verifying"))
  else if inapplicable && negb failed && no_errors then
    ("unavailable", aggregateModelError models
       "provider inventory does not contain models compatible with the configured validation transport")
  else
    ("unavailable", aggregateSourceErrors sourceErrors
       (aggregateModelError models "no confirmed models are available")).

Definition registryTransportMode (cfg : OpenAICompatibleConfig) : RuntimeTransportMode :=
  if SupportsNativeStreaming cfg then RuntimeTransportNativeStream
  else if SupportsPseudoRealtime cfg then RuntimeTransportPseudoRealtime
  else RuntimeTransportBuffered.

Definition has_suffix (p s : string) : bool := has_prefix (String.rev p) (String.rev s).

(** [maxDuration] of the provider's and the registry's timeout. *)
Definition maxDuration (left right : Z) : Z :=
  if left <=? 0 then right else if (right <=? 0) || (right <? left) then left else right.

(** ** The registry *)
Record ProviderModelRegistry : Type := mkProviderModelRegistry {
  settings : RegistrySettings;
  configs : gmap string OpenAICompatibleConfig;
  snapshots : gmap string ProviderCatalogSnapshot;
  catalog : option modelCatalog;
  refreshing : bool }.
#[export] Instance eta_ProviderModelRegistry : Updatable ProviderModelRegistry := fun r =>
  mkProviderModelRegistry (settings r) (configs r) (snapshots r) (catalog r) (refreshing r).

Section Registry.
(** The process environment, [time.ParseDuration], and [url.Parse] followed by [Hostname]. *)
Context (getenv : string -> string) (ParseDuration : string -> option Z).
Context (hostname : string -> option string).

Fixpoint env_candidates {A} (read : string -> option A) (keys : list string) (fallback : A) : A :=
  match keys with
  | [] => fallback
  | key :: keys =>
      let value := TrimSpace (getenv key) in
      if String.eqb value "" then env_candidates read keys fallback
      else match read value with
           | Some v => v
           | None => env_candidates read keys fallback
           end
  end.
Definition registryEnvInt (key : string) (fallback : Z) (aliases : list string) : Z :=
  env_candidates Atoi (key :: aliases) fallback.
Definition registryEnvDuration (key : string) (fallback : Z) (aliases : list string) : Z :=
  env_candidates (fun value => match ParseDuration value with
    | Some parsed => if 0 <? parsed then Some parsed else None
    | None => None
    end) (key :: aliases) fallback.
Definition registryEnvBool (key : string) (fallback : bool) (aliases : list string) : bool :=
  env_candidates (fun value => Some (default false (ParseBool value))) (key :: aliases) fallback.

Definition hour : Z := 60 * minute.
Definition settings_from_env : RegistrySettings :=
  mkRegistrySettings
    (registryEnvDuration "AI_BRIDGE_MODEL_REFRESH_INTERVAL" (5 * minute)
       ["GO_CORE_MODEL_REGISTRY_REFRESH_INTERVAL"])
    (registryEnvDuration "AI_BRIDGE_MODEL_REFRESH_TIMEOUT" (20 * second)
       ["GO_CORE_MODEL_REGISTRY_TIMEOUT"])
    (registryEnvBool "AI_BRIDGE_MODEL_REFRESH_ENABLED" true ["GO_CORE_MODEL_REGISTRY_ENABLED"])
    (registryEnvBool "AI_BRIDGE_MODEL_VALIDATE_MODELS" true [])
    (registryEnvInt "AI_BRIDGE_MODEL_VALIDATE_LIMIT" 12 [])
    (registryEnvDuration "AI_BRIDGE_MODEL_PENDING_TTL" (30 * minute)
       ["GO_CORE_MODEL_REGISTRY_PENDING_TTL"])
    (registryEnvDuration "AI_BRIDGE_MODEL_CONFIRMATION_TTL" (6 * hour)
       ["GO_CORE_MODEL_REGISTRY_CONFIRMATION_TTL"])
    (registryEnvDuration "AI_BRIDGE_MODEL_RETRY_COOLDOWN" (10 * minute)
       ["GO_CORE_MODEL_REGISTRY_RETRY_COOLDOWN"])
    (registryEnvInt "AI_BRIDGE_MODEL_QUEUE_LIMIT" 64 ["GO_CORE_MODEL_REGISTRY_QUEUE_LIMIT"]).

(** [configs] in the order in which the map is walked; [catalog] is [None] when the file could not
    be read. *)
Definition NewProviderModelRegistry (configs : list (string * OpenAICompatibleConfig))
  (catalog : option modelCatalog) : ProviderModelRegistry :=
  mkProviderModelRegistry settings_from_env
    (foldl (fun m '(key, cfg) => <[ToLower (TrimSpace key) := cfg]> m) ∅ configs) ∅ catalog false.

Definition placeholderEndpoint (raw : string) : bool :=
  let trimmed := TrimSpace raw in
  if String.eqb trimmed "" then false
  else match hostname trimmed with
       | None => false
       | Some host =>
           let host := ToLower (TrimSpace host) in
           if String.eqb host "" then false
           else String.eqb host "example" || has_suffix ".example" host || Contains host ".example."
       end.
Definition placeholderEndpointConfigured (endpoints : list string) : bool :=
  existsb placeholderEndpoint endpoints.

Definition registryMaxParallelRequests : Z :=
  let value := registryEnvInt "GO_CORE_PROVIDER_MAX_CONCURRENT" 0
                 ["AI_BRIDGE_PROVIDER_MAX_CONCURRENT"] in
  if 0 <? value then value
  else registryEnvInt "GO_CORE_MAX_CONCURRENT_PER_MODEL" 1 ["AI_BRIDGE_MAX_CONCURRENT_PER_MODEL"].
Definition providerRuntimeCapabilitiesFromConfig (cfg : OpenAICompatibleConfig) (connected : bool)
  (observedAt : Time) : ProviderRuntimeCapabilities :=
  let streaming := SupportsNativeStreaming cfg || SupportsPseudoRealtime cfg in
  mkProviderRuntimeCapabilities connected (SupportsNativeStreaming cfg) streaming streaming streaming
    registryMaxParallelRequests true (registryTransportMode cfg) observedAt.

Definition Snapshot (provider : string) (r : ProviderModelRegistry) : option ProviderCatalogSnapshot :=
  snapshots r !! ToLower (TrimSpace provider).
Definition snapshot_less (a b : ProviderCatalogSnapshot) : bool :=
  String.ltb (SnapProvider a) (SnapProvider b).
Definition Snapshots (r : ProviderModelRegistry) : list ProviderCatalogSnapshot :=
  sort_slice snapshot_less (map snd (map_to_list (snapshots r))).
Definition HealthyModels (provider : string) (now : Time) (r : ProviderModelRegistry)
  : list ProviderModelStatus :=
  match Snapshot provider r with
  | None => []
  | Some snapshot =>
      if providerSnapshotRoutingUsable snapshot now
      then List.filter providerModelRoutingReady (Models snapshot) else []
  end.

Definition needsRefreshLocked (now : Time) (r : ProviderModelRegistry) : bool :=
  let ttl := refreshInterval (settings r) in
  let ttl := if ttl <=? 0 then 5 * minute else ttl in
  let ttl := if ttl <? minute then minute else ttl in
  existsb (fun '(provider, _) => match snapshots r !! provider with
    | None => true
    | Some snapshot => IsZero (SnapObservedAt snapshot) ||
                       (ttl <=? time_sub now (SnapObservedAt snapshot))
    end) (map_to_list (configs r)).
Definition beginRefresh (force : bool) (now : Time) (r : ProviderModelRegistry)
  : bool * ProviderModelRegistry :=
  if refreshing r then (false, r)
  else if negb force && negb (needsRefreshLocked now r) then (false, r)
  else (true, r <| refreshing := true |>).
Definition finishRefresh (r : ProviderModelRegistry) : ProviderModelRegistry :=
  r <| refreshing := false |>.

(** The network, as it answers a provider's inventory requests and probes during a refresh, and
    the clock when a model is probed; [http.StatusText]. *)
Context (get : string -> inventorySource -> string + InventoryResponse).
Context (post : string -> string -> string -> ProbeAnswer) (probed_at : string -> string -> Time).
Context (StatusText : Z -> string).
Definition probe (provider : string) (cfg : OpenAICompatibleConfig) (model : string)
  : modelProbeResult :=
  validateModelViaTransport StatusText cfg (post provider) (probed_at provider model) model.

Definition default_row (provider : string) (cfg : OpenAICompatibleConfig) (now : Time) (interval : Z)
  (status reason inventoryStatus transportStatus verificationStatus : string) (metadata : anymap)
  : ProviderModelStatus :=
  mkProviderModelStatus provider (CfgDefaultModel cfg) false status reason inventoryStatus
    transportStatus verificationStatus "" now true
    (annotateProviderModelMetadata (CfgDefaultModel cfg) metadata)
    0 0 None None None None None None 0 0 0 0 "" 0 interval None.

(** The rows of an inventory, completed with the configured default model. *)
Definition inventory_rows (provider : string) (cfg : OpenAICompatibleConfig) (now : Time)
  (interval : Z) (models : list ProviderModelStatus) : list ProviderModelStatus :=
  let models := match models with
    | [] => if non_blank (CfgDefaultModel cfg) then
        [default_row provider cfg now interval "verification_pending"
           "configured default model requires direct transport verification because provider inventory is unavailable"
           "inventory_unavailable" "transport_pending" "verifying"
           [("synthetic_inventory", ABool true)]]
        else []
    | _ => models
    end in
  match models with
  | [] => []
  | _ =>
      let is_default m := EqualFold (ModelName m) (CfgDefaultModel cfg) in
      let marked := map (fun m => if is_default m then m <| IsDefault := true |> else m) models in
      if negb (existsb is_default models) && non_blank (CfgDefaultModel cfg) then
        default_row provider cfg now interval "missing"
          "configured default model is not present in provider inventory"
          "inventory_missing" "transport_unavailable" "unconfirmed" [] :: marked
      else marked
  end.

Definition empty_snapshot (provider : string) (cfg : OpenAICompatibleConfig) (now : Time)
  (interval : Z) : ProviderCatalogSnapshot :=
  mkProviderCatalogSnapshot provider (EffectiveProviderID cfg) (CfgConfigured cfg) false
    "not_configured" (sanitizedURL (CfgBaseURL cfg)) (sanitizedURL (ModelsURL cfg))
    (sanitizedURL (ChatCompletionsURL cfg)) (sanitizedURL (ResponsesURL cfg))
    (sanitizedURL (MessagesURL cfg)) (sanitizedURL (MessagesCountTokensURL cfg))
    (sanitizedURL (CodexURL cfg)) (CfgDefaultModel cfg) [] "" now interval
    (Some (providerRuntimeCapabilitiesFromConfig cfg false now)).

(** The rows after validation, against those of the last snapshot; and after the catalog. *)
Definition verified_rows (now : Time) (r : ProviderModelRegistry) (provider : string)
  (cfg : OpenAICompatibleConfig) (rows : list ProviderModelStatus)
  : option (list ProviderModelStatus) :=
  if shouldValidateProvider (settings r) cfg
  then validateDiscoveredModels (settings r) cfg now (probe provider cfg) rows
         (match Snapshot provider r with
          | Some previous => indexProviderModels (Models previous)
          | None => ∅
          end)
  else Some rows.
Definition catalogued_rows (provider : string) (models : list ProviderModelStatus)
  (catalog : option modelCatalog) : list ProviderModelStatus * option modelCatalog :=
  match catalog with
  | None => (models, None)
  | Some c => let models := catalog_filter provider models c in
              (models, Some (syncProvider provider models c))
  end.

(** The snapshot and the catalog after the refresh of one provider; [None] is a panic. *)
Definition fetchProviderSnapshot (now : Time) (r : ProviderModelRegistry) (provider : string)
  (cfg : OpenAICompatibleConfig) (catalog : option modelCatalog)
  : option (ProviderCatalogSnapshot * option modelCatalog) :=
  let interval := verification_interval (settings r) in
  let snapshot := empty_snapshot provider cfg now interval in
  if negb (CfgConfigured cfg) then
    Some (snapshot <| SnapError := "provider credentials or endpoint are not configured" |>, catalog)
  else if placeholderEndpointConfigured [CfgBaseURL cfg; ModelsURL cfg; ChatCompletionsURL cfg;
            ResponsesURL cfg; MessagesURL cfg; CodexURL cfg] then
    Some (snapshot <| SnapError := "provider endpoint uses a placeholder host and must be replaced with a real upstream URL" |>, catalog)
  else
    let '(models, sourceErrors) := fetchProviderModels StatusText provider cfg now (get provider) in
    match inventory_rows provider cfg now interval models with
    | [] => Some (snapshot <| SnapStatus := "unavailable" |>
               <| SnapError := aggregateSourceErrors sourceErrors
                    "provider returned an empty model inventory" |>, catalog)
    | rows =>
        match verified_rows now r provider cfg rows with
        | None => None
        | Some models =>
            let '(models, catalog) := catalogued_rows provider models catalog in
            let '(status, error) := snapshot_status models sourceErrors in
            Some (snapshot <| Models := models |>
                <| SnapCapabilities := Some (providerRuntimeCapabilitiesFromConfig cfg true now) |>
                <| SnapAvailable := 0 <? confirmedCount models |>
                <| SnapStatus := status |> <| SnapError := error |>, catalog)
        end
    end.

(** [refreshSnapshots]: the providers are fetched in any order, against the snapshots of the last
    round; they share only the catalog.  A panic of one of them ends the process. *)
Fixpoint fetch_all (now : string -> Time) (r : ProviderModelRegistry)
  (order : list (string * OpenAICompatibleConfig)) (c : option modelCatalog)
  : option (list ProviderCatalogSnapshot * option modelCatalog) :=
  match order with
  | [] => Some ([], c)
  | (provider, cfg) :: order =>
      match fetchProviderSnapshot (now provider) r provider cfg c with
      | None => None
      | Some (snapshot, c) =>
          match fetch_all now r order c with
          | None => None
          | Some (fetched, c) => Some (snapshot :: fetched, c)
          end
      end
  end.
Definition refreshSnapshots (now : string -> Time) (order : list (string * OpenAICompatibleConfig))
  (r : ProviderModelRegistry) : option ProviderModelRegistry :=
  match fetch_all now r order (catalog r) with
  | None => None
  | Some (fetched, synced) =>
      Some (r <| snapshots ::= (fun m => foldl (fun m s => <[SnapProvider s := s]> m) m fetched) |>
              <| catalog := synced |>)
  end.

(** [order] lists [configs r] as the map happens to be walked. *)
Definition Refresh (now : Time) (clock : string -> Time)
  (order : list (string * OpenAICompatibleConfig)) (r : ProviderModelRegistry)
  : option ProviderModelRegistry :=
  match beginRefresh true now r with
  | (false, r) => Some r
  | (true, r) => finishRefresh <$> refreshSnapshots clock order r
  end.
Definition RefreshIfStale (now : Time) (clock : string -> Time)
  (order : list (string * OpenAICompatibleConfig)) (r : ProviderModelRegistry)
  : option ProviderModelRegistry :=
  match beginRefresh false now r with
  | (false, r) => Some r
  | (true, r) => finishRefresh <$> refreshSnapshots clock order r
  end.
End Registry.
