(* ===== verification/ModelRegistryProps.v ===== *)
(** * Correctness of the provider model registry

    Which rows a registration round queues and probes, what makes a model routable, and what the
    snapshot of a provider says about its models. *)
From S2P Require Import Prelude GoLib GoJSON Domain TaskPolicy RuntimeManager ModelInventory ModelRegistry.

(** ** Rows that are not routable *)
Definition unready (m : ProviderModelStatus) : Prop :=
  ModelAvailable m = false /\ TrimSpace (VerificationStatus m) <> "confirmed".

Lemma unready_not_routable m : unready m -> providerModelRoutingReady m = false.
Proof. intros [Ha _]. unfold providerModelRoutingReady. by rewrite Ha. Qed.

Section Inventory.
Context (provider : string) (now : Time).
Abbreviation rows_unready := (Forall unready).

Lemma inventory_row_unready name raw : unready (inventory_row provider now name raw).
Proof. split; [done|]. cbn. by destruct (disabled_item raw). Qed.

Lemma appendModel_unready rows name raw :
  rows_unready rows -> rows_unready (appendModel provider now rows name raw).
Proof.
  intros H. unfold appendModel. do 2 (case_match; [done|]).
  apply Forall_app; split; [done|]. apply Forall_singleton, inventory_row_unready.
Qed.

Lemma append_items_unready items rows :
  rows_unready rows -> rows_unready (append_items provider now items rows).
Proof.
  unfold append_items. revert rows. induction items as [|item items IH]; intros rows H; cbn; [done|].
  by apply IH, appendModel_unready.
Qed.

Lemma collect_unready : forall raw rows,
  rows_unready rows -> rows_unready (collectProviderModels provider now raw rows).
Proof.
  fix IH 1. intros raw rows H. destruct raw as [|?|?|?|?|?|l|?|m|?]; try exact H; cbn [collectProviderModels].
  - revert rows H. induction l as [|value l IHl]; intros rows H; [exact H|]. apply IHl, IH, H.
  - match goal with |- context [if ?b then appendModel _ _ ?rs ?n ?t else _] =>
      assert (rows_unready (if b then appendModel provider now rs n t else rs)) as H0
        by (case_match; [by apply appendModel_unready | done]);
      revert H0; generalize (if b then appendModel provider now rs n t else rs) end.
    match goal with |- context [if ?r && _ then _ else _] => generalize r end.
    match goal with |- context [annotated ?n _] => generalize n end. intros name rec rows0. clear H.
    revert rows0. induction m as [|[key value] m IHm]; intros rows0 H0; [exact H0|].
    apply IHm. destruct (rec && annotated name key); [exact H0 | apply IH, H0].
Qed.

Lemma finish_rows_unready rows : rows_unready rows -> rows_unready (finish_rows rows).
Proof.
  intros H. unfold finish_rows. rewrite sort_slice_perm. unfold appendDisplayVariants.
  apply Forall_map. eapply Forall_impl; [exact H|]. intros m Hm. unfold with_display_variants.
  by case_match.
Qed.

Lemma parseProviderModels_unready body rows :
  parseProviderModels provider now body = inr rows -> rows_unready rows.
Proof.
  unfold parseProviderModels.
  assert (rows_unready (match AsWrapped body with
     | Some (data, models) => append_items provider now models (append_items provider now data [])
     | None => [] end)) as H by (repeat case_match; auto using append_items_unready).
  revert H. destruct (match AsWrapped body with Some _ => _ | None => _ end) as [|row rest].
  - intros _. repeat case_match; intros [= <-]; apply finish_rows_unready;
      auto using append_items_unready, collect_unready.
  - intros H [= <-]. by apply finish_rows_unready.
Qed.
End Inventory.

Section Sources.
Context (StatusText : Z -> string) (provider : string) (cfg : OpenAICompatibleConfig) (now : Time).
Context (get : inventorySource -> string + InventoryResponse).

Lemma source_rows_unready source rows :
  fetchProviderModelsFromSource StatusText provider now get source = inr rows -> Forall unready rows.
Proof.
  unfold fetchProviderModelsFromSource. do 2 (case_match; [done|]). case_match eqn:Hp; [done|].
  intros [= <-]. apply Forall_map. by eapply parseProviderModels_unready.
Qed.

Lemma merge_row_unready source acc row :
  Forall unready acc.1 -> unready row -> Forall unready (merge_row source acc row).1.
Proof.
  destruct acc as [merged seen]. intros Hm Hr. cbn in Hm. unfold merge_row.
  case_match; cbn; [|by apply Forall_app; split; [|by apply Forall_singleton]].
  apply Forall_alter; [done|]. intros m _ [Ha Hv]. split; [|exact Hv].
  cbn. by rewrite Ha, (proj1 Hr).
Qed.

Lemma read_sources_unready sources acc errs :
  Forall unready acc.1 ->
  Forall unready (read_sources StatusText provider now get sources acc errs).1.
Proof.
  revert acc errs. induction sources as [|source sources IH]; intros acc errs H; [done|].
  cbn. case_match eqn:Hf; [by apply IH|]. apply IH. apply source_rows_unready in Hf.
  clear IH. revert acc H. induction Hf as [|row rows Hr Hf IHf]; intros acc H; cbn; [done|].
  by apply IHf, merge_row_unready.
Qed.

(** No row of an inventory is routable before it is probed. *)
Lemma fetched_rows_unready :
  Forall unready (fetchProviderModels StatusText provider cfg now get).1.
Proof.
  unfold fetchProviderModels.
  pose proof (read_sources_unready (inventory_sources cfg) ([], ∅) [] (Forall_nil_2 _)) as H.
  destruct (read_sources _ _ _ _ _ _ _) as [merged errs]. cbn in *. by rewrite sort_slice_perm.
Qed.
End Sources.

Lemma inventory_rows_unready provider cfg now interval models :
  Forall unready models -> Forall unready (inventory_rows provider cfg now interval models).
Proof.
  intros H. unfold inventory_rows.
  set (rows := match models with [] => _ | _ => _ end).
  assert (Forall unready rows) as Hrows.
  { subst rows. destruct models; [|done]. case_match; [|done]. apply Forall_singleton. split; done. }
  destruct rows as [|m rest]; [done|]. set (l := m :: rest) in *. clearbody l. clear -Hrows.
  assert (Forall unready (map (fun m => if EqualFold (ModelName m) (CfgDefaultModel cfg)
                                        then m <| IsDefault := true |> else m) l)) as Hl.
  { apply Forall_map. eapply Forall_impl; [exact Hrows|]. intros x Hx. cbn. by case_match. }
  case_match; [|done]. constructor; [split; done|done].
Qed.

(** ** The steps of a registration round keep a row unroutable *)
Lemma setModelState_available s i t v why now m :
  ModelAvailable (setModelState s i t v why now m) = ModelAvailable m.
Proof. done. Qed.

Lemma setModelState_verification s i t v why now m :
  VerificationStatus (setModelState s i t v why now m) =
  if String.eqb v "" then VerificationStatus m else v.
Proof. done. Qed.

Lemma mark_unready fallback m m' :
  unready m -> TrimSpace fallback <> "confirmed" -> ModelAvailable m' = false ->
  VerificationStatus m' = (if String.eqb (verificationStatusOr m fallback) ""
    then VerificationStatus m else verificationStatusOr m fallback) ->
  unready m'.
Proof.
  intros [_ Hv] Hf Ha HV. split; [done|]. rewrite HV. unfold verificationStatusOr.
  destruct (non_blank (VerificationStatus m));
    [by destruct (String.eqb (VerificationStatus m) "") | by destruct (String.eqb fallback "")].
Qed.

Lemma lifecycle_unready r now previous m : unready m -> unready (lifecycle r now previous m).
Proof.
  intros [Ha Hv]. unfold lifecycle, mergeProviderLifecycle. repeat case_match; by split.
Qed.

Lemma prepare_statuses_verification m :
  VerificationStatus (prepare_statuses m) = VerificationStatus m.
Proof. unfold prepare_statuses. by destruct m; cbn; repeat case_match. Qed.

Lemma prepare_times_verification now pending ttl m :
  VerificationStatus (prepare_times now pending ttl m) = VerificationStatus m \/
  VerificationStatus (prepare_times now pending ttl m) = "stale".
Proof. unfold prepare_times. destruct m; cbn. repeat case_match; cbn; auto. Qed.

Lemma prepare_unready now pending ttl m :
  unready m -> unready (prepareModelForRegistration now pending ttl m).
Proof.
  intros [_ Hv]. unfold prepareModelForRegistration.
  assert (TrimSpace (VerificationStatus (prepare_times now pending ttl (prepare_statuses m)))
          <> "confirmed") as H.
  { destruct (prepare_times_verification now pending ttl (prepare_statuses m)) as [->| ->]; [|done].
    by rewrite prepare_statuses_verification. }
  revert H. generalize (prepare_times now pending ttl (prepare_statuses m)). clear. intros m H.
  apply String.eqb_neq in H. unfold prepare_waiting. cbn [VerificationStatus].
  destruct m; cbn in *. rewrite H. cbn. apply String.eqb_neq in H. by case_match; split.
Qed.

Lemma keepConfirmed_unready now ttl m :
  unready m -> keepConfirmedModelFresh now ttl m = (false, m).
Proof. intros [Ha _]. unfold keepConfirmedModelFresh. by rewrite Ha, orb_true_r. Qed.

Lemma cooldown_unready now m : unready m -> unready (markModelCooldown now m).
Proof. intros H. by apply (mark_unready "cooldown" m). Qed.
Lemma queued_unready now pos m : unready m -> unready (markModelQueued now pos m).
Proof. intros H. by apply (mark_unready "verifying" m). Qed.
Lemma overflow_unready now m : unready m -> unready (markModelQueueOverflow now m).
Proof. intros H. by apply (mark_unready "verifying" m). Qed.
Lemma inapplicable_unready now why m : unready (markModelTransportInapplicable now why m).
Proof. by split. Qed.
(** What the loop over the rows does to a row that is not routable: it stays so, it is not
    attempted, and the time of its next attempt is kept unless it cannot be probed at all. *)
Definition considered (m m' : ProviderModelStatus) : Prop :=
  unready m ->
  unready m' /\ ModelName m' = ModelName m /\ RegistrationAttempts m' = RegistrationAttempts m /\
  (NextVerificationAt m' = NextVerificationAt m \/ ModelStatus m' = "transport_inapplicable").

Lemma considered_refl m : considered m m.
Proof. repeat split; auto; apply H. Qed.
#[export] Instance considered_reflexive : Reflexive considered := considered_refl.

(** The parts of a row that a step keeps. *)
Definition same_schedule (m m' : ProviderModelStatus) : Prop :=
  ModelName m' = ModelName m /\ RegistrationAttempts m' = RegistrationAttempts m /\
  NextVerificationAt m' = NextVerificationAt m.

Lemma prepare_schedule now pending ttl m :
  same_schedule m (prepareModelForRegistration now pending ttl m).
Proof.
  assert (forall m, same_schedule m (prepare_statuses m)) as H1.
  { clear m. intros []. unfold prepare_statuses; cbn. by repeat case_match. }
  assert (forall m, same_schedule m (prepare_times now pending ttl m)) as H2.
  { clear m H1. intros []. unfold prepare_times; cbn. by repeat case_match. }
  assert (forall m, same_schedule m (prepare_waiting now m)) as H3.
  { clear m H1 H2. intros []. unfold prepare_waiting; cbn. by repeat case_match. }
  unfold prepareModelForRegistration.
  specialize (H1 m). specialize (H2 (prepare_statuses m)).
  specialize (H3 (prepare_times now pending ttl (prepare_statuses m))).
  unfold same_schedule in *. intuition congruence.
Qed.

Lemma prepared_considered now pending ttl m m' :
  (unready m -> considered (prepareModelForRegistration now pending ttl m) m') -> considered m m'.
Proof.
  intros H Hm. destruct (prepare_schedule now pending ttl m) as (Hn & Ha & Hv).
  rewrite <- Hn, <- Ha, <- Hv. by apply H, prepare_unready.
Qed.

Lemma cooldown_considered now m : considered m (markModelCooldown now m).
Proof. intros H. split; [by apply cooldown_unready|]. auto. Qed.
Lemma queued_considered now pos m : considered m (markModelQueued now pos m).
Proof. intros H. split; [by apply queued_unready|]. auto. Qed.
Lemma overflow_considered now m : considered m (markModelQueueOverflow now m).
Proof. intros H. split; [by apply overflow_unready|]. auto. Qed.
Lemma inapplicable_considered now why m : considered m (markModelTransportInapplicable now why m).
Proof. intros H. split; [apply inapplicable_unready|]. auto. Qed.
#[local] Hint Resolve cooldown_considered queued_considered overflow_considered
  inapplicable_considered considered_refl : orch.

(** ** Updating a list at distinct indexes *)
Section AlterAll.
Context {A : Type} (f : nat -> A -> A).

Lemma lookup_alter_all ids (l : list A) j :
  NoDup ids ->
  foldl (fun l i => alter (f i) i l) l ids !! j =
  if decide (j ∈ ids) then f j <$> l !! j else l !! j.
Proof.
  intros Hnd. revert l. induction Hnd as [|i ids Hi Hnd IH]; intros l; cbn.
  { by rewrite decide_False by apply not_elem_of_nil. }
  rewrite IH. destruct (decide (j ∈ ids)) as [Hj|Hj].
  - rewrite decide_True by (by right).
    destruct (decide (i = j)) as [->|Hne]; [done|]. by rewrite list_lookup_alter_ne.
  - destruct (decide (i = j)) as [->|Hne].
    + rewrite decide_True by (by left). by rewrite list_lookup_alter_eq.
    + rewrite decide_False by (rewrite elem_of_cons; naive_solver).
      by rewrite list_lookup_alter_ne.
Qed.
End AlterAll.

Lemma prioritize_nodup models d : NoDup (prioritizeModelValidation models d).
Proof.
  unfold prioritizeModelValidation. case_match eqn:E; [|apply NoDup_seq].
  constructor.
  - intros H. apply list_elem_of_In, filter_In in H as [_ H]. by rewrite Nat.eqb_refl in H.
  - apply NoDup_ListNoDup, List.NoDup_filter, NoDup_ListNoDup, NoDup_seq.
Qed.

(** ** What a round queues and probes *)
Lemma take_snoc {A} n (l : list A) x :
  take n (l ++ [x]) = if (n <=? length (take n l))%nat then take n l else take n l ++ [x].
Proof.
  rewrite length_take. destruct (Nat.leb_spec n (Nat.min n (length l))) as [H|H].
  - by rewrite take_app_le by lia.
  - rewrite !take_ge; [done|lia|rewrite length_app; cbn; lia].
Qed.

(** [limit] rows at most, or all of them when the limit is not positive. *)
Definition limited {A} (limit : Z) (l : list A) : list A :=
  if limit <=? 0 then l else take (Z.to_nat limit) l.

Lemma limited_nil {A} limit : limited limit (@nil A) = [].
Proof. unfold limited. case_match; [done|apply take_nil]. Qed.

Lemma limited_snoc {A} limit (l : list A) x :
  limited limit (l ++ [x]) =
  if (limit <=? 0) || (len (limited limit l) <? limit) then limited limit l ++ [x]
  else limited limit l.
Proof.
  unfold limited, len. destruct (Z.leb_spec limit 0) as [H|H]; [done|]. cbn [orb].
  rewrite take_snoc.
  destruct (Nat.leb_spec (Z.to_nat limit) (length (take (Z.to_nat limit) l)));
    destruct (Z.ltb_spec (Z.of_nat (length (take (Z.to_nat limit) l))) limit); done || lia.
Qed.

Lemma limited_step {A} limit (l : list A) x :
  0 < limit ->
  limited limit (l ++ [x]) =
  if limit <=? len (limited limit l) then limited limit l else limited limit l ++ [x].
Proof.
  intros H. rewrite limited_snoc. destruct (Z.leb_spec limit 0); [lia|]. cbn [orb].
  destruct (Z.ltb_spec (len (limited limit l)) limit);
    destruct (Z.leb_spec limit (len (limited limit l))); done || lia.
Qed.

Lemma limited_le {A} limit (l : list A) : 0 < limit -> len (limited limit l) <= limit.
Proof.
  intros H. unfold limited, len. destruct (Z.leb_spec limit 0); [lia|]. rewrite length_take. lia.
Qed.

Section Round.
Context (r : RegistrySettings) (cfg : OpenAICompatibleConfig) (now : Time).

(** Whether a row, with the history of its model, is due for registration. *)
Definition due_row (m : ProviderModelStatus) : bool :=
  canParticipateInRegistration m && negb (keepConfirmedModelFresh now (confirmationTTL r) m).1 &&
  String.eqb (inapplicableValidationReason (keepConfirmedModelFresh now (confirmationTTL r) m).2 cfg) "" &&
  registrationDue now (prepareModelForRegistration now (pendingTTL r) (confirmationTTL r)
    (keepConfirmedModelFresh now (confirmationTTL r) m).2).
Definition due_at (models : list ProviderModelStatus) (i : nat) : bool :=
  match models !! i with Some m => due_row m | None => false end.

(** The state of the loop after the indexes [seen] of [models]. *)
Definition round_inv (limit : Z) (models : list ProviderModelStatus) (seen : list nat) (st : Round)
  : Prop :=
  queuedIndexes st = limited limit (List.filter (due_at models) seen) /\
  probeIndexes st = limited (validationLimit r) (queuedIndexes st) /\
  (forall j, j ∉ seen -> round_models st !! j = models !! j) /\
  Forall2 considered models (round_models st) /\
  (forall j, j ∈ seen -> due_at models j = true -> j ∉ queuedIndexes st ->
     exists m, round_models st !! j = Some m /\ QueueStatus m = "overflow").

(** A row that is not due leaves the queue alone. *)
Lemma consider_not_due limit st i m :
  round_models st !! i = Some m -> due_row m = false ->
  exists m', consider r cfg now limit st i = st <| round_models := <[i := m']> (round_models st) |> /\
    considered m m'.
Proof.
  intros Hm Hdue. unfold consider. rewrite Hm. cbv zeta. unfold due_row in Hdue.
  destruct (canParticipateInRegistration m) eqn:Hc; cbn [negb].
  2: { exists m. rewrite list_insert_id by done. by destruct st. }
  destruct (keepConfirmedModelFresh now (confirmationTTL r) m) as [fresh m1] eqn:Hk.
  assert (forall m', considered m1 m' -> considered m m') as Hun.
  { intros m' H Hm'. rewrite keepConfirmed_unready in Hk by done. simplify_eq. by apply H. }
  destruct fresh; [eexists; split; [done|]|].
  { intros H. by rewrite keepConfirmed_unready in Hk. }
  cbn [fst snd andb negb] in Hdue.
  destruct (String.eqb (inapplicableValidationReason m1 cfg) "") eqn:Hi; cbn [negb].
  2: { eexists; split; [done|auto with orch]. }
  cbn [andb] in Hdue. rewrite Hdue. cbn [negb]. eexists; split; [done|].
  apply Hun. eapply prepared_considered. auto with orch.
Qed.

(** A due row is queued while there is room, and probed while the limit is not reached. *)
Lemma consider_due limit st i m :
  round_models st !! i = Some m -> due_row m = true ->
  exists m', consider r cfg now limit st i =
      st <| round_models := <[i := m']> (round_models st) |>
         <| queuedIndexes := if limit <=? len (queuedIndexes st) then queuedIndexes st
                             else queuedIndexes st ++ [i] |>
         <| probeIndexes :=
              if limit <=? len (queuedIndexes st) then probeIndexes st
              else if (validationLimit r <=? 0) || (len (probeIndexes st) <? validationLimit r)
              then probeIndexes st ++ [i] else probeIndexes st |> /\
    considered m m' /\
    (limit <=? len (queuedIndexes st) = true -> QueueStatus m' = "overflow").
Proof.
  intros Hm Hdue. unfold consider. rewrite Hm. cbv zeta. unfold due_row in Hdue.
  destruct (keepConfirmedModelFresh now (confirmationTTL r) m) as [fresh m1] eqn:Hk.
  assert (forall m', considered m1 m' -> considered m m') as Hun.
  { intros m' H Hm'. rewrite keepConfirmed_unready in Hk by done. simplify_eq. by apply H. }
  cbn [fst snd] in Hdue. rewrite !andb_true_iff, negb_true_iff in Hdue.
  destruct Hdue as [[[-> ->] ->] ->]. cbn [negb].
  destruct (limit <=? len (queuedIndexes st)).
  { eexists; split; [by destruct st|split; [|done]].
    apply Hun. eapply prepared_considered. auto with orch. }
  case_match; eexists; (split; [by destruct st|split; [|done]]);
    apply Hun; eapply prepared_considered; auto with orch.
Qed.

Lemma consider_inv limit models seen st i :
  0 < limit -> i ∉ seen -> round_inv limit models seen st ->
  round_inv limit models (seen ++ [i]) (consider r cfg now limit st i).
Proof.
  intros Hlimit Hi (Hq & Hp & Hother & Hun & Hover). unfold round_inv.
  rewrite List.filter_app. cbn [List.filter].
  assert (due_at models i = match round_models st !! i with Some m => due_row m | None => false end)
    as Hdue_at by (unfold due_at; by rewrite Hother).
  assert (forall m', (forall j, j ∉ seen ++ [i] -> <[i := m']> (round_models st) !! j = models !! j) /\
            (forall j m, j ∈ seen -> round_models st !! j = Some m ->
               <[i := m']> (round_models st) !! j = Some m)) as Hrest.
  { intros m'. split.
    - intros j Hj. rewrite list_lookup_insert_ne by set_solver. apply Hother. set_solver.
    - intros j m Hj Hm. by rewrite list_lookup_insert_ne by (intros ->; done). }
  assert (forall m m', round_models st !! i = Some m -> considered m m' ->
            Forall2 considered models (<[i := m']> (round_models st))) as Hall.
  { intros m m' Hm Hm'. rewrite Hother in Hm by done.
    rewrite <- (list_insert_id models i m) at 1 by done. by apply Forall2_insert. }
  assert (due_at models i = false -> forall j, j ∈ seen ++ [i] -> due_at models j = true -> j ∈ seen)
    as Hseen by (intros ? j [?| ->%list_elem_of_singleton]%elem_of_app ?; congruence).
  rewrite Hdue_at in *. destruct (round_models st !! i) as [m|] eqn:Hm.
  2: { unfold consider. rewrite Hm, app_nil_r. repeat split; try done.
       - intros j Hj. apply Hother. set_solver.
       - eauto. }
  destruct (due_row m) eqn:Hdue.
  - destruct (consider_due limit st i m Hm Hdue) as (m' & -> & Hm' & Hfull).
    destruct (Hrest m') as [Hout Hin]. cbn [queuedIndexes].
    repeat split; cbn; [by rewrite limited_step, <- Hq| |exact Hout|by eapply Hall|].
    + rewrite Hp. destruct (limit <=? len (queuedIndexes st)); [done|]. by rewrite limited_snoc.
    + intros j Hj Hjd Hnq. destruct (decide (j = i)) as [->|Hne].
      * exists m'. rewrite list_lookup_insert_eq by by eapply lookup_lt_Some.
        split; [done|]. apply Hfull. case_match; [done|]. set_solver.
      * destruct (Hover j) as (x & Hx & Hxo); [set_solver|done|case_match; set_solver|].
        exists x. split; [|done]. apply Hin; [set_solver|done].
  - destruct (consider_not_due limit st i m Hm Hdue) as (m' & -> & Hm').
    destruct (Hrest m') as [Hout Hin].
    rewrite app_nil_r. repeat split; cbn; [done|done|exact Hout|by eapply Hall|].
    intros j Hj Hjd Hnq. destruct (Hover j) as (x & Hx & Hxo); [by apply Hseen|done|done|].
    exists x. split; [|done]. apply Hin; [by apply Hseen|done].
Qed.

Lemma round_fold limit models order seen st :
  0 < limit -> NoDup (seen ++ order) -> round_inv limit models seen st ->
  round_inv limit models (seen ++ order) (foldl (consider r cfg now limit) st order).
Proof.
  intros Hlimit. revert seen st. induction order as [|i order IH]; intros seen st Hnd H; cbn.
  { by rewrite app_nil_r. }
  replace (seen ++ i :: order) with ((seen ++ [i]) ++ order) in * by by rewrite <- app_assoc.
  apply IH; [done|]. apply consider_inv; [done| |done].
  apply NoDup_app in Hnd as (Hnd & _ & _). apply NoDup_app in Hnd as (_ & Hnd & _). set_solver.
Qed.
End Round.

(** ** The outcome of a round *)
Lemma limited_nodup {A} limit (l : list A) : NoDup l -> NoDup (limited limit l).
Proof.
  intros H. unfold limited. case_match; [done|]. eapply sublist_NoDup; [exact H|]. apply sublist_take.
Qed.
Lemma limited_elem {A} limit (l : list A) x : x ∈ limited limit l -> x ∈ l.
Proof.
  unfold limited. case_match; [done|]. intros (i & Hi)%list_elem_of_lookup.
  apply lookup_take_Some in Hi as [Hi _]. by eapply list_elem_of_lookup_2.
Qed.
Lemma limited_app_drop {A} limit (l : list A) :
  limited limit l ++ drop (length (limited limit l)) l = l.
Proof.
  unfold limited. case_match.
  - by rewrite drop_all, app_nil_r.
  - rewrite length_take. destruct (Nat.le_ge_cases (Z.to_nat limit) (length l)).
    + by rewrite Nat.min_l, take_drop.
    + by rewrite Nat.min_r, take_ge, drop_all, app_nil_r.
Qed.
Lemma limited_short {A} limit (l : list A) : len l <= limit -> limited limit l = l.
Proof. intros H. unfold limited, len in *. case_match; [done|]. apply take_ge. lia. Qed.

Lemma prioritize_elem models d j :
  j ∈ prioritizeModelValidation models d <-> (j < length models)%nat.
Proof.
  transitivity (j ∈ seq 0 (length models)); [|rewrite elem_of_seq; lia].
  unfold prioritizeModelValidation. case_match eqn:E; [|done].
  case_match; [done|]. unfold default_index in E.
  destruct (list_find _ models) as [[i m]|] eqn:Hf; [|done]. injection E as <-. cbn in *.
  apply list_find_Some in Hf as (Hi & _ & _). apply lookup_lt_Some in Hi.
  rewrite elem_of_cons, list_elem_of_In, filter_In, <- list_elem_of_In, elem_of_seq.
  destruct (Nat.eqb_spec j i); naive_solver lia.
Qed.
Lemma prioritize_length models d : length (prioritizeModelValidation models d) = length models.
Proof.
  assert (prioritizeModelValidation models d ≡ₚ seq 0 (length models)) as ->;
    [|apply length_seq].
  apply NoDup_Permutation; [apply prioritize_nodup|apply NoDup_seq|].
  intros j. rewrite prioritize_elem, elem_of_seq. lia.
Qed.

Lemma due_at_nil r cfg now j : due_at r cfg now [] j = true -> False.
Proof. unfold due_at. by rewrite lookup_nil. Qed.

Section Outcome.
Context (r : RegistrySettings) (cfg : OpenAICompatibleConfig) (now : Time).
Context (models : list ProviderModelStatus).

Definition due_indexes : list nat :=
  List.filter (due_at r cfg now models) (prioritizeModelValidation models (CfgDefaultModel cfg)).

Lemma due_indexes_nodup : NoDup due_indexes.
Proof. apply NoDup_ListNoDup, List.NoDup_filter, NoDup_ListNoDup, prioritize_nodup. Qed.
Lemma due_indexes_length : len due_indexes <= len models.
Proof.
  unfold due_indexes, len. rewrite <- (prioritize_length models (CfgDefaultModel cfg)).
  pose proof (List.filter_length_le (due_at r cfg now models)
    (prioritizeModelValidation models (CfgDefaultModel cfg))). lia.
Qed.

Lemma round_outcome :
  let st := registration_round r cfg now models in
  queuedIndexes st = limited (unregisteredQLimit r) due_indexes /\
  probeIndexes st = limited (validationLimit r) (queuedIndexes st) /\
  Forall2 considered models (round_models st) /\
  (forall j, due_at r cfg now models j = true -> j ∉ queuedIndexes st ->
     exists m, round_models st !! j = Some m /\ QueueStatus m = "overflow").
Proof.
  cbv zeta. unfold registration_round.
  assert (forall limit, 0 < limit -> limited limit due_indexes = limited (unregisteredQLimit r) due_indexes ->
    let st := foldl (consider r cfg now limit) (mkRound models [] [])
                (prioritizeModelValidation models (CfgDefaultModel cfg)) in
    queuedIndexes st = limited (unregisteredQLimit r) due_indexes /\
    probeIndexes st = limited (validationLimit r) (queuedIndexes st) /\
    Forall2 considered models (round_models st) /\
    (forall j, due_at r cfg now models j = true -> j ∉ queuedIndexes st ->
       exists m, round_models st !! j = Some m /\ QueueStatus m = "overflow")) as Hround.
  { intros limit Hlimit Heq. cbv zeta.
    destruct (round_fold r cfg now limit models (prioritizeModelValidation models (CfgDefaultModel cfg))
                [] (mkRound models [] []) Hlimit (prioritize_nodup _ _)) as (Hq & Hp & _ & Hu & Ho).
    - unfold round_inv. cbn. rewrite !limited_nil. repeat split; [done..|]. set_solver.
    - cbn [app] in *. split; [exact (eq_trans Hq Heq)|]. split; [done|]. split; [done|].
      intros j Hj. apply Ho; [|done]. rewrite prioritize_elem. unfold due_at in Hj.
      case_match eqn:E; [by eapply lookup_lt_Some|done]. }
  pose proof due_indexes_length as Hlen. unfold effective_queue_limit.
  destruct (Z.leb_spec (unregisteredQLimit r) 0) as [Hq|Hq]; [|by apply Hround].
  destruct models as [|m ms] eqn:Hms.
  { assert (prioritizeModelValidation [] (CfgDefaultModel cfg) = []) as Hnil
      by (apply length_zero_iff_nil; by rewrite prioritize_length).
    unfold due_indexes. rewrite Hms, Hnil. cbn. rewrite !limited_nil.
    repeat split; [done..|]. by intros j ?%due_at_nil. }
  rewrite <- Hms in *. apply Hround; [rewrite Hms; unfold len; cbn; lia|].
  rewrite (limited_short (len models)) by done. unfold limited.
  by destruct (Z.leb_spec (unregisteredQLimit r) 0); [|lia].
Qed.
End Outcome.

Lemma indexInQueue_lookup (q : list nat) (k : nat) x :
  NoDup q -> q !! k = Some x -> indexInQueue q x = Z.of_nat k.
Proof.
  unfold indexInQueue. intros Hnd Hk. change (Z.of_nat k) with (0 + Z.of_nat k). generalize 0 at 1 2.
  revert k Hk. induction Hnd as [|y q Hy Hnd IH]; intros k Hk i; [done|].
  destruct k as [|k]; cbn in *.
  - injection Hk as ->. rewrite Nat.eqb_refl. lia.
  - destruct (Nat.eqb_spec y x) as [->|]; [by apply list_elem_of_lookup_2 in Hk|].
    rewrite (IH k) by done. lia.
Qed.

Section Validated.
Context (r : RegistrySettings) (cfg : OpenAICompatibleConfig) (now : Time).
Context (probe : string -> modelProbeResult).
Context (models : list ProviderModelStatus) (previous : gmap string ProviderModelStatus).

Definition round_rows : list ProviderModelStatus := map (lifecycle r now previous) models.
Definition round_state : Round := registration_round r cfg now round_rows.
Definition queue : list nat := queuedIndexes round_state.
Definition probed : list nat := probeIndexes round_state.

Lemma queue_nodup : NoDup queue.
Proof.
  unfold queue, round_state. destruct (round_outcome r cfg now round_rows) as (-> & _).
  apply limited_nodup, due_indexes_nodup.
Qed.
Lemma probed_prefix : probed ++ drop (length probed) queue = queue.
Proof.
  unfold probed, queue, round_state. destruct (round_outcome r cfg now round_rows) as (_ & -> & _).
  apply limited_app_drop.
Qed.
Lemma queue_rest_spec j :
  j ∈ drop (length probed) queue <-> j ∈ queue /\ j ∉ probed.
Proof.
  pose proof queue_nodup as H. rewrite <- probed_prefix in H. apply NoDup_app in H as (_ & Hd & _).
  split.
  - intros Hj. split; [by rewrite <- probed_prefix, elem_of_app; right|]. intros Hp. by apply (Hd j).
  - rewrite <- probed_prefix at 1. rewrite elem_of_app. naive_solver.
Qed.

(** Every row after the round. *)
Lemma validated_lookup j :
  registered_rows r cfg now probe models previous !! j =
  if decide (j ∈ probed) then probe_model r now probe <$> round_models round_state !! j
  else if decide (j ∈ queue)
  then markModelQueued now (indexInQueue queue j + 1) <$> round_models round_state !! j
  else round_models round_state !! j.
Proof.
  unfold registered_rows. fold round_rows. fold round_state. cbv zeta. fold queue probed.
  assert (NoDup probed /\ NoDup (drop (length probed) queue)) as [Hp Hd].
  { pose proof queue_nodup as H. rewrite <- probed_prefix in H. by apply NoDup_app in H as (? & _ & ?). }
  rewrite (lookup_alter_all (fun i => markModelQueued now (indexInQueue queue i + 1))) by done.
  rewrite (lookup_alter_all (fun _ => probe_model r now probe)) by done.
  pose proof (queue_rest_spec j).
  destruct (decide (j ∈ drop _ _)), (decide (j ∈ probed)), (decide (j ∈ queue)); done || naive_solver.
Qed.

Lemma probe_model_name m : ModelName (probe_model r now probe m) = ModelName m.
Proof.
  unfold probe_model, applyProbeResult. cbv zeta. case_match; [done|].
  unfold markModelFailure. cbv zeta. by repeat case_match.
Qed.

(** A probe either confirms a model or leaves it unroutable. *)
Lemma probe_model_settles m :
  if Validated (probe (ModelName m))
  then providerModelRoutingReady (probe_model r now probe m) = true /\
       TrimSpace (VerificationStatus (probe_model r now probe m)) = "confirmed" /\
       LastSuccessAt (probe_model r now probe m) = Some (SucceededAtOr (probe (ModelName m)) now) /\
       NextVerificationAt (probe_model r now probe m) = (if 0 <? confirmationTTL r
         then Some (SucceededAtOr (probe (ModelName m)) now + confirmationTTL r) else None)
  else unready (probe_model r now probe m).
Proof.
  unfold probe_model, applyProbeResult. cbv zeta.
  change (ModelName (startModelVerification now m)) with (ModelName m).
  case_match; [by repeat split|]. unfold markModelFailure. cbv zeta. repeat case_match; by split.
Qed.

Lemma probe_model_queue m :
  QueueStatus (probe_model r now probe m) ∈ ["confirmed"; "cooldown"; "failed"].
Proof.
  unfold probe_model, applyProbeResult. cbv zeta. case_match; [by left|].
  unfold markModelFailure. cbv zeta. case_match; [right; by left|right; right; by left].
Qed.

Lemma round_considered : Forall2 considered round_rows (round_models round_state).
Proof. apply round_outcome. Qed.

Lemma round_rows_unready : Forall unready models -> Forall unready round_rows.
Proof.
  intros H. apply Forall_map. eapply Forall_impl; [exact H|]. intros m. apply lifecycle_unready.
Qed.

Lemma round_unready : Forall unready models -> Forall unready (round_models round_state).
Proof.
  intros H%round_rows_unready. pose proof round_considered as H2. revert H.
  induction H2 as [|m m' rows rows' Hm H2 IH]; intros H; [done|].
  apply Forall_cons in H as [Hu H]. constructor; [by apply Hm|by apply IH].
Qed.

(** The rows of a round: unroutable, or confirmed by a probe of this round. *)
Definition confirmed_now (m : ProviderModelStatus) : Prop :=
  providerModelRoutingReady m = true /\ TrimSpace (VerificationStatus m) = "confirmed" /\
  Validated (probe (ModelName m)) = true /\
  LastSuccessAt m = Some (SucceededAtOr (probe (ModelName m)) now) /\
  NextVerificationAt m = (if 0 <? confirmationTTL r
    then Some (SucceededAtOr (probe (ModelName m)) now + confirmationTTL r) else None).

Lemma validated_rows_settled :
  Forall unready models ->
  Forall (fun m => unready m \/ confirmed_now m)
    (registered_rows r cfg now probe models previous).
Proof.
  intros H%round_unready. apply Forall_lookup. intros j m. rewrite validated_lookup.
  assert (forall m, round_models round_state !! j = Some m -> unready m) as Hj
    by (intros m' Hm'; by apply (Forall_lookup_1 _ _ _ _ H Hm')).
  destruct (decide (j ∈ probed)).
  - intros (m0 & _ & ->)%fmap_Some. pose proof (probe_model_settles m0) as Hs.
    unfold confirmed_now. rewrite probe_model_name. case_match; [right|by left]. naive_solver.
  - destruct (decide (j ∈ queue)); [|intros Hm; left; by apply Hj].
    intros (m0 & Hm0 & ->)%fmap_Some. left. apply queued_unready, Hj, Hm0.
Qed.
End Validated.

(** ** Models that wait for their next attempt *)
Lemma indexProviderModels_name models key m :
  indexProviderModels models !! key = Some m -> modelLifecycleKey (ModelName m) = key /\ key <> "" /\ m ∈ models.
Proof.
  unfold indexProviderModels.
  assert (forall (acc : gmap string ProviderModelStatus) (P : ProviderModelStatus -> Prop),
    (forall k x, acc !! k = Some x -> modelLifecycleKey (ModelName x) = k /\ k <> "" /\ P x) ->
    (forall x, x ∈ models -> P x) ->
    forall k x, foldl (fun indexed model => let key := modelLifecycleKey (ModelName model) in
        if String.eqb key "" then indexed else <[key := model]> indexed) acc models !! k = Some x ->
      modelLifecycleKey (ModelName x) = k /\ k <> "" /\ P x) as H.
  { induction models as [|y models IH]; intros acc P Hacc HP k x; cbn; [apply Hacc|].
    apply IH; [|intros; apply HP; by right]. intros k' x'.
    destruct (String.eqb_spec (modelLifecycleKey (ModelName y)) ""); [apply Hacc|].
    intros [[<- ->]|[_ Hx]]%lookup_insert_Some; [|by apply Hacc].
    split; [done|]. split; [done|]. apply HP. by left. }
  apply (H ∅ (fun x => x ∈ models)); [|done]. intros k x. by rewrite lookup_empty.
Qed.

Lemma lifecycle_name r now previous m : ModelName (lifecycle r now previous m) = ModelName m.
Proof. unfold lifecycle, mergeProviderLifecycle. cbv zeta. by repeat case_match. Qed.

Lemma lifecycle_history r now previous m m1 :
  previous !! modelLifecycleKey (ModelName m) = Some m1 -> ModelName m1 <> "" ->
  RegistrationAttempts (lifecycle r now previous m) = RegistrationAttempts m1 /\
  NextVerificationAt (lifecycle r now previous m) = NextVerificationAt m1.
Proof.
  intros Hp Hn. unfold lifecycle, mergeProviderLifecycle. rewrite Hp. cbv zeta.
  apply String.eqb_neq in Hn. by rewrite Hn.
Qed.

Lemma not_due_row r cfg now m next :
  unready m -> NextVerificationAt m = Some next -> now < next -> due_row r cfg now m = false.
Proof.
  intros Hu Hn Hlt. unfold due_row. rewrite keepConfirmed_unready by done. cbn [fst snd].
  destruct (prepare_schedule now (pendingTTL r) (confirmationTTL r) m) as (_ & _ & Hv).
  unfold registrationDue. rewrite Hv, Hn. destruct (Z.ltb_spec now next); [|lia].
  by rewrite andb_false_r.
Qed.

Section Waiting.
Context (r : RegistrySettings) (cfg : OpenAICompatibleConfig) (now : Time).
Context (probe : string -> modelProbeResult).
Context (models : list ProviderModelStatus) (previous : gmap string ProviderModelStatus).

(** A row whose model's next attempt lies ahead is not touched by the probes. *)
Lemma waiting_row m m1 next :
  Forall unready models ->
  m ∈ registered_rows r cfg now probe models previous ->
  previous !! modelLifecycleKey (ModelName m) = Some m1 -> ModelName m1 <> "" ->
  NextVerificationAt m1 = Some next -> now < next ->
  unready m /\ RegistrationAttempts m = RegistrationAttempts m1 /\
  (NextVerificationAt m = Some next \/ ModelStatus m = "transport_inapplicable").
Proof.
  intros Hu (j & Hj)%list_elem_of_lookup Hp Hn Hnext Hlt. rewrite validated_lookup in Hj.
  set (st := round_state r cfg now models previous) in *.
  assert (exists m', round_models st !! j = Some m' /\ ModelName m' = ModelName m) as (m' & Hm' & Hname).
  { destruct (decide (j ∈ probed _ _ _ _ _)); [|destruct (decide (j ∈ queue _ _ _ _ _))].
    - apply fmap_Some in Hj as (m' & ? & ->). exists m'. by rewrite probe_model_name.
    - apply fmap_Some in Hj as (m' & ? & ->). by exists m'.
    - by exists m. }
  destruct (Forall2_lookup_r _ _ _ _ _ (round_considered r cfg now models previous) Hm')
    as (m0 & Hm0 & Hc).
  pose proof (round_rows_unready r now models previous Hu) as Hu0.
  pose proof (Forall_lookup_1 _ _ _ _ Hu0 Hm0) as Hum0.
  destruct (Hc Hum0) as (Hum' & Hn0 & Ha & Hv). clear Hc.
  assert (ModelName m0 = ModelName m) as Hname0 by congruence.
  assert (RegistrationAttempts m0 = RegistrationAttempts m1 /\ NextVerificationAt m0 = Some next)
    as [Ha0 Hv0].
  { unfold round_rows in Hm0. apply list_lookup_fmap_Some in Hm0 as (x & -> & Hx).
    rewrite lifecycle_name in Hname0. rewrite <- Hname0 in Hp. destruct (lifecycle_history r now previous x m1 Hp Hn) as (? & ?).
    split; congruence. }
  assert (j ∉ queue r cfg now models previous) as Hnq.
  { unfold queue, round_state.
    destruct (round_outcome r cfg now (round_rows r now models previous)) as (Hq & _).
    rewrite Hq. intros Hin%limited_elem. unfold due_indexes in Hin.
    apply list_elem_of_In, filter_In in Hin as [_ Hd]. unfold due_at in Hd. rewrite Hm0 in Hd.
    by rewrite (not_due_row r cfg now m0 next) in Hd. }
  assert (j ∉ probed r cfg now models previous) as Hnp.
  { intros Hin. apply Hnq. rewrite <- probed_prefix. set_solver. }
  rewrite !decide_False in Hj by done. rewrite Hm' in Hj. simplify_eq.
  split; [done|]. split; [congruence|]. destruct Hv as [Hv|Hv]; [left; congruence|by right].
Qed.
End Waiting.

(** ** Snapshots *)
Lemma catalogued_rows_forall (P : ProviderModelStatus -> Prop) provider models catalog :
  Forall P models -> Forall P (catalogued_rows provider models catalog).1.
Proof.
  intros H. destruct catalog as [c|]; [|done]. cbn. unfold catalog_filter. repeat case_match; try done.
  apply Forall_forall. intros x Hx. apply list_elem_of_In, filter_In in Hx as [Hx _].
  rewrite Forall_forall in H. by apply H, list_elem_of_In.
Qed.

Section Fetch.
Context (getenv : string -> string) (hostname : string -> option string).
Context (get : string -> inventorySource -> string + InventoryResponse).
Context (post : string -> string -> string -> ProbeAnswer) (probed_at : string -> string -> Time).
Context (StatusText : Z -> string).

Abbreviation fetch := (fetchProviderSnapshot getenv hostname get post probed_at StatusText).
Abbreviation answer := (probe post probed_at StatusText).

(** A refresh panics, or yields an empty snapshot or the verified rows of an unroutable inventory. *)
Lemma fetch_models now r provider cfg c s c' :
  fetch now r provider cfg c = Some (s, c') ->
  (Models s = [] /\ SnapAvailable s = false /\ SnapStatus s ∈ ["not_configured"; "unavailable"]) \/
  exists rows verified errors, Forall unready rows /\
    verified_rows post probed_at StatusText now r provider cfg rows = Some verified /\
    Models s = (catalogued_rows provider verified c).1 /\
    SnapAvailable s = (0 <? confirmedCount (Models s)) /\
    SnapStatus s = (snapshot_status (Models s) errors).1.
Proof.
  unfold fetchProviderSnapshot. cbv zeta.
  destruct (CfgConfigured cfg); cbn [negb]; [|intros [= <- _]; left; repeat split; by left].
  case_match; [intros [= <- _]; left; repeat split; by left|].
  pose proof (fetched_rows_unready StatusText provider cfg now (get provider)) as Hun.
  destruct (fetchProviderModels _ _ _ _ _) as [models errors]. cbn in Hun.
  apply (inventory_rows_unready provider cfg now (verification_interval (settings r))) in Hun.
  destruct (inventory_rows _ _ _ _ _) as [|row rows];
    [intros [= <- _]; left; repeat split; right; by left|].
  destruct (verified_rows _ _ _ _ _ _ _ _) as [verified|] eqn:Hv; [|done].
  destruct (catalogued_rows _ _ _) as [ms cat] eqn:Hcat.
  destruct (snapshot_status ms errors) as [status err] eqn:Hst. intros [= <- _].
  right. exists (row :: rows), verified, errors. cbn. by rewrite Hcat, Hst.
Qed.

Lemma verified_rows_settled now r provider cfg rows verified :
  verified_rows post probed_at StatusText now r provider cfg rows = Some verified ->
  Forall unready rows ->
  Forall (fun m => unready m \/
      shouldValidateProvider (settings r) cfg = true /\
      confirmed_now (settings r) now (answer provider cfg) m) verified.
Proof.
  intros Hv H. unfold verified_rows, validateDiscoveredModels in Hv.
  destruct (shouldValidateProvider (settings r) cfg).
  - case_match; [done|]. injection Hv as <-.
    eapply Forall_impl; [by apply validated_rows_settled|]. cbn. naive_solver.
  - injection Hv as <-. eapply Forall_impl; [done|]. auto.
Qed.

Lemma fetch_rows_settled now r provider cfg c s c' :
  fetch now r provider cfg c = Some (s, c') ->
  Forall (fun m => unready m \/
      shouldValidateProvider (settings r) cfg = true /\
      confirmed_now (settings r) now (answer provider cfg) m) (Models s).
Proof.
  intros [(-> & _)|(rows & verified & errors & H & Hv & -> & _)]%fetch_models; [done|].
  apply catalogued_rows_forall. by eapply verified_rows_settled.
Qed.

(** Among the rows of a snapshot the routable ones are those counted as confirmed. *)
Lemma settled_ready (m : ProviderModelStatus) now r provider cfg :
  unready m \/ shouldValidateProvider (settings r) cfg = true /\
      confirmed_now (settings r) now (answer provider cfg) m ->
  providerModelRoutingReady m = String.eqb (TrimSpace (VerificationStatus m)) "confirmed".
Proof.
  intros [Hu|(_ & Hr & -> & _)]; [|done]. rewrite unready_not_routable by done. symmetry.
  apply String.eqb_neq, Hu.
Qed.
(** A model whose next attempt lies ahead, in the next refresh. *)
Lemma waiting_model now r provider cfg c s c' s1 m1 m2 next :
  fetch now r provider cfg c = Some (s, c') ->
  Snapshot provider r = Some s1 ->
  indexProviderModels (Models s1) !! modelLifecycleKey (ModelName m2) = Some m1 ->
  NextVerificationAt m1 = Some next -> now < next -> m2 ∈ Models s ->
  unready m2 /\
  (shouldValidateProvider (settings r) cfg = true ->
   RegistrationAttempts m2 = RegistrationAttempts m1 /\
   (NextVerificationAt m2 = Some next \/ ModelStatus m2 = "transport_inapplicable")).
Proof.
  intros Hf Hs Hi Hnext Hlt Hm.
  apply fetch_models in Hf as [(H & _)|(rows & verified & errors & Hu & Hv & H & _)];
    rewrite H in Hm; [by apply not_elem_of_nil in Hm|].
  pose proof (indexProviderModels_name _ _ _ Hi) as (Hkey & Hne & _).
  assert (ModelName m1 <> "") as Hn by (intros E; rewrite E in Hkey; by rewrite <- Hkey in Hne).
  set (P x := ModelName x = ModelName m2 -> unready x /\
    (shouldValidateProvider (settings r) cfg = true ->
     RegistrationAttempts x = RegistrationAttempts m1 /\
     (NextVerificationAt x = Some next \/ ModelStatus x = "transport_inapplicable"))).
  assert (Forall P verified) as Hall.
  { unfold verified_rows, validateDiscoveredModels in Hv. rewrite Hs in Hv.
    apply Forall_forall. intros x Hx Hname.
    destruct (shouldValidateProvider (settings r) cfg); [case_match; [done|]|]; injection Hv as <-.
    - destruct (waiting_row _ _ _ _ _ _ x m1 next Hu Hx) as (? & ? & ?); [by rewrite Hname|done..|].
      auto.
    - rewrite Forall_forall in Hu. split; [by apply Hu|done]. }
  apply catalogued_rows_forall with (provider := provider) (catalog := c) in Hall.
  rewrite Forall_forall in Hall. by apply (Hall m2 Hm).
Qed.

Lemma inventory_rows_nonempty provider cfg now interval models :
  CfgConfigured cfg = true -> inventory_rows provider cfg now interval models <> [].
Proof.
  unfold CfgConfigured. rewrite !andb_true_iff. intros [[_ Hd] _]. unfold inventory_rows.
  rewrite Hd. destruct models; cbv zeta; by case_match.
Qed.

(** When a refresh panics. *)
Lemma fetch_none now r provider cfg c :
  fetch now r provider cfg c = None <->
  CfgConfigured cfg = true /\
  placeholderEndpointConfigured hostname [CfgBaseURL cfg; ModelsURL cfg; ChatCompletionsURL cfg;
    ResponsesURL cfg; MessagesURL cfg; CodexURL cfg] = false /\
  shouldValidateProvider (settings r) cfg = true /\ validationLimit (settings r) < 0.
Proof.
  unfold fetchProviderSnapshot. cbv zeta.
  destruct (CfgConfigured cfg) eqn:Hcfg; cbn [negb]; [|split; [done|by intros [[=] _]]].
  destruct (placeholderEndpointConfigured _ _); [split; [done|by intros (_ & [=] & _)]|].
  destruct (fetchProviderModels _ _ _ _ _) as [models errors].
  pose proof (inventory_rows_nonempty provider cfg now (verification_interval (settings r)) models Hcfg).
  destruct (inventory_rows _ _ _ _ _) as [|row rows]; [done|].
  unfold verified_rows, validateDiscoveredModels, minInt.
  destruct (shouldValidateProvider (settings r) cfg).
  - assert (0 <= len (row :: rows)) by (unfold len; lia).
    destruct (Z.ltb_spec (validationLimit (settings r)) (len (row :: rows))).
    + destruct (Z.ltb_spec (validationLimit (settings r)) 0); [by repeat split|].
      destruct (catalogued_rows _ _ _) as [ms cat]. destruct (snapshot_status ms errors).
      split; [done|]. lia.
    + destruct (Z.ltb_spec (len (row :: rows)) 0); [lia|].
      destruct (catalogued_rows _ _ _) as [ms cat]. destruct (snapshot_status ms errors).
      split; [done|]. lia.
  - destruct (catalogued_rows _ _ _) as [ms cat]. destruct (snapshot_status ms errors).
    split; [done|by intros (_ & _ & [=] & _)].
Qed.
End Fetch.

(** ** An example: one provider with two models that answer *)
Section Example.
Definition demo_cfg : OpenAICompatibleConfig :=
  mkOpenAICompatibleConfig "openai" "openai" "https://api.test/v1" "" "alpha" "" "" "" "" "" ""
    (30 * second) false false false.
Definition demo_env (key : string) : string := "".
Definition demo_host (url : string) : option string := Some "api.test".
Definition demo_body : DecodedBody :=
  mkDecodedBody (Some ([[("id", AString "beta")]; [("id", AString "alpha")]], [])) None (inl "").
Definition demo_get (provider : string) (source : inventorySource) : string + InventoryResponse :=
  inr (mkInventoryResponse 200 "" demo_body).
Definition demo_post (provider url payload : string) : ProbeAnswer :=
  mkProbeAnswer 12 (inr (mkProbeReply 200 "ok" "req-1" (inr ANil))).
Definition busy_post (provider url payload : string) : ProbeAnswer :=
  mkProbeAnswer 12 (inr (mkProbeReply 503 "upstream busy" "" (inl ""))).
Definition demo_clock (provider model : string) : Time := 1000 * second.
Definition demo_text (code : Z) : string := "".
Definition demo_registry : ProviderModelRegistry :=
  NewProviderModelRegistry demo_env (fun _ => None) [("openai", demo_cfg)] None.
(** The registry after a refresh against [post]. *)
Definition demo_refreshed (post : string -> string -> string -> ProbeAnswer) : ProviderModelRegistry :=
  default demo_registry
    (Refresh demo_env demo_host demo_get post demo_clock demo_text (1000 * second)
       (fun _ => 1000 * second) [("openai", demo_cfg)] demo_registry).
Definition demo_fetch (post : string -> string -> string -> ProbeAnswer) (now : Time)
  (r : ProviderModelRegistry) : option (ProviderCatalogSnapshot * option modelCatalog) :=
  fetchProviderSnapshot demo_env demo_host demo_get post demo_clock demo_text now r "openai"
    demo_cfg None.
Definition demo_snapshot (post : string -> string -> string -> ProbeAnswer) (now : Time)
  (r : ProviderModelRegistry) : ProviderCatalogSnapshot :=
  match demo_fetch post now r with
  | Some (s, _) => s
  | None => empty_snapshot demo_env "" demo_cfg 0 0
  end.
(** The first row of a snapshot. *)
Definition demo_row (s : ProviderCatalogSnapshot) : ProviderModelStatus :=
  default (inventory_row "" 0 "" []) (Models s !! 0%nat).

Example demo_rows :
  map (fun m => (ModelName m, ModelStatus m, QueueStatus m))
    (Models (demo_snapshot demo_post (1000 * second) demo_registry))
  = [("alpha", "ready", "confirmed"); ("beta", "ready", "confirmed")].
Proof. vm_compute. reflexivity. Qed.
Example demo_rows_later :
  map (fun m => (ModelName m, ModelStatus m, QueueStatus m))
    (Models (demo_snapshot demo_post (1300 * second) (demo_refreshed demo_post)))
  = [("alpha", "verification_cooldown", "cooldown"); ("beta", "verification_cooldown", "cooldown")].
Proof. vm_compute. reflexivity. Qed.
(** The environment that asks for no limit on the probes. *)
Definition unlimited_env (key : string) : string :=
  if String.eqb key "AI_BRIDGE_MODEL_VALIDATE_LIMIT" then "-1" else "".
Example demo_unlimited_panics :
  Refresh unlimited_env demo_host demo_get demo_post demo_clock demo_text (1000 * second)
    (fun _ => 1000 * second) [("openai", demo_cfg)]
    (NewProviderModelRegistry unlimited_env (fun _ => None) [("openai", demo_cfg)] None) = None.
Proof. vm_compute. reflexivity. Qed.
End Example.

(** C14: One round of registrations: the queue is the due rows in order of priority, cut at the
    queue limit; the probes are the head of the queue, cut at the validation limit; a queued row that
    is not probed shows its place, and a due row that found no room shows the overflow. *)
Theorem registration_round_exact r cfg now probe models previous :
  let rows := map (lifecycle r now previous) models in
  let st := registration_round r cfg now rows in
  let result := registered_rows r cfg now probe models previous in
  let due := List.filter (due_at r cfg now rows) (prioritizeModelValidation rows (CfgDefaultModel cfg)) in
  queuedIndexes st = limited (unregisteredQLimit r) due /\
  probeIndexes st = limited (validationLimit r) (queuedIndexes st) /\
  (forall i row, i ∈ probeIndexes st -> result !! i = Some row ->
     QueueStatus row ∈ ["confirmed"; "cooldown"; "failed"]) /\
  (forall k i row, queuedIndexes st !! k = Some i -> i ∉ probeIndexes st -> result !! i = Some row ->
     QueueStatus row = "queued" /\ QueuePosition row = Z.of_nat k + 1) /\
  (forall i row, i ∈ due -> i ∉ queuedIndexes st -> result !! i = Some row ->
     QueueStatus row = "overflow").
Proof.
  cbv zeta. destruct (round_outcome r cfg now (map (lifecycle r now previous) models))
    as (Hq & Hp & _ & Ho).
  split; [exact Hq|]. split; [exact Hp|].
  pose proof (queue_nodup r cfg now models previous) as Hnd.
  pose proof (probed_prefix r cfg now models previous) as Hpre.
  unfold queue, probed, round_state, round_rows in *.
  split; [|split]; intros *; rewrite validated_lookup; unfold queue, probed, round_state, round_rows.
  - intros Hi. rewrite decide_True by done. intros (m & _ & ->)%fmap_Some. apply probe_model_queue.
  - intros Hk Hi. rewrite decide_False by done.
    rewrite decide_True by by eapply list_elem_of_lookup_2.
    intros (m & _ & ->)%fmap_Some. by rewrite (indexInQueue_lookup _ k).
  - intros Hi Hn. rewrite decide_False by (intros ?; apply Hn; rewrite <- Hpre; set_solver).
    rewrite decide_False by done. intros Hrow.
    apply list_elem_of_In, filter_In in Hi as [_ Hi].
    destruct (Ho i Hi Hn) as (m & Hm & Hov). by simplify_eq.
Qed.

(** C12: A model is routable after a refresh only if this very refresh probed it and the provider
    answered the probe: the row's success time is that of the probe. *)
Theorem routable_models_probed getenv hostname get post probed_at StatusText now r provider cfg c s c' m :
  fetchProviderSnapshot getenv hostname get post probed_at StatusText now r provider cfg c = Some (s, c') ->
  m ∈ Models s -> providerModelRoutingReady m = true ->
  let result := probe post probed_at StatusText provider cfg (ModelName m) in
  shouldValidateProvider (settings r) cfg = true /\ Validated result = true /\
  LastSuccessAt m = Some (SucceededAtOr result now).
Proof.
  intros H%fetch_rows_settled Hm Hr. rewrite Forall_forall in H.
  destruct (H m Hm) as [Hu|(Hv & _ & _ & Hok & Ht & _)]; [|done].
  by rewrite unready_not_routable in Hr.
Qed.

Lemma routable_models_probed_witness :
  let s := demo_snapshot demo_post (1000 * second) demo_registry in
  demo_row s ∈ Models s /\ LastSuccessAt (demo_row s) = Some (1000 * second).
Proof.
  assert (demo_row (demo_snapshot demo_post (1000 * second) demo_registry)
          ∈ Models (demo_snapshot demo_post (1000 * second) demo_registry)) as Hin
    by (apply (list_elem_of_lookup_2 _ 0%nat); vm_compute; reflexivity).
  split; [exact Hin|].
  destruct (routable_models_probed demo_env demo_host demo_get demo_post demo_clock demo_text
    (1000 * second) demo_registry "openai" demo_cfg None
    (demo_snapshot demo_post (1000 * second) demo_registry) None
    (demo_row (demo_snapshot demo_post (1000 * second) demo_registry))
    ltac:(vm_compute; reflexivity) Hin ltac:(vm_compute; reflexivity)) as (_ & _ & H).
  rewrite H. vm_compute. reflexivity.
Defined.

(** A model whose next attempt lies in the future (after a transient failure: [retryCooldown]
    later) is neither attempted nor routable in a refresh before that time, and keeps the time unless
    it can no longer be probed. *)
Theorem cooldown_respected getenv hostname get post probed_at StatusText now r provider cfg c s c' s1 m1 m2 next :
  fetchProviderSnapshot getenv hostname get post probed_at StatusText now r provider cfg c = Some (s, c') ->
  shouldValidateProvider (settings r) cfg = true ->
  Snapshot provider r = Some s1 ->
  indexProviderModels (Models s1) !! modelLifecycleKey (ModelName m2) = Some m1 ->
  NextVerificationAt m1 = Some next -> now < next -> m2 ∈ Models s ->
  RegistrationAttempts m2 = RegistrationAttempts m1 /\ providerModelRoutingReady m2 = false /\
  (NextVerificationAt m2 = Some next \/ ModelStatus m2 = "transport_inapplicable").
Proof.
  intros Hf Hval Hs Hi Hnext Hlt Hm.
  destruct (waiting_model _ _ _ _ _ _ _ _ _ _ _ _ _ _ _ _ _ Hf Hs Hi Hnext Hlt Hm) as [Hu H].
  destruct (H Hval). split; [done|]. split; [by apply unready_not_routable|done].
Qed.

Lemma cooldown_respected_witness :
  let s1 := demo_snapshot busy_post (1000 * second) demo_registry in
  let s := demo_snapshot demo_post (1599 * second) (demo_refreshed busy_post) in
  NextVerificationAt (demo_row s1) = Some (1600 * second) /\
  RegistrationAttempts (demo_row s) = RegistrationAttempts (demo_row s1).
Proof.
  split; [vm_compute; reflexivity|].
  apply (cooldown_respected demo_env demo_host demo_get demo_post demo_clock demo_text
    (1599 * second) (demo_refreshed busy_post) "openai" demo_cfg None
    (demo_snapshot demo_post (1599 * second) (demo_refreshed busy_post)) None
    (demo_snapshot busy_post (1000 * second) demo_registry)
    (demo_row (demo_snapshot busy_post (1000 * second) demo_registry))
    (demo_row (demo_snapshot demo_post (1599 * second) (demo_refreshed busy_post)))
    (1600 * second)); try (vm_compute; reflexivity).
  apply (list_elem_of_lookup_2 _ 0%nat); vm_compute; reflexivity.
Defined.

(** A confirmed model does not stay routable until its confirmation expires: the next refresh
    of its provider within the confirmation TTL, whatever the provider answers, drops it. *)
Theorem confirmed_model_sidelined getenv hostname get1 post1 probed_at1 get2 post2 probed_at2 StatusText
  now1 r1 c1 c1' now2 r2 c2 c2' provider cfg s1 s2 m1 m2 t :
  fetchProviderSnapshot getenv hostname get1 post1 probed_at1 StatusText now1 r1 provider cfg c1 = Some (s1, c1') ->
  fetchProviderSnapshot getenv hostname get2 post2 probed_at2 StatusText now2 r2 provider cfg c2 = Some (s2, c2') ->
  Snapshot provider r2 = Some s1 ->
  indexProviderModels (Models s1) !! modelLifecycleKey (ModelName m2) = Some m1 ->
  providerModelRoutingReady m1 = true -> LastSuccessAt m1 = Some t ->
  now2 < t + confirmationTTL (settings r1) -> 0 < confirmationTTL (settings r1) ->
  m2 ∈ Models s2 -> providerModelRoutingReady m2 = false.
Proof.
  intros H%fetch_rows_settled Hf2 Hs Hi Hr Ht Hlt Hpos Hm.
  pose proof (indexProviderModels_name _ _ _ Hi) as (_ & _ & Hm1).
  rewrite Forall_forall in H. destruct (H m1 Hm1) as [Hu|(_ & _ & _ & _ & Hok & Hn)];
    [by rewrite unready_not_routable in Hr|].
  destruct (Z.ltb_spec 0 (confirmationTTL (settings r1))); [|lia].
  rewrite Ht in Hok. injection Hok as Hok. rewrite <- Hok in Hn.
  eapply unready_not_routable, waiting_model; done.
Qed.

Lemma confirmed_model_sidelined_witness :
  let s1 := demo_snapshot demo_post (1000 * second) demo_registry in
  let s2 := demo_snapshot demo_post (1300 * second) (demo_refreshed demo_post) in
  providerModelRoutingReady (demo_row s1) = true /\ providerModelRoutingReady (demo_row s2) = false.
Proof.
  split; [vm_compute; reflexivity|].
  apply (confirmed_model_sidelined demo_env demo_host demo_get demo_post demo_clock demo_get demo_post
    demo_clock demo_text (1000 * second) demo_registry None None (1300 * second)
    (demo_refreshed demo_post) None None "openai" demo_cfg
    (demo_snapshot demo_post (1000 * second) demo_registry)
    (demo_snapshot demo_post (1300 * second) (demo_refreshed demo_post))
    (demo_row (demo_snapshot demo_post (1000 * second) demo_registry))
    (demo_row (demo_snapshot demo_post (1300 * second) (demo_refreshed demo_post)))
    (1000 * second)); try (vm_compute; reflexivity).
  apply (list_elem_of_lookup_2 _ 0%nat); vm_compute; reflexivity.
Defined.

(** A refresh of a provider panics exactly when the provider is validated and the limit on probes
    is negative, although the loop over the queue takes every limit up to zero as no limit. *)
Theorem negative_limit_panics getenv hostname get post probed_at StatusText now r provider cfg c :
  fetchProviderSnapshot getenv hostname get post probed_at StatusText now r provider cfg c = None <->
  CfgConfigured cfg = true /\
  placeholderEndpointConfigured hostname [CfgBaseURL cfg; ModelsURL cfg; ChatCompletionsURL cfg;
    ResponsesURL cfg; MessagesURL cfg; CodexURL cfg] = false /\
  shouldValidateProvider (settings r) cfg = true /\ validationLimit (settings r) < 0.
Proof. apply fetch_none. Qed.

(** ** What the snapshots promise *)
Definition truthful (s : ProviderCatalogSnapshot) : Prop :=
  (SnapAvailable s = true <-> List.filter providerModelRoutingReady (Models s) <> []) /\
  (SnapStatus s = "ready" -> forall m, m ∈ Models s ->
     providerModelRoutingReady m = true \/ TrimSpace (VerificationStatus m) = "skipped").

Lemma count_zero (f : ProviderModelStatus -> bool) models :
  (0 <? len (List.filter f models)) = false -> forall m, m ∈ models -> f m = false.
Proof.
  intros H%Z.ltb_ge m Hm. destruct (f m) eqn:E; [|done].
  assert (In m (List.filter f models)) as Hin by (apply filter_In; by rewrite <- list_elem_of_In).
  unfold len in H. destruct (List.filter f models); [done|]. cbn in H. lia.
Qed.

Lemma count_pos (f : ProviderModelStatus -> bool) models :
  (0 <? len (List.filter f models)) = true <-> List.filter f models <> [].
Proof. rewrite Z.ltb_lt. unfold len. destruct (List.filter f models); cbn; split; done || lia. Qed.

Lemma ready_counts models errors :
  (snapshot_status models errors).1 = "ready" -> forall m, m ∈ models ->
  TrimSpace (VerificationStatus m) = "confirmed" \/ TrimSpace (VerificationStatus m) = "skipped".
Proof.
  unfold snapshot_status. intros H m Hm.
  destruct (0 <? confirmedCount models); [|by repeat case_match]. cbn [andb] in H.
  destruct (0 <? pendingCount models) eqn:Hp; [done|].
  destruct (0 <? failedCount models) eqn:Hf; [done|].
  apply (count_zero _ _ Hp) in Hm as Hv. apply (count_zero _ _ Hf) in Hm as Hs.
  apply negb_false_iff, mem_string_spec in Hs. apply String.eqb_neq in Hv.
  rewrite !elem_of_cons, elem_of_nil in Hs. naive_solver.
Qed.

Section Truthful.
Context (getenv : string -> string) (hostname : string -> option string).

Lemma fetch_truthful get post probed_at StatusText now r provider cfg c s c' :
  fetchProviderSnapshot getenv hostname get post probed_at StatusText now r provider cfg c = Some (s, c') ->
  truthful s.
Proof.
  intros Hf. pose proof (fetch_rows_settled _ _ _ _ _ _ _ _ _ _ _ _ _ Hf) as H.
  assert (forall m, m ∈ Models s ->
    providerModelRoutingReady m = String.eqb (TrimSpace (VerificationStatus m)) "confirmed") as Hready.
  { intros m Hm. rewrite Forall_forall in H. by eapply settled_ready, H. }
  clear H. revert Hready.
  apply fetch_models in Hf as [(Hm & Ha & Hst)|(rows & verified & errors & _ & _ & _ & Ha & Hst)];
    unfold truthful; rewrite Ha; intros Hready.
  - rewrite Hm. split; [done|]. intros E. rewrite E in Hst. exfalso. revert Hst. clear. set_solver.
  - rewrite Hst. split.
    + unfold confirmedCount, with_verification. rewrite count_pos.
      erewrite List.filter_ext_in; [done|]. intros m Hin. symmetry.
      by apply Hready, list_elem_of_In.
    + intros E m Hin. destruct (ready_counts _ _ E m Hin) as [Hc|Hc]; [left|by right].
      rewrite Hready by done. by rewrite Hc.
Qed.

(** The registry between refreshes: any network, any clock, any order of the providers. *)
Inductive registry_step : ProviderModelRegistry -> ProviderModelRegistry -> Prop :=
  | step_Refresh get post probed_at StatusText now clock order r r' :
      Refresh getenv hostname get post probed_at StatusText now clock order r = Some r' ->
      registry_step r r'
  | step_RefreshIfStale get post probed_at StatusText now clock order r r' :
      RefreshIfStale getenv hostname get post probed_at StatusText now clock order r = Some r' ->
      registry_step r r'.
Definition fresh_registry (ParseDuration : string -> option Z) (r : ProviderModelRegistry) : Prop :=
  exists configs catalog, r = NewProviderModelRegistry getenv ParseDuration configs catalog.

Definition all_truthful (r : ProviderModelRegistry) : Prop :=
  map_Forall (fun _ s => truthful s) (snapshots r).

Lemma fetch_all_truthful get post probed_at StatusText clock r order c fetched c' :
  fetch_all getenv hostname get post probed_at StatusText clock r order c = Some (fetched, c') ->
  Forall truthful fetched.
Proof.
  revert c fetched c'. induction order as [|[provider cfg] order IH]; intros c fetched c'; cbn.
  { by intros [= <- _]. }
  destruct (fetchProviderSnapshot _ _ _ _ _ _ _ _ _ _ _) as [[s c1]|] eqn:Hf; [|done].
  destruct (fetch_all _ _ _ _ _ _ _ _ _ _) as [[rest c2]|] eqn:Hrest; [|done].
  intros [= <- _]. constructor; [by eapply fetch_truthful|by eapply IH].
Qed.

Lemma refresh_truthful get post probed_at StatusText clock order r r' :
  all_truthful r ->
  refreshSnapshots getenv hostname get post probed_at StatusText clock order r = Some r' ->
  all_truthful r'.
Proof.
  unfold refreshSnapshots, all_truthful. intros H.
  destruct (fetch_all _ _ _ _ _ _ _ _ _ _) as [[fetched c]|] eqn:Hf; [|done]. intros [= <-].
  apply fetch_all_truthful in Hf.
  change (map_Forall (fun _ s => truthful s)
    (foldl (fun m s => <[SnapProvider s := s]> m) (snapshots r) fetched)).
  revert H. generalize (snapshots r). induction Hf as [|s fetched Hs Hall IH]; intros m Hm; [done|].
  cbn. apply IH. by apply map_Forall_insert_2.
Qed.

Lemma beginRefresh_truthful force now r :
  all_truthful r -> all_truthful (beginRefresh force now r).2.
Proof. unfold beginRefresh. by repeat case_match. Qed.

Lemma registry_truthful ParseDuration r :
  reachable (fresh_registry ParseDuration) registry_step r -> all_truthful r.
Proof.
  apply invariant_reachable. split.
  - intros s (configs & catalog & ->). apply map_Forall_empty.
  - intros s s' H Hstep. inversion Hstep as [? ? ? ? ? ? ? ? ? E|? ? ? ? ? ? ? ? ? E]; subst;
      unfold Refresh, RefreshIfStale in E;
      match type of E with context [beginRefresh ?force ?now ?r] =>
        pose proof (beginRefresh_truthful force now r H) as Hb;
        destruct (beginRefresh force now r) as [[|] r']
      end; try (by injection E as <-);
      apply fmap_Some in E as (r2 & E & ->); exact (refresh_truthful _ _ _ _ _ _ _ _ Hb E).
Qed.
End Truthful.

(** C13: In every state of the registry the provider status that is shown and the models given to
    the router agree: a fresh snapshot is available iff it has healthy models, and a snapshot is ready
    only if every model is routable or cannot be probed at all. *)
Theorem healthy_iff_available getenv hostname ParseDuration r provider now :
  reachable (fresh_registry getenv ParseDuration) (registry_step getenv hostname) r ->
  (HealthyModels provider now r <> [] <->
     exists s, Snapshot provider r = Some s /\ providerSnapshotRoutingUsable s now = true /\
       SnapAvailable s = true) /\
  (forall s, Snapshot provider r = Some s -> SnapStatus s = "ready" -> forall m, m ∈ Models s ->
     providerModelRoutingReady m = true \/ TrimSpace (VerificationStatus m) = "skipped").
Proof.
  intros Hr%registry_truthful. unfold all_truthful in Hr. rewrite map_Forall_lookup in Hr.
  split; [|intros s Hs; by apply (Hr _ _ Hs)].
  unfold HealthyModels, Snapshot in *. destruct (snapshots r !! _) as [s|] eqn:Hs; [|naive_solver].
  destruct (Hr _ _ Hs) as [Ha _]. destruct (providerSnapshotRoutingUsable s now) eqn:Hu.
  - rewrite <- Ha. naive_solver.
  - split; [done|]. intros (? & [= <-] & ? & _). congruence.
Qed.

Lemma demo_reachable :
  reachable (fresh_registry demo_env (fun _ => None)) (registry_step demo_env demo_host)
    (demo_refreshed demo_post).
Proof.
  exists demo_registry. split; [by exists [("openai", demo_cfg)], None|].
  apply rtc_once. apply (step_Refresh _ _ demo_get demo_post demo_clock demo_text (1000 * second)
    (fun _ => 1000 * second) [("openai", demo_cfg)]). vm_compute. reflexivity.
Qed.

Lemma healthy_iff_available_witness :
  map ModelName (HealthyModels "openai" (1100 * second) (demo_refreshed demo_post)) = ["alpha"; "beta"] /\
  exists s, Snapshot "openai" (demo_refreshed demo_post) = Some s /\ SnapAvailable s = true.
Proof.
  assert (map ModelName (HealthyModels "openai" (1100 * second) (demo_refreshed demo_post))
          = ["alpha"; "beta"]) as Hm by (vm_compute; reflexivity).
  split; [exact Hm|].
  destruct (healthy_iff_available demo_env demo_host (fun _ => None) (demo_refreshed demo_post)
    "openai" (1100 * second) demo_reachable) as [[H _] _].
  destruct H as (s & Hs & _ & Ha); [intros E; rewrite E in Hm; discriminate Hm|].
  exists s. split; assumption.
Defined.
