(* ===== verification/Planner.v ===== *)
(** * The planner (kernel/planner.go)

    [Prepare] completes a submitted task (capability, complexity, provider, routing hints) and
    lays out its execution plan: a list of steps with dependencies.  Code tasks over several
    files are split into branches, one per cluster of files, joined by a merge review. *)
From S2P Require Import Prelude GoLib GoJSON Domain ContractJSON TaskPolicy Config.

(** The model selector of the kernel, as the planner sees it. *)
Class ModelSelector : Type := Select : Task -> ModelSelection.

Definition workerClassForCapability (capability : string) : string :=
  let c := ToLower (TrimSpace capability) in
  if mem_string c ["plan"; "analysis"] then "planner"
  else if mem_string c ["code"; "sourcecraft"; "fix"] then "code"
  else if mem_string c ["review"; "security"] then "review"
  else if mem_string c ["test"] then "test"
  else if mem_string c ["research"] then "retrieval"
  else if mem_string c ["docs"] then "merge"
  else "general".

Definition stepContextBudget (capability : string) (files : list string) : Z :=
  let class := workerClassForCapability capability in
  let base := if mem_string class ["planner"; "review"; "merge"] then 10
              else if mem_string class ["test"; "retrieval"] then 8 else 6 in
  let base := Int.add base (Int.wrap (len files * 2)) in
  if 18 <? base then 18 else base.

Definition maxFilesPerCodeCluster (task : Task) : Z :=
  match Complexity_ task with
  | ComplexityLow | ComplexityMedium => 3
  | ComplexityHigh => 2
  | _ => 1
  end.

(** A step without scheduling data: those fields are Go's zero values, and [buildPlanArtifact]
    fills them in. *)
Definition plain_step (id title capability : string) (deps files : list string) : PlanStep :=
  mkPlanStep id title capability "" "" 0 [] deps files.
(** A step of a code plan. *)
Definition code_step (id title capability cluster : string) (deps files : list string) : PlanStep :=
  mkPlanStep id title capability (workerClassForCapability capability) cluster
    (stepContextBudget capability files) files deps files.

Section Planner.
Context (getenv : string -> string).

(** The [for start < limit] loop: each round handles at least one file, so [limit] rounds
    are enough. *)
Fixpoint cluster_loop (fuel : nat) (files : list string) (start limit max : nat)
  : list (list string) :=
  match fuel with
  | O => []
  | S fuel =>
      if (start <? limit)%nat then
        let stop := (if limit <? start + max then limit else start + max)%nat in
        take (stop - start) (drop start files) :: cluster_loop fuel files (start + max) limit max
      else []
  end.

Definition cluster_limit (files : list string) : nat :=
  let maxClusteredFiles := envInt getenv "GO_CORE_MAX_CLUSTER_PLAN_FILES" 12 in
  if (0 <? maxClusteredFiles) && (maxClusteredFiles <? len files)
  then Z.to_nat maxClusteredFiles else length files.

Definition cluster_size (maxPerCluster : Z) : Z :=
  let maxPerCluster := if maxPerCluster <=? 0 then 2 else maxPerCluster in
  if 3 <? maxPerCluster then 3 else maxPerCluster.

Definition clusterPlanFiles (files : list string) (maxPerCluster : Z) : list (list string) :=
  if (length files =? 0)%nat then []
  else
    let limit := cluster_limit files in
    cluster_loop limit files 0 limit (Z.to_nat (cluster_size maxPerCluster)).

Definition parallelizable (task : Task) (files : list string) : bool :=
  (1 <? len files) &&
  (bool_decide (Complexity_ task = ComplexityHigh) || bool_decide (Complexity_ task = ComplexityCritical)
   || (2 <? len files) || (1 <? len (AcceptanceCriteria (Input task)))).

Definition branch_id (task : Task) (index : nat) : string :=
  ID task +:+ "-branch-" +:+ itoa (Z.of_nat index + 1).
Definition branch_step (task : Task) (capability analyzeID : string) (index : nat)
  (clusterFiles : list string) : PlanStep :=
  code_step (branch_id task index) ("implement changes for " +:+ Join clusterFiles ", ") capability
    (ID task +:+ "-cluster-" +:+ itoa (Z.of_nat index + 1)) [analyzeID] clusterFiles.

Definition codeSteps (task : Task) (analyzeID : string) : list PlanStep :=
  let files := compactStrings (InputFiles (Input task)) in
  let capability := if String.eqb (RequiredCapability task) "sourcecraft" then "code"
                    else RequiredCapability task in
  if negb (parallelizable task files) then
    let executeID := ID task +:+ "-implement" in
    [code_step executeID "implement requested changes" capability "" [analyzeID] files;
     code_step (ID task +:+ "-review") "review code changes" "review" "" [executeID] files;
     code_step (ID task +:+ "-test") "run validation checks" "test" ""
       [ID task +:+ "-review"] files]
  else
    let clusters := clusterPlanFiles files (maxFilesPerCodeCluster task) in
    let branches := imap (branch_step task capability analyzeID) clusters in
    let reviewID := ID task +:+ "-merge-review" in
    branches ++
    [code_step reviewID "merge and review parallel branches" "review" (ID task +:+ "-merge")
       (map StepID branches) files;
     code_step (ID task +:+ "-test") "run validation checks" "test" (ID task +:+ "-verify")
       [reviewID] files].

Definition sourcecraftSteps (task : Task) (analyzeID : string) : list PlanStep :=
  let files := compactStrings (InputFiles (Input task)) in
  let draftCapability := match Type_ task with
    | TaskTypeDocs => "docs" | TaskTypeResearch => "research"
    | TaskTypeCode | TaskTypeFix => "code" | TaskTypeReview => "review" | TaskTypeTest => "test"
    | _ => "plan" end in
  let contextID := ID task +:+ "-repo-context" in
  let policyID := ID task +:+ "-workflow-policy" in
  let draftID := ID task +:+ "-draft-sourcecraft" in
  let reviewID := ID task +:+ "-review-sourcecraft" in
  [plain_step contextID "inspect repository workflow context" "research" [analyzeID] files;
   plain_step policyID "map sourcecraft repo policy and guardrails" "plan" [contextID] files;
   plain_step draftID ("draft " +:+ SourcecraftTaskFamily task +:+ " delegation plan")
     draftCapability [policyID] files;
   plain_step reviewID "review recommended repo actions" "review" [draftID] files] ++
  (if bool_decide (Type_ task = TaskTypeCode) || bool_decide (Type_ task = TaskTypeFix)
      || bool_decide (Type_ task = TaskTypeTest)
   then [plain_step (ID task +:+ "-validate-sourcecraft")
           "validate workflow handoff and execution readiness" "test" [reviewID] files]
   else []).

Definition defaultSteps (task : Task) : list PlanStep :=
  let files := compactStrings (InputFiles (Input task)) in
  let mainCapability := RequiredCapability task in
  let id suffix := ID task +:+ suffix in
  let analyzeID := id "-analyze" in
  plain_step analyzeID "analyze task scope and constraints" "plan" [] files ::
  (if isSourcecraftWork task then sourcecraftSteps task analyzeID
   else match Type_ task with
   | TaskTypeCode | TaskTypeFix => codeSteps task analyzeID
   | TaskTypePlan =>
       [plain_step (id "-draft-plan") "draft execution plan" mainCapability [analyzeID] files;
        plain_step (id "-review-plan") "review planning output" "review" [id "-draft-plan"] files]
   | TaskTypeReview =>
       [plain_step (id "-audit") "audit implementation and risks" mainCapability [analyzeID] files;
        plain_step (id "-report") "produce review report" "docs" [id "-audit"] files]
   | TaskTypeTest =>
       [plain_step (id "-run-tests") "run test scenarios" mainCapability [analyzeID] files;
        plain_step (id "-verify-results") "verify failing and passing paths" "review"
          [id "-run-tests"] files]
   | TaskTypeDocs | TaskTypeResearch =>
       [plain_step (id "-collect-context") "collect supporting context" mainCapability
          [analyzeID] files;
        plain_step (id "-write-output") "produce deliverable" (RequiredCapability task)
          [id "-collect-context"] files;
        plain_step (id "-review-output") "review deliverable" "review" [id "-write-output"] files]
   | TaskTypeOther _ =>
       [plain_step (id "-execute") (Description (Input task)) mainCapability [analyzeID] files;
        plain_step (id "-verify") "verify completion" "review" [id "-execute"] files]
   end).

Definition buildPlan (now : Time) (task : Task) (selection : ModelSelection) : ExecutionPlan :=
  mkExecutionPlan (ID task) (SelComplexity selection) (RequiredCapability task) selection
    (defaultSteps task) now.

Definition shouldUseDynamicParallelPlanRouting (task : Task) : bool :=
  match aget (RoutingHints task) "parallel_plan" with
  | Some (ABool true) =>
      negb (String.eqb (TrimSpace (toString (aget_any (RoutingHints task) "plan_step_id"))) "") &&
      mem_string (ToLower (TrimSpace (RequiredCapability task))) ["plan"; "analysis"]
  | _ => false
  end.

Definition set_hint (k : string) (v : any) (task : Task) : Task :=
  task <| RoutingHints ::= (fun m => aset m k v) |>.

(** The SourceCraft hints of [Prepare]. *)
Definition sourcecraft_hints (task : Task) : Task :=
  let task := set_hint "sourcecraft_task_family" (AString (SourcecraftTaskFamily task)) task in
  let task := set_hint "sourcecraft_recommended_actions"
                (AStrings (SourcecraftRecommendedActions task)) task in
  let task := set_hint "sourcecraft_runtime_mode" (AString "planning_only") task in
  set_hint "sourcecraft_mutation_supported" (ABool false) task.

(** The assignments of [Prepare] that precede its hints ... *)
Definition assign_route (selection : ModelSelection) (task : Task) : Task :=
  let task := task <| Complexity_ := SelComplexity selection |> in
  let task := if String.eqb (AssignedProvider task) "" && negb (shouldUseDynamicParallelPlanRouting task)
              then task <| AssignedProvider := SelProvider selection |> else task in
  if String.eqb (AssignedModel task) "" && negb (shouldUseDynamicParallelPlanRouting task)
  then task <| AssignedModel := SelModelName selection |> else task.

(** ... and the hints it records. *)
Definition record_hints (selection : ModelSelection) (task : Task) : Task :=
  let task := set_hint "required_capability" (AString (RequiredCapability task)) task in
  let task := set_hint "sourcecraft_work" (ABool (isSourcecraftWork task)) task in
  let task := set_hint "selected_provider" (AString (AssignedProvider task)) task in
  let task := set_hint "selected_model" (AString (AssignedModel task)) task in
  let task := if (length (SupportLanes selection) =? 0)%nat then task
              else set_hint "ai_kernel_helper" (ABool true)
                     (set_hint "support_lanes" (AList (map support_lane_any (SupportLanes selection))) task) in
  let task := if (length (SelectionTrace selection) =? 0)%nat then task
              else set_hint "selection_trace" (AMap (cloneHints (SelectionTrace selection))) task in
  if isSourcecraftWork task then sourcecraft_hints task else task.

Definition Prepare `{ModelSelector} (now : Time) (task : Task) : Task * ExecutionPlan :=
  let task := task <| RoutingHints ::= cloneHints |> in
  let task := task <| RequiredCapability := inferCapability task |> in
  let selection := Select task in
  let task := record_hints selection (assign_route selection task) in
  (task, buildPlan now task selection).
End Planner.
