(* ===== verification/PlannerProps.v ===== *)
(** * Properties of the planner

    Every plan is a list of distinct steps in dependency order with one root; the branches of a
    code plan partition the clustered files; [Prepare] keeps what the caller chose. *)
From S2P Require Import Prelude GoLib GoJSON Domain TaskPolicy Config Planner.

(** ** Dependency order

    [ordered seen steps]: the ids of [steps] are new and distinct, and every dependency is in
    [seen] or is an earlier step. *)
Fixpoint ordered (seen : list string) (steps : list PlanStep) : Prop :=
  match steps with
  | [] => True
  | s :: steps =>
      (StepID s ∉ seen) /\ StepDependencies s <> [] /\
      (forall d, d ∈ StepDependencies s -> d ∈ seen) /\
      ordered (StepID s :: seen) steps
  end.

Lemma ordered_perm seen seen' steps : seen ≡ₚ seen' -> ordered seen steps -> ordered seen' steps.
Proof.
  revert seen seen'. induction steps as [|s steps IH]; intros seen seen' Hp; cbn; [done|].
  intros (Hs & Hne & Hd & Ho). split_and!; [by rewrite <- Hp|done|intros; rewrite <- Hp; auto|].
  eapply IH; [|exact Ho]. by rewrite Hp.
Qed.

Lemma ordered_app seen l1 l2 :
  ordered seen l1 -> ordered (map StepID l1 ++ seen) l2 -> ordered seen (l1 ++ l2).
Proof.
  revert seen. induction l1 as [|s l1 IH]; intros seen; cbn; [done|].
  intros (Hs & Hne & Hd & Ho) H2. split_and!; try done. apply IH; [done|].
  eapply ordered_perm; [|exact H2]. apply Permutation_middle.
Qed.

Lemma ordered_nodup seen steps :
  NoDup seen -> ordered seen steps -> NoDup (map StepID steps ++ seen).
Proof.
  revert seen. induction steps as [|s steps IH]; intros seen Hn; cbn; [done|].
  intros (Hs & _ & _ & Ho). rewrite Permutation_middle. apply IH; [by constructor|done].
Qed.

Lemma ordered_deps seen steps i s d :
  ordered seen steps -> steps !! i = Some s -> d ∈ StepDependencies s ->
  d ∈ seen \/ exists j s', (j < i)%nat /\ steps !! j = Some s' /\ StepID s' = d.
Proof.
  revert seen i. induction steps as [|s0 steps IH]; intros seen i Ho Hi Hd; [done|].
  destruct Ho as (_ & _ & Hd0 & Ho). destruct i as [|i]; cbn in Hi; simplify_eq; [auto|].
  destruct (IH _ i Ho Hi Hd) as [Hs|(j & s' & Hj & Hl & <-)].
  - apply elem_of_cons in Hs as [->|Hs]; [|auto]. right. exists 0%nat, s0. split_and!; [lia|done..].
  - right. exists (S j), s'. split_and!; [lia|done..].
Qed.

Lemma ordered_nonroot seen steps i s :
  ordered seen steps -> steps !! i = Some s -> StepDependencies s <> [].
Proof.
  revert seen i. induction steps as [|s0 steps IH]; intros seen i Ho Hi; [done|].
  destruct Ho as (_ & Hne & _ & Ho). destruct i as [|i]; cbn in Hi; simplify_eq; eauto.
Qed.

(** ** Step ids: [task.ID] followed by a suffix *)
Lemma id_suffix_inj (s t1 t2 : string) : s +:+ t1 = s +:+ t2 <-> t1 = t2.
Proof. split; [apply (inj (String.append s))|by intros ->]. Qed.

Lemma id_suffix_ne (s t1 t2 : string) : t1 <> t2 -> s +:+ t1 <> s +:+ t2.
Proof. by rewrite id_suffix_inj. Qed.

(** Discharges [ordered] for a literal list of steps whose ids differ in their suffixes. *)
Ltac ids_differ :=
  rewrite ?not_elem_of_cons, ?id_suffix_inj; split_and?; first [apply not_elem_of_nil|discriminate].
Ltac deps_seen :=
  let d := fresh in let H := fresh in intros d H; apply list_elem_of_singleton in H; subst d;
  rewrite !elem_of_cons; tauto.
Ltac ordered_steps :=
  cbn; split_and!; first [exact I|discriminate|ids_differ|deps_seen].

(** ** File clusters *)
Lemma cluster_loop_concat fuel files start limit max :
  (0 < max)%nat -> (limit - start <= fuel)%nat ->
  concat (cluster_loop fuel files start limit max) = take (limit - start) (drop start files).
Proof.
  intros Hmax. revert start. induction fuel as [|fuel IH]; intros start Hf; cbn [cluster_loop].
  - assert (limit - start = 0)%nat as -> by lia. done.
  - destruct (Nat.ltb_spec start limit); [|assert (limit - start = 0)%nat as -> by lia; done].
    cbn [concat]. rewrite IH by lia.
    destruct (Nat.ltb_spec limit (start + max)).
    + replace (limit - (start + max))%nat with 0%nat by lia. by rewrite app_nil_r.
    + rewrite <- (take_drop (start + max - start) (take (limit - start) (drop start files))).
      rewrite take_take, skipn_firstn_comm, drop_drop.
      replace ((start + max - start) `min` (limit - start))%nat with (start + max - start)%nat by lia.
      replace (start + (start + max - start))%nat with (start + max)%nat by lia.
      by replace (limit - start - (start + max - start))%nat with (limit - (start + max))%nat by lia.
Qed.

Lemma cluster_loop_sizes fuel files start limit max c :
  (0 < max)%nat -> (limit <= length files)%nat ->
  c ∈ cluster_loop fuel files start limit max -> (1 <= length c <= max)%nat.
Proof.
  intros Hmax Hl. revert start. induction fuel as [|fuel IH]; intros start; cbn [cluster_loop].
  - intros H. by apply not_elem_of_nil in H.
  - destruct (Nat.ltb_spec start limit); [|intros H'; by apply not_elem_of_nil in H'].
    intros [->|Hc]%elem_of_cons; [|by apply IH in Hc].
    rewrite length_take, length_drop. destruct (Nat.ltb_spec limit (start + max)); lia.
Qed.

Lemma cluster_size_bounds m : 1 <= cluster_size m <= 3.
Proof. unfold cluster_size. repeat case_match; lia. Qed.

Section Plans.
Context (getenv : string -> string).

Lemma cluster_limit_le files : (cluster_limit getenv files <= length files)%nat.
Proof. unfold cluster_limit. case_match; unfold len in *; lia. Qed.

Lemma cluster_limit_pos files : files <> [] -> (0 < cluster_limit getenv files)%nat.
Proof. unfold cluster_limit. destruct files; [done|]. case_match; cbn in *; lia. Qed.

Lemma clusters_concat files m :
  concat (clusterPlanFiles getenv files m) = take (cluster_limit getenv files) files.
Proof.
  unfold clusterPlanFiles. destruct files as [|f files]; [by rewrite take_nil|]. cbn [length Nat.eqb].
  pose proof (cluster_size_bounds m). rewrite cluster_loop_concat by lia.
  by rewrite Nat.sub_0_r.
Qed.

Lemma clusters_sizes files m c :
  c ∈ clusterPlanFiles getenv files m -> 1 <= len c <= cluster_size m.
Proof.
  unfold clusterPlanFiles, len. case_match; intros Hc; [by apply not_elem_of_nil in Hc|].
  pose proof (cluster_size_bounds m).
  apply cluster_loop_sizes in Hc; [lia|lia|apply cluster_limit_le].
Qed.

Lemma clusters_nonempty files m : files <> [] -> clusterPlanFiles getenv files m <> [].
Proof.
  intros Hne Hc. pose proof (clusters_concat files m) as Hcat. rewrite Hc in Hcat. cbn in Hcat.
  pose proof (cluster_limit_pos files Hne). destruct files; [done|].
  by destruct (cluster_limit getenv (s :: files)); [lia|].
Qed.

Lemma branch_id_inj task i j : branch_id task i = branch_id task j -> i = j.
Proof.
  unfold branch_id. rewrite !id_suffix_inj. unfold itoa. intros H%(inj pretty). lia.
Qed.

Lemma branches_ordered task cap analyze clusters k :
  (forall i, branch_id task i <> analyze) ->
  forall seen, analyze ∈ seen ->
  (forall i, (k <= i)%nat -> branch_id task i ∉ seen) ->
  ordered seen (imap (fun i => branch_step task cap analyze (k + i)) clusters).
Proof.
  intros Hne. revert k. induction clusters as [|c clusters IH]; intros k seen Ha Hb; cbn; [done|].
  rewrite Nat.add_0_r. split_and!.
  - apply Hb. lia.
  - done.
  - by intros d ->%list_elem_of_singleton.
  - erewrite imap_ext; [apply (IH (S k))|].
    + by right.
    + intros i Hi. rewrite not_elem_of_cons. split; [|apply Hb; lia].
      intros H%branch_id_inj. lia.
    + intros i x _. cbn. f_equal. lia.
Qed.

Lemma branch_ids task cap analyze clusters id :
  id ∈ map StepID (imap (branch_step task cap analyze) clusters) -> exists i, id = branch_id task i.
Proof.
  rewrite list_elem_of_fmap. intros (s & -> & Hs).
  apply elem_of_lookup_imap in Hs as (i & x & -> & _). by exists i.
Qed.

Lemma codeSteps_ordered task :
  ordered [ID task +:+ "-analyze"] (codeSteps getenv task (ID task +:+ "-analyze")).
Proof.
  unfold codeSteps. destruct (parallelizable task _) eqn:Hp; cbn [negb]; [|ordered_steps].
  set (cap := if String.eqb _ _ then _ else _). set (clusters := clusterPlanFiles _ _ _).
  assert (clusters <> []) as Hne.
  { apply clusters_nonempty. intros Hf. rewrite Hf in Hp. done. }
  assert (forall suffix i, suffix <> "-branch-" +:+ itoa (Z.of_nat i + 1) ->
            ID task +:+ suffix <> branch_id task i) as Hbr
    by (intros; by apply id_suffix_ne).
  apply ordered_app.
  - apply (branches_ordered task cap _ clusters 0).
    + intros i. apply not_eq_sym, Hbr. discriminate.
    + by apply list_elem_of_singleton.
    + intros i _. rewrite list_elem_of_singleton. apply not_eq_sym, Hbr. discriminate.
  - assert (forall suffix, (forall i, suffix <> "-branch-" +:+ itoa (Z.of_nat i + 1)) ->
              suffix <> "-analyze" ->
              ID task +:+ suffix ∉ map StepID (imap (branch_step task cap (ID task +:+ "-analyze")) clusters)
                                     ++ [ID task +:+ "-analyze"]) as Hnew.
    { intros suffix Hb Ha [Hin|Hin]%elem_of_app.
      - apply branch_ids in Hin as [i Hi]. by apply Hbr in Hi.
      - apply list_elem_of_singleton in Hin. by apply id_suffix_inj in Hin. }
    cbn. split_and!; [by apply Hnew| |by intros d Hd; apply elem_of_app; left| | | |done].
    + by destruct clusters.
    + rewrite not_elem_of_cons. split; [by apply id_suffix_ne|by apply Hnew].
    + done.
    + by intros d ->%list_elem_of_singleton; left.
Qed.

Lemma defaultSteps_ordered task :
  exists root rest, defaultSteps getenv task = root :: rest /\ StepDependencies root = [] /\
    StepID root = ID task +:+ "-analyze" /\ ordered [StepID root] rest.
Proof.
  unfold defaultSteps. eexists _, _. split_and!; [done..|]. cbn [StepID plain_step].
  destruct (isSourcecraftWork task).
  - unfold sourcecraftSteps. destruct (_ || _ || _); ordered_steps.
  - destruct (Type_ task); try apply codeSteps_ordered; ordered_steps.
Qed.

(** Every step id is the task id with a suffix. *)
Lemma step_ids_prefixed task s : s ∈ defaultSteps getenv task -> exists suffix, StepID s = ID task +:+ suffix.
Proof.
  unfold defaultSteps. intros [->|Hs]%elem_of_cons; [by eexists|]. revert Hs.
  assert (forall l, Forall (fun s => exists suffix, StepID s = ID task +:+ suffix) l ->
            s ∈ l -> exists suffix, StepID s = ID task +:+ suffix) as Hall
    by (intros l Hl Hs; exact (proj1 (Forall_forall _ _) Hl s Hs)).
  apply Hall. destruct (isSourcecraftWork task).
  - unfold sourcecraftSteps. apply Forall_app. split; [|case_match]; repeat constructor; by eexists.
  - destruct (Type_ task); try (repeat constructor; by eexists);
      (unfold codeSteps; case_match; [repeat constructor; by eexists|]; apply Forall_app; split;
       [|repeat constructor; by eexists]; apply Forall_forall; intros b Hb;
       apply elem_of_lookup_imap in Hb as (i & c & -> & _); by eexists).
Qed.

(** Helper of the theorem below, for the clients of the planner. *)
Lemma plan_topological now task selection :
  let steps := Steps (buildPlan getenv now task selection) in
  NoDup (map StepID steps) /\
  (forall i s d, steps !! i = Some s -> d ∈ StepDependencies s ->
     exists j s', (j < i)%nat /\ steps !! j = Some s' /\ StepID s' = d) /\
  (forall i s, steps !! i = Some s -> StepDependencies s = [] <-> i = 0%nat).
Proof.
  cbn [Steps buildPlan]. destruct (defaultSteps_ordered task) as (root & rest & -> & Hr & _ & Ho).
  split_and!.
  - apply ordered_nodup in Ho; [|by apply NoDup_singleton]. cbn.
    by rewrite Permutation_app_comm in Ho.
  - intros [|i] s d Hi Hd; cbn in Hi; simplify_eq; [rewrite Hr in Hd; by apply not_elem_of_nil in Hd|].
    destruct (ordered_deps _ _ _ _ _ Ho Hi Hd) as [Hroot|(j & s' & Hj & Hl & <-)].
    + apply list_elem_of_singleton in Hroot as ->. exists 0%nat, root. split_and!; [lia|done..].
    + exists (S j), s'. split_and!; [lia|done..].
  - intros [|i] s Hi; cbn in Hi; simplify_eq; [done|].
    split; [|done]. intros Hd. by apply (ordered_nonroot _ _ _ _ Ho Hi) in Hd.
Qed.

(** Every plan the planner builds is a dependency order of distinct steps with a single
    root: step ids do not repeat, each dependency of a step is the id of a step listed before
    it, and the first step is the only one without dependencies. *)
Theorem plan_steps_topological now task selection :
  let steps := Steps (buildPlan getenv now task selection) in
  NoDup (map StepID steps) /\
  (forall i s d, steps !! i = Some s -> d ∈ StepDependencies s ->
     exists j s', (j < i)%nat /\ steps !! j = Some s' /\ StepID s' = d) /\
  (forall i s, steps !! i = Some s -> StepDependencies s = [] <-> i = 0%nat).
Proof. apply plan_topological. Qed.

Lemma branch_files task cap analyze clusters :
  map StepFiles (imap (branch_step task cap analyze) clusters) = clusters.
Proof.
  apply list_eq. intros i. rewrite list_lookup_fmap, list_lookup_imap. by destruct (clusters !! i).
Qed.

(** A parallel code plan splits the files the task names, up to the configured limit, into
    consecutive branches: each file position goes to exactly one branch, a branch has one to
    three files, holds the conflict key of each of them and waits for the analysis only; the
    merge review waits for every branch and covers all files. *)
Theorem code_plan_branches_partition task :
  let files := compactStrings (InputFiles (Input task)) in
  let analyzeID := ID task +:+ "-analyze" in
  parallelizable task files = true ->
  exists branches review test, codeSteps getenv task analyzeID = branches ++ [review; test] /\
    concat (map StepFiles branches) = take (cluster_limit getenv files) files /\
    (forall b, b ∈ branches -> 1 <= len (StepFiles b) <= cluster_size (maxFilesPerCodeCluster task) /\
       StepConflictKeys b = StepFiles b /\ StepDependencies b = [analyzeID]) /\
    StepDependencies review = map StepID branches /\ StepFiles review = files /\
    StepDependencies test = [StepID review].
Proof.
  cbn zeta. intros Hp. unfold codeSteps. rewrite Hp. cbn [negb].
  eexists _, _, _. split_and!; [done| |..].
  - by rewrite branch_files, clusters_concat.
  - intros b Hb. apply elem_of_lookup_imap in Hb as (i & c & -> & Hc).
    split_and!; [eapply clusters_sizes, list_elem_of_lookup_2, Hc..|done|done].
  - done.
  - done.
  - done.
Qed.

(** With the default limit, a file past the twelfth is in no branch of a parallel code
    plan: no step that waits for the analysis implements it, although the merge review lists it. *)
Theorem code_plan_drops_files task f :
  let files := compactStrings (InputFiles (Input task)) in
  let analyzeID := ID task +:+ "-analyze" in
  getenv "GO_CORE_MAX_CLUSTER_PLAN_FILES" = "" ->
  12 < len files ->
  f ∉ take 12 files -> f ∈ files ->
  (forall s, s ∈ codeSteps getenv task analyzeID -> StepDependencies s = [analyzeID] ->
     f ∉ StepFiles s) /\
  (exists s, s ∈ codeSteps getenv task analyzeID /\ StepCapability s = "review" /\ f ∈ StepFiles s).
Proof.
  cbn zeta. intros Henv Hlen Hf Hin. unfold codeSteps.
  set (files := compactStrings _) in *. set (cap := if String.eqb _ _ then _ else _).
  assert (parallelizable task files = true) as ->.
  { unfold parallelizable. rewrite (proj2 (Z.ltb_lt 1 _)), (proj2 (Z.ltb_lt 2 _)) by lia.
    by rewrite orb_true_r. }
  cbn [negb]. split.
  - intros s [Hs|Hs]%elem_of_app Hdeps Hfs.
    + apply Hf. apply elem_of_lookup_imap in Hs as (i & c & -> & Hc).
      assert (cluster_limit getenv files = 12%nat) as <-.
      { unfold cluster_limit, envInt. rewrite Henv. cbn -[len Z.ltb].
        by rewrite (proj2 (Z.ltb_lt 12 _)) by lia. }
      rewrite <- (clusters_concat files (maxFilesPerCodeCluster task)).
      apply list_elem_of_In, in_concat. exists c.
      split; apply list_elem_of_In; [eapply list_elem_of_lookup_2, Hc|done].
    + rewrite !elem_of_cons in Hs. destruct Hs as [->|[->|Hs]]; [| |by apply not_elem_of_nil in Hs].
      * cbn [StepDependencies code_step] in Hdeps. symmetry in Hdeps.
        pose proof (list_elem_of_here (ID task +:+ "-analyze") []) as Ha.
        revert Ha. rewrite Hdeps. intros Ha. apply branch_ids in Ha as [i Hi].
        unfold branch_id in Hi. by apply id_suffix_inj in Hi.
      * cbn in Hdeps. injection Hdeps as Hdeps. by apply id_suffix_inj in Hdeps.
  - eexists. split; [apply elem_of_app; right; left|]. by split.
Qed.
End Plans.

Definition sample_code_task (n : nat) : Task :=
  zero_task <| ID := "t" |> <| Type_ := TaskTypeCode |> <| RequiredCapability := "code" |>
    <| Complexity_ := ComplexityMedium |>
    <| Input := mkTaskInput "refactor" (map (fun i => "f" +:+ itoa (Z.of_nat i)) (seq 0 n)) [] [] |>.

Lemma code_plan_branches_partition_witness :
  map StepFiles (codeSteps (fun _ => "") (sample_code_task 4) "t-analyze")
    = [["f0"; "f1"; "f2"]; ["f3"]; ["f0"; "f1"; "f2"; "f3"]; ["f0"; "f1"; "f2"; "f3"]] /\
  exists branches review test, codeSteps (fun _ => "") (sample_code_task 4) "t-analyze" = branches ++ [review; test] /\
    StepDependencies review = map StepID branches.
Proof.
  split; [vm_compute; reflexivity|].
  destruct (code_plan_branches_partition (fun _ => "") (sample_code_task 4) ltac:(vm_compute; reflexivity))
    as (b & r & t & H1 & H2 & H3 & H4 & H5).
  exists b, r, t. split; [exact H1|exact H4].
Defined.

Lemma code_plan_drops_files_witness :
  Forall (fun s => StepDependencies s = ["t-analyze"] -> "f12" ∉ StepFiles s)
    (codeSteps (fun _ => "") (sample_code_task 13) "t-analyze").
Proof.
  apply Forall_forall.
  refine (proj1 (code_plan_drops_files (fun _ => "") (sample_code_task 13) "f12" _ _ _ _)).
  - reflexivity.
  - vm_compute; reflexivity.
  - apply (bool_decide_unpack (_ ∉ _)). vm_compute. exact I.
  - apply (bool_decide_unpack (_ ∈ _)). vm_compute. exact I.
Defined.

(** ** [Prepare] *)
Definition prepare_hint_keys : list string :=
  ["required_capability"; "sourcecraft_work"; "selected_provider"; "selected_model";
   "ai_kernel_helper"; "support_lanes"; "selection_trace"; "sourcecraft_task_family";
   "sourcecraft_recommended_actions"; "sourcecraft_runtime_mode"; "sourcecraft_mutation_supported"].

Lemma hint_set_eq k v task : aget (RoutingHints (set_hint k v task)) k = Some v.
Proof. apply aget_aset_eq. Qed.
Lemma hint_set_ne k k' v task :
  k <> k' -> aget (RoutingHints (set_hint k v task)) k' = aget (RoutingHints task) k'.
Proof. apply aget_aset_ne. Qed.

Lemma hint_other_key k k' v task :
  k ∈ prepare_hint_keys -> k' ∉ prepare_hint_keys ->
  aget (RoutingHints (set_hint k v task)) k' = aget (RoutingHints task) k'.
Proof. intros Hk Hk'. apply hint_set_ne. by intros ->. Qed.

(** Recording a hint changes nothing but the hints, and those only under the listed keys. *)
Definition hints_only (t t' : Task) : Prop :=
  t' = t <| RoutingHints := RoutingHints t' |> /\
  forall k, k ∉ prepare_hint_keys -> aget (RoutingHints t') k = aget (RoutingHints t) k.

Lemma hints_only_refl t : hints_only t t.
Proof. split; [by destruct t|done]. Qed.
Lemma hints_only_set t t' k v :
  mem_string k prepare_hint_keys = true -> hints_only t t' -> hints_only t (set_hint k v t').
Proof.
  intros Hk%mem_string_spec [Ht Hh]. split; [rewrite Ht; by destruct t|].
  intros k' Hk'. rewrite hint_set_ne by (by intros ->). by apply Hh.
Qed.
#[local] Hint Resolve hints_only_refl hints_only_set : orch.

Ltac hints_step := apply hints_only_set; [reflexivity|].

Lemma record_hints_only selection t : hints_only t (record_hints selection t).
Proof.
  unfold record_hints, sourcecraft_hints. cbn zeta.
  repeat (case_match || hints_step); apply hints_only_refl.
Qed.

Lemma record_hints_route selection t :
  aget (RoutingHints (record_hints selection t)) "selected_provider" = Some (AString (AssignedProvider t)) /\
  aget (RoutingHints (record_hints selection t)) "selected_model" = Some (AString (AssignedModel t)).
Proof.
  unfold record_hints, sourcecraft_hints. cbn zeta.
  split; repeat case_match; repeat rewrite hint_set_ne by discriminate; by rewrite hint_set_eq.
Qed.

Lemma inferCapability_nonempty task : inferCapability task <> "".
Proof.
  unfold inferCapability. destruct (String.eqb_spec (TrimSpace (RequiredCapability task)) "");
    cbn; [|done]. case_match; [done|]. by destruct (Type_ task).
Qed.

Lemma assign_route_provider selection t :
  AssignedProvider (assign_route selection t) =
    if String.eqb (AssignedProvider t) "" && negb (shouldUseDynamicParallelPlanRouting t)
    then SelProvider selection else AssignedProvider t.
Proof.
  unfold assign_route.
  change (shouldUseDynamicParallelPlanRouting (t <| Complexity_ := SelComplexity selection |>))
    with (shouldUseDynamicParallelPlanRouting t).
  change (AssignedProvider (t <| Complexity_ := SelComplexity selection |>)) with (AssignedProvider t).
  cbn zeta. by destruct (_ && _) eqn:?; case_match.
Qed.

Lemma assign_route_model selection t :
  AssignedModel (assign_route selection t) =
    if String.eqb (AssignedModel t) "" && negb (shouldUseDynamicParallelPlanRouting t)
    then SelModelName selection else AssignedModel t.
Proof.
  unfold assign_route. cbn zeta. set (t0 := t <| Complexity_ := SelComplexity selection |>).
  set (t1 := if String.eqb (AssignedProvider t0) "" && _ then _ else t0).
  assert (AssignedModel t1 = AssignedModel t /\
    shouldUseDynamicParallelPlanRouting t1 = shouldUseDynamicParallelPlanRouting t) as [-> ->]
    by (subst t1; by destruct (String.eqb (AssignedProvider t0) "" && _)).
  assert (AssignedModel t1 = AssignedModel t) as Hm
    by (subst t1; by destruct (String.eqb (AssignedProvider t0) "" && _)).
  destruct (String.eqb (AssignedModel t) "" && _); [done|exact Hm].
Qed.

Lemma prepare_identity getenv (selector : ModelSelector) now task :
  let '(task', plan) := Prepare getenv now task in
  ID task' = ID task /\ SessionID task' = SessionID task /\
  exists selection, plan = buildPlan getenv now task' selection.
Proof.
  unfold Prepare. cbn zeta. set (t1 := field_map RequiredCapability _ _). set (sel := Select t1).
  destruct (record_hints_only sel (assign_route sel t1)) as [Heq _].
  set (t' := record_hints _ _) in *. clearbody t'.
  assert (ID (assign_route sel t1) = ID task /\ SessionID (assign_route sel t1) = SessionID task) as [H1 H2]
    by (unfold assign_route; repeat case_match; done).
  split_and!; [by rewrite Heq|by rewrite Heq|eauto].
Qed.

(** [Prepare] keeps the identity, the input and every other routing hint of the task,
    always leaves a capability, never overrides a provider or model the caller assigned, uses
    the selector's choice where none was assigned (unless a plan step routes dynamically), and
    reports the final assignment in the hints and the plan. *)
Theorem prepare_keeps_choices getenv (selector : ModelSelector) now task :
  let '(task', plan) := Prepare getenv now task in
  let choice := selector (task <| RequiredCapability := inferCapability task |>) in
  (ID task' = ID task /\ SessionID task' = SessionID task /\ Input task' = Input task /\
   Type_ task' = Type_ task /\ Dependencies task' = Dependencies task) /\
  RequiredCapability task' = inferCapability task /\ RequiredCapability task' <> "" /\
  AssignedProvider task' =
    (if String.eqb (AssignedProvider task) "" &&
        negb (shouldUseDynamicParallelPlanRouting (task <| RequiredCapability := inferCapability task |>))
     then SelProvider choice else AssignedProvider task) /\
  AssignedModel task' =
    (if String.eqb (AssignedModel task) "" &&
        negb (shouldUseDynamicParallelPlanRouting (task <| RequiredCapability := inferCapability task |>))
     then SelModelName choice else AssignedModel task) /\
  aget (RoutingHints task') "selected_provider" = Some (AString (AssignedProvider task')) /\
  aget (RoutingHints task') "selected_model" = Some (AString (AssignedModel task')) /\
  (forall k, k ∉ prepare_hint_keys -> aget (RoutingHints task') k = aget (RoutingHints task) k) /\
  PlanTaskID plan = ID task /\ Steps plan = defaultSteps getenv task' /\ Selection plan = choice.
Proof.
  unfold Prepare, cloneHints. cbn zeta.
  assert (forall t : Task, t <| RoutingHints ::= (fun h => h) |> = t) as -> by by intros [].
  set (t1 := task <| RequiredCapability := inferCapability task |>).
  change (Select t1) with (selector t1). set (sel := selector t1).
  destruct (record_hints_only sel (assign_route sel t1)) as [Heq Hkeys].
  destruct (record_hints_route sel (assign_route sel t1)) as [Hp Hm].
  set (t' := record_hints _ _) in *. clearbody t'.
  assert (AssignedProvider t' = AssignedProvider (assign_route sel t1) /\
          AssignedModel t' = AssignedModel (assign_route sel t1)) as [Hp' Hm'] by by rewrite Heq.
  rewrite Hp', Hm'. pose proof (inferCapability_nonempty task) as Hcap.
  assert (RoutingHints (assign_route sel t1) = RoutingHints task /\
          RequiredCapability (assign_route sel t1) = inferCapability task /\
          ID (assign_route sel t1) = ID task /\ SessionID (assign_route sel t1) = SessionID task /\
          Input (assign_route sel t1) = Input task /\ Type_ (assign_route sel t1) = Type_ task /\
          Dependencies (assign_route sel t1) = Dependencies task) as (Hrh & Hrc & H1 & H2 & H3 & H4 & H5)
    by (unfold assign_route; repeat case_match; done).
  split_and!; try done; try (by rewrite Heq).
  - rewrite Heq. cbn [RequiredCapability field_map]. by rewrite <- Hrc in Hcap.
  - exact (assign_route_provider sel t1).
  - exact (assign_route_model sel t1).
  - intros k Hk. by rewrite Hkeys, Hrh.
Qed.
