(* ===== verification/ModelSelector.v ===== *)
(** * The model selector (kernel/model_selector.go)

    How hard a task is, which providers and models suit it, and which of the models that are
    healthy now gets it: every healthy model of a candidate provider is scored by preference,
    route history, budget, retrieval needs and failures of its peers.  Also here: the choice of the
    cloud provider (agents/openai_compatible.go).  A selection reads the clock once, as [now]. *)
From S2P Require Import Prelude GoLib GoJSON Domain ContractJSON TaskPolicy Config Router ModelInventory ModelRegistry Planner.
From Stdlib Require Import PrimFloat.

Definition modelQwenCoder : string := "gemma4-12b-agentic-fable5:q4_k_m".
Definition modelLocalSmall : string := "gemma4-12b-agentic-fable5:q4_k_m".
Definition modelOpenAIHigh : string := "gpt-5.5".
Definition modelMistral : string := "mistral-large-latest".

(** ** The cloud provider (agents/openai_compatible.go) *)
Definition looksLikeCodexSaleEndpoint (value : string) : bool :=
  let trimmed := TrimSpace (ToLower value) in
  negb (String.eqb trimmed "") && Contains trimmed "codex.sale".
Definition LooksLikeCodexSaleAlias (cfg : OpenAICompatibleConfig) : bool :=
  if EqualFold (TrimSpace (CfgProviderID cfg)) "codexsale" then true
  else existsb looksLikeCodexSaleEndpoint
    [CfgBaseURL cfg; CfgModelsEndpoint cfg; CfgChatCompletionsEndpoint cfg; CfgResponsesEndpoint cfg;
     CfgMessagesEndpoint cfg; CfgMessagesCountTokensEndpoint cfg; CfgCodexEndpoint cfg].

Fixpoint firstEnv (getenv : string -> string) (keys : list string) : string :=
  match keys with
  | [] => ""
  | key :: keys =>
      let value := TrimSpace (getenv key) in
      if String.eqb value "" then firstEnv getenv keys else value
  end.
Definition CloudProviderPreference (getenv : string -> string) : string :=
  let preference := ToLower (TrimSpace
    (firstEnv getenv ["AI_BRIDGE_CLOUD_PROVIDER"; "GO_CORE_CLOUD_PROVIDER"])) in
  if String.eqb preference "" then "auto" else preference.

Definition local_provider (provider : string) : bool :=
  EqualFold provider "local" || EqualFold provider "ai_kernel".
(** [order] lists [configs] as the map happens to be walked. *)
Definition SelectCloudProvider (configs : gmap string OpenAICompatibleConfig)
  (order : list (string * OpenAICompatibleConfig)) (preference : string) : string :=
  let preference := ToLower (TrimSpace preference) in
  let ready provider := match configs !! provider with Some cfg => CfgConfigured cfg | None => false end in
  if negb (mem_string preference [""; "auto"]) && ready preference then preference
  else
    let openaiReady := ready "openai" in
    let codexReady := ready "codexsale" in
    let alias := match configs !! "openai" with
                 | Some cfg => LooksLikeCodexSaleAlias cfg | None => false end in
    if codexReady && (negb openaiReady || alias) then "codexsale"
    else if openaiReady then "openai"
    else if codexReady then "codexsale"
    else match List.find ready ["mistral"; "mimo"; "antigravity"] with
         | Some provider => provider
         | None =>
             match List.find (fun '(provider, cfg) => negb (local_provider provider) && CfgConfigured cfg)
                     order with
             | Some (provider, _) => provider
             | None => "openai"
             end
         end.
Definition PreferredCloudProvider (getenv : string -> string)
  (configs : gmap string OpenAICompatibleConfig) (order : list (string * OpenAICompatibleConfig)) : string :=
  SelectCloudProvider configs order (CloudProviderPreference getenv).

(** ** Lists of names *)
Definition appendIfMissingPreserveOrder (items : list string) (value : string) : list string :=
  let value := TrimSpace value in
  if String.eqb value "" then items
  else if existsb (fun item => EqualFold item value) items then items
  else items ++ [value].
Definition dedupeStrings (items : list string) : list string :=
  foldl appendIfMissingPreserveOrder [] items.
Definition dedupeTaskTypes (values : list TaskType) : list TaskType :=
  foldl (fun result value => if bool_decide (value ∈ result) then result else result ++ [value]) [] values.

(** ** Reading hints *)
Definition boolValue (value : any) : bool :=
  match value with
  | ABool b => b
  | AString s => default false (ParseBool (TrimSpace s))
  | _ => false
  end.
Definition stringValue (value : any) : string :=
  match value with
  | ANil => ""
  | AString s => s
  | _ => if boolValue value then "true" else "false"
  end.
Definition stringSliceValue (value : any) : list string :=
  match value with
  | AStrings l => l
  | AList l => omap (fun item => match item with
                 | ANil => None
                 | _ => let text := stringValue item in
                        if String.eqb text "" then None else Some text
                 end) l
  | _ => []
  end.
Definition intValue (value : any) : Z :=
  match value with
  | AInt z => z
  | AFloat f => int_of_float f
  | AString s => default 0 (Atoi (TrimSpace s))
  | _ => 0
  end.
Definition float64Value (ParseFloat : string -> option float) (value : any) : float :=
  match value with
  | AFloat f => f
  | AInt z => float_of_int z
  | AString s => default 0%float (ParseFloat (TrimSpace s))
  | _ => 0%float
  end.
Definition maxFloat (left right : float) : float := if (right <=? left)%float then left else right.
Definition clamp (value minValue maxValue : float) : float :=
  if (value <? minValue)%float then minValue
  else if (maxValue <? value)%float then maxValue else value.

Definition tier_rank (tier : string) : Z :=
  if String.eqb tier "low" then 1 else if String.eqb tier "medium" then 2
  else if String.eqb tier "high" then 3 else 0.
Definition strongerRetrievalTier (current candidate : string) : string :=
  if tier_rank current <? tier_rank candidate then candidate else current.

(** ** How hard a task is *)
Definition Classify (task : Task) : Complexity :=
  if negb (String.eqb (complexity_string (Complexity_ task)) "") then Complexity_ task
  else
    let text := taskText task in
    let risk := EvaluateRiskContext text in
    let of_type t := bool_decide (Type_ task = t) in
    let files := compactStrings (InputFiles (Input task)) in
    if bool_decide (Priority_ task = PriorityCritical) || HighRisk risk then ComplexityCritical
    else if bool_decide (Priority_ task = PriorityHigh) ||
            ((of_type TaskTypePlan || of_type TaskTypeReview) &&
             contains_any text ["architecture"; "distributed"; "debugging"]) then ComplexityHigh
    else if negb (length (RiskMatchedLowRiskExemptions risk) =? 0)%nat &&
            (of_type TaskTypeDocs || of_type TaskTypeFix) && (length files <=? 2)%nat &&
            (String.length text <? 120)%nat then ComplexityLow
    else if of_type TaskTypeCode || of_type TaskTypeTest || of_type TaskTypeFix || of_type TaskTypeDocs ||
            of_type TaskTypeResearch || (2 <? length files)%nat then ComplexityMedium
    else ComplexityLow.

Definition shouldEscalateToCloud (task : Task) (complexity : Complexity) (risk : RiskEvaluation) : bool :=
  bool_decide (complexity = ComplexityCritical) || bool_decide (complexity = ComplexityHigh) ||
  bool_decide (Priority_ task = PriorityCritical) || HighRisk risk.

Record modelSelectionPolicy : Type := mkModelSelectionPolicy {
  targetProvider : string;
  targetModel : string;
  providers : list string;
  families : list string;
  models : list string;
  reason : string;
  cloudRequired : bool;
  requiresSecondaryReview : bool }.
#[export] Instance eta_modelSelectionPolicy : Updatable modelSelectionPolicy := fun p =>
  mkModelSelectionPolicy (targetProvider p) (targetModel p) (providers p) (families p) (models p)
    (reason p) (cloudRequired p) (requiresSecondaryReview p).

(** ** Scores *)

(** The part of [domain.RouteSearchResult] the selector reads. *)
Record RouteSearchResult : Type := mkRouteSearchResult {
  RouteProvider : string;
  RouteModelName : string;
  RouteSuccess : bool;
  RouteConfidence : float;
  RouteReviewPassed : bool;
  RouteTestsPassed : bool;
  RouteCostEstimate : float;
  RouteUpdatedAt : Time;
  Similarity : float }.

Record selectorSignals : Type := mkSelectorSignals {
  budgetAction : string;
  tokenPressure : string;
  peerFailures : list string;
  vectorMemoryCount : Z;
  routeResults : list RouteSearchResult;
  routeMemoryCount : Z;
  validationHasRAG : bool;
  trainedMemory : bool;
  retrievalTier : string;
  retrievalCoverage : float;
  retrievalPacked : Z;
  retrievalTruncated : float;
  retrievalBestScore : float }.
#[export] Instance eta_selectorSignals : Updatable selectorSignals := fun s =>
  mkSelectorSignals (budgetAction s) (tokenPressure s) (peerFailures s) (vectorMemoryCount s)
    (routeResults s) (routeMemoryCount s) (validationHasRAG s) (trainedMemory s) (retrievalTier s)
    (retrievalCoverage s) (retrievalPacked s) (retrievalTruncated s) (retrievalBestScore s).

Definition signals_trace (s : selectorSignals) : any :=
  AMap [("budget_action", AString (budgetAction s)); ("token_pressure", AString (tokenPressure s));
        ("peer_failures", AStrings (peerFailures s));
        ("vector_memory_count", AInt (vectorMemoryCount s));
        ("route_memory_count", AInt (routeMemoryCount s));
        ("validation_has_rag", ABool (validationHasRAG s)); ("trained_memory", ABool (trainedMemory s));
        ("retrieval_tier", AString (retrievalTier s));
        ("retrieval_coverage", AFloat (retrievalCoverage s));
        ("retrieval_packed", AInt (retrievalPacked s));
        ("retrieval_truncation", AFloat (retrievalTruncated s));
        ("retrieval_best_score", AFloat (retrievalBestScore s))].

Record routeHistoryScore : Type := mkRouteHistoryScore {
  HistTotal : float;
  SampleCount : Z;
  SuccessRate : float;
  ReviewPassRate : float;
  TestPassRate : float;
  HistConfidence : float;
  Recency : float;
  CostEfficiency : float }.
Definition history_any (h : routeHistoryScore) : any :=
  AStruct [("total", AFloat (HistTotal h)); ("sample_count", AInt (SampleCount h));
           ("success_rate", AFloat (SuccessRate h)); ("review_pass_rate", AFloat (ReviewPassRate h));
           ("test_pass_rate", AFloat (TestPassRate h)); ("confidence", AFloat (HistConfidence h));
           ("recency", AFloat (Recency h)); ("cost_efficiency", AFloat (CostEfficiency h))].

Definition recencyScore (now ts : Time) : float :=
  if IsZero ts then 0.35%float
  else
    let age := time_sub now ts in
    (if (age <=? 24 * hour)%Z then 1 else if (age <=? 7 * 24 * hour)%Z then 0.8
     else if (age <=? 30 * 24 * hour)%Z then 0.55 else 0.3)%float.
Definition costEfficiencyScore (cost : float) : float :=
  (if cost <=? 0 then 0.8 else if cost <=? 0.02 then 1 else if cost <=? 0.08 then 0.75
   else if cost <=? 0.2 then 0.45 else 0.2)%float.

Definition route_matches (model : ProviderModelStatus) (result : RouteSearchResult) : bool :=
  let family := inferModelFamily (ModelName model) in
  EqualFold (RouteProvider result) (ModelProvider model) &&
  (EqualFold (RouteModelName result) (ModelName model) ||
   (negb (String.eqb family "") && String.eqb (inferModelFamily (RouteModelName result)) family)).
Definition sum_floats (f : RouteSearchResult -> float) (l : list RouteSearchResult) : float :=
  foldl (fun acc x => (acc + f x)%float) 0%float l.
Definition scoreRouteHistory (now : Time) (model : ProviderModelStatus)
  (results : list RouteSearchResult) : routeHistoryScore :=
  match List.filter (route_matches model) results with
  | [] => mkRouteHistoryScore 0 0 0 0 0 0 0 0
  | matched =>
      (let count b := if (b : bool) then 1 else 0 in
       let mean f := sum_floats f matched / float_of_int (len matched) in
       let success := mean (fun r => count (RouteSuccess r)) in
       let review := mean (fun r => count (RouteReviewPassed r)) in
       let tests := mean (fun r => count (RouteTestsPassed r)) in
       let confidence := mean (fun r => clamp (Similarity r) 0 1 * clamp (RouteConfidence r) 0 1) in
       let recency := mean (fun r => recencyScore now (RouteUpdatedAt r)) in
       let cost := mean (fun r => costEfficiencyScore (RouteCostEstimate r)) in
       mkRouteHistoryScore
         (success * 2.6 + review * 1.3 + tests * 1.2 + confidence * 1.0 + recency * 0.7 + cost * 0.6)
         (len matched) success review tests confidence recency cost)%float
  end.

Definition strong_family (family : string) : bool := mem_string family ["gpt"; "claude"; "gemini"].
Definition scoreBudgetFit (model : ProviderModelStatus) (signals : selectorSignals) : float :=
  let action := ToLower (budgetAction signals) in
  let provider := ToLower (ModelProvider model) in
  let family := inferModelFamily (ModelName model) in
  let expand := if mem_string action ["expand"; "increase"] && strong_family family
                then 0.8%float else 0%float in
  if mem_string action ["reduce"; "tighten"] then
    (if mem_string provider ["ai_kernel"; "local"; "ollama"] then 1.8
     else if contains_any (ToLower (ModelName model)) ["mini"; "small"] then 1.0
     else if strong_family family then (-0.8) else expand)%float
  else expand.

Definition scoreRetrievalFit (model : ProviderModelStatus) (policy : modelSelectionPolicy)
  (signals : selectorSignals) : float :=
  let heavyRetrieval := (3 <=? vectorMemoryCount signals) || validationHasRAG signals ||
    trainedMemory signals || String.eqb (retrievalTier signals) "high" ||
    (0.55 <=? retrievalCoverage signals)%float in
  if negb heavyRetrieval then 0%float
  else
    let name := ToLower (ModelName model) in
    let family := inferModelFamily (ModelName model) in
    let score := minus_if (Contains name "mini") 0.5 0.2 in
    let score := plus_if
      (mem_string (reason policy) ["analysis_review_path"; "research_path"; "high_risk_or_high_complexity"] &&
       mem_string family ["gpt"; "claude"; "gemini"; "qwen"; "mistral"]) 0.9 score in
    let score := plus_if (String.eqb (retrievalTier signals) "high") 0.4 score in
    let score := plus_if (0.6 <=? retrievalCoverage signals)%float 0.3 score in
    let score := plus_if (0.35 <=? retrievalTruncated signals)%float 0.15 score in
    minus_if ((0 <? retrievalBestScore signals)%float && (retrievalBestScore signals <? 0.45)%float)
      0.1 score.

Definition scoreFailurePenalty (model : ProviderModelStatus) (signals : selectorSignals) : float :=
  let provider := ToLower (ModelProvider model) in
  let name := ToLower (ModelName model) in
  if existsb (fun failure =>
       let value := ToLower failure in
       String.eqb value provider || String.eqb value name || Contains value provider ||
       Contains value name) (peerFailures signals)
  then 2.2%float else 0%float.

(** [bonus] for the first of [preferred] that folds to [name], less by [step] a place. *)
Fixpoint ranked_bonus (bonus step : Z) (preferred : list string) (name : string) : Z :=
  match preferred with
  | [] => 0
  | p :: preferred => if EqualFold name p then bonus else ranked_bonus (bonus - step) step preferred name
  end.
Definition model_family (model : ProviderModelStatus) : string :=
  match aget (ModelMetadata model) "model_family" with
  | Some (AString metadataFamily) =>
      if non_blank metadataFamily then metadataFamily else inferModelFamily (ModelName model)
  | _ => inferModelFamily (ModelName model)
  end.
Definition scoreHealthyModel (model : ProviderModelStatus) (policy : modelSelectionPolicy) : Z :=
  let score := ranked_bonus 1000 25 (models policy) (ModelName model) in
  let score := score + ranked_bonus 700 20 (families policy) (model_family model) in
  let status := ModelStatus model in
  let score := if String.eqb status "ready" then score + 150
    else if String.eqb status "verification_pending" then score + 25
    else if mem_string status ["validation_failed"; "missing"; "disabled"] then score - 500
    else score + 35 in
  let score := if IsDefault model then score + 60 else score in
  if EqualFold (ModelName model) (targetModel policy) then score + 80 else score.

(** ** Selecting a model *)
Record scoredHealthyModel : Type := mkScoredHealthyModel {
  cand_status : ProviderModelStatus;
  cand_score : float;
  cand_components : any }.

(** Higher scores first; models of equal score by name. *)
Definition candidate_less (a b : scoredHealthyModel) : bool :=
  if (cand_score a =? cand_score b)%float
  then String.ltb (ModelName (cand_status a)) (ModelName (cand_status b))
  else (cand_score b <? cand_score a)%float.
Definition candidate_trace (c : scoredHealthyModel) : any :=
  AMap [("provider", AString (ModelProvider (cand_status c)));
        ("model", AString (ModelName (cand_status c))); ("score", AFloat (cand_score c));
        ("status", AString (ModelStatus (cand_status c)));
        ("is_default", ABool (IsDefault (cand_status c))); ("components", cand_components c)].
Definition topCandidateScores (candidates : list scoredHealthyModel) (limit : nat) : any :=
  AList (map candidate_trace (take limit candidates)).

Definition live_model_criteria : list string :=
  ["confirmed models are alive only when Available=true and verification_status=confirmed";
   "verification_pending or retryable_failure models stay in catalog diagnostics but are excluded from healthy routing";
   "validation_failed, missing, disabled, or unavailable inventory entries are treated as dead"].

Definition aiKernelSupportCapabilities (taskType : TaskType) (role : string) : list string :=
  let capabilities := ["docs"; "code"; "fix"; "test"] in
  let capabilities := match taskType with
    | TaskTypePlan | TaskTypeReview => capabilities ++ ["plan"; "review"]
    | TaskTypeResearch => capabilities ++ ["research"; "review"]
    | _ => capabilities
    end in
  dedupeStrings (if String.eqb role "parallel" then capabilities ++ ["analysis"] else capabilities).
Definition aiKernelSupportTaskTypes (taskType : TaskType) : list TaskType :=
  let values := [TaskTypeCode; TaskTypeFix; TaskTypeTest; TaskTypeDocs] in
  dedupeTaskTypes match taskType with
    | TaskTypePlan | TaskTypeReview | TaskTypeResearch => values ++ [taskType]
    | _ => values
    end.
Definition aiKernelSupportReason (role : string) : string :=
  if String.eqb role "fallback"
  then "local ai_kernel fallback is available if the primary cloud route degrades"
  else if String.eqb role "parallel"
  then "local ai_kernel can parallelize repo-local drafting, summarization, and verification subtasks"
  else "local ai_kernel can assist the primary route with repo-local drafting, verification, and synthesis".

Section Selector.
Context (getenv : string -> string) (ParseFloat : string -> option float).
(** The registry, or nil, and its configurations as the map happens to be walked. *)
Context (registry : option ProviderModelRegistry) (order : list (string * OpenAICompatibleConfig)).
(** The route memory's search and the retriever's indicators, or nil; [None] is an error. *)
Context (routeMemory : option (Task -> option (list RouteSearchResult))).
Context (retriever : option (Task -> option RetrievalKPI)).
Context (now : Time).

Definition healthy (provider : string) : list ProviderModelStatus :=
  match registry with Some r => HealthyModels provider now r | None => [] end.

Definition preferredCloudProvider : string :=
  match registry with
  | None => "openai"
  | Some r => PreferredCloudProvider getenv (configs r) order
  end.

Definition order_by_path (path : string) : list string :=
  if String.eqb path "cloud" then
    [preferredCloudProvider; "codexsale"; "openai"; "mistral"; "mimo"; "antigravity"; "ai_kernel"; "local"]
  else if String.eqb path "code" then
    ["ai_kernel"; "local"; "antigravity"; "codexsale"; "openai"; "mistral"; "mimo"]
  else if String.eqb path "analysis" then
    ["mistral"; "codexsale"; "openai"; "mimo"; "antigravity"; "ai_kernel"; "local"]
  else if String.eqb path "docs" then
    ["ai_kernel"; "local"; "mistral"; "mimo"; "antigravity"; "codexsale"; "openai"]
  else if String.eqb path "research" then
    ["mistral"; "mimo"; "codexsale"; "openai"; "antigravity"; "ai_kernel"; "local"]
  else if String.eqb path "default" then
    ["local"; "ai_kernel"; "mistral"; "codexsale"; "openai"; "mimo"; "antigravity"]
  else [].
Definition providerPreference (path : string) : list string :=
  let known := ["ai_kernel"; "local"; "mistral"; "codexsale"; "openai"; "mimo"; "antigravity"] in
  let ordered := order_by_path path in
  let ordered := match registry with
    | None => ordered
    | Some _ => foldl (fun ordered '(provider, _) =>
        if local_provider provider then ordered
        else appendIfMissingPreserveOrder ordered provider) ordered order
    end in
  foldl appendIfMissingPreserveOrder ordered known.

Definition selectionPolicy (task : Task) (complexity : Complexity) (risk : RiskEvaluation)
  : modelSelectionPolicy :=
  if shouldEscalateToCloud task complexity risk then
    mkModelSelectionPolicy preferredCloudProvider modelOpenAIHigh (providerPreference "cloud")
      ["gpt"; "claude"; "gemini"; "deepseek"; "mistral"; "kimi"; "glm"; "qwen"; "llama"]
      ["gpt-5.6-sol"; modelOpenAIHigh; "gpt-5.4"; "gpt-5.4-mini"; "claude-sonnet-4-6"; modelMistral]
      "high_risk_or_high_complexity" true true
  else
    match Type_ task with
    | TaskTypeCode | TaskTypeFix | TaskTypeTest =>
        mkModelSelectionPolicy "ai_kernel" modelQwenCoder (providerPreference "code")
          ["gemma"; "deepseek"; "llama"; "glm"; "gpt"; "claude"; "mistral"; "gemini"]
          [modelQwenCoder; "deepseek-coder"; "claude-sonnet-4-6"; modelOpenAIHigh]
          "code_specialist_path" false (bool_decide (Type_ task = TaskTypeTest))
    | TaskTypePlan | TaskTypeReview =>
        mkModelSelectionPolicy "mistral" modelMistral (providerPreference "analysis")
          ["claude"; "gpt"; "mistral"; "gemini"; "kimi"; "qwen"; "deepseek"; "llama"]
          ["claude-sonnet-4-6"; "gpt-5.6-sol"; modelOpenAIHigh; modelMistral]
          "analysis_review_path" false (bool_decide (Type_ task = TaskTypeReview))
    | TaskTypeDocs =>
        mkModelSelectionPolicy "ai_kernel" modelLocalSmall (providerPreference "docs")
          ["gemma"; "llama"; "mistral"; "gpt"; "claude"; "gemini"]
          [modelLocalSmall; modelQwenCoder; modelMistral] "docs_path" false false
    | TaskTypeResearch =>
        mkModelSelectionPolicy "mistral" modelMistral (providerPreference "research")
          ["claude"; "gpt"; "mistral"; "gemini"; "kimi"; "deepseek"; "gemma"]
          ["claude-sonnet-4-6"; modelOpenAIHigh; modelMistral] "research_path" false false
    | TaskTypeOther _ =>
        mkModelSelectionPolicy "ai_kernel" modelLocalSmall (providerPreference "default")
          ["gemma"; "llama"; "gpt"; "claude"; "mistral"]
          [modelLocalSmall; modelQwenCoder; modelOpenAIHigh] "policy_default" false false
    end.

(** The healthy models of a preferred family are preferred too. *)
Definition family_matches (policy : modelSelectionPolicy) (model : ProviderModelStatus) : bool :=
  match families policy with
  | [] => true
  | preferred => existsb (fun f => EqualFold (model_family model) f) preferred
  end.
Definition provider_order (policy : modelSelectionPolicy) : list string :=
  dedupeStrings (targetProvider policy :: providers policy).
Definition alive (model : ProviderModelStatus) : bool :=
  ModelAvailable model && EqualFold (TrimSpace (VerificationStatus model)) "confirmed".
Definition expandPolicyModels (policy : modelSelectionPolicy) : modelSelectionPolicy :=
  match registry with
  | None => policy <| models ::= dedupeStrings |>
  | Some _ =>
      let extended := foldl (fun ms provider =>
          foldl (fun ms model =>
            if negb (alive model) then ms
            else if negb (family_matches policy model) then ms
            else appendIfMissingPreserveOrder ms (ModelName model)) ms (healthy provider))
        (models policy) (provider_order policy) in
      policy <| models := dedupeStrings extended |>
  end.

Definition hint_map (hints : anymap) (key : string) : option anymap :=
  match aget hints key with Some (AMap m) => Some m | _ => None end.
Definition empty_signals : selectorSignals :=
  mkSelectorSignals "" "" [] 0 [] 0 false false "" 0 0 0 0.
Definition hinted_signals (hints : anymap) : selectorSignals :=
  let signals := empty_signals in
  let signals := match hint_map hints "model_budget" with
    | Some budget => signals <| budgetAction := stringValue (aget_any budget "action") |>
    | None => signals
    end in
  let signals := signals <| tokenPressure := stringValue (aget_any hints "token_pressure") |>
    <| peerFailures := stringSliceValue (aget_any hints "peer_failures") |> in
  let signals := match hint_map hints "validation_context" with
    | Some validation => signals <| validationHasRAG := boolValue (aget_any validation "rag_required") |>
    | None => signals
    end in
  match hint_map hints "memory_context" with
  | None => signals
  | Some memoryContext =>
      let signals := signals
        <| vectorMemoryCount := intValue (aget_any memoryContext "vector_memory_count") |>
        <| trainedMemory :=
             negb (String.eqb (stringValue (aget_any memoryContext "trained_memory_brief")) "") |> in
      match hint_map memoryContext "retrieval_kpi" with
      | None => signals
      | Some kpi =>
          signals <| retrievalTier := stringValue (aget_any kpi "tier") |>
            <| retrievalCoverage := float64Value ParseFloat (aget_any kpi "coverage_ratio") |>
            <| retrievalPacked := intValue (aget_any kpi "packed_count") |>
            <| retrievalTruncated := float64Value ParseFloat (aget_any kpi "truncation_ratio") |>
            <| retrievalBestScore := float64Value ParseFloat (aget_any kpi "best_score") |>
      end
  end.
Definition buildSelectorSignals (task : Task) : selectorSignals :=
  let signals := hinted_signals (RoutingHints task) in
  let signals := match routeMemory with
    | None => signals
    | Some search =>
        match search task with
        | None => signals
        | Some results => signals <| routeResults := results |> <| routeMemoryCount := len results |>
        end
    end in
  match retriever with
  | None => signals
  | Some retrieve =>
      match retrieve task with
      | None => signals
      | Some kpi =>
          signals <| vectorMemoryCount ::= (fun n => maxInt n (PackedCount kpi)) |>
            <| retrievalTier ::= (fun tier => strongerRetrievalTier tier (Tier kpi)) |>
            <| retrievalCoverage ::= (fun x => maxFloat x (CoverageRatio kpi)) |>
            <| retrievalPacked ::= (fun n => maxInt n (PackedCount kpi)) |>
            <| retrievalTruncated ::= (fun x => maxFloat x (TruncationRatio kpi)) |>
            <| retrievalBestScore ::= (fun x => maxFloat x (BestScore kpi)) |>
      end
  end.

(** The candidate of one model; [None] when its base score is not positive. *)
Definition score_candidate (policy : modelSelectionPolicy) (signals : selectorSignals)
  (providerPriority : float) (model : ProviderModelStatus) : option scoredHealthyModel :=
  let base := scoreHealthyModel model policy in
  if base <=? 0 then None
  else
    let history := scoreRouteHistory now model (routeResults signals) in
    let budget := scoreBudgetFit model signals in
    let retrieval := scoreRetrievalFit model policy signals in
    let failurePenalty := scoreFailurePenalty model signals in
    let total := (float_of_int base + providerPriority + HistTotal history + budget + retrieval
                  - failurePenalty)%float in
    Some (mkScoredHealthyModel model total
      (AMap [("base", AInt base); ("provider_priority", AFloat providerPriority);
             ("history", history_any history); ("budget", AFloat budget);
             ("retrieval", AFloat retrieval); ("failure_penalty", AFloat failurePenalty)])).
(** [rest] is the number of providers from this one on. *)
Fixpoint collect_scored (policy : modelSelectionPolicy) (signals : selectorSignals)
  (providers : list string) : list scoredHealthyModel :=
  match providers with
  | [] => []
  | provider :: rest =>
      let providerPriority := (float_of_int (len providers) * 0.35)%float in
      omap (score_candidate policy signals providerPriority) (healthy provider) ++
      collect_scored policy signals rest
  end.

Definition resolveAvailableModel (task : Task) (policy : modelSelectionPolicy) (trace : anymap)
  : string * string * anymap :=
  match registry with
  | None => (targetProvider policy, targetModel policy, trace)
  | Some _ =>
      let signals := buildSelectorSignals task in
      let candidates := sort_slice candidate_less
        (collect_scored policy signals (provider_order policy)) in
      let trace := aset trace "selector_inputs" (signals_trace signals) in
      match candidates with
      | [] => (targetProvider policy, targetModel policy, aset trace "candidate_scores" (AList []))
      | best :: _ =>
          (ModelProvider (cand_status best), ModelName (cand_status best),
           aset trace "candidate_scores" (topCandidateScores candidates 6))
      end
  end.

(** ** Support by the local kernel *)
Definition resolveAIKernelSupportModel (taskType : TaskType) : option string :=
  match registry with
  | None => None
  | Some _ =>
      let preferred := if bool_decide (taskType = TaskTypeDocs)
                       then [modelLocalSmall; modelQwenCoder] else [modelQwenCoder] in
      let ms := healthy "ai_kernel" in
      let named candidate := List.find (fun m => EqualFold (ModelName m) candidate) ms in
      match omap named preferred with
      | m :: _ => Some (ModelName m)
      | [] => ModelName <$> List.find alive ms
      end
  end.
Definition shouldAttachAIKernelSupport (task : Task) (chosenProvider : string)
  (policy : modelSelectionPolicy) : bool :=
  if EqualFold chosenProvider "ai_kernel" || EqualFold (targetProvider policy) "ai_kernel" then false
  else
    match registry with
    | None => false
    | Some _ =>
        if (length (healthy "ai_kernel") =? 0)%nat then false
        else if cloudRequired policy then true
        else match Type_ task with
             | TaskTypePlan | TaskTypeReview | TaskTypeResearch => true
             | _ => false
             end
    end.
Definition supportLanes (task : Task) (chosenProvider : string) (policy : modelSelectionPolicy)
  : list SupportLane :=
  if negb (shouldAttachAIKernelSupport task chosenProvider policy) then []
  else
    match resolveAIKernelSupportModel (Type_ task) with
    | None => []
    | Some modelName =>
        let roles := ["helper"; "fallback"] ++
          match Type_ task with
          | TaskTypePlan | TaskTypeReview | TaskTypeResearch => ["parallel"]
          | _ => []
          end in
        map (fun role => mkSupportLane "ai_kernel" modelName role ComplexityMedium
               (aiKernelSupportCapabilities (Type_ task) role)
               (aiKernelSupportTaskTypes (Type_ task)) (aiKernelSupportReason role)) roles
    end.

Definition initial_trace (task : Task) (risk : RiskEvaluation) : anymap :=
  let count l := AInt (len (compactStrings l)) in
  [("task_type", AString (task_type_string (Type_ task)));
   ("priority", AString (priority_string (Priority_ task)));
   ("required_capability", AString (inferCapability task));
   ("sourcecraft_work", ABool (isSourcecraftWork task)); ("high_risk", ABool (HighRisk risk));
   ("files", count (InputFiles (Input task)));
   ("acceptance_criteria", count (AcceptanceCriteria (Input task)));
   ("constraints", count (Constraints (Input task)));
   ("live_model_criteria", AStrings live_model_criteria)].

Definition Select (task : Task) : ModelSelection :=
  let complexity := Classify task in
  let risk := EvaluateRiskContext (taskText task) in
  let policy := expandPolicyModels (selectionPolicy task complexity risk) in
  let '(provider, model, trace) := resolveAvailableModel task policy (initial_trace task risk) in
  let lanes := supportLanes task provider policy in
  let trace := foldl (fun t '(key, value) => aset t key value) trace
    [("target_provider", AString (targetProvider policy)); ("target_model", AString (targetModel policy));
     ("provider_candidates", AStrings (providers policy));
     ("preferred_families", AStrings (families policy)); ("preferred_models", AStrings (models policy));
     ("cloud_required", ABool (cloudRequired policy)); ("resolved_provider", AString provider);
     ("resolved_model", AString model)] in
  let trace := match lanes with
    | [] => trace
    | _ => aset (aset trace "support_lanes" (AList (map support_lane_any lanes)))
             "ai_kernel_helper_available" (ABool true)
    end in
  mkModelSelection provider model complexity (requiresSecondaryReview policy) (reason policy)
    (RiskDetectedKeywords risk) (RiskMatchedHighRiskRules risk) (RiskMatchedLowRiskExemptions risk)
    lanes trace.
End Selector.

(** The selector as the planner uses it. *)
#[export] Instance model_selector getenv ParseFloat registry order routeMemory retriever now
  : Planner.ModelSelector :=
  Select getenv ParseFloat registry order routeMemory retriever now.
