(* ===== verification/ModelSelectorProps.v ===== *)
(** * Correctness of the model selector

    Which model a selection names, and which support lanes it offers. *)
From S2P Require Import Prelude GoLib GoJSON Domain TaskPolicy RuntimeManager Router ModelInventory ModelRegistry ModelRegistryProps Planner ModelSelector.
From Stdlib Require Import PrimFloat SpecFloat FloatOps.

(** ** The order of the candidates *)
Definition number (x : float) : Prop := (x =? x)%float = true.

Lemma float_order_trans_eq x y z :
  float_order x y = Some Eq -> float_order x z = float_order y z.
Proof.
  unfold float_order. intros H. rewrite (SFcompare_antisym (Prim2SF x) (Prim2SF z)).
  rewrite (SFcompare_antisym (Prim2SF y) (Prim2SF z)).
  by rewrite (SFcompare_eq_r (Prim2SF z) (Prim2SF x) (Prim2SF y)).
Qed.

(** [candidate_less] in terms of the order of the scores. *)
Lemma candidate_less_spec a b c :
  float_order (cand_score b) (cand_score a) = Some c ->
  candidate_less a b = match c with
    | Eq => String.ltb (ModelName (cand_status a)) (ModelName (cand_status b))
    | Lt => true
    | Gt => false
    end.
Proof.
  intros H. unfold candidate_less.
  assert (float_order (cand_score a) (cand_score b) = Some (CompOpp c)) as H'.
  { unfold float_order in *. by rewrite SFcompare_antisym, H. }
  destruct (cand_score a =? cand_score b)%float eqn:He.
  { apply float_eqb_order in He. rewrite H' in He. by destruct c. }
  destruct (cand_score b <? cand_score a)%float eqn:Hl.
  { apply float_ltb_order in Hl. rewrite H in Hl. by destruct c. }
  destruct c; [|apply float_ltb_order in H; congruence|done].
  apply float_eqb_order in H'. congruence.
Qed.

Lemma float_eqb_sym x y : (x =? y)%float = (y =? x)%float.
Proof.
  apply Bool.eq_iff_eq_true. rewrite !float_eqb_order. unfold float_order.
  rewrite (SFcompare_antisym (Prim2SF x)). destruct (SFcompare _ _) as [[]|]; cbn; split; congruence.
Qed.

(** [a] is not below [b]: its score is not smaller, and with an equal score its name is not larger. *)
Definition at_least (a b : scoredHealthyModel) : Prop :=
  (cand_score a <? cand_score b)%float = false /\
  ((cand_score a =? cand_score b)%float = true ->
   String.ltb (ModelName (cand_status b)) (ModelName (cand_status a)) = false).
Lemma not_less_at_least a b : candidate_less b a = false -> at_least a b.
Proof.
  unfold candidate_less, at_least.
  rewrite (float_eqb_sym (cand_score b)).
  case_match eqn:He; [|done]. intros Hn. split; [|done].
  apply float_eqb_order in He. destruct (_ <? _)%float eqn:Hl; [|done].
  apply float_ltb_order in Hl. congruence.
Qed.

Lemma candidate_less_irrefl a : candidate_less a a = false.
Proof.
  unfold candidate_less. case_match; [apply string_ltb_irrefl|apply float_ltb_irrefl].
Qed.

Lemma candidate_less_asym a b : candidate_less a b = true -> candidate_less b a = false.
Proof.
  unfold candidate_less.
  rewrite (float_eqb_sym (cand_score b)).
  case_match; [apply string_ltb_asym|apply float_ltb_asym].
Qed.

Lemma candidate_less_negtrans a b c :
  number (cand_score a) -> number (cand_score b) -> number (cand_score c) ->
  candidate_less a b = false -> candidate_less b c = false -> candidate_less a c = false.
Proof.
  intros Ha Hb Hc.
  destruct (float_order_total _ _ Hb Ha) as [o1 H1], (float_order_total _ _ Hc Hb) as [o2 H2],
    (float_order_total _ _ Hc Ha) as [o3 H3].
  rewrite (candidate_less_spec a b o1), (candidate_less_spec b c o2), (candidate_less_spec a c o3) by done.
  destruct o1, o2; try done.
  - rewrite <- (float_order_trans_eq _ _ (cand_score a) H2) in H1.
    rewrite H1 in H3. injection H3 as <-. apply string_ltb_negtrans.
  - intros _ _. assert (o3 = Gt) as ->; [|done]. unfold float_order in *.
    rewrite (SFcompare_eq_r _ _ _ H1) in H2. congruence.
  - intros _ _. assert (o3 = Gt) as ->; [|done].
    rewrite (float_order_trans_eq _ _ (cand_score a) H2) in H3. congruence.
  - intros _ _. assert (o3 = Gt) as ->; [|done].
    assert ((cand_score a <? cand_score b)%float = true) as L1.
    { apply float_ltb_order. unfold float_order in *. by rewrite SFcompare_antisym, H1. }
    assert ((cand_score b <? cand_score c)%float = true) as L2.
    { apply float_ltb_order. unfold float_order in *. by rewrite SFcompare_antisym, H2. }
    pose proof (float_ltb_trans _ _ _ L1 L2) as L%float_ltb_order.
    unfold float_order in *. rewrite SFcompare_antisym, L in H3. by injection H3 as <-.
Qed.

(** ** Preferred names *)
Definition trimmed (s : string) : Prop := TrimSpace s = s /\ s <> "".
(** One of the first [n] names folds to [name]. *)
Definition early (n : nat) (l : list string) (name : string) : bool :=
  existsb (fun p => EqualFold name p) (take n l).

Lemma EqualFold_spec s t : EqualFold s t = true <-> fold_case s = fold_case t.
Proof. unfold EqualFold. apply String.eqb_eq. Qed.

Lemma early_spec n l name :
  early n l name = true <-> exists i p, (i < n)%nat /\ l !! i = Some p /\ EqualFold name p = true.
Proof.
  unfold early. rewrite existsb_exists. split.
  - intros (p & Hp%list_elem_of_In & He). apply list_elem_of_lookup in Hp as (i & Hi).
    apply lookup_take_Some in Hi as [Hi Hlt]. eauto.
  - intros (i & p & Hlt & Hi & He). exists p. split; [|done]. apply list_elem_of_In, list_elem_of_lookup.
    exists i. by apply lookup_take_Some.
Qed.

(** Dropping a repeated name brings the others forward. *)
Lemma early_dedupe n acc l name :
  Forall trimmed l -> early n (acc ++ l) name = true ->
  early n (foldl appendIfMissingPreserveOrder acc l) name = true.
Proof.
  intros Hl. revert acc. induction Hl as [|x l [Hx Hne] Hl IH]; intros acc He.
  { by rewrite app_nil_r in He. }
  cbn. apply IH. unfold appendIfMissingPreserveOrder. rewrite Hx.
  apply String.eqb_neq in Hne. rewrite Hne.
  destruct (existsb (fun item => EqualFold item x) acc) eqn:Hdup.
  2: { by rewrite <- app_assoc. }
  rewrite early_spec in *. destruct He as (i & p & Hlt & Hi & He).
  apply lookup_app_Some in Hi as [Hi|[Hge Hi]].
  { exists i, p. split; [done|]. split; [by apply lookup_app_l_Some|done]. }
  destruct (i - length acc)%nat as [|k] eqn:Hk; cbn in Hi.
  - injection Hi as ->. apply existsb_exists in Hdup as (y & Hy%list_elem_of_In & Hyp).
    apply list_elem_of_lookup in Hy as (j & Hj). apply lookup_lt_Some in Hj as Hjl.
    exists j, y. split; [lia|]. split; [by apply lookup_app_l_Some|].
    rewrite EqualFold_spec in *. congruence.
  - exists (length acc + k)%nat, p. split; [lia|]. split; [|done].
    rewrite lookup_app_r by lia. by replace (length acc + k - length acc)%nat with k by lia.
Qed.

Lemma ranked_bonus_early b s n l name :
  0 <= s -> early n l name = true -> b - s * (Z.of_nat n - 1) <= ranked_bonus b s l name.
Proof.
  intros Hs. revert b n. induction l as [|p l IH]; intros b n H.
  { unfold early in H. by rewrite take_nil in H. }
  destruct n as [|n]; [done|]. unfold early in H. cbn in H |- *.
  destruct (EqualFold name p); [nia|]. specialize (IH (b - s) n H).
  destruct n as [|n]; [done|]. nia.
Qed.
Lemma ranked_bonus_bound b s l name :
  0 <= s -> s * len l <= b -> 0 <= ranked_bonus b s l name.
Proof.
  intros Hs. revert b. unfold len. induction l as [|p l IH]; intros b Hb; cbn; [lia|].
  cbn [length] in Hb. case_match; [nia|]. apply IH. nia.
Qed.

Lemma append_length acc x :
  (length (appendIfMissingPreserveOrder acc x) <= S (length acc))%nat.
Proof.
  unfold appendIfMissingPreserveOrder. repeat case_match; rewrite ?length_app; cbn; lia.
Qed.
Lemma dedupe_length l : (length (dedupeStrings l) <= length l)%nat.
Proof.
  assert (forall acc, (length (foldl appendIfMissingPreserveOrder acc l) <= length acc + length l)%nat) as H.
  { induction l as [|x l IH]; intros acc; cbn; [lia|].
    pose proof (append_length acc x). pose proof (IH (appendIfMissingPreserveOrder acc x)). lia. }
  apply (H []).
Qed.
Lemma appends_trimmed acc l :
  Forall trimmed acc -> Forall trimmed l -> Forall trimmed (foldl appendIfMissingPreserveOrder acc l).
Proof.
  intros Ha Hl. revert acc Ha. induction Hl as [|x l Hx Hl IH]; intros acc Ha; cbn; [done|]. apply IH.
  unfold appendIfMissingPreserveOrder. rewrite (proj1 Hx). repeat case_match; try done.
  apply Forall_app; split; [done|by apply Forall_singleton].
Qed.

Section Selection.
Context (getenv : string -> string) (ParseFloat : string -> option float).
Context (r : ProviderModelRegistry) (order : list (string * OpenAICompatibleConfig)).
Context (routeMemory : option (Task -> option (list RouteSearchResult))).
Context (retriever : option (Task -> option RetrievalKPI)).
Context (now : Time).

(** The healthy models of the candidate providers, in order. *)
Definition offered_by (ps : list string) : list ProviderModelStatus :=
  concat (map (healthy (Some r) now) ps).
Definition offered (policy : modelSelectionPolicy) : list ProviderModelStatus :=
  offered_by (provider_order policy).

Lemma offered_ready ps m : m ∈ offered_by ps -> providerModelRoutingReady m = true.
Proof.
  unfold offered_by. intros Hm%list_elem_of_In%in_concat. destruct Hm as (l & Hl & Hm).
  apply in_map_iff in Hl as (p & <- & _). unfold healthy, HealthyModels in Hm.
  repeat case_match; try done. by apply filter_In in Hm as [_ Hm].
Qed.

(** ** The expanded policy *)
Definition small_policy (policy : modelSelectionPolicy) : Prop :=
  (length (models policy) <= 6)%nat /\ (length (families policy) <= 9)%nat /\
  Forall trimmed (models policy).

Lemma selectionPolicy_small task complexity risk :
  small_policy (selectionPolicy getenv (Some r) order task complexity risk).
Proof.
  unfold selectionPolicy, small_policy.
  destruct (shouldEscalateToCloud _ _ _); [|destruct (Type_ task)]; cbn [models families length];
    (split; [lia|split; [lia|repeat constructor]]); discriminate.
Qed.

Definition preferred (policy : modelSelectionPolicy) (m : ProviderModelStatus) : bool :=
  alive m && family_matches policy m.
Lemma expand_models policy :
  models (expandPolicyModels (Some r) now policy) =
  dedupeStrings (foldl appendIfMissingPreserveOrder (models policy)
    (map ModelName (List.filter (preferred policy) (offered policy)))).
Proof.
  unfold expandPolicyModels, offered, offered_by. cbn [models]. cbv zeta.
  change (models (policy <| models := ?x |>)) with x. f_equal.
  generalize (models policy). induction (provider_order policy) as [|p ps IH]; intros acc; [done|].
  cbn [foldl map concat]. rewrite IH, List.filter_app, map_app, foldl_app. f_equal.
  clear IH. revert acc. induction (healthy (Some r) now p) as [|m ms IHm]; intros acc; [done|].
  cbn [foldl List.filter]. rewrite IHm. unfold preferred.
  by destruct (alive m), (family_matches policy m).
Qed.

Lemma expand_keeps policy :
  families (expandPolicyModels (Some r) now policy) = families policy /\
  provider_order (expandPolicyModels (Some r) now policy) = provider_order policy /\
  targetProvider (expandPolicyModels (Some r) now policy) = targetProvider policy /\
  targetModel (expandPolicyModels (Some r) now policy) = targetModel policy.
Proof. done. Qed.

(** ** A healthy model is always a candidate *)
Lemma base_positive policy m :
  providerModelRoutingReady m = true -> 0 <= ranked_bonus 1000 25 (models policy) (ModelName m) ->
  (length (families policy) <= 9)%nat -> 0 < scoreHealthyModel m policy.
Proof.
  intros Hready Hb Hf. unfold scoreHealthyModel.
  assert (0 <= ranked_bonus 700 20 (families policy) (model_family m)) as Hfam
    by (apply ranked_bonus_bound; unfold len; lia).
  assert (mem_string (ModelStatus m) ["validation_failed"; "missing"; "disabled"] = false) as ->.
  { destruct (mem_string _ _) eqn:E; [|done]. apply mem_string_spec in E.
    unfold providerModelRoutingReady in Hready. rewrite !andb_true_iff in Hready.
    destruct Hready as [[_ Hst] _].
    rewrite !elem_of_cons, elem_of_nil in E. destruct E as [E|[E|[E|[]]]]; by rewrite E in Hst. }
  repeat case_match; lia.
Qed.

Lemma some_model_positive policy :
  small_policy policy -> (forall m, m ∈ offered policy -> trimmed (ModelName m)) ->
  offered policy <> [] ->
  exists m, m ∈ offered policy /\ 0 < scoreHealthyModel m (expandPolicyModels (Some r) now policy).
Proof.
  intros (Hlen & Hfam & Htr) Hnames Hne.
  destruct (List.filter (preferred policy) (offered policy)) as [|m rest] eqn:Hp.
  - destruct (offered policy) as [|m ms] eqn:Ho; [done|]. exists m. split; [by left|].
    apply base_positive; [by apply (offered_ready (provider_order policy)); unfold offered in Ho;
      rewrite Ho; left| |done].
    rewrite expand_models, Ho, Hp. cbn [map foldl]. apply ranked_bonus_bound; [done|].
    unfold len. pose proof (dedupe_length (models policy)). lia.
  - assert (In m (List.filter (preferred policy) (offered policy))) as Hin by (rewrite Hp; by left).
    apply filter_In in Hin as [Hin _]. apply list_elem_of_In in Hin as Hm.
    exists m. split; [done|]. apply base_positive; [by eapply offered_ready| |done].
    rewrite expand_models, Hp.
    assert (Forall trimmed (map ModelName (m :: rest))) as Htr2.
    { apply Forall_map, Forall_forall. intros x Hx. apply Hnames.
      rewrite <- Hp in Hx. apply list_elem_of_In, filter_In in Hx as [Hx _]. by apply list_elem_of_In. }
    assert (early 7 (dedupeStrings (foldl appendIfMissingPreserveOrder (models policy)
      (map ModelName (m :: rest)))) (ModelName m) = true) as He.
    { apply (early_dedupe 7 []); [by apply appends_trimmed|]. cbn [app].
      apply early_dedupe; [done|]. apply early_spec. exists (length (models policy)), (ModelName m).
      split; [lia|]. split; [by rewrite lookup_app_r, Nat.sub_diag by lia|by apply EqualFold_spec]. }
    apply (ranked_bonus_early 1000 25) in He; [lia|done].
Qed.

(** ** The candidates *)
Lemma collect_sound policy signals ps c :
  c ∈ collect_scored (Some r) now policy signals ps -> cand_status c ∈ offered_by ps.
Proof.
  induction ps as [|p ps IH]; cbn; [by intros ?%not_elem_of_nil|].
  rewrite elem_of_app. change (offered_by (p :: ps)) with (healthy (Some r) now p ++ offered_by ps).
  rewrite elem_of_app. intros [Hc|Hc]; [|by auto]. left.
  apply list_elem_of_omap in Hc as (m & Hm & Hc). unfold score_candidate in Hc.
  case_match; [done|]. by injection Hc as <-.
Qed.
Lemma collect_complete policy signals ps m :
  m ∈ offered_by ps -> 0 < scoreHealthyModel m policy ->
  exists c, c ∈ collect_scored (Some r) now policy signals ps /\ cand_status c = m.
Proof.
  intros Hm Hbase. induction ps as [|p ps IH]; [by apply not_elem_of_nil in Hm|].
  change (offered_by (p :: ps)) with (healthy (Some r) now p ++ offered_by ps) in Hm.
  cbn [collect_scored]. apply elem_of_app in Hm as [Hm|Hm].
  - set (priority := (float_of_int (len (p :: ps)) * 0.35)%float).
    destruct (score_candidate now policy signals priority m) as [c|] eqn:Hc.
    + exists c. split; [|unfold score_candidate in Hc; case_match; [done|by injection Hc as <-]].
      apply elem_of_app; left. apply list_elem_of_omap. by exists m.
    + unfold score_candidate in Hc. case_match eqn:E; [lia|done].
  - destruct (IH Hm) as (c & Hc & <-). exists c. split; [|done]. apply elem_of_app. by right.
Qed.

(** ** What a selection does *)
Definition task_policy (task : Task) : modelSelectionPolicy :=
  expandPolicyModels (Some r) now
    (selectionPolicy getenv (Some r) order task (Classify task) (EvaluateRiskContext (taskText task))).
Definition task_candidates (task : Task) : list scoredHealthyModel :=
  collect_scored (Some r) now (task_policy task)
    (buildSelectorSignals ParseFloat routeMemory retriever task) (provider_order (task_policy task)).
Definition task_selection (task : Task) : ModelSelection :=
  Select getenv ParseFloat (Some r) order routeMemory retriever now task.

Lemma Select_model task :
  (SelProvider (task_selection task), SelModelName (task_selection task)) =
  match sort_slice candidate_less (task_candidates task) with
  | [] => (targetProvider (task_policy task), targetModel (task_policy task))
  | best :: _ => (ModelProvider (cand_status best), ModelName (cand_status best))
  end.
Proof.
  unfold task_selection, Select, resolveAvailableModel. fold (task_policy task). cbv zeta.
  fold (task_candidates task). by destruct (sort_slice _ _).
Qed.
Lemma Select_lanes task :
  SupportLanes (task_selection task) =
  supportLanes (Some r) now task (SelProvider (task_selection task)) (task_policy task).
Proof.
  unfold task_selection, Select. fold (task_policy task). cbv zeta.
  by destruct (resolveAvailableModel _ _ _ _ _ _ _ _) as [[provider model] trace].
Qed.

Lemma task_candidates_none task :
  (forall m, m ∈ offered (task_policy task) -> trimmed (ModelName m)) ->
  task_candidates task = [] <-> offered (task_policy task) = [].
Proof.
  intros Hnames. split; intros H.
  - set (p := selectionPolicy getenv (Some r) order task (Classify task)
      (EvaluateRiskContext (taskText task))) in *.
    assert (offered (task_policy task) = offered p) as Ho by done. rewrite Ho in *.
    destruct (offered p) as [|m0 ms] eqn:Hp; [done|]. exfalso.
    destruct (some_model_positive p) as (m & Hm & Hbase);
      [apply selectionPolicy_small|by rewrite Hp|by rewrite Hp|].
    destruct (collect_complete (task_policy task)
      (buildSelectorSignals ParseFloat routeMemory retriever task)
      (provider_order (task_policy task)) m Hm Hbase) as (c & Hc & _).
    unfold task_candidates in H. rewrite H in Hc. by apply not_elem_of_nil in Hc.
  - destruct (task_candidates task) as [|c cs] eqn:Hc; [done|]. exfalso.
    assert (c ∈ task_candidates task) as Hin by (rewrite Hc; by left).
    apply collect_sound in Hin. unfold offered in H. rewrite H in Hin. by apply not_elem_of_nil in Hin.
Qed.

(** C11: A selection names a model that is healthy now and, of all the scored candidates, one that no
    other outranks (higher score, then smaller name); it falls back to the policy's own target exactly
    when no provider of the policy offers a healthy model, so a healthy model is never passed over for
    an unavailable target. *)
Theorem select_best_healthy task :
  (forall m, m ∈ offered (task_policy task) -> trimmed (ModelName m)) ->
  Forall (number ∘ cand_score) (task_candidates task) ->
  let choice := (SelProvider (task_selection task), SelModelName (task_selection task)) in
  (offered (task_policy task) = [] /\
   choice = (targetProvider (task_policy task), targetModel (task_policy task))) \/
  exists best, best ∈ task_candidates task /\
    choice = (ModelProvider (cand_status best), ModelName (cand_status best)) /\
    cand_status best ∈ offered (task_policy task) /\
    providerModelRoutingReady (cand_status best) = true /\
    (forall c, c ∈ task_candidates task -> at_least best c) /\
    (forall m, m ∈ offered (task_policy task) -> 0 < scoreHealthyModel m (task_policy task) ->
       exists c, c ∈ task_candidates task /\ cand_status c = m).
Proof.
  intros Hnames Hnum choice. subst choice. rewrite Select_model.
  destruct (sort_slice candidate_less (task_candidates task)) as [|best rest] eqn:Hs.
  { left. apply sort_slice_nil in Hs. by rewrite task_candidates_none in Hs. }
  right. exists best.
  assert (best ∈ task_candidates task) as Hbest
    by (rewrite <- (sort_slice_elem candidate_less), Hs; by left).
  pose proof (collect_sound _ _ _ _ Hbest) as Hoff.
  assert (forall c, c ∈ task_candidates task -> at_least best c) as Hmax.
  { intros c Hc. apply not_less_at_least. revert c Hc.
    apply (sort_slice_head candidate_less (number ∘ cand_score) best rest); try done.
    - apply candidate_less_asym.
    - intros a b c. apply candidate_less_negtrans.
    - apply candidate_less_irrefl. }
  do 2 (split; [done|]). split; [done|]. split; [by eapply offered_ready|]. split; [done|].
  intros m Hm Hbase. by apply collect_complete.
Qed.

(** ** Support by the local kernel *)
Definition reasoning_type (t : TaskType) : bool :=
  match t with TaskTypePlan | TaskTypeReview | TaskTypeResearch => true | _ => false end.

Lemma ready_alive m : providerModelRoutingReady m = true -> alive m = true.
Proof. unfold providerModelRoutingReady, alive. rewrite !andb_true_iff. tauto. Qed.
Lemma healthy_alive p m : m ∈ healthy (Some r) now p -> alive m = true.
Proof.
  intros Hm. apply ready_alive, (offered_ready [p]). unfold offered_by. cbn. by rewrite app_nil_r.
Qed.
Lemma support_model t :
  match resolveAIKernelSupportModel (Some r) now t with
  | Some name => exists m, m ∈ healthy (Some r) now "ai_kernel" /\ ModelName m = name
  | None => healthy (Some r) now "ai_kernel" = []
  end.
Proof.
  unfold resolveAIKernelSupportModel. cbv zeta.
  destruct (omap _ _) as [|m ms] eqn:Ho.
  - destruct (healthy (Some r) now "ai_kernel") as [|m ms] eqn:Hh; [done|]. cbn.
    rewrite (healthy_alive "ai_kernel" m) by (rewrite Hh; by left). cbn. exists m. split; [by left|done].
  - assert (m ∈ m :: ms) as Hm by by left. rewrite <- Ho in Hm.
    apply list_elem_of_omap in Hm as (name & _ & Hf). apply find_some in Hf as [Hf _].
    exists m. split; [by apply list_elem_of_In|done].
Qed.

(** A selection offers support lanes on the local kernel exactly when neither the chosen nor the
    target provider is that kernel, it has a healthy model, and the cloud is required or the task is
    planning, review or research; every lane names a healthy model of the kernel. *)
Theorem support_lanes_exact task :
  let choice := task_selection task in
  (SupportLanes choice <> [] <->
   EqualFold (SelProvider choice) "ai_kernel" = false /\
   EqualFold (targetProvider (task_policy task)) "ai_kernel" = false /\
   healthy (Some r) now "ai_kernel" <> [] /\
   (cloudRequired (task_policy task) = true \/ reasoning_type (Type_ task) = true)) /\
  Forall (fun lane => LaneProvider lane = "ai_kernel" /\
            exists m, m ∈ healthy (Some r) now "ai_kernel" /\ ModelName m = LaneModelName lane)
    (SupportLanes choice).
Proof.
  intros choice. subst choice. rewrite Select_lanes.
  generalize (SelProvider (task_selection task)) (task_policy task). intros provider policy.
  unfold supportLanes, shouldAttachAIKernelSupport. pose proof (support_model (Type_ task)) as Hmodel.
  destruct (EqualFold provider _), (EqualFold (targetProvider policy) _);
    try by (split; [split; [done|intros (? & ? & _); done]|constructor]).
  destruct (healthy (Some r) now "ai_kernel") as [|m ms] eqn:Hh; cbn [orb length Nat.eqb].
  { split; [split; [done|tauto]|constructor]. }
  destruct (resolveAIKernelSupportModel _ _ _) as [name|]; [|done].
  set (attached := cloudRequired policy || reasoning_type (Type_ task)).
  assert ((if cloudRequired policy then true else match Type_ task with
           | TaskTypePlan | TaskTypeReview | TaskTypeResearch => true | _ => false end) = attached) as ->
    by (subst attached; by destruct (cloudRequired policy), (Type_ task)).
  rewrite <- orb_true_iff. fold attached. destruct attached; cbn [negb].
  - split; [|apply Forall_map, Forall_forall; by intros role _].
    split; [by repeat split|]. intros _. cbn [app map]. discriminate.
  - split; [|constructor]. split; [done|]. by intros (_ & _ & _ & ?).
Qed.
End Selection.

(** ** An example: two healthy models of one provider *)
Section Example.
Definition demo_task : Task := zero_task <| Type_ := TaskTypeReview |>.
Definition demo_order : list (string * OpenAICompatibleConfig) := [("openai", demo_cfg)].
Definition demo_offered : list ProviderModelStatus :=
  offered (demo_refreshed demo_post) (1000 * second)
    (task_policy demo_env (demo_refreshed demo_post) demo_order (1000 * second) demo_task).
Definition demo_candidates : list scoredHealthyModel :=
  task_candidates demo_env (fun _ => None) (demo_refreshed demo_post) demo_order None None
    (1000 * second) demo_task.
Lemma demo_offered_names : map ModelName demo_offered = ["alpha"; "beta"].
Proof. vm_compute. reflexivity. Qed.
Lemma numbers_spec l :
  forallb (fun c => cand_score c =? cand_score c)%float l = true -> Forall (number ∘ cand_score) l.
Proof.
  rewrite forallb_forall, Forall_forall. intros H c Hc%list_elem_of_In. exact (H c Hc).
Qed.
Lemma demo_numbers : Forall (number ∘ cand_score) demo_candidates.
Proof. apply numbers_spec. vm_compute. reflexivity. Qed.
Lemma select_best_healthy_witness :
  exists best, best ∈ demo_candidates /\
    SelModelName (task_selection demo_env (fun _ => None) (demo_refreshed demo_post) demo_order None None
      (1000 * second) demo_task) = ModelName (cand_status best).
Proof.
  destruct (select_best_healthy demo_env (fun _ => None) (demo_refreshed demo_post) demo_order None None
    (1000 * second) demo_task) as [[Hno _]|(best & Hbest & Hchoice & _)].
  - intros m Hm. apply (list_elem_of_fmap_2 ModelName) in Hm.
    change (ModelName m ∈ map ModelName demo_offered) in Hm.
    rewrite demo_offered_names, !elem_of_cons, elem_of_nil in Hm. destruct Hm as [->|[->|[]]]; by split.
  - exact demo_numbers.
  - exfalso. pose proof demo_offered_names as Hn. unfold demo_offered in Hn. rewrite Hno in Hn.
    discriminate Hn.
  - exists best. split; [exact Hbest|]. exact (f_equal snd Hchoice).
Defined.
(** Place 80 in a list of preferred models costs more than the preference gives: with 80 preferred
    models before it, a ready model of the most preferred family is no candidate at all, while a ready
    model of no preferred family is. *)
Definition demo_ready (name : string) : ProviderModelStatus :=
  default_row "openai" demo_cfg 0 0 "ready" "" "" "" "confirmed" [] <| ModelName := name |>
    <| ModelMetadata := [] |> <| ModelAvailable := true |> <| IsDefault := false |>.
Definition crowded_policy : modelSelectionPolicy :=
  mkModelSelectionPolicy "openai" "" ["openai"] ["gpt"]
    (map (fun n => String.app "gpt-" (pretty n)) (seq 0 80) ++ ["gpt-late"]) "" false false.
Example late_preferred_dropped :
  (scoreHealthyModel (demo_ready "gpt-late") crowded_policy,
   scoreHealthyModel (demo_ready "other") crowded_policy) = (-150, 150).
Proof. vm_compute. reflexivity. Qed.
Example demo_selects :
  let choice := task_selection demo_env (fun _ => None) (demo_refreshed demo_post) demo_order None None
    (1000 * second) demo_task in
  (SelProvider choice, SelModelName choice) = ("openai", "alpha").
Proof. vm_compute. reflexivity. Qed.
End Example.
