(* ===== verification/PlanScheduling.v ===== *)
(** * Scheduling the tasks of a plan (kernel/advanced_planner.go)

    A plan's steps become task artifacts with costs, weights and conflict keys; the executor
    asks which pending artifacts are ready and which of them may run next to each other without
    sharing a conflict key.  Conflict sets are [gset string] for Go's [map[string]struct{}]. *)
From S2P Require Import Prelude GoLib GoJSON Domain TaskPolicy Config Planner.
From Stdlib Require Import PrimFloat.

(** ** From steps to artifacts *)
Definition shouldUseDynamicStepRouting (step : PlanStep) : bool :=
  if mem_string (ToLower (TrimSpace (StepCapability step))) ["plan"; "analysis"] then true
  else (length (StepDependencies step) =? 0)%nat.

Definition stepAssignment (task : Task) (plan : ExecutionPlan) (step : PlanStep) : string * string :=
  if shouldUseDynamicStepRouting step then ("", "")
  else (firstNonEmptyString [AssignedProvider task; SelProvider (Selection plan)],
        firstNonEmptyString [AssignedModel task; SelModelName (Selection plan)]).

Definition draftLayer (step : PlanStep) : string :=
  if (length (StepDependencies step) =? 0)%nat then "analysis"
  else if mem_string (StepCapability step) ["review"; "docs"] then "review"
  else if Contains (StepID step) "test" then "verification"
  else if Contains (StepID step) "branch-" then "parallel"
  else "execution".

(** Each product is rounded before it is added, as on amd64 (no fused multiply-add). *)
Definition estimatePlanStepCost (task : Task) (plan : ExecutionPlan) (step : PlanStep) : float :=
  (let base := match PlanComplexity plan with
               | ComplexityMedium => 1.5 | ComplexityHigh => 2.5 | ComplexityCritical => 4
               | _ => 1.0 end in
   let base := base + float_of_int (len (StepFiles step)) * 0.35 in
   let base := base + float_of_int (len (StepDependencies step)) * 0.25 in
   let base := base + float_of_int (len (AcceptanceCriteria (Input task))) * 0.15 in
   if mem_string (StepCapability step) ["review"; "test"] then base + 0.5 else base)%float.

Definition estimatePlanStepWeight (task : Task) (plan : ExecutionPlan) (step : PlanStep) : float :=
  (let weight := estimatePlanStepCost task plan step in
   let weight := weight + float_of_int (len (StepFiles step)) * 0.4 in
   let weight := weight + float_of_int (len (StepDependencies step)) * 0.2 in
   let weight := if mem_string (StepCapability step) ["review"; "test"] then weight + 0.35 else weight in
   if bool_decide (PlanComplexity plan = ComplexityCritical) then weight + 0.75 else weight)%float.

(** Steps with one and the same single dependency can run in parallel. *)
Definition group_step (groups : gmap string (list string)) (step : PlanStep)
  : gmap string (list string) :=
  match StepDependencies step with
  | [key] => <[key := default [] (groups !! key) ++ [StepID step]]> groups
  | _ => groups
  end.
Definition parallelGroups (steps : list PlanStep) : list (list string) :=
  let groups := foldl group_step ∅ steps in
  let keys := sort_slice String.ltb
    (map fst (filter (fun kv => (1 < length kv.2)%nat) (map_to_list groups))) in
  map (fun key => sort_slice String.ltb (default [] (groups !! key))) keys.

Definition artifact_of_step (task : Task) (plan : ExecutionPlan) (step : PlanStep) : PlanTaskArtifact :=
  let '(stepProvider, stepModel) := stepAssignment task plan step in
  let workerClass := firstNonEmptyString
    [StepWorkerClass step; workerClassForCapability (StepCapability step)] in
  let clusterID := firstNonEmptyString [StepClusterID step; StepID step] in
  let contextBudget := if StepContextBudget step <=? 0
                       then stepContextBudget (StepCapability step) (StepFiles step)
                       else StepContextBudget step in
  let conflictKeys := if (length (StepConflictKeys step) =? 0)%nat then StepFiles step
                      else StepConflictKeys step in
  mkPlanTaskArtifact (StepID step) (StepTitle step) (StepCapability step) workerClass clusterID
    contextBudget conflictKeys stepProvider stepModel (StepFiles step) (StepDependencies step)
    clusterID (draftLayer step) (estimatePlanStepCost task plan step)
    (estimatePlanStepWeight task plan step)
    [("root_task_id", AString (ID task));
     ("session_id", AString (SessionID task));
     ("step_id", AString (StepID step));
     ("required_capability", AString (StepCapability step));
     ("worker_class", AString workerClass);
     ("cluster_id", AString clusterID);
     ("context_budget", AInt contextBudget);
     ("conflict_keys", AStrings conflictKeys);
     ("selected_provider", AString stepProvider);
     ("selected_model", AString stepModel);
     ("review_depth", AInt (ReviewDepth task));
     ("checkpoint_policy", AString (firstNonEmptyString [CheckpointPolicy task; "on_plan_preview"]));
     ("resume_token", AString (firstNonEmptyString [ResumeToken task; StepID step]));
     ("repo_fingerprint", AString (RepoFingerprint task));
     ("acceptance_criteria", AStrings (AcceptanceCriteria (Input task)))].

Definition step_handoffs (step : PlanStep) : list anymap :=
  map (fun dependency => [("from", AString dependency); ("to", AString (StepID step));
                          ("kind", AString "dependency")]) (StepDependencies step).

Definition buildPlanArtifact (now : Time) (task : Task) (plan : ExecutionPlan) : PlanArtifact :=
  let tasks := map (artifact_of_step task plan) (Steps plan) in
  mkPlanArtifact (ID task) (PrimaryCapability plan) (len tasks) tasks (parallelGroups (Steps plan))
    (concat (map step_handoffs (Steps plan))) now.

(** ** Ready artifacts *)
Definition add_trimmed (ids : gset string) (id : string) : gset string :=
  let trimmed := TrimSpace id in
  if String.eqb trimmed "" then ids else {[trimmed]} ∪ ids.
Definition completedSet (ids : list string) : gset string := foldl add_trimmed ∅ ids.

Definition is_ready (pendingSet completed : gset string) (task : PlanTaskArtifact) : bool :=
  bool_decide (ArtTaskID task ∈ pendingSet) &&
  forallb (fun dependency => bool_decide (dependency ∈ completed)) (ArtDependencies task).
Definition id_less (a b : PlanTaskArtifact) : bool := String.ltb (ArtTaskID a) (ArtTaskID b).
Definition readyPlanArtifacts (tasks : list PlanTaskArtifact) (pending completed : list string)
  : list PlanTaskArtifact :=
  sort_slice id_less (filter (fun t => is_ready (completedSet pending) (completedSet completed) t) tasks).

(** ** Conflicts *)
Definition registerConflictKeys (task : PlanTaskArtifact) (used : gset string) : gset string :=
  foldl add_trimmed used (ArtConflictKeys task).
Definition hasConflictKeys (task : PlanTaskArtifact) (used : gset string) : bool :=
  existsb (fun key => let trimmed := TrimSpace key in
             negb (String.eqb trimmed "") && bool_decide (trimmed ∈ used)) (ArtConflictKeys task).
Definition collectArtifactConflictKeys (running : gmap string PlanTaskArtifact) : gset string :=
  foldr registerConflictKeys ∅ (map snd (map_to_list running)).

(** ** The schedule: light artifacts first, no shared conflict key *)
Definition lighter (a b : PlanTaskArtifact) : bool :=
  if (Weight a =? Weight b)%float then
    if len (ArtFiles a) =? len (ArtFiles b) then String.ltb (ArtTaskID a) (ArtTaskID b)
    else len (ArtFiles a) <? len (ArtFiles b)
  else (Weight a <? Weight b)%float.

Fixpoint pick_free (sorted : list PlanTaskArtifact) (used : gset string) : list PlanTaskArtifact :=
  match sorted with
  | [] => []
  | task :: sorted =>
      if hasConflictKeys task used then pick_free sorted used
      else task :: pick_free sorted (registerConflictKeys task used)
  end.

Definition scheduleReadyArtifactsWithConflicts (ready : list PlanTaskArtifact)
  (activeConflicts : gset string) : list PlanTaskArtifact :=
  match ready with
  | [] => ready
  | [task] => if hasConflictKeys task activeConflicts then [] else ready
  | _ => pick_free (sort_slice lighter ready) activeConflicts
  end.
Definition scheduleReadyArtifacts (ready : list PlanTaskArtifact) : list PlanTaskArtifact :=
  scheduleReadyArtifactsWithConflicts ready ∅.

Definition removePending (pending : list string) (taskID : string) : list string :=
  filter (fun candidate => negb (String.eqb candidate taskID)) pending.

(** ** Tasks and results of a plan *)
Definition taskTypeForCapability (rootType : TaskType) (capability : string) : TaskType :=
  let c := ToLower (TrimSpace capability) in
  if mem_string c ["plan"; "analysis"] then TaskTypePlan
  else if mem_string c ["code"; "sourcecraft"] then TaskTypeCode
  else if mem_string c ["review"; "security"] then TaskTypeReview
  else if mem_string c ["test"] then TaskTypeTest
  else if mem_string c ["docs"] then TaskTypeDocs
  else if mem_string c ["fix"] then TaskTypeFix
  else if mem_string c ["research"] then TaskTypeResearch
  else if bool_decide (rootType = TaskTypeOther "") then TaskTypePlan else rootType.

Definition cloneMap (input : anymap) : anymap := input.
Definition aset_all (m : anymap) (kvs : anymap) : anymap :=
  foldl (fun m kv => aset m kv.1 kv.2) m kvs.

Definition buildPlanTask (root : Task) (artifact : PlanTaskArtifact) (batchNo : Z) : Task :=
  let session := firstNonEmptyString [SessionID root; ID root] in
  root <| ID := ArtTaskID artifact |>
       <| SessionID := session |>
       <| ParentTaskID := ID root |>
       <| Type_ := taskTypeForCapability (Type_ root) (ArtCapability artifact) |>
       <| RequiredCapability := ArtCapability artifact |>
       <| AssignedProvider := ArtProvider artifact |>
       <| AssignedModel := ArtModelName artifact |>
       <| Input ::= (fun i => i <| Description := ArtTitle artifact |>
                                <| InputFiles := ArtFiles artifact |>) |>
       <| Dependencies := ArtDependencies artifact |>
       <| BranchID := firstNonEmptyString [ArtBranchID artifact; ArtTaskID artifact] |>
       <| DraftLayer := ArtDraftLayer artifact |>
       <| EstimatedCost := ArtEstimatedCost artifact |>
       <| ExecutionContract := aset_all (cloneMap (ArtExecutionContract artifact))
            [("worker_class", AString (ArtWorkerClass artifact));
             ("cluster_id", AString (ArtClusterID artifact));
             ("context_budget", AInt (ArtContextBudget artifact));
             ("conflict_keys", AStrings (ArtConflictKeys artifact));
             ("task_weight", AFloat (Weight artifact));
             ("root_task_id", AString (ID root));
             ("session_id", AString session);
             ("step_id", AString (ArtTaskID artifact));
             ("plan_batch_no", AInt batchNo);
             ("parallel_plan", ABool true)] |>
       <| ResumeToken := firstNonEmptyString [ResumeToken root; ArtTaskID artifact] |>
       <| RoutingHints := aset_all (cloneMap (RoutingHints root))
            [("root_task_id", AString (ID root));
             ("plan_step_id", AString (ArtTaskID artifact));
             ("plan_batch_no", AInt batchNo);
             ("parallel_plan", ABool true);
             ("worker_class", AString (ArtWorkerClass artifact));
             ("cluster_id", AString (ArtClusterID artifact));
             ("context_budget", AInt (ArtContextBudget artifact));
             ("conflict_keys", AStrings (ArtConflictKeys artifact));
             ("task_weight", AFloat (Weight artifact))] |>.

(** [normalizeTaskStatus] and [isTerminalTaskStatus] of kernel/orchestrator.go. *)
Definition normalizeTaskStatus (status : TaskStatus) : TaskStatus :=
  match status with
  | TaskStatusOther "" | TaskStatusDone => TaskStatusCompleted
  | status => status
  end.
Definition isTerminalTaskStatus (status : TaskStatus) : bool :=
  match normalizeTaskStatus status with
  | TaskStatusCompleted | TaskStatusFailed | TaskStatusRejected | TaskStatusDeadLettered => true
  | _ => false
  end.

Definition isSuccessfulPlanStatus (status : TaskStatus) : bool :=
  bool_decide (status = TaskStatusCompleted) || bool_decide (status = TaskStatusDone).

(** [None] is success, [Some message] the error. *)
Definition validatePlanWorkflow (record : WorkflowRecord) : option string :=
  let status := AccStatus (Acceptance record) in
  if negb (isSuccessfulPlanStatus status) then
    let reason := TrimSpace (AccReason (Acceptance record)) in
    let reason := if String.eqb reason "" then
                    match Result record with
                    | Some r => TrimSpace (Summary (Output r))
                    | None => reason
                    end else reason in
    let reason := firstNonEmptyString
                    [reason; "workflow did not reach a successful terminal status"] in
    Some ("plan task " +:+ ID (WfTask record) +:+ " finished with status " +:+
          task_status_string status +:+ ": " +:+ reason)
  else match Result record with
       | Some r =>
           if negb (isSuccessfulPlanStatus (ResStatus r)) then
             let reason := firstNonEmptyString
               [TrimSpace (Summary (Output r)); "agent result did not reach a successful terminal status"] in
             Some ("plan task " +:+ ID (WfTask record) +:+ " produced result status " +:+
                   task_status_string (ResStatus r) +:+ ": " +:+ reason)
           else None
       | None => None
       end.

Definition workflowSummary (record : WorkflowRecord) : anymap :=
  let acc := Acceptance record in
  [("task_id", AString (ID (WfTask record)));
   ("status", AString (task_status_string (AccStatus acc)));
   ("agent_id", AString (AccAgentID acc));
   ("provider", AString (AccProvider acc));
   ("model_name", AString (AccModelName acc));
   ("capability", AString (AccCapability acc));
   ("reason", AString (AccReason acc));
   ("updated_at", time_any (WfUpdatedAt record));
   ("dependencies", AStrings (Dependencies (WfTask record)))] ++
  match Result record with
  | Some r =>
      [("result_status", AString (task_status_string (ResStatus r)));
       ("confidence", AFloat (Confidence r));
       ("files_changed", AStrings (FilesChanged (Output r)));
       ("commands_run", AStrings (CommandsRun (Output r)));
       ("summary", AString (Summary (Output r)))] ++
      (if (length (Errors r) =? 0)%nat then [] else [("errors", AStrings (Errors r))])
  | None => []
  end.
