(* ===== verification/PlanSchedulingProps.v ===== *)
(** * Properties of plan scheduling

    Readiness is exactly "pending and every dependency completed"; a schedule is a maximal set
    of ready tasks without a shared conflict key; artifacts keep the shape of the plan. *)
From S2P Require Import Prelude GoLib GoJSON Domain TaskPolicy Config Planner PlannerProps PlanScheduling.
From Stdlib Require Import PrimFloat.

(** ** Conflict keys as sets *)
Definition conflict_keys (t : PlanTaskArtifact) : gset string := registerConflictKeys t ∅.

Lemma foldl_add_trimmed ids s k :
  k ∈ foldl add_trimmed s ids <-> k ∈ s \/ (k <> "" /\ exists i, i ∈ ids /\ TrimSpace i = k).
Proof.
  revert s. induction ids as [|i ids IH]; intros s; cbn.
  - split; [auto|intros [?|(_ & i & Hi & _)]; [done|by apply not_elem_of_nil in Hi]].
  - rewrite IH. unfold add_trimmed. cbn zeta.
    setoid_rewrite elem_of_cons. destruct (String.eqb_spec (TrimSpace i) ""); set_solver.
Qed.

Lemma elem_of_completedSet ids k :
  k ∈ completedSet ids <-> k <> "" /\ exists i, i ∈ ids /\ TrimSpace i = k.
Proof. unfold completedSet. rewrite foldl_add_trimmed. set_solver. Qed.

Lemma registerConflictKeys_union t used : registerConflictKeys t used = conflict_keys t ∪ used.
Proof.
  apply leibniz_equiv. intros k. unfold conflict_keys, registerConflictKeys.
  rewrite elem_of_union, !foldl_add_trimmed. set_solver.
Qed.

Lemma elem_of_conflict_keys t k :
  k ∈ conflict_keys t <-> k <> "" /\ exists i, i ∈ ArtConflictKeys t /\ TrimSpace i = k.
Proof. apply elem_of_completedSet. Qed.

Lemma hasConflictKeys_false t used : hasConflictKeys t used = false <-> conflict_keys t ## used.
Proof.
  unfold hasConflictKeys. rewrite <- not_true_iff_false, existsb_exists. split.
  - intros H k Hk Hu. apply H. apply elem_of_conflict_keys in Hk as (Hne & i & Hi & <-).
    exists i. split; [by apply list_elem_of_In|].
    rewrite bool_decide_eq_true_2 by done. by destruct (String.eqb_spec (TrimSpace i) "").
  - intros Hd (i & Hi & Hb). apply andb_true_iff in Hb as [Hne Hu].
    apply bool_decide_eq_true in Hu. apply (Hd (TrimSpace i)); [|done].
    apply elem_of_conflict_keys. split; [by destruct (String.eqb_spec (TrimSpace i) "")|].
    exists i. split; [by apply list_elem_of_In|done].
Qed.

Lemma elem_of_collect running k :
  k ∈ collectArtifactConflictKeys running <->
  exists id t, running !! id = Some t /\ k ∈ conflict_keys t.
Proof.
  unfold collectArtifactConflictKeys.
  assert (forall l, k ∈ foldr registerConflictKeys ∅ l <-> exists t, t ∈ l /\ k ∈ conflict_keys t) as Hf.
  { induction l as [|t l IH]; cbn; [set_solver|].
    rewrite registerConflictKeys_union, elem_of_union, IH. set_solver. }
  rewrite Hf. setoid_rewrite list_elem_of_fmap. split.
  - intros (t & (kv & -> & Hkv) & Hk). destruct kv as [id t]. apply elem_of_map_to_list in Hkv. eauto.
  - intros (id & t & Hl & Hk). exists t. split; [|done]. exists (id, t). split; [done|].
    by apply elem_of_map_to_list.
Qed.

(** ** Ready tasks *)
Lemma sublist_map {A B} (f : A -> B) l1 l2 : l1 `sublist_of` l2 -> map f l1 `sublist_of` map f l2.
Proof. induction 1; cbn; [constructor|by apply sublist_skip|by apply sublist_cons]. Qed.

Lemma elem_of_ready tasks pending completed t :
  t ∈ readyPlanArtifacts tasks pending completed <->
  t ∈ tasks /\ ArtTaskID t ∈ completedSet pending /\
  (forall d, d ∈ ArtDependencies t -> d ∈ completedSet completed).
Proof.
  unfold readyPlanArtifacts. rewrite sort_slice_elem, list_elem_of_filter. unfold is_ready.
  rewrite Is_true_true, andb_true_iff, bool_decide_eq_true, forallb_forall.
  setoid_rewrite <- list_elem_of_In. setoid_rewrite bool_decide_eq_true. tauto.
Qed.

Lemma ready_nodup tasks pending completed :
  NoDup (map ArtTaskID tasks) -> NoDup (map ArtTaskID (readyPlanArtifacts tasks pending completed)).
Proof.
  intros Hn. unfold readyPlanArtifacts. rewrite (sort_slice_perm id_less).
  eapply sublist_NoDup; [exact Hn|]. apply sublist_map, sublist_filter.
Qed.

(** ** Schedules *)
Lemma pick_free_sublist sorted used : pick_free sorted used `sublist_of` sorted.
Proof.
  revert used. induction sorted as [|t sorted IH]; intros used; cbn; [done|].
  destruct (hasConflictKeys t used); [by apply sublist_cons|by apply sublist_skip].
Qed.

Lemma pick_free_avoids sorted used t : t ∈ pick_free sorted used -> conflict_keys t ## used.
Proof.
  revert used. induction sorted as [|t0 sorted IH]; intros used; cbn; [by intros ?%not_elem_of_nil|].
  destruct (hasConflictKeys t0 used) eqn:Hc; [apply IH|]. rewrite registerConflictKeys_union.
  intros [->|Ht]%elem_of_cons; [by apply hasConflictKeys_false|]. apply IH in Ht. set_solver.
Qed.

Lemma pick_free_disjoint sorted used i j t1 t2 :
  (i < j)%nat -> pick_free sorted used !! i = Some t1 -> pick_free sorted used !! j = Some t2 ->
  conflict_keys t1 ## conflict_keys t2.
Proof.
  revert used i j. induction sorted as [|t sorted IH]; intros used i j Hij; cbn; [done|].
  destruct (hasConflictKeys t used); [by apply IH|]. destruct j as [|j]; [lia|]. cbn.
  destruct i as [|i]; cbn; intros H1 H2; simplify_eq; [|apply (IH _ i j ltac:(lia) H1 H2)].
  apply list_elem_of_lookup_2, pick_free_avoids in H2.
  rewrite registerConflictKeys_union in H2. set_solver.
Qed.

Lemma pick_free_maximal sorted used t :
  t ∈ sorted -> t ∉ pick_free sorted used ->
  exists k, k ∈ conflict_keys t /\
    (k ∈ used \/ exists t', t' ∈ pick_free sorted used /\ k ∈ conflict_keys t').
Proof.
  revert used. induction sorted as [|t0 sorted IH]; intros used; cbn; [by intros ?%not_elem_of_nil|].
  destruct (hasConflictKeys t0 used) eqn:Hc; intros Ht Hn.
  - apply elem_of_cons in Ht as [->|Ht]; [|by apply IH].
    destruct (decide (conflict_keys t0 ## used)) as [Hd|Hd];
      [apply hasConflictKeys_false in Hd; congruence|].
    assert (conflict_keys t0 ∩ used <> ∅) as [k Hk]%set_choose_L by set_solver.
    exists k. set_solver.
  - apply not_elem_of_cons in Hn as [Hne Hn]. apply elem_of_cons in Ht as [->|Ht]; [done|].
    rewrite registerConflictKeys_union in Hn |- *.
    destruct (IH _ Ht Hn) as (k & Hk & Hor). exists k. split; [done|].
    rewrite elem_of_union in Hor.
    destruct Hor as [[H|H]|(t' & H1 & H2)]; [|by left|].
    + right. exists t0. split; [by left|done].
    + right. exists t'. split; [by right|done].
Qed.

(** The shortcut for a single ready task agrees with the general case. *)
Lemma schedule_pick_free ready active :
  scheduleReadyArtifactsWithConflicts ready active = pick_free (sort_slice lighter ready) active.
Proof. destruct ready as [|t [|t' ready]]; [done| |done]. cbn. by destruct (hasConflictKeys t active). Qed.

Lemma schedule_elem ready active t :
  t ∈ scheduleReadyArtifactsWithConflicts ready active -> t ∈ ready.
Proof.
  rewrite schedule_pick_free. intros Ht.
  eapply sort_slice_elem, elem_of_sublist; [exact Ht|apply pick_free_sublist].
Qed.

(** a task of the plan is ready exactly when it is pending and all its dependencies are
    completed, and no id is ready twice when the plan's ids are distinct. *)
Theorem ready_exact tasks pending completed :
  (forall t, t ∈ readyPlanArtifacts tasks pending completed <->
     t ∈ tasks /\ ArtTaskID t ∈ completedSet pending /\
     (forall d, d ∈ ArtDependencies t -> d ∈ completedSet completed)) /\
  (NoDup (map ArtTaskID tasks) -> NoDup (map ArtTaskID (readyPlanArtifacts tasks pending completed))).
Proof. split; [intros t; apply elem_of_ready|apply ready_nodup]. Qed.

(** A schedule picks ready tasks only, none touching a conflict key of a running task and
    no two sharing one; it is maximal (a ready task is left out only for a key of a running or
    a scheduled task), so with nothing running some ready task is always scheduled. *)
Theorem schedule_conflict_free ready active :
  let scheduled := scheduleReadyArtifactsWithConflicts ready active in
  (forall t, t ∈ scheduled -> t ∈ ready /\ conflict_keys t ## active) /\
  (forall i j t1 t2, i <> j -> scheduled !! i = Some t1 -> scheduled !! j = Some t2 ->
     conflict_keys t1 ## conflict_keys t2) /\
  (forall t, t ∈ ready -> t ∉ scheduled -> exists k, k ∈ conflict_keys t /\
     (k ∈ active \/ exists t', t' ∈ scheduled /\ k ∈ conflict_keys t')) /\
  (ready <> [] -> active = ∅ -> scheduled <> []).
Proof.
  cbn zeta.
  assert (forall t, t ∈ ready -> t ∉ scheduleReadyArtifactsWithConflicts ready active ->
    exists k, k ∈ conflict_keys t /\
     (k ∈ active \/ exists t', t' ∈ scheduleReadyArtifactsWithConflicts ready active /\ k ∈ conflict_keys t'))
    as Hmax.
  { intros t Ht Hn. rewrite schedule_pick_free in *. apply pick_free_maximal; [|done].
    by apply sort_slice_elem. }
  split_and!.
  - intros t Ht. split; [by eapply schedule_elem|]. rewrite schedule_pick_free in Ht.
    by eapply pick_free_avoids.
  - intros i j t1 t2 Hne H1 H2. rewrite schedule_pick_free in H1, H2.
    destruct (decide (i < j)%nat); [by eapply pick_free_disjoint|].
    symmetry. eapply (pick_free_disjoint _ _ j i); [lia|done..].
  - exact Hmax.
  - intros Hne -> Hnil. destruct ready as [|t ready]; [done|].
    rewrite Hnil in Hmax.
    destruct (Hmax t) as (k & _ & [Hk|(t' & Ht' & _)]); [by left|apply not_elem_of_nil|set_solver|].
    by apply not_elem_of_nil in Ht'.
Qed.

(** ** Artifacts and parallel groups *)
Definition siblings (steps : list PlanStep) (key : string) : list string :=
  map StepID (filter (fun s => StepDependencies s = [key]) steps).

Lemma siblings_app l1 l2 key : siblings (l1 ++ l2) key = siblings l1 key ++ siblings l2 key.
Proof. unfold siblings. by rewrite filter_app, map_app. Qed.

Lemma groups_lookup steps key :
  default [] (foldl group_step ∅ steps !! key) = siblings steps key /\
  (foldl group_step ∅ steps !! key = None <-> siblings steps key = []).
Proof.
  induction steps as [|s steps [IH1 IH2]] using rev_ind; [done|].
  rewrite foldl_app, siblings_app. cbn [foldl]. set (groups := foldl group_step ∅ steps) in *.
  assert (siblings [s] key = if decide (StepDependencies s = [key]) then [StepID s] else []) as ->
    by (unfold siblings, filter; cbn; by case_decide).
  unfold group_step. destruct (StepDependencies s) as [|d [|d' ds]] eqn:Hd.
  1,3: rewrite decide_False by congruence; by rewrite app_nil_r.
  destruct (decide (d = key)) as [->|Hne].
  - rewrite decide_True, lookup_insert_eq by done. cbn. rewrite IH1.
    split; [done|]. by destruct (siblings steps key).
  - rewrite decide_False by congruence. by rewrite lookup_insert_ne, app_nil_r.
Qed.

(** The artifact of a plan lists its steps in order with their ids, files and
    dependencies, one handoff per dependency; its parallel groups are exactly the sets of two
    or more steps that wait for one and the same single step. *)
Theorem plan_artifact_shape now task plan :
  let artifact := buildPlanArtifact now task plan in
  map ArtTaskID (Tasks artifact) = map StepID (Steps plan) /\
  map ArtDependencies (Tasks artifact) = map StepDependencies (Steps plan) /\
  map ArtFiles (Tasks artifact) = map StepFiles (Steps plan) /\
  TaskCount artifact = len (Steps plan) /\
  map (fun h => (aget h "from", aget h "to")) (Handoffs artifact)
    = concat (map (fun s => map (fun d => (Some (AString d), Some (AString (StepID s))))
                              (StepDependencies s)) (Steps plan)) /\
  (forall group, group ∈ ParallelGroups artifact <->
     exists key, (1 < length (siblings (Steps plan) key))%nat /\
       group = sort_slice String.ltb (siblings (Steps plan) key)).
Proof.
  cbn zeta. unfold buildPlanArtifact.
  assert (forall s, ArtTaskID (artifact_of_step task plan s) = StepID s /\
    ArtDependencies (artifact_of_step task plan s) = StepDependencies s /\
    ArtFiles (artifact_of_step task plan s) = StepFiles s) as Ha
    by (intros s; unfold artifact_of_step; by destruct (stepAssignment task plan s)).
  cbn [Tasks TaskCount Handoffs ParallelGroups].
  split_and!; [rewrite map_map; apply map_ext; intros s; apply Ha..| | |].
  - unfold len. by rewrite length_map.
  - rewrite concat_map, map_map. f_equal. apply map_ext. intros s. unfold step_handoffs.
    by rewrite map_map.
  - intros group. unfold parallelGroups. set (groups := foldl group_step ∅ (Steps plan)).
    rewrite list_elem_of_fmap.
    assert (forall key, key ∈ sort_slice String.ltb
        (map fst (filter (fun kv => (1 < length kv.2)%nat) (map_to_list groups))) <->
        (1 < length (siblings (Steps plan) key))%nat) as Hkeys.
    { intros key. rewrite sort_slice_elem, list_elem_of_fmap.
      destruct (groups_lookup (Steps plan) key) as [H1 H2]. fold groups in H1, H2. split.
      - intros ([k l] & -> & [Hl Hkl]%list_elem_of_filter). apply elem_of_map_to_list in Hkl.
        cbn in *. rewrite Hkl in H1. cbn in H1. by rewrite <- H1.
      - intros Hl. destruct (groups !! key) as [l|] eqn:Hg.
        + exists (key, l). split; [done|]. apply list_elem_of_filter. cbn in *.
          split; [by rewrite H1|by apply elem_of_map_to_list].
        + rewrite (proj1 H2) in Hl by done. cbn in Hl. lia. }
    setoid_rewrite Hkeys.
    assert (forall key, default [] (groups !! key) = siblings (Steps plan) key) as Hg
      by (intros key; apply groups_lookup).
    setoid_rewrite Hg. split; intros (key & H1 & H2); exists key; by split.
Qed.
