(* ===== verification/ExecutionEffects.v ===== *)
(** * What execution tells the world (domain/rag.go, kernel/orchestrator.go)

    Execution writes to the memory, the session store, the event hubs and the recorder of self
    learning, and reads nothing back from them before the task is done.  Each such write is a value here;
    the state of execution keeps them in order, as the journal. *)
From S2P Require Import Prelude Supervisor GoLib GoJSON Domain Policy LiveRealtime AdaptiveRuntime.

(** ** Records *)
Record ReasoningDecisionPoint : Type := mkReasoningDecisionPoint {
  PointKind : string;
  PointSummary : string;
  Outcome : string;
  PointMetadata : anymap }.
Record ReasoningTrace : Type := mkReasoningTrace {
  TrTraceID : string;
  TrSessionID : string;
  TrTaskID : string;
  TrParentTaskID : string;
  TrAgentID : string;
  TrProvider : string;
  TrModelName : string;
  TrTaskType : TaskType;
  TrBranch : string;
  PromptSummary : string;
  ReflectionSummary : string;
  ResultSummary : string;
  TrReasoningMode : string;
  RetrievalUsed : bool;
  VectorMemoryCount : Z;
  RouteMemoryCount : Z;
  ReasoningMemoryCount : Z;
  TrLatencyMS : Z;
  DecisionPoints : list ReasoningDecisionPoint;
  NextQuestions : list string;
  TrMetadata : anymap;
  TrCreatedAt : Time }.

(** A session of an external coding runtime (domain/external_runtime.go). *)
Record CodingRuntimeSession : Type := mkCodingRuntimeSession {
  CrsRuntime : string;
  CrsSessionID : string;
  CrsProvider : string;
  CrsModel : string;
  CrsAcceptedAt : Time;
  CrsMetadata : anymap }.

(** ** Writes *)

(** A value in the payload of an event. *)
Inductive event_value : Type :=
  | EvAny (value : any)
  | EvTask (task : Task)
  | EvPlan (plan : ExecutionPlan)
  | EvAcceptance (acceptance : TaskAcceptance)
  | EvResult (result : AgentResult)
  | EvPolicy (decision : PolicyDecision)
  | EvRuntimeState (state : AgentRuntimeState)
  | EvDelivery (state : option DeliverySnapshot)
  | EvDelta (delta : AgentDelta).
Definition ev_string (s : string) : event_value := EvAny (AString s).
Definition ev_int (n : Z) : event_value := EvAny (AInt n).

(** The methods of the memory, [SaveSessionState] of the store, the event hubs, the goroutine that
    records a trace for self learning, the goroutine that forwards the events of a coding
    runtime, and the waiters for finished workflows. *)
Inductive Effect : Type :=
  | RecordModelUsage (task : Task) (modelName : string) (result : AgentResult)
  | RecordHardStop (task : Task) (action reason : string)
  | RecordPeerExchange (envelope : TaskEnvelope) (acceptance : TaskAcceptance) (result : AgentResult) (summary : string)
  | RecordTaskExchange (task : Task) (result : AgentResult)
  | RecordRouteOutcome (task : Task) (acceptance : TaskAcceptance) (result : AgentResult) (latency : Z)
  | RecordReasoningTrace (trace : ReasoningTrace)
  | SaveSessionState (sessionID branch : string) (state : anymap) (promptVersion contextVersion : string)
  | StartSelfLearningFeedback (task : Task) (acceptance : TaskAcceptance) (agent : AgentInfo) (result : AgentResult)
      (latency : Z) (trace : ReasoningTrace)
  | PublishRuntimeEvent (topic kind entityID : string) (payload : list (string * event_value))
  | PublishInventorySnapshot
  | RecordAdaptiveDecision (task : Task) (decision : AdaptiveDecision)
  | StartCodingRuntimeEventPump (session : CodingRuntimeSession) (taskID : string)
  | NotifyWorkflowWaiters (record : WorkflowRecord).
