(* ===== verification/Reasoning.v ===== *)
(** * Executing an agent (kernel/orchestrator.go)

    [executeAgentWithReasoning] asks an agent for an answer.  With self learning on it asks in rounds:
    the answer is parsed into thought, query, code and text, a query is answered from the retriever
    and the agent asked again, and critics may have the best answer revised.  Agents, retriever and
    evaluator are interfaces of the source and parameters here; what they answer may change from
    call to call.  The clock is read by number, too. *)
From S2P Require Import Prelude GoLib GoJSON Domain TaskPolicy StateMonad AgentRegistry LiveRealtime Router PlanScheduling TraceParser.
From S2P Require Import ExecutionEffects.
From Stdlib Require Import PrimFloat.

(** ** Interfaces *)

(** What a streaming agent sends, in the order in which the loop receives it; [StreamCancelled] is a
    context that ends while the loop waits.  The list ends when both channels are closed. *)
Inductive stream_item : Type :=
  | StreamDelta (delta : AgentDelta)
  | StreamResult (result : AgentResult)
  | StreamCancelled (err : string).
(** [agents.Agent] and [agents.StreamingAgent]; the answer of a call depends on its number. *)
Record Worker : Type := mkWorker {
  Execute : nat -> Task -> AgentResult;
  ExecuteStream : option (nat -> Task -> string + list stream_item) }.

Record RagQuery : Type := mkRagQuery {
  QueryText : string;
  QuerySessionID : string;
  QueryTaskID : string;
  QueryLimit : Z;
  QueryFilters : anymap }.
Record RAGResult : Type := mkRAGResult {
  DocumentID : string;
  RagContent : string }.
Inductive TraceRecordStatus : Type :=
  | TraceRecordStatusPending | TraceRecordStatusSuccess | TraceRecordStatusFail | TraceRecordStatusOther (s : string).
#[export] Instance TraceRecordStatus_eq_dec : EqDecision TraceRecordStatus.
Proof. solve_decision. Defined.
Definition trace_status_string (s : TraceRecordStatus) : string :=
  match s with
  | TraceRecordStatusPending => "pending" | TraceRecordStatusSuccess => "success" | TraceRecordStatusFail => "fail"
  | TraceRecordStatusOther s => s
  end.
Record CodeExecutionResult : Type := mkCodeExecutionResult {
  EvalStatus : TraceRecordStatus;
  Compiler : string;
  EvalCommand : list string;
  EvalScore : float;
  Stdout : string;
  Stderr : string;
  ErrorLog : string;
  DurationMS : Z;
  EvalCompletedAt : Time }.
#[export] Instance eta_CodeExecutionResult : Updatable CodeExecutionResult := fun r =>
  mkCodeExecutionResult (EvalStatus r) (Compiler r) (EvalCommand r) (EvalScore r) (Stdout r) (Stderr r) (ErrorLog r)
    (DurationMS r) (EvalCompletedAt r).
Definition zero_evaluation : CodeExecutionResult :=
  mkCodeExecutionResult (TraceRecordStatusOther "") "" [] 0 "" "" "" 0 zero_time.
Record TraceRecord : Type := mkTraceRecord {
  RecTraceID : string;
  RecSessionID : string;
  RecTaskID : string;
  RecProvider : string;
  RecModelName : string;
  Prompt : string;
  ThoughtProcess : string;
  GeneratedCode : string;
  FinalAnswer : string;
  Evaluation : CodeExecutionResult;
  RecMetadata : anymap;
  RecCreatedAt : Time }.
#[export] Instance eta_TraceRecord : Updatable TraceRecord := fun r =>
  mkTraceRecord (RecTraceID r) (RecSessionID r) (RecTaskID r) (RecProvider r) (RecModelName r) (Prompt r)
    (ThoughtProcess r) (GeneratedCode r) (FinalAnswer r) (Evaluation r) (RecMetadata r) (RecCreatedAt r).

(** [selfLearningRuntime], as far as execution reads it.  The evaluator returns its error next to the
    evaluation; the recorder returns its error. *)
Record SelfLearning : Type := mkSelfLearning {
  sl_enabled : bool;
  evaluator : option (nat -> TraceRecord -> CodeExecutionResult * option string);
  traceRecorder : option (nat -> TraceRecord -> option string);
  datasetDir : string;
  sl_retriever : option (nat -> RagQuery -> list RAGResult);
  reasoningEnabled : bool;
  reasoningMaxRounds : Z;
  criticEnabled : bool;
  criticMaxRounds : Z }.

Record reasoningCandidate : Type := mkReasoningCandidate {
  rc_task : Task;
  rc_result : AgentResult;
  rc_response : ReasoningResponse;
  rc_ragResults : list RAGResult;
  rc_evaluation : CodeExecutionResult;
  rc_score : float;
  rc_round : Z;
  rc_ragQueries : list string;
  rc_criticFeedback : list string }.

(** ** Text *)
Definition newline : string := bytes [10%N].
Definition truncateKernelText (text : string) (limit : Z) : string :=
  let trimmed := TrimSpace text in
  let n := Z.of_nat (String.length trimmed) in
  if (limit <=? 0) || (n <=? limit) then trimmed
  else if limit <=? 3 then str_take (Z.to_nat limit) trimmed
  else str_take (Z.to_nat (limit - 3)) trimmed +:+ "...".
Definition summarizeTaskPrompt (task : Task) : string :=
  let input := Input task in
  let parts := [truncateKernelText (Description input) 220] in
  let parts := match InputFiles input with
               | [] => parts | files => parts ++ ["files=" +:+ Join files ", "] end in
  let parts := match AcceptanceCriteria input with
               | [] => parts
               | criteria => parts ++ ["acceptance=" +:+ truncateKernelText (Join criteria "; ") 160] end in
  TrimSpace (Join parts "; ").

(** [strings.Split] for a separator that is not empty; every piece but the last takes a separator with
    it, so the length of the text is enough fuel. *)
Fixpoint split_fuel (fuel : nat) (s sep : string) : list string :=
  match fuel with
  | O => [s]
  | S fuel =>
      match Index s sep with
      | None => [s]
      | Some i => str_take i s :: split_fuel fuel (str_drop (i + String.length sep) s) sep
      end
  end.
Definition Split (s sep : string) : list string := split_fuel (String.length s) s sep.
Definition TrimPrefix (s prefix : string) : string := default s (strip_prefix prefix s).

(** The first block between fences that is not blank: the pieces with odd index. *)
Fixpoint fenced (parts : list string) : string :=
  match parts with
  | _ :: part :: parts =>
      let candidate := TrimSpace (TrimPrefix (TrimSpace part) ("go" +:+ newline)) in
      if String.eqb candidate "" then fenced parts else candidate
  | _ => ""
  end.
Fixpoint first_artifact (keys : list string) (artifacts : anymap) : string :=
  match keys with
  | [] => ""
  | key :: keys =>
      let value := TrimSpace (kernelString (aget_any artifacts key)) in
      if String.eqb value "" then first_artifact keys artifacts else value
  end.
Definition fence : string := "```".
Definition extractGeneratedCode (result : AgentResult) : string :=
  let value := first_artifact ["generated_code"; "code"; "patch"; "diff"] (OutputArtifacts (Output result)) in
  if negb (String.eqb value "") then value
  else
    let summary := TrimSpace (Summary (Output result)) in
    if Contains summary fence then fenced (Split summary fence) else "".

Fixpoint rag_lines (idx : Z) (results : list RAGResult) : string :=
  match results with
  | [] => ""
  | item :: results =>
      let content := TrimSpace (RagContent item) in
      "[" +:+ itoa idx +:+ "] " +:+ TrimSpace (DocumentID item) +:+ newline +:+
      (if String.eqb content "" then "" else content +:+ newline) +:+ rag_lines (idx + 1) results
  end.
Definition formatRAGResults (results : list RAGResult) : string :=
  match results with [] => "" | _ => TrimSpace (rag_lines 1 results) end.

Definition parseReasoningOutput (summary : string) : ReasoningResponse :=
  match ParserResult (Consume summary NewTraceParser).1 with
  | None => mkReasoningResponse "" "" "" (TrimSpace summary)
  | Some response =>
      if String.eqb (TrimSpace (FinalText response)) "" then response <| FinalText := TrimSpace summary |> else response
  end.
Definition structured (response : ReasoningResponse) : bool :=
  non_blank (Thought response) || non_blank (RAGQuery response) || non_blank (Code response).

(** ** The tasks the agent is given *)

(** A heading and a list, when there is something to list. *)
Definition listing (heading : string) (items : list string) : string :=
  match items with
  | [] => ""
  | _ => newline +:+ newline +:+ heading +:+ newline +:+ "- " +:+ Join items (newline +:+ "- ")
  end.
Definition passage (heading text : string) : string :=
  if String.eqb text "" then "" else newline +:+ newline +:+ heading +:+ newline +:+ text.
Definition hint_text (key : string) (task : Task) : string := TrimSpace (kernelString (aget_any (RoutingHints task) key)).

Definition reasoning_prompt (task : Task) (acceptance : TaskAcceptance) (round maxRounds : Z)
  (ragQueries criticFeedback : list string) : string :=
  "You are the runtime reasoning core for the orchestrator. Solve the task deliberately and return structured output." +:+ newline +:+
  "Return XML-like tags in this exact shape:" +:+ newline +:+
  "<thought>step by step reasoning</thought>" +:+ newline +:+
  "<rag_query>optional retrieval query when more context is required</rag_query>" +:+ newline +:+
  "<code>final code when code is needed</code>" +:+ newline +:+
  "After the tags, add the final user-facing answer in plain text." +:+ newline +:+ newline +:+
  "Round " +:+ itoa round +:+ " of " +:+ itoa maxRounds +:+ ". Provider=" +:+ AccProvider acceptance +:+
  " Model=" +:+ AccModelName acceptance +:+ newline +:+ newline +:+
  "Original task:" +:+ newline +:+ TrimSpace (Description (Input task)) +:+
  listing "Relevant files:" (InputFiles (Input task)) +:+
  listing "Constraints:" (Constraints (Input task)) +:+
  listing "Acceptance criteria:" (AcceptanceCriteria (Input task)) +:+
  passage "Previous reasoning context:" (hint_text "reasoning_context" task) +:+
  passage "Retrieved context:" (hint_text "reasoning_rag_context" task) +:+
  listing "Previous retrieval queries:" ragQueries +:+
  listing "Critic feedback to address:" criticFeedback.
Definition buildReasoningExecutionTask (task : Task) (acceptance : TaskAcceptance) (round maxRounds : Z)
  (ragQueries criticFeedback : list string) : Task :=
  let hints := cloneMap (RoutingHints task) in
  let hints := aset hints "reasoning_round" (AInt round) in
  let hints := aset hints "reasoning_mode" (AString "deliberative_runtime") in
  let hints := aset hints "reasoning_requested_tags" (AStrings ["thought"; "rag_query"; "code"]) in
  task <| Input ::= (fun i => i <| Description :=
            TrimSpace (reasoning_prompt task acceptance round maxRounds ragQueries criticFeedback) |>) |>
       <| RoutingHints := hints |>.

Definition critique_prompt (task : Task) (acceptance : TaskAcceptance) (result : AgentResult) (criticRound : Z) : string :=
  "You are the critic for the orchestrator runtime. Review the candidate solution and decide whether it should be revised." +:+ newline +:+
  "Return tags in the same structured format. If the answer is already good, keep <code> identical and explain approval in <thought>." +:+ newline +:+ newline +:+
  "Critique round " +:+ itoa criticRound +:+ ". Provider=" +:+ AccProvider acceptance +:+
  " Model=" +:+ AccModelName acceptance +:+ newline +:+ newline +:+
  "Original task:" +:+ newline +:+ TrimSpace (Description (Input task)) +:+ newline +:+ newline +:+
  "Current answer:" +:+ newline +:+ TrimSpace (Summary (Output result)) +:+
  (let code := extractGeneratedCode result in
   if non_blank code
   then newline +:+ newline +:+ "Current generated code:" +:+ newline +:+ fence +:+ "go" +:+ newline +:+ code +:+
        newline +:+ fence
   else "").
Definition buildCritiqueTask (task : Task) (acceptance : TaskAcceptance) (result : AgentResult) (criticRound : Z) : Task :=
  let hints := cloneMap (RoutingHints task) in
  let hints := aset hints "reasoning_mode" (AString "critic") in
  let hints := aset hints "critic_round" (AInt criticRound) in
  task <| Input ::= (fun i => i <| Description := TrimSpace (critique_prompt task acceptance result criticRound) |>) |>
       <| RoutingHints := hints |>.

Definition enrichTaskWithReasoningContext (task : Task) (thought critic : string) (round : Z) : Task :=
  let hints := cloneMap (RoutingHints task) in
  let hints := if non_blank thought then aset hints "reasoning_context" (AString thought) else hints in
  let hints := if non_blank critic then aset hints "reasoning_critic_feedback" (AString critic) else hints in
  task <| RoutingHints := aset hints "reasoning_revision_round" (AInt round) |>.

(** ** Running the agent *)

(** What execution changes: the calls made so far (agent, task and answer), the number of readings of
    the clock, the live metrics the deltas of a stream go to, and the journal of what it has written
    elsewhere. *)
Record AgentIO : Type := mkAgentIO {
  io_calls : list (string * Task * AgentResult);
  io_clock : nat;
  io_live : option Collector;
  io_journal : list Effect }.
#[export] Instance eta_AgentIO : Updatable AgentIO := fun s =>
  mkAgentIO (io_calls s) (io_clock s) (io_live s) (io_journal s).
Abbreviation AT := (ST AgentIO).

Definition codingRuntimeSessionID (task : Task) : string :=
  let sessionID := match aget (ExecutionContract task) "coding_runtime_session_id" with
                   | Some raw => TrimSpace (Sprint raw) | None => "" end in
  if String.eqb sessionID "" then TrimSpace (SessionID task) else sessionID.

Definition ObserveLiveRealtimeDelta (delta : AgentDelta) : AT () :=
  modify (fun s => s <| io_live ::= fmap (ObserveDelta Sprint delta) |>).

Definition record_effect (e : Effect) : AT () := modify (fun s => s <| io_journal ::= (fun l => l ++ [e]) |>).
(** The line in the log is left out. *)
Definition publishRuntimeEvent (topic kind entityID : string) (payload : list (string * event_value)) : AT () :=
  record_effect (PublishRuntimeEvent topic kind entityID payload).

Section Execution.
Context (nowAt : nat -> Time) (worker : string -> Worker) (selfLearn : SelfLearning).

Definition time_Now : AT Time :=
  n ← gets io_clock; modify (fun s => s <| io_clock ::= S |>);; mret (nowAt n).
Definition log_call (agentID : string) (task : Task) (result : AgentResult) : AT () :=
  modify (fun s => s <| io_calls ::= (fun calls => calls ++ [(agentID, task, result)]) |>).
Definition call_number : AT nat := gets (fun s => length (io_calls s)).
Definition call_Execute (agentID : string) (task : Task) : AT AgentResult :=
  n ← call_number;
  let result := Execute (worker agentID) n task in
  log_call agentID task result;; mret result.

Definition publishAgentDelta (task : Task) (delta : AgentDelta) : AT () :=
  timestamp ← (if IsZero (Timestamp delta) then time_Now else mret (Timestamp delta));
  let taskID := if String.eqb (DeltaTaskID delta) "" then ID task else DeltaTaskID delta in
  let sessionID := if String.eqb (DeltaSessionID delta) "" then codingRuntimeSessionID task else DeltaSessionID delta in
  let delta := mkAgentDelta sessionID taskID (DeltaAgentID delta) (DeltaProvider delta) (DeltaModelName delta)
                 (DeltaKind delta) (Sequence delta) (Content delta) timestamp (DeltaMetadata delta) in
  ObserveLiveRealtimeDelta delta;;
  let payload :=
    [("task_id", ev_string taskID); ("session_id", ev_string sessionID); ("agent_id", ev_string (DeltaAgentID delta));
     ("provider", ev_string (DeltaProvider delta)); ("model_name", ev_string (DeltaModelName delta));
     ("delta_kind", ev_string (delta_kind_string (DeltaKind delta))); ("delta", EvDelta delta);
     ("content", ev_string (Content delta)); ("sequence", ev_int (Sequence delta));
     ("metadata", EvAny (AMap (DeltaMetadata delta))); ("occurred_at", EvAny (time_any timestamp))] in
  publishRuntimeEvent "runtime_sessions" "model.delta" taskID payload;;
  if String.eqb sessionID "" then mret ()
  else publishRuntimeEvent ("runtime_session:" +:+ sessionID) "model.delta" taskID payload.

Definition stream_failed (task : Task) (agent : AgentInfo) (message : string) : AT AgentResult :=
  now ← time_Now;
  mret (mkAgentResult (ID task) (InfoID agent) TaskStatusFailed 0 [message] [] (InfoProvider agent) (InfoModelName agent)
          (mkResultOutput message [] [] [] []) now).
Fixpoint stream_loop (task : Task) (agent : AgentInfo) (items : list stream_item) (final : option AgentResult)
  : AT AgentResult :=
  match items with
  | [] =>
      match final with
      | Some result => mret result
      | None => stream_failed task agent "streaming agent finished without result"
      end
  | StreamDelta delta :: items => publishAgentDelta task delta;; stream_loop task agent items final
  | StreamResult result :: items => stream_loop task agent items (Some result)
  | StreamCancelled err :: _ => stream_failed task agent (TrimSpace err)
  end.
Definition executeStreamingAgent (task : Task) (agent : AgentInfo)
  (stream : nat -> Task -> string + list stream_item) : AT AgentResult :=
  n ← call_number;
  result ← match stream n task with
           | inl err => stream_failed task agent (TrimSpace err)
           | inr items => stream_loop task agent items None
           end;
  log_call (InfoID agent) task result;; mret result.

Definition shouldUseSelfLearningReasoning (task : Task) (acceptance : TaskAcceptance) : bool :=
  if negb (sl_enabled selfLearn) || negb (reasoningEnabled selfLearn) then false
  else match normalizeTaskStatus (AccStatus acceptance) with
  | TaskStatusDeadLettered | TaskStatusRejected => false
  | _ =>
      match Type_ task with
      | TaskTypeOther _ => non_blank (Description (Input task))
      | _ => true
      end
  end.

(** Nanoseconds from 1970. *)
Definition UnixNano (t : Time) : Z := Int.wrap (t - 62135596800 * second).
(** The evaluation of a trace; an error makes it a failure. *)
Definition evaluate_trace (Evaluate : nat -> TraceRecord -> CodeExecutionResult * option string) (trace : TraceRecord)
  : AT CodeExecutionResult :=
  n ← gets io_clock;
  let '(evaluation, err) := Evaluate n trace in
  match err with
  | None => mret evaluation
  | Some err =>
      let evaluation := evaluation <| EvalStatus := TraceRecordStatusFail |>
        <| ErrorLog := firstNonEmptyString [TrimSpace (ErrorLog evaluation); err] |> in
      if IsZero (EvalCompletedAt evaluation)
      then now ← time_Now; mret (evaluation <| EvalCompletedAt := now |>)
      else mret evaluation
  end.
Definition scoreReasoningCandidate (task : Task) (acceptance : TaskAcceptance) (agent : AgentInfo) (result : AgentResult)
  (response : ReasoningResponse) (ragResults : list RAGResult) : AT (CodeExecutionResult * float) :=
  let cap score := (if 1 <? score then 1 else score)%float in
  let score := 0%float in
  let score := plus_if (negb (bool_decide (ResStatus result = TaskStatusFailed))) 0.25 score in
  let score := plus_if (non_blank (Thought response)) 0.1 score in
  let score := plus_if (0 <? len ragResults) 0.1 score in
  let score := plus_if (non_blank (FinalText response)) 0.15 score in
  let code := TrimSpace (Code response) in
  if String.eqb code "" then
    mret (zero_evaluation, cap (plus_if (0 <? Confidence result)%float (Confidence result * 0.4)%float score))
  else match evaluator selfLearn with
  | None =>
      let score := cap (score + 0.35)%float in
      now ← time_Now;
      mret (zero_evaluation <| EvalStatus := TraceRecordStatusPending |> <| EvalCompletedAt := now |> <| EvalScore := score |>,
            score)
  | Some Evaluate =>
      stamp ← time_Now;
      created ← time_Now;
      let trace := mkTraceRecord (ID task +:+ "-reasoning-" +:+ itoa (UnixNano stamp))
        (firstNonEmptyString [SessionID task; ID task]) (ID task)
        (firstNonEmptyString [ResProvider result; AccProvider acceptance; InfoProvider agent])
        (firstNonEmptyString [ResModelName result; AccModelName acceptance; InfoModelName agent])
        (summarizeTaskPrompt task) (TrimSpace (Thought response)) code (TrimSpace (FinalText response))
        zero_evaluation [] created in
      evaluation ← evaluate_trace Evaluate trace;
      mret (evaluation, cap (score + 0.4 * EvalScore evaluation)%float)
  end.

Definition parseReasoningCandidate (baseTask reasoningTask : Task) (acceptance : TaskAcceptance) (agent : AgentInfo)
  (result : AgentResult) (round : Z) (ragQueries criticFeedback : list string) : AT (Task * reasoningCandidate) :=
  completed ← (if IsZero (CompletedAtResult result) then time_Now else mret (CompletedAtResult result));
  let result := result <| CompletedAtResult := completed |> in
  let summary := Summary (Output result) in
  let response := parseReasoningOutput summary in
  let response := if String.eqb (TrimSpace (Code response)) ""
                  then response <| Code := TrimSpace (extractGeneratedCode result) |> else response in
  let response := if String.eqb (TrimSpace (FinalText response)) ""
                  then response <| FinalText := TrimSpace summary |> else response in
  let artifacts := cloneMap (OutputArtifacts (Output result)) in
  let artifacts := aset artifacts "reasoning_round" (AInt round) in
  let artifacts := aset artifacts "reasoning_thought" (AString (Thought response)) in
  let artifacts := aset artifacts "rag_queries" (AStrings ragQueries) in
  let artifacts := aset artifacts "critic_feedback" (AStrings criticFeedback) in
  let artifacts := if non_blank (Code response)
                   then aset artifacts "generated_code" (AString (Code response)) else artifacts in
  let hints := cloneMap (RoutingHints baseTask) in
  let hints := if non_blank (Thought response)
               then aset hints "reasoning_context" (AString (Thought response)) else hints in
  let result := if non_blank (FinalText response)
                then result <| Output ::= (fun o => o <| Summary := FinalText response |>) |> else result in
  ragResults ← (if negb (non_blank (RAGQuery response)) then mret []
                else match sl_retriever selfLearn with
                     | None => mret []
                     | Some Retrieve =>
                         n ← gets io_clock;
                         mret (Retrieve n (mkRagQuery (RAGQuery response)
                           (firstNonEmptyString [SessionID baseTask; SessionID reasoningTask]) (ID baseTask) 5 []))
                     end);
  let found := 0 <? len ragResults in
  let hints := if found then aset (aset hints "reasoning_rag_query" (AString (RAGQuery response)))
                              "reasoning_rag_context" (AString (formatRAGResults ragResults)) else hints in
  let artifacts := if found then aset (aset artifacts "rag_query" (AString (RAGQuery response)))
                                  "rag_result_count" (AInt (len ragResults)) else artifacts in
  let updatedTask := baseTask <| RoutingHints := hints |> in
  let with_artifacts r artifacts := r <| Output ::= (fun o => o <| OutputArtifacts := artifacts |>) |> in
  scored ← scoreReasoningCandidate baseTask acceptance agent (with_artifacts result artifacts) response ragResults;
  let '(evaluation, score) := scored in
  let artifacts := aset artifacts "reasoning_candidate_score" (AFloat score) in
  let artifacts := if IsZero (EvalCompletedAt evaluation) then artifacts
                   else aset artifacts "reasoning_candidate_status"
                          (AString (trace_status_string (EvalStatus evaluation))) in
  mret (updatedTask, mkReasoningCandidate updatedTask (with_artifacts result artifacts) response ragResults evaluation
                       score round ragQueries criticFeedback).

(** The end of the rounds: an answer without structure, or the best candidate and the queries made. *)
Inductive rounds_end : Type :=
  | Plain (result : AgentResult)
  | Best (best : option reasoningCandidate) (ragQueries : list string).
Definition score_at_least (c : reasoningCandidate) (best : option reasoningCandidate) : bool :=
  match best with None => true | Some best => (rc_score best <=? rc_score c)%float end.
Fixpoint reasoning_rounds (rounds : nat) (round totalRounds : Z) (acceptance : TaskAcceptance) (agent : AgentInfo)
  (workingTask : Task) (ragQueries : list string) (best : option reasoningCandidate) : AT rounds_end :=
  match rounds with
  | O => mret (Best best ragQueries)
  | S rounds =>
      let reasoningTask := buildReasoningExecutionTask workingTask acceptance round totalRounds ragQueries [] in
      result ← call_Execute (InfoID agent) reasoningTask;
      parsed ← parseReasoningCandidate workingTask reasoningTask acceptance agent result round ragQueries [];
      let '(workingTask, candidate) := parsed in
      if negb (structured (rc_response candidate)) then mret (Plain result)
      else
        let best := if score_at_least candidate best then Some candidate else best in
        if negb (String.eqb (RAGQuery (rc_response candidate)) "") && (0 <? len (rc_ragResults candidate)) &&
           (round <? totalRounds)
        then reasoning_rounds rounds (round + 1) totalRounds acceptance agent workingTask
               (ragQueries ++ [RAGQuery (rc_response candidate)]) best
        else mret (Best best ragQueries)
  end.

(** The critics' rounds, on the best candidate so far. *)
Fixpoint critic_rounds (rounds : nat) (criticRound totalRounds : Z) (acceptance : TaskAcceptance) (agent : AgentInfo)
  (ragQueries criticFeedback : list string) (current : reasoningCandidate) : AT reasoningCandidate :=
  match rounds with
  | O => mret current
  | S rounds =>
      let critiqueTask := buildCritiqueTask (rc_task current) acceptance (rc_result current) criticRound in
      critiqueResult ← call_Execute (InfoID agent) critiqueTask;
      let summary := Summary (Output critiqueResult) in
      let critique := parseReasoningOutput summary in
      let feedback := TrimSpace (firstNonEmptyString [Thought critique; FinalText critique; summary]) in
      if String.eqb feedback "" || negb (structured critique) then mret current
      else
        let criticFeedback := criticFeedback ++ [feedback] in
        let revisedTask := enrichTaskWithReasoningContext (rc_task current) (Thought critique) feedback criticRound in
        let reasoningTask := buildReasoningExecutionTask revisedTask acceptance (totalRounds + criticRound)
          (totalRounds + criticMaxRounds selfLearn) ragQueries criticFeedback in
        revisedResult ← call_Execute (InfoID agent) reasoningTask;
        parsed ← parseReasoningCandidate revisedTask reasoningTask acceptance agent revisedResult
          (totalRounds + criticRound) ragQueries criticFeedback;
        let '(_, revised) := parsed in
        if negb (structured (rc_response revised)) then mret current
        else if (rc_score current <=? rc_score revised)%float
        then critic_rounds rounds (criticRound + 1) totalRounds acceptance agent ragQueries criticFeedback revised
        else mret current
  end.

Definition completed_result (task : Task) (acceptance : TaskAcceptance) (agent : AgentInfo) (result : AgentResult)
  : AT AgentResult :=
  let result := if String.eqb (ResTaskID result) "" then result <| ResTaskID := ID task |> else result in
  let result := if String.eqb (ResAgentID result) "" then result <| ResAgentID := InfoID agent |> else result in
  let result := if String.eqb (ResProvider result) ""
    then result <| ResProvider := firstNonEmptyString [ResProvider result; AccProvider acceptance; InfoProvider agent] |>
    else result in
  let result := if String.eqb (ResModelName result) ""
    then result <| ResModelName := firstNonEmptyString [ResModelName result; AccModelName acceptance; InfoModelName agent] |>
    else result in
  if IsZero (CompletedAtResult result) then now ← time_Now; mret (result <| CompletedAtResult := now |>)
  else mret result.

Definition executeAgentWithReasoning (task : Task) (acceptance : TaskAcceptance) (agent : Agent)
  : AT (Task * AgentResult * Z) :=
  let info := Info agent in
  let id := InfoID info in
  startedAt ← time_Now;
  let finish (task : Task) (result : AgentResult) : AT (Task * AgentResult * Z) :=
    now ← time_Now; mret (task, result, time_sub now startedAt) in
  if negb (shouldUseSelfLearningReasoning task acceptance) then
    result ← match ExecuteStream (worker id) with
             | Some stream => executeStreamingAgent task info stream
             | None => call_Execute id task
             end;
    finish task result
  else
    let totalRounds := maxInt 1 (reasoningMaxRounds selfLearn) in
    outcome ← reasoning_rounds (Z.to_nat totalRounds) 1 totalRounds acceptance info task [] None;
    match outcome with
    | Plain result => finish task result
    | Best None _ => result ← call_Execute id task; finish task result
    | Best (Some best) ragQueries =>
        best ← (if criticEnabled selfLearn && (non_blank (Thought (rc_response best)) || non_blank (Code (rc_response best)))
                then critic_rounds (Z.to_nat (maxInt 1 (criticMaxRounds selfLearn))) 1 totalRounds acceptance info
                       ragQueries [] best
                else mret best);
        result ← completed_result task acceptance info (rc_result best);
        finish (rc_task best) result
    end.
End Execution.
