(* ===== verification/ReasoningProps.v ===== *)
(** * Properties of executing an agent

    How often the agent is asked and about what, and which of its answers is returned. *)
From S2P Require Import Prelude GoLib GoJSON Domain TaskPolicy StateMonad AgentRegistry LiveRealtime Router PlanScheduling TraceParser ExecutionEffects Reasoning.
From Stdlib Require Import PrimFloat SpecFloat FloatOps FloatAxioms.

(** ** Scores *)
Lemma float_leb_order x y : (x <=? y)%float = true <-> float_order x y = Some Lt \/ float_order x y = Some Eq.
Proof.
  rewrite leb_spec. unfold SFleb, float_order. destruct (SFcompare _ _) as [[]|]; split; try tauto; try done;
    intros [|]; done.
Qed.
Lemma float_order_opp x y c : float_order x y = Some c -> float_order y x = Some (CompOpp c).
Proof. unfold float_order. intros H. rewrite SFcompare_antisym. by rewrite H. Qed.
Lemma float_order_eq_l x y z : float_order x y = Some Eq -> float_order x z = float_order y z.
Proof.
  unfold float_order. intros H. rewrite (SFcompare_antisym (Prim2SF x)), (SFcompare_antisym (Prim2SF y)).
  by rewrite (SFcompare_eq_r _ _ _ H).
Qed.
Lemma float_leb_trans x y z : (x <=? y)%float = true -> (y <=? z)%float = true -> (x <=? z)%float = true.
Proof.
  intros Hxy Hyz. apply float_leb_order in Hxy as [Hxy|Hxy].
  - apply float_leb_order. left. apply float_ltb_order. apply float_ltb_order in Hxy.
    by eapply float_ltb_leb_trans.
  - apply float_leb_order. rewrite (float_order_eq_l _ _ _ Hxy). by apply float_leb_order.
Qed.
Lemma float_leb_ltb_trans x y z : (x <=? y)%float = true -> (y <? z)%float = true -> (x <? z)%float = true.
Proof.
  intros [Hxy|Hxy]%float_leb_order Hyz.
  - apply float_ltb_order in Hxy. by eapply float_ltb_trans.
  - apply float_ltb_order. rewrite (float_order_eq_l _ _ _ Hxy). by apply float_ltb_order.
Qed.
Lemma float_ltb_leb_incl x y : (x <? y)%float = true -> (x <=? y)%float = true.
Proof. intros H%float_ltb_order. apply float_leb_order. by left. Qed.
Lemma float_leb_ltb x y : (x <=? y)%float = true -> (y <? x)%float = false.
Proof. intros H. destruct (y <? x)%float eqn:E; [|done]. apply float_ltb_leb in E. congruence. Qed.

(** [c] is a candidate that the choice may have made after [best]. *)
Definition improves (best : option reasoningCandidate) (c : reasoningCandidate) : Prop :=
  match best with None => True | Some b => c = b \/ (rc_score b <=? rc_score c)%float = true end.
Definition not_outscored (c : reasoningCandidate) (others : list reasoningCandidate) : Prop :=
  Forall (fun d => (rc_score c <? rc_score d)%float = false) others.

Lemma improves_refl c : improves (Some c) c.
Proof. by left. Qed.
Lemma improves_trans b c d : improves (Some b) c -> improves (Some c) d -> improves (Some b) d.
Proof.
  intros [->|Hbc] [->|Hcd]; cbn; auto. right. by eapply float_leb_trans.
Qed.
Lemma improves_not_below b c : improves (Some b) c -> (rc_score c <? rc_score b)%float = false.
Proof. intros [->|H]; [apply float_ltb_irrefl|by apply float_leb_ltb]. Qed.

(** One choice: what follows the choice also follows both that it chose from. *)
Lemma choice_step best k c :
  let best' := if score_at_least k best then Some k else best in
  match best' with Some b => improves (Some b) c | None => False end ->
  improves best c /\ (rc_score c <? rc_score k)%float = false.
Proof.
  destruct best as [b|]; cbn; [|intros H; split; [done|]; by apply improves_not_below].
  destruct (rc_score b <=? rc_score k)%float eqn:Hbk; intros H.
  - split; [|by apply improves_not_below]. eapply improves_trans; [|exact H]. by right.
  - split; [exact H|]. destruct (rc_score c <? rc_score k)%float eqn:E; [|done]. destruct H as [->|H].
    + apply float_ltb_leb_incl in E. congruence.
    + pose proof (float_leb_ltb_trans _ _ _ H E) as E'. apply float_ltb_leb_incl in E'. congruence.
Qed.

(** ** Computations that do not ask the agent *)
Class Quiet {A} (f : AT A) : Prop := quiet : forall s, io_calls (exec f s) = io_calls s.
#[export] Instance quiet_ret {A} (x : A) : Quiet (mret x).
Proof. done. Qed.
#[export] Instance quiet_gets {A} (f : AgentIO -> A) : Quiet (gets f).
Proof. done. Qed.
#[export] Instance quiet_bind {A B} (f : AT A) (g : A -> AT B) : Quiet f -> (forall x, Quiet (g x)) -> Quiet (f ≫= g).
Proof. intros Hf Hg s. st_simpl. by rewrite Hg, Hf. Qed.
#[export] Instance quiet_if {A} (b : bool) (f g : AT A) : Quiet f -> Quiet g -> Quiet (if b then f else g).
Proof. by destruct b. Qed.
#[export] Instance quiet_live (f : option Collector -> option Collector) : Quiet (modify (fun s => s <| io_live ::= f |>)).
Proof. done. Qed.
#[export] Instance quiet_record (e : Effect) : Quiet (record_effect e).
Proof. done. Qed.

Section ReasoningProps.
Context (nowAt : nat -> Time) (worker : string -> Worker) (selfLearn : SelfLearning).
Abbreviation parseReasoningCandidate := (parseReasoningCandidate nowAt selfLearn).
Abbreviation reasoning_rounds := (reasoning_rounds nowAt worker selfLearn).
Abbreviation critic_rounds := (critic_rounds nowAt worker selfLearn).
Abbreviation executeAgentWithReasoning := (executeAgentWithReasoning nowAt worker selfLearn).

#[export] Instance quiet_now : Quiet (time_Now nowAt).
Proof. done. Qed.
#[export] Instance quiet_evaluate Ev trace : Quiet (evaluate_trace nowAt Ev trace).
Proof.
  unfold evaluate_trace. apply quiet_bind; [apply _|intros n]. destruct (Ev n trace) as [ev [err|]]; apply _.
Qed.
#[export] Instance quiet_score task acc agent result response rags :
  Quiet (scoreReasoningCandidate nowAt selfLearn task acc agent result response rags).
Proof.
  unfold scoreReasoningCandidate. apply quiet_if; [apply _|]. destruct (evaluator selfLearn) as [Ev|]; [|apply _].
  repeat (apply quiet_bind; [apply _|intros ?]). apply _.
Qed.
#[export] Instance quiet_parse base reasoning acc agent result round queries feedback :
  Quiet (parseReasoningCandidate base reasoning acc agent result round queries feedback).
Proof.
  unfold Reasoning.parseReasoningCandidate. apply quiet_bind; [apply _|intros ?]. apply quiet_bind.
  - apply quiet_if; [apply _|]. destruct (sl_retriever selfLearn); apply _.
  - intros rags. apply quiet_bind; [apply _|]. intros [ev score]. apply _.
Qed.
#[export] Instance quiet_completed task acc agent result : Quiet (completed_result nowAt task acc agent result).
Proof. unfold completed_result. apply _. Qed.
#[export] Instance quiet_failed task agent message : Quiet (stream_failed nowAt task agent message).
Proof. unfold stream_failed. apply _. Qed.
#[export] Instance quiet_delta task delta : Quiet (publishAgentDelta nowAt task delta).
Proof. unfold publishAgentDelta, ObserveLiveRealtimeDelta, publishRuntimeEvent. apply _. Qed.
#[export] Instance quiet_stream task agent items final : Quiet (stream_loop nowAt task agent items final).
Proof. revert final. induction items as [|[] items IH]; intros final; cbn; [destruct final|..]; apply _. Qed.

Abbreviation call := (string * Task * AgentResult)%type.
Lemma call_Execute_spec id task s :
  io_calls (exec (call_Execute worker id task) s) = io_calls s ++ [(id, task, eval (call_Execute worker id task) s)].
Proof. done. Qed.

(** ** Tasks keep their identity *)

(** The same task with other hints, and the same task asked in other words. *)
Definition rehinted (t t' : Task) : Prop := exists hints, t' = t <| RoutingHints := hints |>.
Definition reworded (t t' : Task) : Prop :=
  exists text hints, t' = t <| Input ::= (fun i => i <| Description := text |>) |> <| RoutingHints := hints |>.
Lemma rehinted_refl t : rehinted t t.
Proof. exists (RoutingHints t). by destruct t. Qed.
Lemma rehinted_trans t1 t2 t3 : rehinted t1 t2 -> rehinted t2 t3 -> rehinted t1 t3.
Proof. intros [h ->] [h' ->]. by exists h'. Qed.
Lemma reworded_trans t1 t2 t3 : rehinted t1 t2 -> reworded t2 t3 -> reworded t1 t3.
Proof. intros [h ->] (d & h' & ->). by exists d, h'. Qed.
Lemma reworded_refl t : reworded t t.
Proof. exists (Description (Input t)), (RoutingHints t). destruct t as [? ? ? ? ? ? ? ? ? ? ? ? []]. done. Qed.

Lemma reasoning_task_reworded t acc round total qs fb : reworded t (buildReasoningExecutionTask t acc round total qs fb).
Proof. eexists _, _. reflexivity. Qed.
Lemma critique_task_reworded t acc r n : reworded t (buildCritiqueTask t acc r n).
Proof. eexists _, _. reflexivity. Qed.
Lemma enriched_rehinted t thought critic n : rehinted t (enrichTaskWithReasoningContext t thought critic n).
Proof. eexists. reflexivity. Qed.

Section Agent.
Context (acc : TaskAcceptance) (agent : AgentInfo).

Lemma parse_spec base t raw round qs fb s :
  exists c, eval (parseReasoningCandidate base t acc agent raw round qs fb) s = (rc_task c, c) /\ rehinted base (rc_task c).
Proof.
  unfold Reasoning.parseReasoningCandidate. rewrite !eval_bind. cbv zeta.
  destruct (eval (scoreReasoningCandidate _ _ _ _ _ _ _ _) _) as [ev score]. rewrite eval_ret.
  lazymatch goal with |- exists c, (_, ?c0) = _ /\ _ => exists c0 end. split; [reflexivity|]. eexists. reflexivity.
Qed.

(** The candidate [c] is what one of the rounds made of the agent's answer. *)
Definition scored (x : call) (c : reasoningCandidate) : Prop :=
  exists base round qs fb s, c = (eval (parseReasoningCandidate base x.1.2 acc agent x.2 round qs fb) s).2.
(** A call to this agent about the task. *)
Definition about (t : Task) (x : call) : Prop := x.1.1 = InfoID agent /\ reworded t x.1.2.

Definition plausible (c : reasoningCandidate) : Prop := structured (rc_response c) = true.
(** What the rounds report about the calls they made, with [best] to start from. *)
Definition rounds_report (t : Task) (best : option reasoningCandidate) (calls : list call) (outcome : rounds_end) : Prop :=
  match outcome with
  | Plain r => exists x pre, calls = pre ++ [x] /\ x.2 = r /\ exists c, scored x c /\ structured (rc_response c) = false
  | Best b qs => exists cands, Forall2 scored calls cands /\ Forall plausible cands /\
      match b with
      | None => best = None /\ cands = []
      | Some c => (best = Some c \/ c ∈ cands) /\ improves best c /\ not_outscored c cands /\
                  (best = Some c \/ rehinted t (rc_task c))
      end
  end.

Lemma rounds_report_cons t t' best k x calls outcome :
  scored x k -> plausible k -> rehinted t (rc_task k) -> t' = rc_task k ->
  rounds_report t' (if score_at_least k best then Some k else best) calls outcome ->
  rounds_report t best (x :: calls) outcome.
Proof.
  intros Hx Hk Hr -> H. destruct outcome as [r|[c|] qs]; cbn in *.
  - destruct H as (y & pre & -> & H). by exists y, (x :: pre).
  - destruct H as (cands & Hs & Hp & Hc & Hi & Hn & Ht). exists (k :: cands).
    destruct (choice_step best k c) as [Hi' Hk'].
    { cbn zeta. destruct best as [b|]; cbn in *; [|done]. by destruct (rc_score b <=? rc_score k)%float. }
    split_and!; [by constructor|by constructor| |done|by constructor|].
    + destruct Hc as [Hc|Hc]; [|right; by right]. destruct (score_at_least k best); [|by left].
      injection Hc as ->. right. by left.
    + destruct Ht as [Ht|Ht]; [|right; by eapply rehinted_trans].
      destruct (score_at_least k best); [|by left]. injection Ht as ->. by right.
  - destruct H as (cands & Hs & Hp & Hc & ->). destruct best as [b|]; cbn in *; [|done].
    by destruct (rc_score b <=? rc_score k)%float.
Qed.

Lemma reasoning_rounds_spec rounds round total t qs best s : (0 < rounds)%nat ->
  exists calls, io_calls (exec (reasoning_rounds rounds round total acc agent t qs best) s) = io_calls s ++ calls /\
    (1 <= length calls <= rounds)%nat /\ Forall (about t) calls /\
    rounds_report t best calls (eval (reasoning_rounds rounds round total acc agent t qs best) s).
Proof.
  revert round t qs best s. induction rounds as [|rounds IH]; intros round t qs best s Hpos; [lia|].
  cbn [Reasoning.reasoning_rounds]. set (rt := buildReasoningExecutionTask t acc round total qs []).
  rewrite exec_bind, eval_bind. set (s1 := exec (call_Execute worker (InfoID agent) rt) s).
  set (raw := eval (call_Execute worker (InfoID agent) rt) s).
  assert (io_calls s1 = io_calls s ++ [(InfoID agent, rt, raw)]) as H1 by apply call_Execute_spec.
  clearbody s1 raw. rewrite exec_bind, eval_bind.
  destruct (parse_spec t rt raw round qs [] s1) as (c & Hc & Hr). rewrite Hc. cbv beta iota zeta.
  assert (scored (InfoID agent, rt, raw) c) as Hsc.
  { exists t, round, qs, [], s1. cbn [fst snd]. by rewrite Hc. }
  set (s2 := exec (parseReasoningCandidate t rt acc agent raw round qs []) s1).
  assert (io_calls s2 = io_calls s ++ [(InfoID agent, rt, raw)]) as H2 by (subst s2; by rewrite quiet).
  clearbody s2. assert (about t (InfoID agent, rt, raw)) as Hab by (split; [done|apply reasoning_task_reworded]).
  destruct (structured (rc_response c)) eqn:Hst; cbn [negb].
  2: { rewrite exec_ret, eval_ret. exists [(InfoID agent, rt, raw)]. split_and!; [done|cbn; lia|cbn; lia|by constructor|].
       exists (InfoID agent, rt, raw), []. split_and!; [done|done|]. by exists c. }
  set (b1 := if score_at_least c best then Some c else best).
  assert (rounds_report t best [(InfoID agent, rt, raw)] (Best b1 qs)) as Hlast.
  { eapply (rounds_report_cons t _ best c); [done|done|done|done|]. fold b1. exists []. subst b1.
    destruct best as [b|]; cbn; [destruct (rc_score b <=? rc_score c)%float|]; split_and!; auto using improves_refl; constructor. }
  destruct (negb _ && _ && _); [|].
  2: { rewrite exec_ret, eval_ret. exists [(InfoID agent, rt, raw)]. split_and!; [done|cbn; lia|cbn; lia|by constructor|done]. }
  destruct (decide (rounds = 0%nat)) as [->|Hne].
  { cbn [Reasoning.reasoning_rounds]. rewrite exec_ret, eval_ret.
    exists [(InfoID agent, rt, raw)]. split_and!; [done|cbn; lia|cbn; lia|by constructor|done]. }
  destruct (IH (round + 1) (rc_task c) (qs ++ [RAGQuery (rc_response c)]) b1 s2) as (calls & H3 & Hl & Hf & Hrep); [lia|].
  exists ((InfoID agent, rt, raw) :: calls). rewrite H3, H2, <- app_assoc. split_and!; [done|cbn; lia|cbn; lia| |].
  - constructor; [done|]. eapply Forall_impl; [exact Hf|]. intros x [Hx1 Hx2]. split; [done|].
    by eapply reworded_trans.
  - by eapply rounds_report_cons.
Qed.

Lemma critic_rounds_spec rounds n total t qs fb current s : rehinted t (rc_task current) ->
  let f := eval (critic_rounds rounds n total acc agent qs fb current) s in
  exists calls, io_calls (exec (critic_rounds rounds n total acc agent qs fb current) s) = io_calls s ++ calls /\
    (length calls <= 2 * rounds)%nat /\ Forall (about t) calls /\
    improves (Some current) f /\ rehinted t (rc_task f) /\
    (f = current \/ exists x, x ∈ calls /\ scored x f /\ plausible f).
Proof.
  revert n fb current s. induction rounds as [|rounds IH]; intros n fb current s Ht f.
  { exists []. rewrite app_nil_r. split_and!; [done|cbn; lia|constructor|apply improves_refl|done|by left]. }
  subst f. cbn [Reasoning.critic_rounds].
  set (ct := buildCritiqueTask (rc_task current) acc (rc_result current) n).
  rewrite exec_bind, eval_bind. set (s1 := exec (call_Execute worker (InfoID agent) ct) s).
  set (critique := eval (call_Execute worker (InfoID agent) ct) s).
  assert (io_calls s1 = io_calls s ++ [(InfoID agent, ct, critique)]) as H1 by apply call_Execute_spec.
  assert (about t (InfoID agent, ct, critique)) as Hab1.
  { split; [done|]. eapply reworded_trans; [exact Ht|apply critique_task_reworded]. }
  clearbody s1 critique. cbv zeta.
  destruct (String.eqb _ "" || negb _).
  { exists [(InfoID agent, ct, critique)]. rewrite exec_ret, eval_ret.
    split_and!; [done|cbn; lia|by constructor|apply improves_refl|done|by left]. }
  set (fb' := fb ++ _). set (revised := enrichTaskWithReasoningContext _ _ _ _).
  assert (rehinted t revised) as Hrev by (eapply rehinted_trans; [exact Ht|apply enriched_rehinted]).
  clearbody fb' revised. set (rt := buildReasoningExecutionTask revised _ _ _ _ _).
  assert (reworded t rt) as Hrt by (eapply reworded_trans; [exact Hrev|apply reasoning_task_reworded]).
  rewrite exec_bind, eval_bind. set (s2 := exec (call_Execute worker (InfoID agent) rt) s1).
  set (raw := eval (call_Execute worker (InfoID agent) rt) s1).
  assert (io_calls s2 = io_calls s ++ [(InfoID agent, ct, critique); (InfoID agent, rt, raw)]) as H2.
  { subst s2. rewrite call_Execute_spec, H1, <- app_assoc. done. }
  clearbody s2 raw rt. rewrite exec_bind, eval_bind.
  destruct (parse_spec revised rt raw (total + n) qs fb' s2) as (c & Hc & Hr). rewrite Hc. cbv beta iota zeta.
  assert (scored (InfoID agent, rt, raw) c) as Hsc.
  { exists revised, (total + n), qs, fb', s2. cbn [fst snd]. by rewrite Hc. }
  set (s3 := exec (parseReasoningCandidate revised rt acc agent raw (total + n) qs fb') s2).
  assert (io_calls s3 = io_calls s2) as H3 by (subst s3; by rewrite quiet). clearbody s3.
  assert (Forall (about t) [(InfoID agent, ct, critique); (InfoID agent, rt, raw)]) as Hab2
    by (apply Forall_cons; split; [done|apply Forall_cons; by split]).
  destruct (structured (rc_response c)) eqn:Hst; cbn [negb].
  2: { exists [(InfoID agent, ct, critique); (InfoID agent, rt, raw)]. rewrite exec_ret, eval_ret, H3.
       split_and!; [done|cbn; lia|done|apply improves_refl|done|by left]. }
  destruct (rc_score current <=? rc_score c)%float eqn:Hle.
  2: { exists [(InfoID agent, ct, critique); (InfoID agent, rt, raw)]. rewrite exec_ret, eval_ret, H3.
       split_and!; [done|cbn; lia|done|apply improves_refl|done|by left]. }
  destruct (IH (n + 1) fb' c s3) as (calls & H4 & Hl & Hf & Hi & Htf & Hfrom); [by eapply rehinted_trans|].
  exists ([(InfoID agent, ct, critique); (InfoID agent, rt, raw)] ++ calls).
  rewrite H4, H3, H2, <- app_assoc. split_and!; [done|rewrite length_app; cbn; lia| | |done|].
  - by apply Forall_app.
  - eapply improves_trans; [|exact Hi]. by right.
  - right. destruct Hfrom as [->|(x & Hx & Hs)].
    + exists (InfoID agent, rt, raw). split; [|done]. rewrite elem_of_app. left. right. by left.
    + exists x. split; [|done]. rewrite elem_of_app. by right.
Qed.

Lemma completed_result_spec t r s :
  let r' := eval (completed_result nowAt t acc agent r) s in
  ResStatus r' = ResStatus r /\ Output r' = Output r /\ Errors r' = Errors r /\
  (ResTaskID r <> "" -> ResTaskID r' = ResTaskID r) /\ (ResAgentID r <> "" -> ResAgentID r' = ResAgentID r) /\
  (ResTaskID r = "" -> ResTaskID r' = ID t) /\ (ResAgentID r = "" -> ResAgentID r' = InfoID agent).
Proof.
  unfold completed_result. cbv zeta.
  destruct (String.eqb_spec (ResTaskID r) "") as [E1|E1];
    (match goal with |- context [String.eqb (ResAgentID ?x) ""] => change (ResAgentID x) with (ResAgentID r) end;
     destruct (String.eqb_spec (ResAgentID r) "") as [E2|E2]);
    repeat case_match; st_simpl; split_and!; done.
Qed.
End Agent.

(** Without reasoning the agent is asked once, whether it streams or not. *)
Lemma single_call task agent s :
  let m := match ExecuteStream (worker (InfoID agent)) with
           | Some stream => executeStreamingAgent nowAt task agent stream
           | None => call_Execute worker (InfoID agent) task
           end in
  io_calls (exec m s) = io_calls s ++ [(InfoID agent, task, eval m s)].
Proof.
  cbv zeta. destruct (ExecuteStream _) as [stream|]; [|done].
  unfold executeStreamingAgent. rewrite exec_bind, eval_bind.
  set (f := match stream _ task with inl _ => _ | inr _ => _ end).
  assert (Quiet f) as Hf by (subst f; destruct (stream _ task); apply _).
  rewrite exec_bind, eval_bind, exec_bind, eval_bind, exec_ret, eval_ret. set (r := eval f _).
  change (io_calls (exec f s) ++ [(InfoID agent, task, r)] = io_calls s ++ [(InfoID agent, task, r)]).
  by rewrite quiet.
Qed.

(** The largest number of times a task is put to an agent. *)
Definition call_bound (task : Task) (acceptance : TaskAcceptance) : Z :=
  if shouldUseSelfLearningReasoning selfLearn task acceptance
  then maxInt 1 (reasoningMaxRounds selfLearn) +
       (if criticEnabled selfLearn then 2 * maxInt 1 (criticMaxRounds selfLearn) else 0)
  else 1.
(** The reviews of the best candidate, when there are critics and it has something to review. *)
Lemma review_spec task acceptance agent total qs b (something : bool) s : rehinted task (rc_task b) ->
  let m := if criticEnabled selfLearn && something
           then critic_rounds (Z.to_nat (maxInt 1 (criticMaxRounds selfLearn))) 1 total acceptance agent qs [] b
           else mret b in
  exists reviews, io_calls (exec m s) = io_calls s ++ reviews /\
    len reviews <= (if criticEnabled selfLearn then 2 * maxInt 1 (criticMaxRounds selfLearn) else 0) /\
    Forall (about agent task) reviews /\ improves (Some b) (eval m s) /\ rehinted task (rc_task (eval m s)) /\
    (eval m s = b \/ exists x, x ∈ reviews /\ scored acceptance agent x (eval m s) /\ plausible (eval m s)).
Proof.
  intros Hrb m. subst m.
  assert (0 <= maxInt 1 (criticMaxRounds selfLearn)) as Hcrit
    by (unfold maxInt; destruct (Z.ltb_spec (criticMaxRounds selfLearn) 1); lia).
  destruct (criticEnabled selfLearn && something) eqn:Hcr.
  - apply andb_true_iff in Hcr as [-> _].
    destruct (critic_rounds_spec acceptance agent (Z.to_nat (maxInt 1 (criticMaxRounds selfLearn))) 1 total
      task qs [] b s Hrb) as (reviews & H2 & Hl2 & Hrest). exists reviews. unfold len. split_and!; [done|lia|apply Hrest..].
  - exists []. rewrite exec_ret, eval_ret, app_nil_r. unfold len. cbn.
    split_and!; [done|destruct (criticEnabled selfLearn); lia|constructor|apply improves_refl|done|by left].
Qed.

(** Where the result [r] comes from, when [calls] were the calls of the rounds and [reviews] those of
    the critics. *)
Definition answered (task : Task) (acceptance : TaskAcceptance) (agent : AgentInfo) (calls reviews : list call)
  (task' : Task) (r : AgentResult) : Prop :=
  (exists x pre, calls = pre ++ [x] /\ reviews = [] /\ r = x.2 /\ task' = task /\
     (shouldUseSelfLearningReasoning selfLearn task acceptance = true ->
      exists c, scored acceptance agent x c /\ structured (rc_response c) = false)) \/
  exists cands b final, Forall2 (scored acceptance agent) calls cands /\ Forall plausible cands /\
    b ∈ cands /\ not_outscored b cands /\ improves (Some b) final /\
    (final = b \/ exists x, x ∈ reviews /\ scored acceptance agent x final /\ plausible final) /\
    task' = rc_task final /\ ResStatus r = ResStatus (rc_result final) /\ Output r = Output (rc_result final).

Lemma agent_answers_spec task acceptance (agent : Agent) s :
  let '(s', (task', r, _)) := executeAgentWithReasoning task acceptance agent s in
  rehinted task task' /\
  exists calls reviews, io_calls s' = io_calls s ++ calls ++ reviews /\
    1 <= len calls /\ len (calls ++ reviews) <= call_bound task acceptance /\
    Forall (about (Info agent) task) (calls ++ reviews) /\
    answered task acceptance (Info agent) calls reviews task' r.
Proof.
  rewrite (surjective_pairing (executeAgentWithReasoning task acceptance agent s)).
  change (executeAgentWithReasoning task acceptance agent s).1 with (exec (executeAgentWithReasoning task acceptance agent) s).
  change (executeAgentWithReasoning task acceptance agent s).2 with (eval (executeAgentWithReasoning task acceptance agent) s).
  unfold Reasoning.executeAgentWithReasoning, call_bound, answered.
  rewrite exec_bind, eval_bind. set (s0 := exec (time_Now nowAt) s). set (t0 := eval (time_Now nowAt) s).
  assert (io_calls s0 = io_calls s) as H0 by done. clearbody s0 t0. cbv zeta.
  destruct (shouldUseSelfLearningReasoning selfLearn task acceptance); cbn [negb].
  - set (total := maxInt 1 (reasoningMaxRounds selfLearn)). assert (1 <= total) as Htot
      by (subst total; unfold maxInt; destruct (Z.ltb_spec (reasoningMaxRounds selfLearn) 1); lia).
    assert (0 <= if criticEnabled selfLearn then 2 * maxInt 1 (criticMaxRounds selfLearn) else 0) as Hcrit
      by (unfold maxInt; destruct (criticEnabled selfLearn), (Z.ltb_spec (criticMaxRounds selfLearn) 1); lia).
    rewrite exec_bind, eval_bind.
    destruct (reasoning_rounds_spec acceptance (Info agent) (Z.to_nat total) 1 total task [] None s0)
      as (calls & H1 & Hl & Hf & Hrep); [lia|].
    set (s1 := exec (reasoning_rounds _ _ _ _ _ _ _ _) s0) in *. clearbody s1.
    destruct (eval (reasoning_rounds _ _ _ _ _ _ _ _) s0) as [r|[b|] qs].
    + destruct Hrep as (x & pre & Hc & Hx & Hplain). rewrite exec_bind, eval_bind. cbn [fst snd].
      st_simpl. cbv beta iota zeta. split; [apply rehinted_refl|]. exists calls, []. rewrite app_nil_r.
      split_and!; [by rewrite <- H0|unfold len; lia|unfold len; lia|done|].
      left. exists x, pre. split_and!; [done|done|done|done|]. done.
    + destruct Hrep as (cands & Hs & Hp & Hin & _ & Hn & Hbt).
      assert (b ∈ cands) as Hb by (destruct Hin; done). assert (rehinted task (rc_task b)) as Hrb by (destruct Hbt; done).
      rewrite exec_bind, eval_bind.
      set (m := if criticEnabled selfLearn && _ then _ else _).
      destruct (review_spec task acceptance (Info agent) total qs b
        (non_blank (Thought (rc_response b)) || non_blank (Code (rc_response b))) s1 Hrb) as (reviews & H2 & Hl2 & Hf2 & Hi & Hrt & Hfrom).
      fold m in H2, Hi, Hrt, Hfrom.
      set (s2 := exec m s1) in *. set (final := eval m s1) in *. clearbody s2 final. clear m.
      rewrite exec_bind, eval_bind.
      pose proof (completed_result_spec acceptance (Info agent) task (rc_result final) s2) as (Hr1 & Hr2 & _).
      pose proof (quiet (f := completed_result nowAt task acceptance (Info agent) (rc_result final)) s2) as H3.
      set (r := eval (completed_result _ _ _ _ _) s2) in *. set (s3 := exec (completed_result _ _ _ _ _) s2) in *.
      clearbody r s3. rewrite exec_bind, eval_bind. cbn [fst snd]. st_simpl. cbv beta iota zeta.
      split; [done|]. exists calls, reviews.
      split_and!.
      * change (io_calls s3 = io_calls s ++ calls ++ reviews). by rewrite H3, H2, H1, H0, app_assoc.
      * unfold len. lia.
      * unfold len in *. rewrite length_app. lia.
      * by apply Forall_app.
      * right. exists cands, b, final. split_and!; done.
    + destruct Hrep as (cands & Hs & _ & _ & ->). apply Forall2_nil_inv_r in Hs as ->. cbn in Hl. lia.
  - set (m := match ExecuteStream _ with Some _ => _ | None => _ end).
    pose proof (single_call task (Info agent) s0) as Hm. cbv zeta in Hm. fold m in Hm.
    rewrite exec_bind, eval_bind. set (s1 := exec m s0) in *. set (r := eval m s0) in *. clearbody s1 r m.
    rewrite exec_bind, eval_bind, eval_ret, exec_ret. cbv beta iota zeta. split; [apply rehinted_refl|].
    exists [(InfoID (Info agent), task, r)], [].
    assert (about (Info agent) task (InfoID (Info agent), task, r)) as Hab by (split; [done|apply reworded_refl]).
    split_and!; [|done|done|by apply Forall_cons|].
    + change (io_calls s1 = io_calls s ++ [(InfoID (Info agent), task, r)] ++ []). by rewrite app_nil_r, Hm, H0.
    + left. by exists (InfoID (Info agent), task, r), [].
Qed.

(** C27: What comes back from an agent.  Execution always ends, after at least one and at most
    max(1, reasoning rounds) + 2 max(1, critic rounds) calls, all to this agent and all about the given
    task, from which only the wording and the hints may differ; so does the task that is returned.
    The result is the last answer, unchanged and with the task unchanged, when the agent was asked
    without reasoning or answered without structure; otherwise every answer of the rounds was
    structured, none of them has a higher score than the best one, and the result is the best one or a
    revision of it that does not score less. *)
Theorem agent_answers task acceptance (agent : Agent) s :
  let '(s', (task', r, _)) := executeAgentWithReasoning task acceptance agent s in
  rehinted task task' /\
  exists calls reviews, io_calls s' = io_calls s ++ calls ++ reviews /\
    1 <= len calls /\ len (calls ++ reviews) <= call_bound task acceptance /\
    Forall (about (Info agent) task) (calls ++ reviews) /\
    answered task acceptance (Info agent) calls reviews task' r.
Proof. exact (agent_answers_spec task acceptance agent s). Qed.
End ReasoningProps.

(** ** Examples *)
Definition answer (status : TaskStatus) (summary : string) : AgentResult :=
  mkAgentResult "t1" "coder" status 0 [] [] "local" "qwen" (mkResultOutput summary [] [] [] []) 100.
Definition rounds_of_three : SelfLearning :=
  mkSelfLearning true None None "" (Some (fun _ _ => [mkRAGResult "doc" "Use a map."])) true 3 false 1.
Definition sample_task : Task :=
  zero_task <| ID := "t1" |> <| Type_ := TaskTypeCode |> <| Input := mkTaskInput "Count words." [] [] [] |>.
Definition sample_acceptance : TaskAcceptance :=
  mkTaskAcceptance "t1" TaskStatusAccepted "coder" ComplexityLow "" "code" "local" "qwen" false 90.
Definition sample_agent : Agent :=
  mkAgent (mkAgentInfo "coder" "coder" "local" "qwen" ["code"] AgentStatusReady) (fun _ => true) false.
Definition run_sample (answers : nat -> Task -> AgentResult) : AgentResult * nat :=
  let '(s, (_, r, _)) := executeAgentWithReasoning (fun n => 100 + Z.of_nat n) (fun _ => mkWorker answers None)
    rounds_of_three sample_task sample_acceptance sample_agent (mkAgentIO [] 0 None []) in
  (r, length (io_calls s)).

(** The first answer has code and asks for a document, the second call times out: the code is lost and
    the task fails. *)
Example late_failure_discards_code :
  let '(r, calls) := run_sample (fun n _ => match n with
    | O => answer TaskStatusCompleted "<thought>plan</thought><rag_query>maps</rag_query><code>count()</code>Done."
    | _ => answer TaskStatusFailed "timeout" end) in
  calls = 2%nat /\ ResStatus r = TaskStatusFailed /\ Summary (Output r) = "timeout" /\ OutputArtifacts (Output r) = [].
Proof. vm_compute. repeat split. Qed.

(** The text after the tags is cut at its first [<]. *)
Example answer_cut_at_bracket :
  let '(r, calls) := run_sample (fun _ _ =>
    answer TaskStatusCompleted "<thought>plan</thought>Loop while i < n and print the sum.") in
  calls = 1%nat /\ Summary (Output r) = "Loop while i".
Proof. vm_compute. repeat split. Qed.
