(* ===== verification/ExecutionRecords.v ===== *)
(** * What is recorded about an execution (kernel/orchestrator.go)

    After every attempt the reasoning trace of the task is built from its hints and result, the
    session state is merged and saved, the memory gets its records and, when a recorder is attached,
    self learning its trace. *)
From S2P Require Import Prelude GoLib GoJSON Domain TaskPolicy StateMonad AgentRegistry Router PlanScheduling.
From S2P Require Import ExecutionEffects Reasoning.
From Stdlib Require Import PrimFloat.

Definition defaultBranch (branch : string) : string := if String.eqb branch "" then "default" else branch.

(** ** Reading values of the hints *)

(** A [[]domain.SupportLane]: a list of structs, each its fields. *)
Fixpoint lanes_of (values : list any) : option (list anymap) :=
  match values with
  | [] => Some []
  | AStruct lane :: values => cons lane <$> lanes_of values
  | _ :: _ => None
  end.
Definition normalizeSupportLanes (value : any) : list anymap :=
  match value with AList values => default [] (lanes_of values) | _ => [] end.
Definition normalizeAnyMap (value : any) : anymap :=
  match value with AMap mapped => cloneMap mapped | _ => [] end.
Definition normalizeInt (value : any) : Z :=
  match value with AInt n => n | AFloat f => int_of_float f | _ => 0 end.
Definition asFloat64 (value : any) : float :=
  match value with AFloat f => f | AInt n => float_of_int n | _ => 0%float end.
Definition lane_text (lane : anymap) (field : string) : string := kernelString (aget_any lane field).

(** ** The reasoning trace *)
Definition summarizeTaskReflection (task : Task) (acceptance : TaskAcceptance) (result : AgentResult)
  (supportLanes : list anymap) (memoryCtx : anymap) : string :=
  let helper lane := firstNonEmptyString [TrimSpace (lane_text lane "role"); TrimSpace (lane_text lane "provider")] in
  let brief := TrimSpace (kernelString (aget_any memoryCtx "reasoning_memory_brief")) in
  let summary := TrimSpace (Summary (Output result)) in
  Join (["provider=" +:+ AccProvider acceptance +:+ " model=" +:+ AccModelName acceptance +:+
           " capability=" +:+ RequiredCapability task] ++
        match supportLanes with [] => [] | _ => ["helpers=" +:+ Join (map helper supportLanes) ","] end ++
        (if String.eqb brief "" then [] else ["reasoning_memory=" +:+ truncateKernelText brief 160]) ++
        (if String.eqb summary "" then [] else ["result=" +:+ truncateKernelText summary 180])) "; ".

Definition inferReasoningMode (provider : string) (supportLanes : list anymap) : string :=
  match supportLanes with
  | _ :: _ => "hybrid_parallel"
  | [] => if mem_string (ToLower (TrimSpace provider)) ["ai_kernel"; "local"] then "local_reflection" else "single_route"
  end.

Definition buildReasoningDecisionPoints (selectionTrace : anymap) (supportLanes : list anymap)
  (acceptance : TaskAcceptance) (result : AgentResult) : list ReasoningDecisionPoint :=
  let lane_map lane := [("provider", AString (lane_text lane "provider")); ("model_name", AString (lane_text lane "model_name"));
                        ("role", AString (lane_text lane "role")); ("reason", AString (lane_text lane "reason"))] in
  match selectionTrace with
  | [] => []
  | _ => [mkReasoningDecisionPoint "selection" (truncateKernelText (kernelString (aget_any selectionTrace "reason")) 180)
            (firstNonEmptyString [AccProvider acceptance; AccModelName acceptance]) (cloneMap selectionTrace)]
  end ++
  match supportLanes with
  | [] => []
  | _ => [mkReasoningDecisionPoint "assistant_pool" ("attached " +:+ itoa (len supportLanes) +:+ " assistant lanes")
            "support_enabled" [("lanes", AMaps (map lane_map supportLanes))]]
  end ++
  [mkReasoningDecisionPoint "result" (truncateKernelText (Summary (Output result)) 180)
     (task_status_string (ResStatus result))
     [("provider", AString (ResProvider result)); ("model_name", AString (ResModelName result));
      ("error_count", AInt (len (Errors result)))]].

Definition summarizeNextQuestions (task : Task) : list string :=
  (if 0 <? len (AcceptanceCriteria (Input task)) then ["Какие acceptance criteria еще не покрыты полностью?"] else []) ++
  (if 1 <? len (InputFiles (Input task)) then ["Какие связанные файлы стоит проверить следующими?"] else []) ++
  ["Нужен ли дополнительный review или тестовый прогон?"].

(** Text that is there and not blank. *)
Definition retrieval_used (memoryContext : anymap) : bool :=
  match aget_any memoryContext "retrieval_provenance" with AMaps (_ :: _) => true | _ => false end ||
  non_blank (kernelString (aget_any memoryContext "vector_memory_brief")).
Definition buildReasoningTrace (now : Time) (task : Task) (acceptance : TaskAcceptance) (agent : AgentInfo)
  (result : AgentResult) (latency : Z) : ReasoningTrace :=
  let hint key := aget_any (RoutingHints task) key in
  let memoryContext := normalizeAnyMap (hint "memory_context") in
  let supportLanes := normalizeSupportLanes (hint "support_lanes") in
  let selectionTrace := normalizeAnyMap (hint "selection_trace") in
  let routeMemory := normalizeAnyMap (aget_any memoryContext "route_memory") in
  let metadata := [("project", AString (Project (Context_ task))); ("repo_path", AString (RepoPath (Context_ task)));
                   ("selection_trace", AMap selectionTrace)] in
  mkReasoningTrace
    (firstNonEmptyString [kernelString (hint "trace_id"); ID task +:+ "-reasoning"])
    (firstNonEmptyString [SessionID task; ID task]) (ID task) (ParentTaskID task)
    (firstNonEmptyString [ResAgentID result; InfoID agent; AccAgentID acceptance])
    (firstNonEmptyString [ResProvider result; AccProvider acceptance; InfoProvider agent])
    (firstNonEmptyString [ResModelName result; AccModelName acceptance; InfoModelName agent])
    (Type_ task) (defaultBranch (ContextBranch (Context_ task))) (summarizeTaskPrompt task)
    (summarizeTaskReflection task acceptance result supportLanes memoryContext)
    (truncateKernelText (Summary (Output result)) 280) (inferReasoningMode (AccProvider acceptance) supportLanes)
    (retrieval_used memoryContext) (normalizeInt (aget_any memoryContext "vector_memory_count"))
    (normalizeInt (aget_any routeMemory "route_memory_count"))
    (normalizeInt (aget_any memoryContext "reasoning_memory_count")) (Z.quot latency millisecond)
    (buildReasoningDecisionPoints selectionTrace supportLanes acceptance result) (summarizeNextQuestions task)
    metadata now.

(** ** Self learning *)
Definition statusToTraceRecordStatus (status : TaskStatus) : TraceRecordStatus :=
  match status with
  | TaskStatusDone => TraceRecordStatusSuccess
  | TaskStatusFailed => TraceRecordStatusFail
  | _ => TraceRecordStatusPending
  end.
Definition defaultTraceScore (status : TraceRecordStatus) : float :=
  match status with TraceRecordStatusSuccess => 1 | TraceRecordStatusFail => 0 | _ => 0.25 end%float.
Fixpoint firstNonZeroTime (values : list Time) : option Time :=
  match values with
  | [] => None
  | value :: values => if IsZero value then firstNonZeroTime values else Some value
  end.

Section Records.
Context (nowAt : nat -> Time).
Abbreviation time_Now := (time_Now nowAt).

(** [firstNonZeroTime(t, time.Now().UTC())]: the clock is read before the call. *)
Definition time_or_now (t : Time) : AT Time :=
  now ← time_Now;
  match firstNonZeroTime [t; now] with Some t => mret t | None => time_Now end.

Definition buildSelfLearningTrace (task : Task) (acceptance : TaskAcceptance) (agent : AgentInfo) (result : AgentResult)
  (latency : Z) (reasoningTrace : ReasoningTrace) : AT TraceRecord :=
  let code := extractGeneratedCode result in
  let thought := TrimSpace (kernelString (aget_any (RoutingHints task) "reasoning_context")) in
  let thought := if String.eqb thought "" then TrimSpace (ReflectionSummary reasoningTrace) else thought in
  let status := statusToTraceRecordStatus (ResStatus result) in
  completed ← time_or_now (CompletedAtResult result);
  created ← time_or_now (CompletedAtResult result);
  mret (mkTraceRecord
    (firstNonEmptyString [TrTraceID reasoningTrace; ID task +:+ "-selflearn"])
    (firstNonEmptyString [SessionID task; TrSessionID reasoningTrace]) (ID task)
    (firstNonEmptyString [ResProvider result; AccProvider acceptance; InfoProvider agent])
    (firstNonEmptyString [ResModelName result; AccModelName acceptance; InfoModelName agent])
    (summarizeTaskPrompt task) thought code (TrimSpace (Summary (Output result)))
    (mkCodeExecutionResult status "go" [] (defaultTraceScore status) "" "" (Join (Errors result) newline)
       (Z.quot latency millisecond) completed)
    [("agent_id", AString (firstNonEmptyString [ResAgentID result; InfoID agent]));
     ("required_capability", AString (RequiredCapability task)); ("task_type", AString (task_type_string (Type_ task)));
     ("files_changed", AStrings (FilesChanged (Output result))); ("commands_run", AStrings (CommandsRun (Output result)));
     ("next_recommendations", AStrings (NextRecommendations result))] created).

(** The evaluation a recorded trace ends with. *)
Definition settle_evaluation (result : AgentResult) (evaluation : CodeExecutionResult) : AT CodeExecutionResult :=
  completed ← (if IsZero (EvalCompletedAt evaluation) then time_Now else mret (EvalCompletedAt evaluation));
  let evaluation := evaluation <| EvalCompletedAt := completed |> in
  let evaluation := if bool_decide (EvalStatus evaluation = TraceRecordStatusOther "")
    then evaluation <| EvalStatus := statusToTraceRecordStatus (ResStatus result) |> else evaluation in
  mret (if (EvalScore evaluation =? 0)%float
        then evaluation <| EvalScore := defaultTraceScore (EvalStatus evaluation) |> else evaluation).

(** The goroutine of [scheduleSelfLearningFeedback]. *)
Definition self_learning_feedback (selfLearn : SelfLearning) (task : Task) (acceptance : TaskAcceptance) (agent : AgentInfo)
  (result : AgentResult) (latency : Z) (reasoningTrace : ReasoningTrace) : AT () :=
  trace ← buildSelfLearningTrace task acceptance agent result latency reasoningTrace;
  trace ← match evaluator selfLearn with
          | Some Evaluate =>
              if non_blank (GeneratedCode trace)
              then evaluation ← evaluate_trace nowAt Evaluate trace; mret (trace <| Evaluation := evaluation |>)
              else mret trace
          | None => mret trace
          end;
  evaluation ← settle_evaluation result (Evaluation trace);
  let trace := trace <| Evaluation := evaluation |> in
  match traceRecorder selfLearn with
  | None => mret ()
  | Some RecordTrace =>
      n ← gets io_clock;
      match RecordTrace n trace with
      | Some err =>
          publishRuntimeEvent "selflearn" "selflearn.trace_failed" (ID task)
            [("task_id", ev_string (ID task)); ("error", ev_string err)]
      | None =>
          publishRuntimeEvent "selflearn" "selflearn.trace_recorded" (ID task)
            [("task_id", ev_string (ID task)); ("trace_id", ev_string (RecTraceID trace));
             ("status", ev_string (trace_status_string (EvalStatus evaluation)));
             ("score", EvAny (AFloat (EvalScore evaluation))); ("model_name", ev_string (RecModelName trace));
             ("provider", ev_string (RecProvider trace)); ("latency_ms", ev_int (Z.quot latency millisecond));
             ("has_code", EvAny (ABool (negb (String.eqb (GeneratedCode trace) ""))));
             ("session_id", ev_string (RecSessionID trace)); ("dataset_dir", ev_string (datasetDir selfLearn))]
      end
  end.
Definition scheduleSelfLearningFeedback (selfLearn : SelfLearning) (task : Task) (acceptance : TaskAcceptance)
  (agent : AgentInfo) (result : AgentResult) (latency : Z) (reasoningTrace : ReasoningTrace) : AT () :=
  if sl_enabled selfLearn && bool_decide (is_Some (traceRecorder selfLearn))
  then record_effect (StartSelfLearningFeedback task acceptance agent result latency reasoningTrace)
  else mret ().

(** ** The session state *)

(** What [GetSessionState] finds: the state and the versions of prompt and context; errors count as nothing found. *)
Record StoredSession : Type := mkStoredSession {
  StoredState : anymap;
  PromptVersion : string;
  ContextVersion : string }.

Definition set_all (m entries : anymap) : anymap := foldl (fun m e => aset m e.1 e.2) m entries.
Definition session_entries (now : Time) (task : Task) (acceptance : TaskAcceptance) (agent : AgentInfo) : anymap :=
  [("session_id", AString (SessionID task)); ("task_id", AString (ID task)); ("task_type", AString (task_type_string (Type_ task)));
   ("project", AString (Project (Context_ task))); ("repo_path", AString (RepoPath (Context_ task)));
   ("branch", AString (defaultBranch (ContextBranch (Context_ task)))); ("agent_id", AString (InfoID agent));
   ("provider", AString (AccProvider acceptance)); ("model_name", AString (AccModelName acceptance));
   ("required_capability", AString (RequiredCapability task)); ("memory_scope", AString (MemoryScope task));
   ("memory_keys", AStrings (MemoryKeys task)); ("cache_policy", AString (CachePolicy task));
   ("updated_by", AString "go-core"); ("updated_at", time_any now)].
Definition version_or_default (existing : option StoredSession) (version : StoredSession -> string) : string :=
  match existing with
  | Some session => if non_blank (version session) then version session else "go-core"
  | None => "go-core"
  end.

(** [GetSessionState] by the moment at which it is called. *)
Context (getSession : nat -> string -> string -> option StoredSession).
Definition persistSessionState (task : Task) (acceptance : TaskAcceptance) (agent : AgentInfo) (extra : anymap) : AT () :=
  let branch := defaultBranch (ContextBranch (Context_ task)) in
  n ← gets io_clock;
  let existing := getSession n (SessionID task) branch in
  let stateValue := match existing with Some session => cloneMap (StoredState session) | None => [] end in
  now ← time_Now;
  let stateValue := set_all (set_all stateValue (session_entries now task acceptance agent)) extra in
  record_effect (SaveSessionState (SessionID task) branch stateValue (version_or_default existing PromptVersion)
                   (version_or_default existing ContextVersion)).

Definition persistExecutionState (selfLearn : SelfLearning) (task : Task) (acceptance : TaskAcceptance) (agent : AgentInfo)
  (result : AgentResult) (latency : Z) : AT () :=
  now ← time_Now;
  let trace := buildReasoningTrace now task acceptance agent result latency in
  completed ← time_Now;
  let payload :=
    [("last_result_status", AString (task_status_string (ResStatus result)));
     ("last_result_summary", AString (Summary (Output result))); ("last_completed_at", time_any completed);
     ("last_latency_ms", AInt (Z.quot latency millisecond)); ("last_reasoning_trace_id", AString (TrTraceID trace));
     ("last_reflection_summary", AString (ReflectionSummary trace)); ("last_reasoning_mode", AString (TrReasoningMode trace));
     ("last_retrieval_used", ABool (RetrievalUsed trace));
     ("last_reasoning_memory_count", AInt (ReasoningMemoryCount trace))] in
  persistSessionState task acceptance agent payload;;
  record_effect (RecordTaskExchange task result);;
  record_effect (RecordRouteOutcome task acceptance result latency);;
  record_effect (RecordReasoningTrace trace);;
  scheduleSelfLearningFeedback selfLearn task acceptance agent result latency trace.
End Records.
