(* ===== verification/PeerExecution.v ===== *)
(** * Executing a task on its peers (kernel/orchestrator.go)

    [executeTaskP2P] sends the task to the agent it was routed to through the delivery supervisor,
    executes it there and, when that fails, routes it to another agent that has not been tried.  The
    kernel's state is that of its parts: the runtime manager, the supervisor over a message bus and
    what execution changes.  The clock of each part counts its own readings.  What is written to the
    memory, the session store and the event hubs goes to the journal. *)
From S2P Require Import Prelude GoLib GoJSON Domain ContractJSON Bus Supervisor TaskPolicy StateMonad AgentRegistry RuntimeManager.
From S2P Require Import LiveRealtime Router PlanScheduling TraceParser ExecutionEffects Reasoning.
From S2P Require Import ExecutionRecords.
From Stdlib Require Import PrimFloat.

(** ** Pure helpers *)

(** [tried] lists the excluded agents in the order in which the map is walked. *)
Definition annotatePeerAttempt (task : Task) (acceptance : TaskAcceptance) (attempt : Z) (tried : list string) : Task :=
  let hints := cloneMap (RoutingHints task) in
  let hints := aset hints "peer_to_peer" (ABool true) in
  let hints := aset hints "p2p_attempt" (AInt attempt) in
  let hints := aset hints "p2p_agent_id" (AString (AccAgentID acceptance)) in
  let hints := aset hints "p2p_provider" (AString (AccProvider acceptance)) in
  let hints := aset hints "p2p_model_name" (AString (AccModelName acceptance)) in
  let hints := match tried with [] => hints | _ => aset hints "p2p_excluded_agents" (AStrings tried) end in
  task <| RoutingHints := hints |>.

Definition peer_failure (agent : AgentInfo) (result : AgentResult) (attempt latency : Z) : anymap :=
  [("attempt", AInt attempt); ("agent_id", AString (InfoID agent)); ("provider", AString (InfoProvider agent));
   ("model_name", AString (InfoModelName agent)); ("status", AString (task_status_string (ResStatus result)));
   ("summary", AString (Summary (Output result))); ("errors", AStrings (Errors result));
   ("latency_ms", AInt (Z.quot latency millisecond)); ("completed_at", time_any (CompletedAtResult result))].
(** Only a [[]map[string]any] counts as failures already recorded. *)
Definition recorded_failures (hints : anymap) : list anymap :=
  match aget hints "peer_failures" with Some (AMaps failures) => failures | _ => [] end.
Definition withFailureContext (task : Task) (agent : AgentInfo) (result : AgentResult) (attempt latency : Z) : Task :=
  let hints := cloneMap (RoutingHints task) in
  let failures := recorded_failures hints ++ [peer_failure agent result attempt latency] in
  task <| RoutingHints := aset hints "peer_failures" (AMaps failures) |>.

Definition rebindTaskAssignment (task : Task) (acceptance : TaskAcceptance) : Task :=
  let hints := cloneMap (RoutingHints task) in
  let hints := aset hints "selected_provider" (AString (AccProvider acceptance)) in
  let hints := aset hints "selected_model" (AString (AccModelName acceptance)) in
  task <| AssignedProvider := AccProvider acceptance |> <| AssignedModel := AccModelName acceptance |>
       <| RoutingHints := hints |>.

(** The copy of the validation context, with budget and pressure from the hints. *)
Definition validation_copy (validation hints : anymap) : anymap :=
  let copy := cloneMap validation in
  let copy := match aget hints "model_budget" with Some budget => aset copy "model_budget" budget | None => copy end in
  match aget hints "token_pressure" with Some pressure => aset copy "token_pressure" pressure | None => copy end.
(** The map of the memory is stored in the hints and written to afterwards: both hold the copy. *)
Definition with_runtime_context (runtimeContext : anymap) (task : Task) : Task :=
  let hints := cloneMap (RoutingHints task) in
  let copy_hint from to hints :=
    match aget runtimeContext from with Some v => aset hints to v | None => hints end in
  let context := match aget runtimeContext "validation_context" with
    | Some (AMap validation) => aset runtimeContext "validation_context" (AMap (validation_copy validation hints))
    | _ => runtimeContext end in
  let hints := aset hints "memory_context" (AMap context) in
  let hints := copy_hint "reasoning_memory_brief" "reasoning_context" hints in
  let hints := copy_hint "reasoning_trace_hits" "reasoning_trace_hits" hints in
  let hints := match aget context "validation_context" with
    | Some v => aset hints "validation_context" v | None => hints end in
  let hints := aset hints "session_id" (AString (SessionID task)) in
  let hints := aset hints "cache_policy" (AString (CachePolicy task)) in
  let hints := aset hints "memory_scope" (AString (MemoryScope task)) in
  task <| RoutingHints := hints |>.

(** [agentCount] is the number of registered agents. *)
Definition buildPeerEnvelope (agentCount : Z) (now : Time) (task : Task) (acceptance : TaskAcceptance)
  (plan : ExecutionPlan) (agent : AgentInfo) (attempt : Z) : TaskEnvelope :=
  let payload := mkTaskPayload (Description (Input task))
    [("task", task_any task); ("routing_hints", AMap (cloneMap (RoutingHints task)))]
    [("project", AString (Project (Context_ task))); ("repo_path", AString (RepoPath (Context_ task)));
     ("branch", AString (ContextBranch (Context_ task)))]
    (AcceptanceCriteria (Input task)) "domain.AgentResult" (InputFiles (Input task)) in
  zero_envelope <| ProtocolVersion := "go-core/p2p.v1" |> <| EnvTaskID := ID task |>
    <| EnvParentTaskID := ParentTaskID task |>
    <| TraceID := firstNonEmptyString [kernelString (aget_any (RoutingHints task) "trace_id"); ID task] |>
    <| CorrelationID := firstNonEmptyString [SessionID task; ID task] |>
    <| SourceAgent := "orchestrator" |> <| TargetAgent := InfoID agent |>
    <| TargetCapability := firstNonEmptyString [AccCapability acceptance; PrimaryCapability plan;
                             RequiredCapability task; task_type_string (Type_ task)] |>
    <| EnvPriority := priority_string (Priority_ task) |>
    <| ContextScope := defaultBranch (ContextBranch (Context_ task)) |>
    <| MaxHops := maxInt 1 agentCount |> <| RetryCount := maxInt 0 (attempt - 1) |>
    <| MaxRetries := maxInt 0 (agentCount - 1) |> <| Payload := payload |> <| EnvCreatedAt := now |>.

Definition failedAttemptResult (now : Time) (task : Task) (acceptance : TaskAcceptance) (agent : AgentInfo)
  (reason : string) : AgentResult :=
  mkAgentResult (ID task) (InfoID agent) TaskStatusFailed 0 [reason] [] (AccProvider acceptance)
    (AccModelName acceptance) (mkResultOutput reason [] [] [] []) now.

(** ** The kernel *)
Record Kernel (B : Type) : Type := mkKernel {
  kn_runtime : Runtime;
  kn_delivery : Supervisor B;
  kn_io : AgentIO }.
Arguments mkKernel {B}. Arguments kn_runtime {B}. Arguments kn_delivery {B}. Arguments kn_io {B}.
#[export] Instance eta_Kernel {B} : Updatable (Kernel B) := fun k => mkKernel (kn_runtime k) (kn_delivery k) (kn_io k).

(** What stands around the kernel: what the router consults; the memory's context of a task; the stored
    sessions; for the
    execution slots, as one task sees them, the error of a context that ends while it waits and
    the loads it reads; and the order in which Go walks the set of excluded agents.  What depends on
    the moment is indexed by the number of clock readings. *)
Record Surroundings : Type := mkSurroundings {
  su_ParseFloat : string -> option float;
  su_providerRegistry : option (string -> option ProviderCatalogSnapshot);
  su_hasRuntime : bool;
  su_routeMemory : nat -> option (Task -> AgentInfo -> option float);
  su_retriever : nat -> option (Task -> option RetrievalKPI);
  su_LoadMemoryContext : nat -> Task -> string -> string -> string -> anymap;
  su_GetSessionState : nat -> string -> string -> option StoredSession;
  su_slot_error : nat -> AgentInfo -> string -> option string;
  su_load : nat -> AgentInfo -> CapacitySnapshot;
  su_range : gset string -> list string }.

Section Kernel.
Context {B : Type} `{Bus B}.
Context (deliveryNow nowAt : nat -> Time) (worker : string -> Worker) (selfLearn : SelfLearning) (env : Surroundings).
Abbreviation KT := (ST (Kernel B)).

Definition on_runtime {A} (f : RT A) : KT A :=
  fun k => let '(m, x) := f (kn_runtime k) in (k <| kn_runtime := m |>, x).
Definition on_io {A} (f : AT A) : KT A := fun k => let '(s, x) := f (kn_io k) in (k <| kn_io := s |>, x).
Definition on_delivery {A} (f : Supervisor B -> A * Supervisor B) : KT A :=
  fun k => let '(x, s) := f (kn_delivery k) in (k <| kn_delivery := s |>, x).
Definition kernel_Now : KT Time := on_io (time_Now nowAt).
Definition journal (e : Effect) : KT () := on_io (record_effect e).
Definition publish (topic kind entityID : string) (payload : list (string * event_value)) : KT () :=
  on_io (publishRuntimeEvent topic kind entityID payload).
Definition persist_execution (task : Task) (acceptance : TaskAcceptance) (agent : AgentInfo) (result : AgentResult)
  (latency : Z) : KT () :=
  on_io (persistExecutionState nowAt (su_GetSessionState env) selfLearn task acceptance agent result latency).
Definition moment : KT nat := gets (fun k => io_clock (kn_io k)).
Definition agent_count : KT Z := gets (fun k => len (Agents (registry (kn_runtime k)))).

(** *** Delivery *)
Definition DispatchEnvelope (envelope : TaskEnvelope) : KT (option DeliverySnapshot) :=
  on_delivery (Dispatch deliveryNow envelope).
Definition RefreshDelivery (taskID : string) : KT (option DeliverySnapshot) := on_delivery (Refresh deliveryNow taskID).
Definition AckDelivery (taskID : string) (status : AckStatus) (receivedBy reason : string) : KT MessageAck :=
  on_delivery (Ack deliveryNow taskID status receivedBy reason).
Definition FetchAgentMailbox (agentID : string) (limit : Z) : KT (list TaskEnvelope) :=
  on_delivery (Supervisor.FetchAgentMailbox deliveryNow agentID limit).
Definition ConfirmDeliveryPayload (taskID agentID : string) (envelope : TaskEnvelope) : KT bool :=
  on_delivery (ConfirmPayload deliveryNow taskID agentID envelope).
Definition EstablishDeliveryHandshake (taskID agentID : string) : KT MessageAck :=
  on_delivery (EstablishDelivery deliveryNow taskID agentID).

(** The error, or the state of the delivery. *)
Definition preparePeerDelivery (envelope : TaskEnvelope) (agentID : string) : KT (string + option DeliverySnapshot) :=
  let id := EnvTaskID envelope in
  DispatchEnvelope envelope;;
  payloads ← FetchAgentMailbox agentID 1;
  match payloads with
  | [] =>
      ack ← AckDelivery id AckStatusFailed agentID "empty_mailbox";
      mret (inl (firstNonEmptyString [AckReason ack; "delivery mailbox was empty"]))
  | payload :: _ =>
      confirmed ← ConfirmDeliveryPayload id agentID payload;
      if negb confirmed then
        ack ← AckDelivery id AckStatusFailed agentID "payload_validation_failed";
        mret (inl (firstNonEmptyString [AckReason ack; "delivery payload validation failed"]))
      else
        handshake ← EstablishDeliveryHandshake id agentID;
        if bool_decide (AckStatusOf handshake = AckStatusFailed)
        then mret (inl (firstNonEmptyString [AckReason handshake; "delivery handshake failed"]))
        else
          AckDelivery id AckStatusAccepted agentID "execution_started";;
          state ← RefreshDelivery id; mret (inr state)
  end.

(** *** Execution *)
Definition refreshRuntimeCapacity (agent : AgentInfo) : KT () :=
  if negb (su_hasRuntime env) then mret ()
  else
    n ← moment;
    now ← kernel_Now;
    on_runtime (UpdateCapacitySnapshot now (InfoID agent) (su_load env n agent));; mret ().

(** What a failure does to the lane of the agent. *)
Definition record_failure (task : Task) (agentID summary : string) : KT () :=
  now ← kernel_Now; state ← on_runtime (RecordRuntimeFailure now agentID summary);
  now ← kernel_Now; action ← on_runtime (RecoveryActionForFailure now agentID);
  state ← (if String.eqb action "quarantine_agent"
           then now ← kernel_Now; on_runtime (QuarantineAgent now agentID summary)
           else mret state);
  publish "agents" "agent.runtime_failure" agentID
    [("agent_id", ev_string agentID); ("task_id", ev_string (ID task)); ("action", ev_string action);
     ("state", EvRuntimeState state)].
Definition record_success (agentID : string) : KT () :=
  now ← kernel_Now; on_runtime (RecordSuccess now agentID);; mret ().

Definition executeDeliveredTask (task : Task) (acceptance : TaskAcceptance) (agent : Agent) (envelope : TaskEnvelope)
  : KT (AgentResult * Z) :=
  let info := Info agent in
  n ← moment;
  match su_slot_error env n info (AccModelName acceptance) with
  | Some err =>
      now ← kernel_Now;
      let result := failedAttemptResult now task acceptance info err in
      journal (RecordPeerExchange envelope acceptance result err);;
      mret (result, 0)
  | None =>
      refreshRuntimeCapacity info;;
      executed ← on_io (executeAgentWithReasoning nowAt worker selfLearn task acceptance agent);
      let '(task, result, latency) := executed in
      journal (RecordModelUsage task (AccModelName acceptance) result);;
      let result := if bool_decide (ResStatus result = TaskStatusOther "")
                    then result <| ResStatus := TaskStatusDone |> else result in
      let summary := Summary (Output result) in
      (if bool_decide (ResStatus result = TaskStatusFailed) then
         journal (RecordHardStop task "agent_execute" summary);;
         (if su_hasRuntime env then record_failure task (InfoID info) summary else mret ());;
         AckDelivery (EnvTaskID envelope) AckStatusFailed (InfoID info) summary
       else
         (if su_hasRuntime env then record_success (InfoID info) else mret ());;
         AckDelivery (EnvTaskID envelope) AckStatusAccepted (InfoID info) "execution_completed");;
      persist_execution task acceptance info result latency;;
      journal (RecordPeerExchange envelope acceptance result summary);;
      refreshRuntimeCapacity info;;
      mret (result, latency)
  end.

Definition routePeerFallback (task : Task) (plan : ExecutionPlan) (excluded : gset string) (failedAgentID : string)
  : KT (TaskAcceptance * option Agent) :=
  n ← moment;
  now ← kernel_Now;
  live ← gets (fun k => io_live (kn_io k));
  on_runtime (RouteExcluding (su_ParseFloat env) (su_providerRegistry env) (su_hasRuntime env) (su_routeMemory env n)
                (su_retriever env n) live now task plan ({[failedAgentID]} ∪ excluded)).

Definition attachRuntimeContext (task : Task) (acceptance : TaskAcceptance) (agent : AgentInfo) : KT Task :=
  n ← moment;
  let runtimeContext := su_LoadMemoryContext env n task (InfoID agent) (AccProvider acceptance) (AccModelName acceptance) in
  let task := with_runtime_context runtimeContext task in
  on_io (persistSessionState nowAt (su_GetSessionState env) task acceptance agent []);;
  mret task.

(** One attempt: the annotated task, the result and how long it took; a delivery that fails gives a
    failed result of no latency. *)
Definition peer_attempt (attempt : Z) (task : Task) (plan : ExecutionPlan) (acceptance : TaskAcceptance) (agent : Agent)
  (excluded : gset string) : KT (Task * AgentResult * Z) :=
  let info := Info agent in
  let task := annotatePeerAttempt task acceptance attempt (su_range env excluded) in
  count ← agent_count;
  now ← kernel_Now;
  let envelope := buildPeerEnvelope count now task acceptance plan info attempt in
  delivered ← preparePeerDelivery envelope (InfoID info);
  match delivered with
  | inl err =>
      now ← kernel_Now;
      let result := failedAttemptResult now task acceptance info err in
      persist_execution task acceptance info result 0;;
      mret (task, result, 0)
  | inr deliveryState =>
      publish "tasks" "task.running" (ID task)
        [("task", EvTask task); ("agent_id", ev_string (InfoID info)); ("plan", EvPlan plan); ("attempt", ev_int attempt);
         ("delivery_state", EvDelivery deliveryState)];;
      executed ← executeDeliveredTask task acceptance agent envelope;
      mret (task, executed.1, executed.2)
  end.

(** The attempts from number [attempt] on; [more] is how many may follow it. *)
Fixpoint peer_attempts (more : nat) (attempt : Z) (task : Task) (plan : ExecutionPlan) (acceptance : TaskAcceptance)
  (agent : Agent) (excluded : gset string) : KT (TaskAcceptance * Task * AgentResult) :=
  attempted ← peer_attempt attempt task plan acceptance agent excluded;
  let '(task, result, latency) := attempted in
  if negb (bool_decide (ResStatus result = TaskStatusFailed)) then mret (acceptance, task, result)
  else
    let info := Info agent in
    routed ← routePeerFallback task plan excluded (InfoID info);
    match routed, more with
    | (fallbackAcceptance, Some fallbackAgent), S more =>
        let task := rebindTaskAssignment (withFailureContext task info result attempt latency) fallbackAcceptance in
        task ← attachRuntimeContext task fallbackAcceptance (Info fallbackAgent);
        peer_attempts more (attempt + 1) task plan fallbackAcceptance fallbackAgent ({[InfoID info]} ∪ excluded)
    | _, _ => mret (acceptance, task, result)
    end.
Definition executeTaskP2P (task : Task) (plan : ExecutionPlan) (acceptance : TaskAcceptance) (agent : Agent)
  : KT (TaskAcceptance * Task * AgentResult) :=
  count ← agent_count;
  let maxAttempts := maxInt 1 count in
  peer_attempts (Z.to_nat (maxAttempts - 1)) 1 task plan acceptance agent ∅.
End Kernel.
