(* ===== verification/PeerExecutionProps.v ===== *)
(** * Properties of peer execution

    What a task's attempts do to the kernel, and which attempts are made. *)
From S2P Require Import Prelude Bus MessageBus Supervisor GoLib GoJSON Domain TaskPolicy StateMonad AgentRegistry RuntimeManager.
From S2P Require Import RuntimeViews RuntimeManagerProps LiveRealtime Router RouterProps PlanScheduling TraceParser Reasoning.
From S2P Require Import ExecutionEffects ReasoningProps ExecutionRecords PeerExecution.
From Stdlib Require Import PrimFloat.

(** ** The runtime stays in order *)
Section RuntimeOk.
Context (ags : gmap string Agent).

(** The agents registered are [ags], every lane is one of a circuit breaker, and the weights are cached. *)
Record runtime_ok (m : Runtime) : Prop := mkRuntimeOk {
  ro_agents : agents (registry m) = ags;
  ro_tracks : exists lanes, tracks m lanes;
  ro_ready : ready m }.

(** Reading lifts expired suppressions, and the lanes are still those of breakers. *)
Lemma normalize_unnamed now s : Status s = AgentStatusOther "" -> Status (normalizeState now s) = AgentStatusOther "".
Proof.
  intros H. unfold normalizeState. cbn zeta. destruct (IsZero (StUpdatedAt s)); cbn;
    destruct (SuppressedUntil s) as [u|]; cbn; try done; destruct (now <? u); cbn; try done;
    rewrite H; cbn; destruct (_ <? _)%float; cbn; done.
Qed.
Lemma normalize_errors now s : ErrorRate (normalizeState now s) = ErrorRate s.
Proof.
  unfold normalizeState. cbn zeta. destruct (IsZero (StUpdatedAt s)); cbn;
    destruct (SuppressedUntil s) as [u|]; cbn; try done; destruct (now <? u); cbn; try done;
    case_bool_decide; cbn; destruct (_ <? _)%float; done.
Qed.

Lemma same_view_tracks now m m' lanes : same_view now m m' -> ready m -> tracks m lanes -> exists lanes', tracks m' lanes'.
Proof.
  intros Hv Hr Ht. pose proof (settled_view now _ _ _ _ Hv (ready_settled m Hr)) as Hs.
  injection Hv as Ha _ Hst.
  exists (fun id => match runtimeStates (registry m') !! id with
    | Some s => mkLane (errors (lanes id)) (SuppressedUntil s) (Status s)
    | None => lanes id end).
  split; [apply Hs|]. intros id a Hid. rewrite <- Ha in Hid.
  destruct (tr_lane _ _ Ht id a Hid) as (Hne & Hi & Hn & s & Hs1 & Hrel).
  apply (f_equal (fun x => x !! id)) in Hst. rewrite !lookup_fmap, Hs1 in Hst.
  destruct (runtimeStates (registry m') !! id) as [s'|]; [|done]. cbn in Hst. injection Hst as Hst.
  split_and!; [done|done| |].
  - cbn. intros Hun. apply (normalize_unnamed now) in Hun. rewrite <- Hst in Hun.
    destruct (normalize_rel now s (lanes id) Hrel) as (_ & _ & _ & Hl). rewrite Hun in Hl.
    by apply (tick_named now _ Hn).
  - exists s'. split; [done|]. destruct Hrel as (He & Hle & _). split_and!; [|done|done|done]. cbn.
    by rewrite <- He, <- (normalize_errors now s), Hst, normalize_errors.
Qed.

Lemma same_view_ok now m m' : same_view now m m' -> runtime_ok m -> runtime_ok m'.
Proof.
  intros Hv [Ha [lanes Ht] Hr]. pose proof (settled_view now _ _ _ _ Hv (ready_settled m Hr)) as Hs.
  split; [by rewrite (se_agents _ _ _ Hs)|by eapply same_view_tracks|].
  split; [apply Hs|]. intros id Hid. rewrite (se_agents _ _ _ Hs) in Hid.
  split; [by apply (se_states _ _ _ Hs)|]. rewrite (se_weights _ _ _ Hs). by apply (se_cached _ _ _ Hs).
Qed.

(** An operation on the lane of a registered agent. *)
Lemma run_op_ok now id op m : runtime_ok m -> addressed (registry m) (now, id, op) -> runtime_ok (exec (run_op now id op) m).
Proof.
  intros [Ha [lanes Ht] Hr] Had.
  set (reg := fun j => match agents (registry m) !! j with Some a => InfoStatus (Info a) | None => AgentStatusReady end).
  destruct (run_op_tracks now m lanes id op reg Ht Had) as [Ht' Ha'].
  { intros j a Hj. subst reg. cbn. by rewrite Hj. }
  split; [by rewrite Ha'|eauto|]. pose proof Had as [[a Hid] _]. cbn in Hid.
  destruct (run_op_commits now m lanes id op a Ht Hid Had) as (s & -> & Hs & Hrel).
  unfold commit. st_simpl. apply (refreshed_ready now _ (upd (upd lanes id (tick now (lanes id))) (AgentID s)
    (lane_apply now (InfoStatus (Info a)) op (tick now (lanes id))))).
  apply (setState_tracks now _ _ s a).
  - by eapply State_tracks.
  - by rewrite State_agents, Hs.
  - done.
  - destruct (tr_lane _ _ Ht id a Hid) as (_ & Hreg & Hn & _). by apply lane_apply_named, tick_named.
Qed.
Lemma State_ok now id m : runtime_ok m -> is_Some (ags !! id) -> runtime_ok (exec (State now id) m).
Proof.
  intros Hm Hid. pose proof (ro_ready _ Hm) as Hr.
  apply (same_view_ok now m); [|done].
  apply (reader_state now ags (routingWeights m)). rewrite <- (ro_agents _ Hm). by apply ready_settled.
Qed.
End RuntimeOk.

(** ** What the steps leave alone *)
Section KernelProps.
Context {B : Type} `{Bus B}.
Context (deliveryNow nowAt : nat -> Time) (worker : string -> Worker) (selfLearn : SelfLearning) (env : Surroundings).
Context (ags : gmap string Agent).
Abbreviation KT := (ST (Kernel B)).
Abbreviation call := (string * Task * AgentResult)%type.
Abbreviation executeDeliveredTask := (executeDeliveredTask deliveryNow nowAt worker selfLearn env).
Abbreviation peer_attempt := (peer_attempt deliveryNow nowAt worker selfLearn env).
Abbreviation peer_attempts := (peer_attempts deliveryNow nowAt worker selfLearn env).
Abbreviation executeTaskP2P := (executeTaskP2P deliveryNow nowAt worker selfLearn env).
Abbreviation preparePeerDelivery := (preparePeerDelivery deliveryNow).
Abbreviation routePeerFallback := (routePeerFallback nowAt env).

Definition kernel_ok (k : Kernel B) : Prop := runtime_ok ags (kn_runtime k).
Definition calls_of (k : Kernel B) : list call := io_calls (kn_io k).

(** Computations that ask no agent and keep the runtime in order. *)
Class Calm {A} (f : KT A) : Prop := calm : forall k, kernel_ok k -> kernel_ok (exec f k) /\ calls_of (exec f k) = calls_of k.
#[export] Instance calm_ret {A} (x : A) : Calm (mret x).
Proof. done. Qed.
#[export] Instance calm_gets {A} (f : Kernel B -> A) : Calm (gets f).
Proof. done. Qed.
#[export] Instance calm_bind {A C} (f : KT A) (g : A -> KT C) : Calm f -> (forall x, Calm (g x)) -> Calm (f ≫= g).
Proof.
  intros Hf Hg k Hk. rewrite exec_bind. destruct (Hf k Hk) as [H1 H2].
  destruct (Hg (eval f k) (exec f k) H1) as [H3 H4]. split; congruence.
Qed.
#[export] Instance calm_if {A} (b : bool) (f g : KT A) : Calm f -> Calm g -> Calm (if b then f else g).
Proof. by destruct b. Qed.
#[export] Instance calm_moment : Calm moment.
Proof. done. Qed.
#[export] Instance calm_count : Calm agent_count.
Proof. done. Qed.
#[export] Instance calm_now : Calm (kernel_Now nowAt).
Proof. done. Qed.
#[export] Instance calm_delivery {A} (f : Supervisor B -> A * Supervisor B) : Calm (on_delivery f).
Proof. intros k Hk. unfold on_delivery, exec. by destruct (f (kn_delivery k)). Qed.
Lemma calm_runtime {A} (f : RT A) : (forall m, runtime_ok ags m -> runtime_ok ags (exec f m)) -> Calm (on_runtime f).
Proof.
  intros Hf k Hk. specialize (Hf _ Hk). unfold on_runtime, exec in *. destruct (f (kn_runtime k)). by split.
Qed.
#[export] Instance calm_io {A} (f : AT A) : Quiet f -> Calm (on_io f).
Proof.
  intros Hf k Hk. specialize (Hf (kn_io k)). unfold calls_of, on_io, exec in *. by destruct (f (kn_io k)).
Qed.
#[export] Instance calm_journal e : Calm (journal e).
Proof. unfold journal. apply _. Qed.
#[export] Instance calm_publish topic kind id payload : Calm (publish topic kind id payload).
Proof. unfold publish, publishRuntimeEvent. apply _. Qed.
#[export] Instance quiet_session task acc agent extra :
  Quiet (persistSessionState nowAt (su_GetSessionState env) task acc agent extra).
Proof. unfold persistSessionState. apply _. Qed.
#[export] Instance calm_persist task acc agent r lat : Calm (persist_execution nowAt selfLearn env task acc agent r lat).
Proof. unfold persist_execution, persistExecutionState, scheduleSelfLearningFeedback. apply _. Qed.
Lemma on_runtime_eval {A} (f : RT A) (k : Kernel B) : eval (on_runtime f) k = eval f (kn_runtime k).
Proof. unfold on_runtime, eval. by destruct (f (kn_runtime k)). Qed.
Lemma on_runtime_runtime {A} (f : RT A) (k : Kernel B) : kn_runtime (exec (on_runtime f) k) = exec f (kn_runtime k).
Proof. unfold on_runtime, exec. by destruct (f (kn_runtime k)). Qed.
#[export] Instance calm_prepare envelope id : Calm (preparePeerDelivery envelope id).
Proof.
  unfold PeerExecution.preparePeerDelivery. apply calm_bind; [apply _|intros _].
  apply calm_bind; [apply _|]. intros [|payload payloads]; apply _.
Qed.

(** *** On the lane of a registered agent *)
Section Registered.
Context (agent : Agent) (Hreg : ags !! InfoID (Info agent) = Some agent)
  (Htrim : TrimSpace (InfoID (Info agent)) = InfoID (Info agent)).

Lemma addressed_registered now op m : runtime_ok ags m -> addressed (registry m) (now, InfoID (Info agent), op).
Proof.
  intros Hm. split; cbn; [|by destruct op]. rewrite (ro_agents _ _ Hm), Hreg. eauto.
Qed.
Lemma calm_op now op {A} (f : RT A) : (forall m, exec (run_op now (InfoID (Info agent)) op) m = exec f m) -> Calm (on_runtime f).
Proof.
  intros Hf. apply calm_runtime. intros m Hm. rewrite <- Hf. apply run_op_ok; [done|]. by apply addressed_registered.
Qed.
Lemma calm_state now : Calm (on_runtime (RecoveryActionForFailure now (InfoID (Info agent)))).
Proof.
  apply calm_runtime. intros m Hm. unfold RecoveryActionForFailure. st_simpl. apply State_ok; [done|]. rewrite Hreg. eauto.
Qed.
Lemma calm_failure task summary : Calm (record_failure nowAt task (InfoID (Info agent)) summary).
Proof.
  unfold record_failure. apply calm_bind; [apply _|intros now]. apply calm_bind; [|intros state].
  { apply (calm_op now (OpFail summary)). intros m. cbn [run_op]. by st_simpl. }
  apply calm_bind; [apply _|intros now']. apply calm_bind; [apply calm_state|intros action].
  apply calm_bind; [|intros state'; apply _].
  apply calm_if; [|apply _]. apply calm_bind; [apply _|intros now''].
  apply (calm_op now'' (OpQuarantine summary)). intros m. cbn [run_op]. by st_simpl.
Qed.
Lemma calm_success : Calm (record_success nowAt (InfoID (Info agent))).
Proof.
  unfold record_success. apply calm_bind; [apply _|intros now]. apply calm_bind; [|apply _].
  apply (calm_op now OpSucceed). intros m. cbn [run_op]. by st_simpl.
Qed.
Lemma calm_capacity : Calm (refreshRuntimeCapacity nowAt env (Info agent)).
Proof.
  unfold refreshRuntimeCapacity. apply calm_if; [apply _|]. apply calm_bind; [apply _|intros n].
  apply calm_bind; [apply _|intros now]. apply calm_bind; [|apply _].
  apply (calm_op now (OpCapacity (su_load env n (Info agent)))). intros m. cbn [run_op]. by st_simpl.
Qed.

(** *** One attempt *)

(** The most calls one attempt makes. *)
Definition attempt_bound : Z :=
  if sl_enabled selfLearn && reasoningEnabled selfLearn
  then maxInt 1 (reasoningMaxRounds selfLearn) +
       (if criticEnabled selfLearn then 2 * maxInt 1 (criticMaxRounds selfLearn) else 0)
  else 1.
Lemma call_bound_attempt task acc : call_bound selfLearn task acc <= attempt_bound /\ 1 <= attempt_bound.
Proof.
  assert (1 <= maxInt 1 (reasoningMaxRounds selfLearn)) as H1
    by (unfold maxInt; destruct (Z.ltb_spec (reasoningMaxRounds selfLearn) 1); lia).
  assert (0 <= if criticEnabled selfLearn then 2 * maxInt 1 (criticMaxRounds selfLearn) else 0) as H2
    by (unfold maxInt; destruct (criticEnabled selfLearn), (Z.ltb_spec (criticMaxRounds selfLearn) 1); lia).
  unfold call_bound, attempt_bound, shouldUseSelfLearningReasoning.
  destruct (sl_enabled selfLearn), (reasoningEnabled selfLearn); cbn [negb orb andb]; try lia.
  split; [|lia]. repeat case_match; lia.
Qed.

(** The calls made for an attempt: to its agent, not too many, and at least one when it did not fail. *)
Definition attempt_calls (calls : list call) (r : AgentResult) : Prop :=
  Forall (fun c => c.1.1 = InfoID (Info agent)) calls /\ len calls <= attempt_bound /\
  (ResStatus r <> TaskStatusFailed -> calls <> []).

Lemma no_calls (task : Task) (acc : TaskAcceptance) r : ResStatus r = TaskStatusFailed -> attempt_calls [] r.
Proof. pose proof (call_bound_attempt task acc). intros Hr. split_and!; [done|change (0 <= attempt_bound); lia|done]. Qed.

Lemma on_io_spec {A} (f : AT A) (k : Kernel B) :
  exec (on_io f) k = k <| kn_io := exec f (kn_io k) |> /\ eval (on_io f) k = eval f (kn_io k).
Proof. unfold on_io, exec, eval. by destruct (f (kn_io k)). Qed.

Lemma executeDeliveredTask_spec task acc envelope k : kernel_ok k ->
  kernel_ok (exec (executeDeliveredTask task acc agent envelope) k) /\
  exists calls, calls_of (exec (executeDeliveredTask task acc agent envelope) k) = calls_of k ++ calls /\
    attempt_calls calls (eval (executeDeliveredTask task acc agent envelope) k).1.
Proof.
  intros Hk. unfold PeerExecution.executeDeliveredTask. rewrite exec_bind, eval_bind.
  set (n := eval moment k). change (exec moment k) with k.
  destruct (su_slot_error env n (Info agent) (AccModelName acc)) as [err|].
  { rewrite exec_bind, eval_bind. destruct (calm (f := kernel_Now nowAt) k Hk) as [H1 C1].
    set (k1 := exec (kernel_Now nowAt) k) in *. clearbody k1. rewrite exec_bind, eval_bind, exec_ret, eval_ret.
    match goal with |- context [exec (journal ?e) k1] => destruct (calm (f := journal e) k1 H1) as [H2 C2] end.
    split; [done|]. exists []. rewrite app_nil_r. split; [congruence|]. by apply (no_calls task acc). }
  rewrite exec_bind, eval_bind. destruct (calm_capacity k Hk) as [H1 C1].
  set (k1 := exec (refreshRuntimeCapacity _ _ _) k) in *. clearbody k1.
  rewrite exec_bind, eval_bind. pose proof (agent_answers_spec nowAt worker selfLearn task acc agent (kn_io k1)) as Ha.
  destruct (on_io_spec (executeAgentWithReasoning nowAt worker selfLearn task acc agent) k1) as [-> ->].
  set (f := executeAgentWithReasoning nowAt worker selfLearn task acc agent) in *.
  assert (f (kn_io k1) = (exec f (kn_io k1), eval f (kn_io k1))) as E by apply surjective_pairing.
  rewrite E in Ha. clear E. set (io := exec f (kn_io k1)) in *.
  destruct (eval f (kn_io k1)) as [[task' r] lat]. clearbody io. clear f.
  destruct Ha as (_ & calls & reviews & Hc & Hl1 & Hl2 & Hab & _). cbv beta iota zeta.
  set (k2 := k1 <| kn_io := io |>). assert (kernel_ok k2) as H2 by exact H1.
  assert (calls_of k2 = calls_of k ++ calls ++ reviews) as C2 by (rewrite <- C1; exact Hc). clearbody k2.
  rewrite exec_bind, eval_bind.
  destruct (calm (f := journal (RecordModelUsage task' (AccModelName acc) r)) k2 H2) as [H3 C3].
  set (k3 := exec (journal _) k2) in *. clearbody k3. rewrite C2 in C3. clear k2 H2 C2.
  set (r' := if bool_decide (ResStatus r = TaskStatusOther "") then _ else r).
  match goal with |- context [exec (?f ≫= ?g) k3] => set (m := f ≫= g) end.
  assert (Calm m) as Hm.
  { subst m. apply calm_bind; [|intros _].
    - apply calm_if; [apply calm_bind; [apply _|intros _]|]; (apply calm_bind; [|intros _; apply _]);
        (apply calm_if; [|apply _]); [apply calm_failure|apply calm_success].
    - repeat (apply calm_bind; [apply _ || apply calm_capacity|intros _]). apply _. }
  destruct (Hm k3 H3) as [H4 C4]. split; [done|]. exists (calls ++ reviews). rewrite C4. split; [done|].
  split_and!.
  - eapply Forall_impl; [exact Hab|]. by intros c [Hc' _].
  - etransitivity; [exact Hl2|]. apply call_bound_attempt.
  - intros _ Hnil. destruct calls; [revert Hl1; unfold len; cbn; lia|done].
Qed.

Lemma peer_attempt_spec attempt task plan acc excluded k : kernel_ok k ->
  kernel_ok (exec (peer_attempt attempt task plan acc agent excluded) k) /\
  exists calls r lat,
    eval (peer_attempt attempt task plan acc agent excluded) k =
      (annotatePeerAttempt task acc attempt (su_range env excluded), r, lat) /\
    calls_of (exec (peer_attempt attempt task plan acc agent excluded) k) = calls_of k ++ calls /\ attempt_calls calls r.
Proof.
  intros Hk. unfold PeerExecution.peer_attempt. rewrite exec_bind, eval_bind.
  destruct (calm (f := agent_count) k Hk) as [H1 C1]. set (k1 := exec agent_count k) in *. clearbody k1.
  rewrite exec_bind, eval_bind. destruct (calm (f := kernel_Now nowAt) k1 H1) as [H2 C2].
  set (k2 := exec (kernel_Now nowAt) k1) in *. clearbody k2.
  set (envelope := buildPeerEnvelope _ _ _ _ _ _ _). clearbody envelope.
  rewrite exec_bind, eval_bind. destruct (calm (f := preparePeerDelivery envelope (InfoID (Info agent))) k2 H2) as [H3 C3].
  set (k3 := exec (preparePeerDelivery _ _) k2) in *. clearbody k3.
  assert (calls_of k3 = calls_of k) as C by congruence.
  destruct (eval (preparePeerDelivery _ _) k2) as [err|snap].
  - rewrite exec_bind, eval_bind. destruct (calm (f := kernel_Now nowAt) k3 H3) as [H4 C4].
    set (k4 := exec (kernel_Now nowAt) k3) in *. clearbody k4. rewrite exec_bind, eval_bind, exec_ret, eval_ret.
    match goal with |- context [exec ?f k4] => destruct (calm (f := f) k4 H4) as [H5 C5] end.
    split; [done|]. exists []. eexists _, _. split; [reflexivity|]. rewrite app_nil_r.
    split; [exact (eq_trans C5 (eq_trans C4 C))|]. by apply (no_calls task acc).
  - rewrite exec_bind, eval_bind.
    match goal with |- context [exec (publish ?t ?kd ?i ?p) k3] =>
      destruct (calm (f := publish t kd i p) k3 H3) as [H4 C4] end.
    set (k4 := exec (publish _ _ _ _) k3) in *. clearbody k4. rewrite C in C4.
    rewrite exec_bind, eval_bind, exec_ret, eval_ret.
    destruct (executeDeliveredTask_spec (annotatePeerAttempt task acc attempt (su_range env excluded)) acc envelope k4 H4)
      as [H5 (calls & C5 & Hcalls)]. split; [done|].
    exists calls. eexists _, _. split; [reflexivity|]. by rewrite C5, C4.
Qed.
End Registered.

(** ** All the attempts *)
Section Attempts.
Context (Htrim : forall a, ags !! InfoID (Info a) = Some a -> TrimSpace (InfoID (Info a)) = InfoID (Info a)).

Definition agent_ids (tried : list (Agent * list call)) : list string := map (fun x => InfoID (Info x.1)) tried.
(** The agents a task's hints say have failed it. *)
Definition failed_peers (task : Task) : list (option any) :=
  map (fun failure => aget failure "agent_id") (recorded_failures (RoutingHints task)).

Lemma hints_of_update t h : RoutingHints (t <| RoutingHints := h |>) = h.
Proof. done. Qed.
Lemma recorded_aset hints k v : k <> "peer_failures" -> recorded_failures (aset hints k v) = recorded_failures hints.
Proof. intros Hk. unfold recorded_failures. by rewrite aget_aset_ne. Qed.
Lemma recorded_opt hints k (o : option any) : k <> "peer_failures" ->
  recorded_failures (match o with Some v => aset hints k v | None => hints end) = recorded_failures hints.
Proof. destruct o; [apply recorded_aset|done]. Qed.
Lemma recorded_annotated task acc attempt tried :
  recorded_failures (RoutingHints (annotatePeerAttempt task acc attempt tried)) = recorded_failures (RoutingHints task).
Proof. unfold annotatePeerAttempt. cbv zeta. rewrite hints_of_update. destruct tried; rewrite !recorded_aset; done. Qed.
Lemma recorded_rebound task acc :
  recorded_failures (RoutingHints (rebindTaskAssignment task acc)) = recorded_failures (RoutingHints task).
Proof. unfold rebindTaskAssignment. cbv zeta. rewrite hints_of_update. by rewrite !recorded_aset. Qed.
Lemma recorded_attached context task :
  recorded_failures (RoutingHints (with_runtime_context context task)) = recorded_failures (RoutingHints task).
Proof.
  unfold with_runtime_context. cbv zeta. rewrite hints_of_update. rewrite !recorded_aset, !recorded_opt, recorded_aset by done. done.
Qed.
Lemma recorded_failure task agent r attempt lat :
  failed_peers (withFailureContext task agent r attempt lat) = failed_peers task ++ [Some (AString (InfoID agent))].
Proof.
  unfold failed_peers, withFailureContext. unfold recorded_failures at 1. cbn. by rewrite aget_aset_eq, map_app.
Qed.

Lemma attach_spec task acc info k : kernel_ok k ->
  kernel_ok (exec (attachRuntimeContext nowAt env task acc info) k) /\
  calls_of (exec (attachRuntimeContext nowAt env task acc info) k) = calls_of k /\
  failed_peers (eval (attachRuntimeContext nowAt env task acc info) k) = failed_peers task.
Proof.
  intros Hk. assert (Calm (attachRuntimeContext nowAt env task acc info)) as Hc by (unfold attachRuntimeContext; apply _).
  destruct (Hc k Hk) as [H1 C1]. split; [done|]. split; [done|].
  unfold attachRuntimeContext. rewrite !eval_bind, eval_ret. unfold failed_peers. by rewrite recorded_attached.
Qed.

(** Nobody else would take the task: at some moment of the run every registered agent outside
    [tried] either could not take it or scored no more than the floor. *)
Definition nobody_left (task : Task) (plan : ExecutionPlan) (tried : gset string) : Prop :=
  exists n now live m, runtime_ok ags m /\
    forall a, ags !! InfoID (Info a) = Some a -> InfoID (Info a) ∉ tried ->
      can_take (su_hasRuntime env) now task plan m a = true ->
      (lowest_score <? score_of (su_ParseFloat env) (su_providerRegistry env) (su_hasRuntime env) (su_routeMemory env n)
         (su_retriever env n) live now task plan m a)%float = false.

Definition routed_on (task : Task) (plan : ExecutionPlan) (tried : gset string) (k k' : Kernel B)
  (answer : TaskAcceptance * option Agent) : Prop :=
  kernel_ok k' /\ calls_of k' = calls_of k /\
  match answer with
  | (acc, Some a) => ags !! InfoID (Info a) = Some a /\ InfoID (Info a) ∉ tried /\ AccAgentID acc = InfoID (Info a)
  | (_, None) => nobody_left task plan tried
  end.
Lemma routePeerFallback_spec task plan excluded id k : kernel_ok k ->
  routed_on task plan ({[id]} ∪ excluded) k (exec (routePeerFallback task plan excluded id) k)
    (eval (routePeerFallback task plan excluded id) k).
Proof.
  clear Htrim deliveryNow worker. intros Hk. unfold PeerExecution.routePeerFallback. rewrite exec_bind, eval_bind.
  set (n := eval moment k). change (exec moment k) with k.
  rewrite exec_bind, eval_bind. destruct (calm (f := kernel_Now nowAt) k Hk) as [H1 C1].
  set (k1 := exec (kernel_Now nowAt) k) in *. set (now := eval (kernel_Now nowAt) k). clearbody k1.
  rewrite exec_bind, eval_bind, eval_gets, exec_gets. set (live := io_live (kn_io k1)).
  set (tried := {[id]} ∪ excluded). set (m := kn_runtime k1).
  pose proof (ro_ready _ _ H1) as Hr. fold m in Hr.
  pose proof (route_promise (su_ParseFloat env) (su_providerRegistry env) (su_hasRuntime env) (su_routeMemory env n)
    (su_retriever env n) live now task plan tried m Hr) as Hp.
  destruct (route_reads (su_ParseFloat env) (su_providerRegistry env) (su_hasRuntime env) (su_routeMemory env n)
    (su_retriever env n) live now _ _ task plan tried m (ready_settled m Hr)) as [Hv _].
  unfold RouteExcluding. set (f := route _ _ _ _ _ _ _ task plan tried) in *. clearbody f.
  rewrite on_runtime_eval. fold m. split; [|split].
  - unfold kernel_ok. rewrite on_runtime_runtime. by eapply same_view_ok.
  - rewrite <- C1. unfold on_runtime, exec. by destruct (f (kn_runtime k1)).
  - destruct (eval f m) as [acc [a|]].
    + destruct Hp as ((Ha & Hx & _) & (_ & _ & Hn & _) & _). pose proof (ro_agents _ _ H1) as Hags. fold m in Hags. by rewrite Hags in Ha.
    + destruct Hp as (_ & _ & Hp). exists n, now, live, m. split; [done|]. intros a Ha Hx Hc.
      pose proof (ro_agents _ _ H1) as Hags. fold m in Hags. apply Hp; [by rewrite Hags|done|done|].
      unfold matches_assignment, relaxed. rewrite bool_decide_eq_true_2; [done|]. subst tried. set_solver.
Qed.

(** What the attempts from [agent] on did, when the agents of [excluded] had been tried before: those of
    [failed] in order, then [last]. *)
Record attempted (task : Task) (plan : ExecutionPlan) (acc : TaskAcceptance) (agent : Agent) (excluded : gset string)
  (k k' : Kernel B) (acc' : TaskAcceptance) (task' : Task) (r : AgentResult)
  (failed : list (Agent * list call)) (last : Agent * list call) : Prop := mkAttempted {
  at_kernel : kernel_ok k';
  at_first : fst <$> head (failed ++ [last]) = Some agent;
  at_registered : Forall (fun x => ags !! InfoID (Info x.1) = Some x.1) (failed ++ [last]);
  at_once : NoDup (agent_ids (failed ++ [last]));
  at_new : Forall (fun id => id ∉ excluded) (agent_ids (failed ++ [last]));
  at_calls : calls_of k' = calls_of k ++ concat (map snd (failed ++ [last]));
  at_asked : Forall (fun x => Forall (fun c => c.1.1 = InfoID (Info x.1)) x.2 /\ len x.2 <= attempt_bound) (failed ++ [last]);
  at_answer : ResStatus r <> TaskStatusFailed -> last.2 <> [];
  at_acceptance : (failed = [] /\ acc' = acc) \/ AccAgentID acc' = InfoID (Info last.1);
  at_history : failed_peers task' = failed_peers task ++ map (fun id => Some (AString id)) (agent_ids failed);
  at_end : ResStatus r = TaskStatusFailed -> nobody_left task' plan (list_to_set (agent_ids (failed ++ [last])) ∪ excluded) }.

Lemma agent_count_ok k : kernel_ok k -> eval agent_count k = Z.of_nat (size ags).
Proof.
  intros Hk. unfold agent_count. rewrite eval_gets. unfold len, Agents.
  by rewrite sort_slice_length, length_map, (ro_agents _ _ Hk), length_map_to_list.
Qed.

Lemma registered_bound (s : gset string) (a : Agent) : s ⊆ dom ags -> size s = size ags ->
  ags !! InfoID (Info a) = Some a -> InfoID (Info a) ∈ s.
Proof.
  intros Hs Hz Ha. assert (s = dom ags) as ->.
  { apply set_subseteq_size_eq; [done|]. rewrite size_dom. lia. }
  apply elem_of_dom. eauto.
Qed.

Lemma attempt_stops task task1 plan acc agent excluded k k' r calls :
  kernel_ok k' -> ags !! InfoID (Info agent) = Some agent -> InfoID (Info agent) ∉ excluded ->
  calls_of k' = calls_of k ++ calls -> attempt_calls agent calls r -> failed_peers task1 = failed_peers task ->
  (ResStatus r = TaskStatusFailed -> nobody_left task1 plan ({[InfoID (Info agent)]} ∪ excluded)) ->
  attempted task plan acc agent excluded k k' acc task1 r [] (agent, calls).
Proof.
  intros Hk Hreg Hnew Hc (Ha & Hl & Hr) Hp Hend. split; cbn; auto using NoDup_singleton.
  - by rewrite app_nil_r.
  - by rewrite app_nil_r.
  - by rewrite union_empty_r_L.
Qed.
Lemma attempt_continues task task2 plan acc acc2 agent a2 excluded k k2 k' acc' task' r r0 calls failed last :
  ags !! InfoID (Info agent) = Some agent -> InfoID (Info agent) ∉ excluded ->
  calls_of k2 = calls_of k ++ calls -> attempt_calls agent calls r0 ->
  failed_peers task2 = failed_peers task ++ [Some (AString (InfoID (Info agent)))] -> AccAgentID acc2 = InfoID (Info a2) ->
  attempted task2 plan acc2 a2 ({[InfoID (Info agent)]} ∪ excluded) k2 k' acc' task' r failed last ->
  attempted task plan acc agent excluded k k' acc' task' r ((agent, calls) :: failed) last.
Proof.
  intros Hreg Hnew Hc (Ha & Hl & _) Hp Hacc [? Hfirst ? ? Hn Hcs ? ? Hac Hh He]. split; cbn; auto.
  - constructor; [|done]. intros Hin. apply (proj1 (Forall_forall _ _) Hn) in Hin. set_solver.
  - constructor; [done|]. eapply Forall_impl; [exact Hn|]. cbn. set_solver.
  - by rewrite Hcs, Hc, <- app_assoc.
  - right. destruct Hac as [[-> ->]|Hac]; [|done]. cbn in Hfirst. injection Hfirst as <-. done.
  - by rewrite Hh, Hp, <- app_assoc.
  - intros Hf. specialize (He Hf).
    by replace ({[InfoID (Info agent)]} ∪ list_to_set (agent_ids (failed ++ [last])) ∪ excluded)
      with (list_to_set (agent_ids (failed ++ [last])) ∪ ({[InfoID (Info agent)]} ∪ excluded)) by set_solver.
Qed.

Lemma peer_attempts_spec more attempt task plan acc agent excluded k :
  kernel_ok k -> ags !! InfoID (Info agent) = Some agent -> InfoID (Info agent) ∉ excluded -> excluded ⊆ dom ags ->
  (size excluded + more + 1)%nat = size ags ->
  let '(acc', task', r) := eval (peer_attempts more attempt task plan acc agent excluded) k in
  exists failed last, attempted task plan acc agent excluded k
    (exec (peer_attempts more attempt task plan acc agent excluded) k) acc' task' r failed last.
Proof.
  revert attempt task acc agent excluded k. induction more as [|more IH];
    intros attempt task acc agent excluded k Hk Hreg Hnew Hsub Hsize.
  all: cbn [PeerExecution.peer_attempts]; rewrite exec_bind, eval_bind.
  all: destruct (peer_attempt_spec agent Hreg (Htrim _ Hreg) attempt task plan acc excluded k Hk)
         as [H1 (calls & r & lat & He & C1 & Hone)].
  all: rewrite He; set (k1 := exec (PeerExecution.peer_attempt _ _ _ _ _ _ _ _ _ _ _) k) in *; clearbody k1; cbv beta iota zeta.
  all: set (task1 := annotatePeerAttempt task acc attempt (su_range env excluded)) in *.
  all: assert (failed_peers task1 = failed_peers task) as Hp by (subst task1; unfold failed_peers; by rewrite recorded_annotated).
  all: clearbody task1; case_bool_decide as Hr; cbn [negb];
         [|exists [], (agent, calls); apply attempt_stops; auto; by intros].
  all: rewrite exec_bind, eval_bind; destruct (routePeerFallback_spec task1 plan excluded (InfoID (Info agent)) k1 H1)
         as (H2 & C2 & Ha); set (k2 := exec (routePeerFallback _ _ _ _) k1) in *; clearbody k2;
       destruct (eval (routePeerFallback _ _ _ _) k1) as [acc2 [a2|]].
  all: try (exists [], (agent, calls); apply attempt_stops; [done|done|done|exact (eq_trans C2 C1)|done|done|by intros]).
  - destruct Ha as (Ha & Hx & _). exfalso. apply Hx, registered_bound; [|rewrite size_union|done].
    + apply union_least; [|done]. apply singleton_subseteq_l, elem_of_dom. eauto.
    + rewrite size_singleton. lia.
    + set_solver.
  - destruct Ha as (Ha & Hx & Hacc). cbv beta iota zeta.
    rewrite exec_bind, eval_bind.
    set (task2 := rebindTaskAssignment (withFailureContext task1 (Info agent) r attempt lat) acc2).
    assert (failed_peers task2 = failed_peers task ++ [Some (AString (InfoID (Info agent)))]) as Hp2.
    { subst task2. unfold failed_peers at 1. rewrite recorded_rebound. fold (failed_peers
        (withFailureContext task1 (Info agent) r attempt lat)). by rewrite recorded_failure, Hp. }
    destruct (attach_spec task2 acc2 (Info a2) k2 H2) as (H3 & C3 & Hp3). rewrite Hp2 in Hp3.
    set (k3 := exec (attachRuntimeContext _ _ _ _ _) k2) in *. set (task3 := eval (attachRuntimeContext _ _ _ _ _) k2) in *.
    clearbody task3 k3. rewrite C2 in C3.
    specialize (IH (attempt + 1) task3 acc2 a2 ({[InfoID (Info agent)]} ∪ excluded) k3 H3 Ha Hx).
    destruct (eval _ k3) as [[acc' task'] r']. destruct IH as (failed & last & Hat).
    + apply union_least; [|done]. apply singleton_subseteq_l, elem_of_dom. eauto.
    + rewrite size_union, size_singleton by set_solver. lia.
    + exists ((agent, calls) :: failed), last. by eapply attempt_continues; [..|exact (eq_trans C3 C1)|exact Hone| | |exact Hat].
Qed.

Lemma registered_once (l : list (Agent * list call)) :
  NoDup (agent_ids l) -> Forall (fun x => ags !! InfoID (Info x.1) = Some x.1) l -> (length l <= size ags)%nat.
Proof.
  intros Hn Hf. rewrite <- (length_map (fun x => InfoID (Info x.1)) l), <- size_dom.
  rewrite <- (size_list_to_set (C := gset string)) by exact Hn.
  apply subseteq_size. intros id Hid%elem_of_list_to_set%list_elem_of_fmap. destruct Hid as (x & -> & Hx).
  apply elem_of_dom. exists x.1. by apply (proj1 (Forall_forall _ _) Hf).
Qed.

Lemma peer_promise task plan acc (agent : Agent) k : kernel_ok k -> ags !! InfoID (Info agent) = Some agent ->
  let '(acc', task', r) := eval (executeTaskP2P task plan acc agent) k in
  exists failed last, (length failed < size ags)%nat /\
    attempted task plan acc agent ∅ k (exec (executeTaskP2P task plan acc agent) k) acc' task' r failed last.
Proof.
  intros Hk Hreg. unfold PeerExecution.executeTaskP2P. rewrite exec_bind, eval_bind, (agent_count_ok k Hk).
  change (exec agent_count k) with k. cbv zeta. set (more := Z.to_nat _).
  assert (size ags <> 0%nat) as Hz by (intros E%map_size_empty_inv; by rewrite E, lookup_empty in Hreg).
  pose proof (peer_attempts_spec more 1 task plan acc agent ∅ k Hk Hreg) as Hs.
  destruct (eval _ k) as [[acc' task'] r]. destruct Hs as (failed & last & Hat).
  - set_solver.
  - set_solver.
  - rewrite size_empty. subst more. unfold maxInt. destruct (Z.ltb_spec (Z.of_nat (size ags)) 1); lia.
  - exists failed, last. split; [|done].
    pose proof (registered_once _ (at_once _ _ _ _ _ _ _ _ _ _ _ _ Hat) (at_registered _ _ _ _ _ _ _ _ _ _ _ _ Hat)) as Hl.
    rewrite length_app in Hl. cbn in Hl. lia.
Qed.

(** C25: What becomes of a task sent to its peers.  Whatever the bus does and the agents answer, execution
    ends after attempts at distinct registered agents, the first at the one the task was routed to and
    at most one at each.  Every call is made in one of these attempts, to its agent, and no attempt
    makes more calls than the rounds of reasoning and criticism allow; a result that is not failed is
    one of the last agent, who was called.  The acceptance that is returned names the last agent, the
    task's hints list those that failed before, in order, after the failures already there, and the
    task is given up as failed only when routing, on a runtime with the same agents, found none that
    is untried, can take the task and scores above the floor: the limit on attempts never decides. *)
Theorem peer_execution task plan acc (agent : Agent) k : kernel_ok k -> ags !! InfoID (Info agent) = Some agent ->
  let '(acc', task', r) := eval (executeTaskP2P task plan acc agent) k in
  exists failed last, (length failed < size ags)%nat /\
    attempted task plan acc agent ∅ k (exec (executeTaskP2P task plan acc agent) k) acc' task' r failed last.
Proof. exact (peer_promise task plan acc agent k). Qed.
End Attempts.
End KernelProps.

(** ** Examples *)
Definition coders_env : Surroundings :=
  mkSurroundings (fun _ => None) None true (fun _ => None) (fun _ => None) (fun _ _ _ _ _ => []) (fun _ _ _ => None) (fun _ _ _ => None)
    (fun _ _ => mkCapacitySnapshot 0 0 0 0) elements.
Definition no_self_learning : SelfLearning := mkSelfLearning false None None "" None false 1 false 1.
(** The cloud coder fails, the local one answers. *)
Definition coders_workers (id : string) : Worker :=
  mkWorker (fun _ t => mkAgentResult (ID t) id (if String.eqb id "cloud-coder" then TaskStatusFailed else TaskStatusCompleted)
    0 [] [] "" "" (mkResultOutput "words counted" [] [] [] []) 100) None.
Definition coders_kernel (bus : MessageBus) : Kernel MessageBus :=
  mkKernel coders_runtime (NewSupervisor bus second) (mkAgentIO [] 0 None []).
Definition coders_acceptance : TaskAcceptance :=
  mkTaskAcceptance "t1" TaskStatusAccepted "cloud-coder" ComplexityLow "" "implementation" "openai" "gpt" false 90.
Definition cloud_coder : Agent :=
  mkAgent (mkAgentInfo "cloud-coder" "coder" "openai" "gpt" ["implementation"] AgentStatusReady) (fun _ => true) false.
Definition run_coders (bus : MessageBus) : Kernel MessageBus * (TaskAcceptance * Task * AgentResult) :=
  executeTaskP2P (fun n => 100 + Z.of_nat n) (fun n => 100 + Z.of_nat n) coders_workers no_self_learning coders_env
    coding_task coding_plan coders_acceptance cloud_coder (coders_kernel bus).

Lemma coders_agents : agents (registry coders_runtime) = agents (register_all 1 coders).
Proof. unfold coders_runtime. by rewrite Refresh_agents. Qed.
Lemma coders_kernel_ok bus : kernel_ok (agents (register_all 1 coders)) (coders_kernel bus).
Proof.
  split; cbn [kn_runtime coders_kernel]; [exact coders_agents| |exact coders_ready].
  eexists. apply Refresh_tracks, fresh_tracks, register_all_fresh. by repeat constructor.
Qed.
Lemma coders_trimmed (a : Agent) : agents (register_all 1 coders) !! InfoID (Info a) = Some a ->
  TrimSpace (InfoID (Info a)) = InfoID (Info a).
Proof.
  unfold register_all, coders. cbn. intros [[<- _]|[_ [[<- _]|[_ Hf]]%lookup_insert_Some]]%lookup_insert_Some;
    [by vm_compute..|]. by rewrite lookup_empty in Hf.
Qed.

Example peer_takes_over :
  let '(k, (acc, task, r)) := run_coders NewMessageBus in
  (AccAgentID acc, ResStatus r, failed_peers task, map (fun c => c.1.1) (io_calls (kn_io k))) =
  ("local-coder", TaskStatusCompleted, [Some (AString "cloud-coder")], ["cloud-coder"; "local-coder"]).
Proof. vm_compute. reflexivity. Qed.

Lemma coders_peers_differ :
  ((run_coders NewMessageBus).2.1.1 <> coders_acceptance) /\ ResStatus (run_coders NewMessageBus).2.2 <> TaskStatusFailed.
Proof. vm_compute. split; discriminate. Qed.

Lemma peer_execution_witness :
  let '(k, (acc, task, r)) := run_coders NewMessageBus in
  exists failed (last : Agent * list (string * Task * AgentResult)), (length failed < 2)%nat /\ AccAgentID acc = InfoID (Info last.1) /\ (0 < length last.2)%nat /\
    failed_peers task = map (fun id => Some (AString id)) (agent_ids failed).
Proof.
  pose proof (peer_execution (fun n => 100 + Z.of_nat n) (fun n => 100 + Z.of_nat n) coders_workers no_self_learning
    coders_env (agents (register_all 1 coders)) coders_trimmed coding_task coding_plan coders_acceptance cloud_coder
    (coders_kernel NewMessageBus) (coders_kernel_ok NewMessageBus) eq_refl) as H.
  fold (run_coders NewMessageBus) in H. destruct coders_peers_differ as [Hacc Hr].
  unfold eval, exec in H. fold (run_coders NewMessageBus) in H.
  destruct (run_coders NewMessageBus) as [k [[acc task] r]]. cbn [fst snd] in *.
  destruct H as (failed & last & Hl & Hat). exists failed, last. split; [exact Hl|].
  destruct Hat as [_ _ _ _ _ _ _ Hanswer [[_ He]|He] Hhistory _]; [destruct (Hacc He)|].
  split; [exact He|]. split; [|exact Hhistory]. specialize (Hanswer Hr). destruct last as [a [|c calls]]; [done|cbn; lia].
Defined.
