(* ===== verification/PeerDeliveryProps.v ===== *)
(** * Properties of the synchronous delivery to a peer

    Over the in-memory bus an agent's mailbox is a queue that outlives the delivery: what preparing a
    delivery fetches is the oldest message in it. *)
From S2P Require Import Prelude Bus MessageBus Supervisor GoLib Domain StateMonad AgentRegistry RuntimeManager Reasoning PeerExecution.

Section Delivery.
Context (nowFn : nat -> Time).
Implicit Types (s : Supervisor MessageBus) (e : TaskEnvelope).

Definition mailbox (agent : string) s : list TaskEnvelope := queue_of (AgentTopic agent) (messageBus s).
Definition tracked (id sum : string) s : Prop := exists r, records s !! id = Some r /\ PayloadChecksum r = sum.
(** The delivery of [id] whose payload has checksum [sum] is tracked, and the agent's mailbox is [q]. *)
Definition pending (agent id sum : string) (q : list TaskEnvelope) s : Prop := mailbox agent s = q /\ tracked id sum s.

Lemma pending_later agent id sum q s s' : later s s' -> pending agent id sum q s -> pending agent id sum q s'.
Proof. intros (Hb & Hr & _) [Hq Ht]. unfold pending, mailbox, tracked in *. by rewrite Hb, Hr. Qed.

Lemma Ack_pending agent id sum q st who why s :
  pending agent id sum q s -> pending agent id sum q (Ack nowFn id st who why s).2.
Proof.
  intros [Hq (r & Hr & Hs)]. split.
  - unfold mailbox. rewrite Ack_messageBus. rewrite <- Hq. apply queue_of_queues, MessageBus.Ack_queues.
  - unfold tracked. rewrite Ack_records, Hr, lookup_insert_eq. eexists. split; [done|]. by rewrite ack_record_checksum.
Qed.

Lemma Dispatch_pending e s : hops_exceeded e = false ->
  exists sent, payloadChecksum sent = payloadChecksum e /\ EnvTaskID sent = EnvTaskID e /\
    pending (TargetAgent e) (EnvTaskID e) (payloadChecksum e) (mailbox (TargetAgent e) s ++ [sent]) (Dispatch nowFn e s).2.
Proof.
  intros Hh. destruct (Dispatch_later nowFn e s) as (created & now & progress & completed & k & _ & _ & Hl).
  set (e' := e <| EnvCreatedAt := created |>) in *.
  assert (hops_exceeded e' = false) as Hh' by exact Hh.
  exists (e' <| HopCount := Int.add (HopCount e') 1 |>). split_and!; [done|done|].
  eapply pending_later; [exact Hl|]. split.
  - unfold mailbox at 1. cbn [messageBus]. change bus_SendEnvelope with SendEnvelope.
    rewrite (Send_queue_of _ _ Hh'). by rewrite decide_True.
  - eexists. cbn [records]. rewrite lookup_insert_eq. split; [done|]. by rewrite dispatched_checksum.
Qed.

Lemma fetch_pending agent id sum x q s : pending agent id sum (x :: q) s ->
  (Supervisor.FetchAgentMailbox nowFn agent 1 s).1 = [x] /\ pending agent id sum q (Supervisor.FetchAgentMailbox nowFn agent 1 s).2.
Proof.
  intros [Hq (r & Hr & Hs)].
  set (b := messageBus s <| queues := <[AgentTopic agent := q]> (queues (messageBus s)) |>).
  assert (bus_ReceiveForAgent agent (messageBus s) = (Some x, b)) as E
    by (change (Consume (AgentTopic agent) (messageBus s) = (Some x, b)); unfold Consume; fold (mailbox agent s); by rewrite Hq).
  assert (queue_of (AgentTopic agent) b = q) as Hb by (unfold queue_of, b; cbn; by rewrite lookup_insert_eq).
  unfold Supervisor.FetchAgentMailbox. change (Z.to_nat _) with 1%nat. cbn [fetch_loop]. unfold fetch_one. rewrite E.
  clearbody b. cbn -[applyHistory bus_AckHistory].
  destruct (records s !! EnvTaskID x) as [rx|] eqn:Hx; (split; [done|]; split; [exact Hb|]).
  - destruct (decide (EnvTaskID x = id)) as [Heq|Hne].
    + eexists. cbn -[applyHistory bus_AckHistory]. rewrite Heq, lookup_insert_eq. split; [done|].
      rewrite applyHistory_checksum. cbn. congruence.
    + exists r. cbn. by rewrite lookup_insert_ne.
  - by exists r.
Qed.

Definition validated (id : string) s : Prop := exists r, records s !! id = Some r /\ PayloadValidated r = true.
Lemma Confirm_pending agent id sum q x who s : pending agent id sum q s ->
  let '(confirmed, s') := ConfirmPayload nowFn id who x s in
  confirmed = bool_decide (payloadChecksum x = sum) /\ pending agent id sum q s' /\ (confirmed = true -> validated id s').
Proof.
  intros [Hq (r & Hr & Hs)]. unfold ConfirmPayload. rewrite Hr, Hs. case_decide as Hd.
  - rewrite bool_decide_eq_false_2 by done. split; [done|]. split; [|done]. split; [exact Hq|].
    eexists. cbn. rewrite lookup_insert_eq. split; [done|exact Hs].
  - assert (payloadChecksum x = sum) as Hd' by (by destruct (decide (payloadChecksum x = sum))).
    rewrite bool_decide_eq_true_2 by done. cbn -[Ack Snapshot put_record].
    lazymatch goal with |- context [Ack nowFn id ?st who ?why ?s1] =>
      assert (pending agent id sum q s1) as H1; [|pose proof (Ack_records nowFn id st who why s1) as H2;
        apply (Ack_pending _ _ _ _ st who why) in H1; destruct (Ack nowFn id st who why s1) as [ack s2]] end.
    { split; [exact Hq|]. eexists. cbn. rewrite lookup_insert_eq. split; [done|exact Hs]. }
    split; [done|]. destruct (Snapshot_later nowFn id s2) as (E1 & E2 & E3). split.
    + eapply pending_later; [apply Snapshot_later|done].
    + intros _. unfold validated. rewrite E2. cbn [snd] in H2. rewrite H2. cbn. rewrite !lookup_insert_eq. by eexists.
Qed.

Lemma Establish_pending agent id sum q who s : pending agent id sum q s ->
  let '(ack, s') := EstablishDelivery nowFn id who s in
  pending agent id sum q s' /\ (validated id s -> AckStatusOf ack = AckStatusReceived).
Proof.
  intros [Hq (r & Hr & Hs)]. unfold EstablishDelivery, validated. rewrite Hr.
  destruct (PayloadValidated r) eqn:Hv; cbn -[Refresh put_record].
  all: split; [eapply pending_later; [apply Refresh_later|]|].
  all: try (split; [|eexists; cbn; rewrite lookup_insert_eq; split; [done|exact Hs]];
         unfold mailbox; rewrite <- Hq; by apply queue_of_queues).
  - done.
  - intros (r' & [= <-] & Hv'). congruence.
Qed.

Lemma on_delivery_run {A C} (f : Supervisor MessageBus -> A * Supervisor MessageBus) (g : A -> ST (Kernel MessageBus) C)
  (k : Kernel MessageBus) x s : f (kn_delivery k) = (x, s) ->
  exec (on_delivery f ≫= g) k = exec (g x) (k <| kn_delivery := s |>) /\
  eval (on_delivery f ≫= g) k = eval (g x) (k <| kn_delivery := s |>).
Proof. intros E. rewrite exec_bind, eval_bind. unfold on_delivery, exec, eval. by rewrite E. Qed.
(** Runs the next step; [E] is what it did to the supervisor [s0]. *)
Ltac run_delivery s0 x s E :=
  lazymatch goal with |- context [exec (on_delivery ?f ≫= ?g) ?k] =>
    destruct (f s0) as [x s] eqn:E; destruct (on_delivery_run f g k x s E) as [-> ->] end.

(** C26: What preparing a delivery does to the mailbox of the agent.  The envelope joins the mailbox and the
    oldest message leaves it, so the mailbox never gets shorter; the delivery is prepared when the payload of
    that oldest message is the one that was sent, and fails otherwise.  So a delivery to an agent whose
    mailbox is empty always succeeds, and one message left in the mailbox makes the following
    deliveries of other payloads fail, each leaving its own message to the next. *)
Theorem delivery_takes_oldest envelope agentID (k : Kernel MessageBus) :
  hops_exceeded envelope = false -> TargetAgent envelope = agentID ->
  let k' := exec (preparePeerDelivery nowFn envelope agentID) k in
  let prepared := eval (preparePeerDelivery nowFn envelope agentID) k in
  exists sent, payloadChecksum sent = payloadChecksum envelope /\ EnvTaskID sent = EnvTaskID envelope /\
    mailbox agentID (kn_delivery k') = tail (mailbox agentID (kn_delivery k) ++ [sent]) /\
    if decide (payloadChecksum (hd sent (mailbox agentID (kn_delivery k))) = payloadChecksum envelope)
    then exists state, prepared = inr (Some state)
    else prepared = inl "payload_validation_failed".
Proof.
  intros Hh <-. cbv zeta. destruct (Dispatch_pending envelope (kn_delivery k) Hh) as (sent & Hsum & Hid & H1).
  exists sent. split; [done|]. split; [done|]. set (q := mailbox _ (kn_delivery k)) in *. clearbody q.
  assert (exists x rest, q ++ [sent] = x :: rest /\ hd sent q = x) as (x & rest & Hq & ->)
    by (destruct q as [|y q']; eauto).
  rewrite Hq in *. cbn [tail]. clear Hq q.
  unfold preparePeerDelivery, DispatchEnvelope, PeerExecution.FetchAgentMailbox, ConfirmDeliveryPayload, AckDelivery,
    EstablishDeliveryHandshake, RefreshDelivery. set (id := EnvTaskID envelope) in *. set (agent := TargetAgent envelope) in *.
  run_delivery (kn_delivery k) d s1 E1. cbn [snd] in H1.
  run_delivery s1 payloads s2 E2.
  destruct (fetch_pending _ _ _ _ _ _ H1) as [Hf H2]. rewrite E2 in Hf, H2. cbn [fst snd] in Hf, H2. subst payloads.
  run_delivery s2 confirmed s3 E3. pose proof (Confirm_pending _ _ _ _ x agent _ H2) as H3. 
  rewrite E3 in H3. destruct H3 as (-> & H3 & Hv).
  destruct (decide (payloadChecksum x = payloadChecksum envelope)) as [He|Hne].
  - rewrite bool_decide_eq_true_2 in * by done. cbn [negb]. specialize (Hv eq_refl).
    run_delivery s3 ack s4 E4. pose proof (Establish_pending _ _ _ _ agent _ H3) as H4.
    rewrite E4 in H4. destruct H4 as [H4 Ha]. rewrite (Ha Hv). cbn [bool_decide decide].
    rewrite bool_decide_eq_false_2 by done. run_delivery s4 accepted s5 E5.
    pose proof (Ack_pending _ _ _ _ AckStatusAccepted agent "execution_started" _ H4) as H5. rewrite E5 in H5. cbn [snd] in H5.
    run_delivery s5 state s6 E6. rewrite exec_ret, eval_ret. cbn [kn_delivery field_map].
    pose proof (Refresh_later nowFn id s5) as Hl. rewrite E6 in Hl. cbn [snd] in Hl.
    split; [exact (proj1 (pending_later _ _ _ _ _ _ Hl H5))|].
    destruct H5 as [_ (r & Hr & _)]. unfold Refresh in E6. rewrite Hr in E6. injection E6 as <- _. by eexists.
  - rewrite bool_decide_eq_false_2 in * by done. cbn [negb]. run_delivery s3 ack s4 E4.
    pose proof (Ack_pending _ _ _ _ AckStatusFailed agent "payload_validation_failed" _ H3) as H4. rewrite E4 in H4.
    pose proof (Ack_result nowFn id AckStatusFailed agent "payload_validation_failed" s3) as Ha. rewrite E4 in Ha.
    cbn [fst snd] in *. rewrite exec_ret, eval_ret. split; [exact (proj1 H4)|]. by rewrite Ha.
Qed.
End Delivery.

(** ** Examples *)
Definition left_over : TaskEnvelope := zero_envelope <| EnvTaskID := "t0" |> <| TargetAgent := "coder" |>.
Definition message : TaskEnvelope :=
  zero_envelope <| EnvTaskID := "t1" |> <| TargetAgent := "coder" |> <| Payload := mkTaskPayload "Count words." [] [] [] "" [] |>.
Definition bus_with_left_over : MessageBus := NewMessageBus <| queues := {["agent.coder.inbox" := [left_over]]} |>.
Definition kernel_with_left_over : Kernel MessageBus :=
  mkKernel (NewRuntimeManager NewRegistry) (NewSupervisor bus_with_left_over second) (mkAgentIO [] 0 None []).

Lemma left_over_differs : payloadChecksum left_over <> payloadChecksum message.
Proof. vm_compute. discriminate. Qed.
Lemma kernel_with_left_over_mailbox : mailbox "coder" (kn_delivery kernel_with_left_over) = [left_over].
Proof. vm_compute. reflexivity. Qed.

Lemma delivery_takes_oldest_witness :
  eval (preparePeerDelivery (fun n => Z.of_nat n) message "coder") kernel_with_left_over = inl "payload_validation_failed".
Proof.
  destruct (delivery_takes_oldest (fun n => Z.of_nat n) message "coder" kernel_with_left_over) as (sent & _ & _ & _ & H).
  - vm_compute. reflexivity.
  - reflexivity.
  - rewrite kernel_with_left_over_mailbox in H. cbn [hd] in H.
    destruct (decide _) as [He|_]; [destruct (left_over_differs He)|exact H].
Defined.
