(* ===== verification/ModelBudget.v ===== *)
(** * The token budget of a model (kernel/orchestrator.go)

    Before a task is executed the memory is asked for the budget of its model.  When the budget forbids
    the model, the task is routed again among fallback providers, until an agent is found whose
    model has budget left. *)
From S2P Require Import Prelude GoLib GoJSON Domain Bus Supervisor TaskPolicy StateMonad AgentRegistry RuntimeManager.
From S2P Require Import LiveRealtime Router PlanScheduling TraceParser ExecutionEffects Reasoning ExecutionRecords PeerExecution.
From Stdlib Require Import PrimFloat FloatOps SpecFloat.

(** What the memory answers; budgets by the moment at which it is asked. *)
Record Memory : Type := mkMemory {
  EstimateTaskTokens : Task -> Z;
  EvaluateModelBudget : nat -> Task -> string -> Z -> anymap }.

(** [fmt.Sprintf] with the verb for two decimals: the exact value, rounded half to even. *)
Definition hundredths (m e : Z) : string :=
  let n := round_frac (scaled m e (-2)) in
  itoa (n / 100) +:+ "." +:+ padded 2 (n mod 100).
Definition format_fixed2 (f : float) : string :=
  let sign (s : bool) := if s then "-" else "" in
  match Prim2SF f with
  | S754_zero s => sign s +:+ "0.00"
  | S754_infinity s => (if s then "-" else "+") +:+ "Inf"
  | S754_nan => "NaN"
  | S754_finite s m e => sign s +:+ hundredths (Z.pos m) e
  end.
Example format_halves : map format_fixed2 [0.125; 0.375; 12.5; 99.995; 0; 100]%float =
  ["0.12"; "0.38"; "12.50"; "100.00"; "0.00"; "100.00"].
Proof. vm_compute. reflexivity. Qed.

Definition budgetFallbackProviders (currentProvider : string) : list string :=
  ordered_providers [currentProvider; "local"; "mistral"; "codexsale"; "openai"] [].

Definition budget_action (budget : anymap) : string := ToLower (kernelString (aget_any budget "action")).
(** The hints with the budget and the pressure it puts on the task. *)
Definition budget_hints (budget hints : anymap) : anymap :=
  let hints := aset (cloneMap hints) "model_budget" (AMap budget) in
  if String.eqb (budget_action budget) "reduce" then aset hints "token_pressure" (AString "reduce")
  else adel hints "token_pressure".
Definition blocked_summary (modelName : string) (budget : anymap) : string :=
  "Model " +:+ modelName +:+ " blocked: remaining token budget " +:+
  format_fixed2 (asFloat64 (aget_any budget "remaining_percentage")) +:+ "% is below floor " +:+
  format_fixed2 (asFloat64 (aget_any budget "error_below_percentage")) +:+ "%".
Definition blocked_result (now : Time) (task : Task) (acceptance : TaskAcceptance) (agent : AgentInfo) (budget : anymap)
  : AgentResult :=
  let summary := blocked_summary (AccModelName acceptance) budget in
  mkAgentResult (ID task) (InfoID agent) TaskStatusFailed 0 [summary] [] (AccProvider acceptance)
    (AccModelName acceptance) (mkResultOutput summary [] [] [] [("token_budget", AMap budget)]) now.

Section Budget.
Context {B : Type} (nowAt : nat -> Time) (env : Surroundings) (memory : option Memory).
Abbreviation KT := (ST (Kernel B)).

Definition RouteWithin (task : Task) (plan : ExecutionPlan) (providers : list string) (exclude : gset string)
  : KT (option TaskAcceptance * option Agent) :=
  n ← moment;
  now ← kernel_Now nowAt;
  live ← gets (fun k => io_live (kn_io k));
  on_runtime (RouteWithinProviders (su_ParseFloat env) (su_providerRegistry env) (su_hasRuntime env)
                (su_routeMemory env n) (su_retriever env n) live now task plan providers exclude).

(** One round of the loop per unit of fuel; the number of registered agents is enough. *)
Fixpoint budget_fallback (fuel : nat) (mem : Memory) (task : Task) (plan : ExecutionPlan) (plannedTokens : Z)
  (providers : list string) (exclude : gset string) : KT (option (Task * TaskAcceptance * Agent)) :=
  match fuel with
  | O => mret None
  | S fuel =>
      routed ← RouteWithin task plan providers exclude;
      match routed with
      | (Some fallbackAcceptance, Some fallbackAgent) =>
          n ← moment;
          let budget := EvaluateModelBudget mem n task (AccModelName fallbackAcceptance) plannedTokens in
          if String.eqb (budget_action budget) "error"
          then budget_fallback fuel mem task plan plannedTokens providers ({[InfoID (Info fallbackAgent)]} ∪ exclude)
          else
            let task := task <| RoutingHints ::= budget_hints budget |>
                             <| AssignedProvider := AccProvider fallbackAcceptance |>
                             <| AssignedModel := AccModelName fallbackAcceptance |> in
            mret (Some (task, fallbackAcceptance, fallbackAgent))
      | _ => mret None
      end
  end.

Definition enforceModelBudgetPolicy (task : Task) (plan : ExecutionPlan) (acceptance : TaskAcceptance) (agent : Agent)
  : KT (Task * TaskAcceptance * Agent * option AgentResult) :=
  match memory with
  | None => mret (task, acceptance, agent, None)
  | Some mem =>
      let plannedTokens := EstimateTaskTokens mem task in
      n ← moment;
      let budget := EvaluateModelBudget mem n task (AccModelName acceptance) plannedTokens in
      let task := task <| RoutingHints ::= budget_hints budget |> in
      if negb (String.eqb (budget_action budget) "error") then mret (task, acceptance, agent, None)
      else
        count ← agent_count;
        fallback ← budget_fallback (Z.to_nat count) mem task plan plannedTokens
                     (budgetFallbackProviders (AccProvider acceptance)) {[InfoID (Info agent)]};
        match fallback with
        | Some (task, acceptance, agent) => mret (task, acceptance, agent, None)
        | None => now ← kernel_Now nowAt; mret (task, acceptance, agent, Some (blocked_result now task acceptance (Info agent) budget))
        end
  end.
End Budget.
