(* ===== verification/ModelBudgetProps.v ===== *)
(** * Properties of the model budget policy

    Which model a task ends with, which agents routing offered before, and when the task is blocked. *)
From S2P Require Import Prelude GoLib GoJSON Domain Bus MessageBus Supervisor TaskPolicy StateMonad AgentRegistry RuntimeManager.
From S2P Require Import RuntimeViews RuntimeManagerProps LiveRealtime Router RouterProps PlanScheduling TraceParser.
From S2P Require Import ExecutionEffects Reasoning ReasoningProps ExecutionRecords PeerExecution PeerExecutionProps ModelBudget.
From Stdlib Require Import PrimFloat.

Lemma aget_adel_eq m k : aget (adel m k) k = None.
Proof.
  induction m as [|[k' v] m IH]; cbn; [done|]. destruct (String.eqb k k') eqn:E; [done|]. cbn. by rewrite E.
Qed.
Lemma aget_adel_ne m k k' : k <> k' -> aget (adel m k) k' = aget m k'.
Proof.
  intros Hne. induction m as [|[k2 v] m IH]; cbn; [done|]. destruct (String.eqb_spec k k2) as [->|H2].
  - rewrite IH. destruct (String.eqb_spec k' k2); congruence.
  - cbn. by rewrite IH.
Qed.

Section Budget.
Context {B : Type} (nowAt : nat -> Time) (env : Surroundings) (mem : Memory).
Context (ags : gmap string Agent).
Abbreviation KT := (ST (Kernel B)).
Abbreviation kernel_ok := (kernel_ok (B := B) ags).
Abbreviation calls_of := (calls_of (B := B)).
Abbreviation RouteWithin := (RouteWithin (B := B) nowAt env).
Abbreviation budget_fallback := (budget_fallback (B := B) nowAt env).
Abbreviation enforceModelBudgetPolicy := (enforceModelBudgetPolicy (B := B) nowAt env).

(** As things stand now, every registered agent of the given providers outside [tried] either cannot take the
    task or scores no more than the floor, with fifteen points off for every place in the list. *)
Definition nobody_within (task : Task) (plan : ExecutionPlan) (providers : list string) (tried : gset string)
  (k : Kernel B) : Prop :=
  let now := eval (kernel_Now nowAt) k in
  let n := eval moment k in
  forall a, ags !! InfoID (Info a) = Some a -> InfoID (Info a) ∉ tried ->
    within (ordered_providers providers []) a = true -> can_take (su_hasRuntime env) now task plan (kn_runtime k) a = true ->
    (lowest_score <? penalised (su_ParseFloat env) (su_providerRegistry env) (su_hasRuntime env) (su_routeMemory env n)
       (su_retriever env n) (io_live (kn_io k)) now task plan (ordered_providers providers []) (kn_runtime k) a)%float = false.

(** What a routing among providers does. *)
Record routed_within (task : Task) (plan : ExecutionPlan) (providers : list string) (tried : gset string)
  (k k' : Kernel B) (answer : option TaskAcceptance * option Agent) : Prop := mkRoutedWithin {
  rw_kernel : kernel_ok k';
  rw_calls : kn_io k' = kn_io k <| io_clock := io_clock (kn_io k') |>;
  rw_delivery : kn_delivery k' = kn_delivery k;
  rw_answer : match answer with
    | (Some acc, Some a) =>
        ags !! InfoID (Info a) = Some a /\ InfoID (Info a) ∉ tried /\ AccAgentID acc = InfoID (Info a) /\
        AccProvider acc = InfoProvider (Info a) /\ AccStatus acc = TaskStatusAccepted /\ AccTaskID acc = ID task /\
        ToLower (TrimSpace (InfoProvider (Info a))) ∈ ordered_providers providers []
    | (None, Some _) => False
    | (_, None) => nobody_within task plan providers tried k
    end }.

Lemma RouteWithin_spec task plan providers tried k : kernel_ok k ->
  routed_within task plan providers tried k (exec (RouteWithin task plan providers tried) k)
    (eval (RouteWithin task plan providers tried) k).
Proof.
  intros Hk. unfold ModelBudget.RouteWithin. rewrite exec_bind, eval_bind.
  set (n := eval moment k). change (exec moment k) with k.
  rewrite exec_bind, eval_bind. set (k1 := exec (kernel_Now nowAt) k). set (now := eval (kernel_Now nowAt) k).
  assert (io_live (kn_io k) = io_live (kn_io k1)) as L1 by done.
  assert (kernel_ok k1) as H1 by exact Hk.
  assert (kn_io k1 = kn_io k <| io_clock := io_clock (kn_io k1) |>) as I1 by (subst k1; by destruct k as [? ? []]).
  assert (kn_delivery k1 = kn_delivery k) as D1 by done. assert (kn_runtime k1 = kn_runtime k) as M1 by done. clearbody k1.
  rewrite exec_bind, eval_bind, eval_gets, exec_gets. set (live := io_live (kn_io k1)). set (m := kn_runtime k1).
  pose proof (ro_ready _ _ H1) as Hr. pose proof (ro_agents _ _ H1) as Hags. fold m in Hr, Hags.
  destruct (fallback_routes_best (su_ParseFloat env) (su_providerRegistry env) (su_hasRuntime env) (su_routeMemory env n)
    (su_retriever env n) live now task plan providers tried m Hr) as [Hv Hp].
  destruct (RouteWithinProviders_reads (su_ParseFloat env) (su_providerRegistry env) (su_hasRuntime env)
    (su_routeMemory env n) (su_retriever env n) live now _ _ task plan providers tried m (ready_settled m Hr)) as [_ He].
  set (f := RouteWithinProviders _ _ _ _ _ _ _ task plan providers tried) in *. clearbody f.
  rewrite on_runtime_eval. fold m. split.
  - unfold PeerExecutionProps.kernel_ok. rewrite on_runtime_runtime. by eapply same_view_ok.
  - unfold on_runtime, exec. destruct (f (kn_runtime k1)). exact I1.
  - unfold on_runtime, exec. by destruct (f (kn_runtime k1)).
  - rewrite He in Hp |- *. unfold nobody_within. rewrite L1, <- M1. fold n now m live. destruct (length _ =? 0)%nat.
    + cbn in Hp. rewrite Hags in Hp. exact Hp.
    + destruct (pick _ _ _ _) as [a|]; cbn [snd] in Hp; rewrite Hags in Hp; [|exact Hp].
      destruct Hp as (Ha & Hx & _ & Hin & _). split_and!; done.
Qed.

(** ** The budget policy *)

(** The same task with other hints and another assignment. *)
Definition reassigned (t t' : Task) : Prop := exists hints provider model,
  t' = t <| RoutingHints := hints |> <| AssignedProvider := provider |> <| AssignedModel := model |>.
(** At some moment the memory gave the model this budget for the task. *)
Definition asked (task : Task) (model : string) (tokens : Z) (budget : anymap) : Prop :=
  exists n t, rehinted task t /\ budget = EvaluateModelBudget mem n t model tokens.
Lemma asked_rehinted task task' model tokens budget :
  rehinted task task' -> asked task' model tokens budget -> asked task model tokens budget.
Proof. intros Hr (n & t & Ht & ->). exists n, t. split; [by eapply rehinted_trans|done]. Qed.
Lemma rehinted_reassigned t t1 t2 : rehinted t t1 -> reassigned t1 t2 -> reassigned t t2.
Proof. intros [h ->] (h' & p & m & ->). by exists h', p, m. Qed.
(** The hints of the task hold the budget and its pressure. *)
Definition budgeted (t : Task) (budget : anymap) : Prop :=
  aget (RoutingHints t) "model_budget" = Some (AMap budget) /\
  aget (RoutingHints t) "token_pressure" =
    if String.eqb (budget_action budget) "reduce" then Some (AString "reduce") else None.
Lemma budget_hints_budgeted t budget : budgeted (t <| RoutingHints ::= budget_hints budget |>) budget.
Proof.
  unfold budgeted. change (RoutingHints (t <| RoutingHints ::= budget_hints budget |>)) with (budget_hints budget (RoutingHints t)).
  unfold budget_hints. destruct (String.eqb (budget_action budget) "reduce"); (split; [|by rewrite ?aget_aset_eq, ?aget_adel_eq]).
  - rewrite aget_aset_ne by done. by rewrite aget_aset_eq.
  - rewrite aget_adel_ne by done. by rewrite aget_aset_eq.
Qed.

(** The agents in [tried], in this order, are those that routing offers from [k] on, each one without the
    ones before it, and each is refused because the memory forbids the very model it was offered
    with; [k'] is where this leaves the kernel. *)
Fixpoint offered_in_vain (task : Task) (plan : ExecutionPlan) (tokens : Z) (providers : list string)
  (exclude : gset string) (tried : list (TaskAcceptance * Agent)) (k k' : Kernel B) : Prop :=
  match tried with
  | [] => k' = k
  | (acc, a) :: tried =>
      let route := RouteWithin task plan providers exclude in
      eval route k = (Some acc, Some a) /\
      ags !! InfoID (Info a) = Some a /\ InfoID (Info a) ∉ exclude /\ AccAgentID acc = InfoID (Info a) /\
      ToLower (TrimSpace (InfoProvider (Info a))) ∈ ordered_providers providers [] /\
      budget_action (EvaluateModelBudget mem (eval moment (exec route k)) task (AccModelName acc) tokens) = "error" /\
      offered_in_vain task plan tokens providers ({[InfoID (Info a)]} ∪ exclude) tried (exec route k) k'
  end.
Fixpoint excluding (exclude : gset string) (tried : list (TaskAcceptance * Agent)) : gset string :=
  match tried with
  | [] => exclude
  | (_, a) :: tried => excluding ({[InfoID (Info a)]} ∪ exclude) tried
  end.
Lemma excluding_subseteq exclude tried : exclude ⊆ excluding exclude tried.
Proof.
  revert exclude. induction tried as [|[acc a] tried IH]; intros exclude; cbn; [done|].
  etransitivity; [|apply IH]. set_solver.
Qed.

Lemma budget_fallback_spec fuel task plan tokens providers exclude k :
  kernel_ok k -> exclude ⊆ dom ags -> (size ags < fuel + size exclude)%nat ->
  let f := budget_fallback fuel mem task plan tokens providers exclude in
  let k' := exec f k in
  kernel_ok k' /\ kn_io k' = kn_io k <| io_clock := io_clock (kn_io k') |> /\ kn_delivery k' = kn_delivery k /\
  exists tried last, offered_in_vain task plan tokens providers exclude tried k last /\
  match eval f k with
  | Some (task', acc, a) =>
      eval (RouteWithin task plan providers (excluding exclude tried)) last = (Some acc, Some a) /\
      (ags !! InfoID (Info a) = Some a /\ InfoID (Info a) ∉ excluding exclude tried /\ AccAgentID acc = InfoID (Info a) /\
       AccProvider acc = InfoProvider (Info a) /\ AccStatus acc = TaskStatusAccepted /\ AccTaskID acc = ID task /\
       ToLower (TrimSpace (InfoProvider (Info a))) ∈ ordered_providers providers []) /\
      reassigned task task' /\ AssignedProvider task' = AccProvider acc /\ AssignedModel task' = AccModelName acc /\
      exists budget, asked task (AccModelName acc) tokens budget /\ budget_action budget <> "error" /\ budgeted task' budget
  | None => nobody_within task plan providers (excluding exclude tried) last
  end.
Proof.
  revert exclude k. induction fuel as [|fuel IH]; intros exclude k Hk Hsub Hsize.
  { exfalso. apply subseteq_size in Hsub. rewrite size_dom in Hsub. lia. }
  cbn [ModelBudget.budget_fallback]. cbv zeta. rewrite exec_bind, eval_bind.
  destruct (RouteWithin_spec task plan providers exclude k Hk) as [H1 I1 D1 Ha].
  set (k1 := exec (RouteWithin _ _ _ _) k) in *. pose (k1' := k1). assert (k1' = k1) as Ek1 by done. clearbody k1'.
  destruct (eval (RouteWithin _ _ _ _) k) as [[acc|] [a|]] eqn:Hroute; [|split_and!; [done..|]|done|split_and!; [done..|]].
  2, 3: exists [], k; by split.
  rewrite exec_bind, eval_bind. set (n := eval moment k1). change (exec moment k1) with k1. cbv zeta.
  set (budget := EvaluateModelBudget mem n task (AccModelName acc) tokens).
  assert (asked task (AccModelName acc) tokens budget) as Hasked by (exists n, task; split; [apply rehinted_refl|done]).
  destruct (String.eqb_spec (budget_action budget) "error") as [He|He].
  - destruct Ha as (Ha & Hx & Hid & _ & _ & _ & Hin). specialize (IH ({[InfoID (Info a)]} ∪ exclude) k1 H1).
    assert (is_Some (ags !! InfoID (Info a))) as Hs by eauto.
    destruct IH as (H2 & I2 & D2 & tried & last & Htried & Hr).
    + apply union_least; [|done]. by apply singleton_subseteq_l, elem_of_dom.
    + rewrite size_union, size_singleton by set_solver. lia.
    + cbv zeta in H2, I2, D2, Hr. split_and!; [done|by rewrite I2, I1|congruence|].
      exists ((acc, a) :: tried), last. split; [by split_and!|]. exact Hr.
  - rewrite exec_ret, eval_ret. split; [done|]. split; [done|]. split; [done|]. exists [], k. split; [done|].
    split; [exact Hroute|]. split; [exact Ha|]. split; [|split; [done|split; [done|]]].
    + eexists _, _, _. reflexivity.
    + exists budget. split_and!; [done|done|]. exact (budget_hints_budgeted task budget).
Qed.

Lemma budget_promise task plan acc (agent : Agent) k : kernel_ok k -> ags !! InfoID (Info agent) = Some agent ->
  let tokens := EstimateTaskTokens mem task in
  let k' := exec (enforceModelBudgetPolicy (Some mem) task plan acc agent) k in
  let '(task', acc', agent', failure) := eval (enforceModelBudgetPolicy (Some mem) task plan acc agent) k in
  kernel_ok k' /\ kn_io k' = kn_io k <| io_clock := io_clock (kn_io k') |> /\ kn_delivery k' = kn_delivery k /\
  match failure with
  | None =>
      ags !! InfoID (Info agent') = Some agent' /\
      (exists budget, asked task (AccModelName acc') tokens budget /\ budget_action budget <> "error" /\ budgeted task' budget) /\
      ((agent' = agent /\ acc' = acc /\ rehinted task task') \/
       (InfoID (Info agent') <> InfoID (Info agent) /\ AccAgentID acc' = InfoID (Info agent') /\
        AccProvider acc' = InfoProvider (Info agent') /\ reassigned task task' /\
        AssignedProvider task' = AccProvider acc' /\ AssignedModel task' = AccModelName acc' /\
        ToLower (TrimSpace (InfoProvider (Info agent'))) ∈ ordered_providers (budgetFallbackProviders (AccProvider acc)) [] /\
        exists task1 tried last, rehinted task task1 /\
          offered_in_vain task1 plan tokens (budgetFallbackProviders (AccProvider acc)) {[InfoID (Info agent)]} tried k last /\
          eval (RouteWithin task1 plan (budgetFallbackProviders (AccProvider acc))
                  (excluding {[InfoID (Info agent)]} tried)) last = (Some acc', Some agent')))
  | Some result =>
      agent' = agent /\ acc' = acc /\ rehinted task task' /\ ResStatus result = TaskStatusFailed /\
      (exists budget, asked task (AccModelName acc) tokens budget /\ budget_action budget = "error") /\
      exists tried last,
        offered_in_vain task' plan tokens (budgetFallbackProviders (AccProvider acc)) {[InfoID (Info agent)]} tried k last /\
        nobody_within task' plan (budgetFallbackProviders (AccProvider acc)) (excluding {[InfoID (Info agent)]} tried) last
  end.
Proof.
  intros Hk Hreg. cbv zeta. set (tokens := EstimateTaskTokens mem task). cbn [ModelBudget.enforceModelBudgetPolicy].
  rewrite exec_bind, eval_bind. set (n := eval moment k). change (exec moment k) with k. cbv zeta. fold tokens.
  set (budget := EvaluateModelBudget mem n task (AccModelName acc) tokens).
  assert (asked task (AccModelName acc) tokens budget) as Hasked by (exists n, task; split; [apply rehinted_refl|done]).
  clearbody budget n. set (task1 := task <| RoutingHints ::= budget_hints budget |>).
  assert (rehinted task task1) as Hre by (by eexists).
  pose proof (budget_hints_budgeted task budget : budgeted task1 budget) as Hb. clearbody task1.
  destruct (String.eqb_spec (budget_action budget) "error") as [He|He]; cbn [negb].
  2: { rewrite exec_ret, eval_ret. split; [done|]. split; [by destruct k as [? ? []]|]. split; [done|].
       split; [done|]. split; [by exists budget|]. by left. }
  rewrite exec_bind, eval_bind, (agent_count_ok ags k Hk). change (exec agent_count k) with k.
  rewrite exec_bind, eval_bind, Nat2Z.id. set (providers := budgetFallbackProviders (AccProvider acc)).
  destruct (budget_fallback_spec (size ags) task1 plan tokens providers {[InfoID (Info agent)]} k Hk) as (H1 & I1 & D1 & Hr).
  { apply singleton_subseteq_l, elem_of_dom. eauto. }
  { rewrite size_singleton. lia. }
  destruct Hr as (tried & last & Htried & Hr).
  set (k1 := exec (budget_fallback _ _ _ _ _ _ _) k) in *. clearbody k1.
  destruct (eval (budget_fallback _ _ _ _ _ _ _) k) as [[[task' acc'] a']|].
  - rewrite exec_ret, eval_ret.
    destruct Hr as (Hroute & (Ha & Hx & Hid & Hp & _ & _ & Hin) & Hra & Hap & Ham & b & Hb1 & Hb2 & Hb3).
    split; [done|]. split; [done|]. split; [done|]. split; [done|]. split.
    + exists b. split; [by eapply asked_rehinted|done].
    + right. split; [pose proof (excluding_subseteq {[InfoID (Info agent)]} tried); set_solver|].
      split_and!; try done; [by eapply rehinted_reassigned|by exists task1, tried, last].
  - rewrite exec_bind, eval_bind, exec_ret, eval_ret.
    split; [exact H1|]. split; [|split; [done|]].
    + change (kn_io (exec (kernel_Now nowAt) k1)) with (kn_io k1 <| io_clock := S (io_clock (kn_io k1)) |>). by rewrite I1.
    + split_and!; try done; [by exists budget|by exists tried, last].
Qed.

(** C40: Which model a task is executed with.  The policy always comes to an end, asks no agent and leaves the
    deliveries alone.  Without a failure the task goes to a registered agent: the one it was routed to,
    or the first agent that routing offers among the fallback providers whose model the memory does not
    forbid, each agent offered before it, in turn and without its predecessors, having been
    offered with a forbidden model; the task is then assigned to it, and its hints hold the budget of
    the model and the pressure that goes with it.  With a failure, which keeps the acceptance and the
    agent, the memory forbids the given model and the model of every agent that was offered in this
    way, and after them no agent of the fallback providers can take the task. *)
Theorem budget_policy task plan acc (agent : Agent) k : kernel_ok k -> ags !! InfoID (Info agent) = Some agent ->
  let tokens := EstimateTaskTokens mem task in
  let k' := exec (enforceModelBudgetPolicy (Some mem) task plan acc agent) k in
  let '(task', acc', agent', failure) := eval (enforceModelBudgetPolicy (Some mem) task plan acc agent) k in
  kernel_ok k' /\ kn_io k' = kn_io k <| io_clock := io_clock (kn_io k') |> /\ kn_delivery k' = kn_delivery k /\
  match failure with
  | None =>
      ags !! InfoID (Info agent') = Some agent' /\
      (exists budget, asked task (AccModelName acc') tokens budget /\ budget_action budget <> "error" /\ budgeted task' budget) /\
      ((agent' = agent /\ acc' = acc /\ rehinted task task') \/
       (InfoID (Info agent') <> InfoID (Info agent) /\ AccAgentID acc' = InfoID (Info agent') /\
        AccProvider acc' = InfoProvider (Info agent') /\ reassigned task task' /\
        AssignedProvider task' = AccProvider acc' /\ AssignedModel task' = AccModelName acc' /\
        ToLower (TrimSpace (InfoProvider (Info agent'))) ∈ ordered_providers (budgetFallbackProviders (AccProvider acc)) [] /\
        exists task1 tried last, rehinted task task1 /\
          offered_in_vain task1 plan tokens (budgetFallbackProviders (AccProvider acc)) {[InfoID (Info agent)]} tried k last /\
          eval (RouteWithin task1 plan (budgetFallbackProviders (AccProvider acc))
                  (excluding {[InfoID (Info agent)]} tried)) last = (Some acc', Some agent')))
  | Some result =>
      agent' = agent /\ acc' = acc /\ rehinted task task' /\ ResStatus result = TaskStatusFailed /\
      (exists budget, asked task (AccModelName acc) tokens budget /\ budget_action budget = "error") /\
      exists tried last,
        offered_in_vain task' plan tokens (budgetFallbackProviders (AccProvider acc)) {[InfoID (Info agent)]} tried k last /\
        nobody_within task' plan (budgetFallbackProviders (AccProvider acc)) (excluding {[InfoID (Info agent)]} tried) last
  end.
Proof. exact (budget_promise task plan acc agent k). Qed.
End Budget.

(** ** Examples *)

(** No budget is left for the cloud model. *)
Definition spent_memory : Memory :=
  mkMemory (fun _ => 1200)
    (fun _ _ model _ => [("action", AString (if String.eqb model "gpt" then "ERROR" else "reduce"));
                         ("remaining_percentage", AFloat 1.5); ("error_below_percentage", AFloat 5)]).
Definition run_budget (task : Task) : Kernel MessageBus * (Task * TaskAcceptance * Agent * option AgentResult) :=
  enforceModelBudgetPolicy (fun n => 100 + Z.of_nat n) coders_env (Some spent_memory) task coding_plan coders_acceptance
    cloud_coder (coders_kernel NewMessageBus).

Example budget_falls_back :
  let '(_, (task, acc, agent, failure)) := run_budget coding_task in
  (InfoID (Info agent), AssignedModel task, aget (RoutingHints task) "token_pressure", failure) =
  ("local-coder", "qwen", Some (AString "reduce"), None).
Proof. vm_compute. reflexivity. Qed.
(** Every model is spent: the local agent is offered and refused too. *)
Definition ruined_memory : Memory := mkMemory (fun _ => 1200) (fun _ _ _ _ => [("action", AString "error")]).
Example budget_exhausted :
  let '(_, (task, acc, agent, failure)) :=
    enforceModelBudgetPolicy (fun n => 100 + Z.of_nat n) coders_env (Some ruined_memory) coding_task coding_plan
      coders_acceptance cloud_coder (coders_kernel NewMessageBus) in
  (InfoID (Info agent), ResStatus <$> failure) = ("cloud-coder", Some TaskStatusFailed).
Proof. vm_compute. reflexivity. Qed.
Example blocked_message :
  blocked_summary "gpt" (EvaluateModelBudget spent_memory 0 coding_task "gpt" 0) =
  "Model gpt blocked: remaining token budget 1.50% is below floor 5.00%".
Proof. vm_compute. reflexivity. Qed.

Lemma budget_falls_back_here :
  (run_budget coding_task).2.2 = None /\ InfoID (Info (run_budget coding_task).2.1.2) <> "cloud-coder".
Proof. vm_compute. split; [reflexivity|discriminate]. Qed.

Lemma budget_policy_witness :
  let '(k, (task, acc, agent, failure)) := run_budget coding_task in
  AssignedModel task = AccModelName acc /\ exists budget, budget_action budget <> "error" /\ budgeted task budget.
Proof.
  pose proof (budget_policy (fun n => 100 + Z.of_nat n) coders_env spent_memory (agents (register_all 1 coders)) coding_task
    coding_plan coders_acceptance cloud_coder (coders_kernel NewMessageBus) (coders_kernel_ok NewMessageBus) eq_refl) as H.
  pose proof budget_falls_back_here as [Hf Hne]. cbv zeta in H.
  set (f := enforceModelBudgetPolicy _ _ _ _ _ _ _) in H.
  assert (f (coders_kernel NewMessageBus) = run_budget coding_task) as E by reflexivity. clearbody f.
  unfold eval, exec in H. rewrite E in H.
  destruct (run_budget coding_task) as [k [[[task acc] agent] failure]]. cbn [fst snd] in *. subst failure.
  destruct H as (_ & _ & _ & _ & (budget & _ & Hb1 & Hb2) & [(-> & _)|(_ & _ & _ & _ & _ & Hm & _)]); [destruct (Hne eq_refl)|].
  split; [exact Hm|]. exists budget. split; [exact Hb1|exact Hb2].
Defined.
