(* ===== verification/CacheGuard.v ===== *)
(** * The cache guard (memory/manager.go, state/file_store.go)

    A hard stop is recorded in the store as an invalidation of the session and branch of a task;
    a submission asks for the latest invalidations and is blocked by a hard stop among them. *)
From S2P Require Import Prelude GoLib GoJSON Domain PlanScheduling ExecutionEffects.

Record InvalidationEvent : Type := mkInvalidationEvent {
  InvSessionID : string;
  InvBranch : string;
  InvReason : string;
  InvPayload : anymap;
  LoggedAt : Time;
  StorageMode : string }.

(** ** The store: the events of every session and branch, in order *)
Definition sessionKey (sessionID branch : string) : string := sessionID +:+ "::" +:+ branch.
Definition invalidations_of (key : string) (st : gmap string (list InvalidationEvent)) : list InvalidationEvent :=
  default [] (st !! key).
(** An event stays in memory when the file cannot be written. *)
Definition RecordInvalidation (now : Time) (storageMode sessionID branch reason : string) (payload : anymap)
  (st : gmap string (list InvalidationEvent)) : gmap string (list InvalidationEvent) :=
  let event := mkInvalidationEvent sessionID branch reason (cloneMap payload) now storageMode in
  let key := sessionKey sessionID branch in
  <[key := invalidations_of key st ++ [event]]> st.
Definition RecentInvalidations (sessionID branch : string) (limit : nat) (st : gmap string (list InvalidationEvent))
  : list InvalidationEvent :=
  let events := invalidations_of (sessionKey sessionID branch) st in
  if (0 <? limit)%nat && (limit <? length events)%nat then drop (length events - limit) events else events.

(** ** The memory *)
Definition hardStopReason : string := "CACHE_GUARD_HARD_STOP".
Definition normalizeSessionID (sessionID : string) : string := TrimSpace sessionID.
Definition normalizeBranch (branch : string) : string :=
  let trimmed := TrimSpace branch in if String.eqb trimmed "" then "default" else trimmed.
Fixpoint firstNonEmpty (values : list string) : string :=
  match values with
  | [] => ""
  | value :: values => if non_blank value then TrimSpace value else firstNonEmpty values
  end.
Definition invalidationPayload (event : InvalidationEvent) : anymap :=
  [("session_id", AString (InvSessionID event)); ("branch", AString (InvBranch event));
   ("reason", AString (InvReason event)); ("payload", AMap (cloneMap (InvPayload event)));
   ("logged_at", time_any (LoggedAt event)); ("storage_mode", AString (StorageMode event))].

(** [RecordHardStop]; its error is ignored by every caller. *)
Definition record_hard_stop (now : Time) (storageMode : string) (task : Task) (action reason : string)
  (st : gmap string (list InvalidationEvent)) : gmap string (list InvalidationEvent) :=
  let sessionID := normalizeSessionID (firstNonEmpty [SessionID task; ID task]) in
  if String.eqb sessionID "" then st
  else RecordInvalidation now storageMode sessionID (normalizeBranch (ContextBranch (Context_ task))) hardStopReason
         [("action", AString action); ("reason", AString (TrimSpace reason)); ("task_id", AString (ID task))] st.

Definition is_hard_stop (event : InvalidationEvent) : bool := EqualFold (TrimSpace (InvReason event)) hardStopReason.
Definition mark_hard_stop (snapshot : anymap) (event : InvalidationEvent) : anymap :=
  if is_hard_stop event
  then aset (aset (aset (aset snapshot "blocked" (ABool true)) "hard_stop" (ABool true)) "reason" (AString (InvReason event)))
            "last_invalidated_at" (time_any (LoggedAt event))
  else snapshot.
(** [storeError] is the error of reading the events, if there is one. *)
Definition CacheGuardSnapshot (storeError : option string) (sessionID branch : string)
  (st : gmap string (list InvalidationEvent)) : anymap :=
  let sessionID := normalizeSessionID sessionID in
  let branch := normalizeBranch branch in
  let snapshot := [("session_id", AString sessionID); ("branch", AString branch); ("blocked", ABool false);
                   ("hard_stop", ABool false); ("recent_invalidations", AMaps [])] in
  if String.eqb sessionID "" then snapshot
  else match storeError with
  | Some err => aset snapshot "error" (AString err)
  | None =>
      let events := RecentInvalidations sessionID branch 10 st in
      aset (foldl mark_hard_stop snapshot events) "recent_invalidations" (AMaps (map invalidationPayload events))
  end.

(** ** The invalidations a journal leaves behind; the clock of the store counts the effects *)
Section Replay.
Context (loggedAt : nat -> Time) (storageMode : string).
Definition replay_step (n : nat) (e : Effect) (st : gmap string (list InvalidationEvent))
  : gmap string (list InvalidationEvent) :=
  match e with
  | RecordHardStop task action reason => record_hard_stop (loggedAt n) storageMode task action reason st
  | _ => st
  end.
Fixpoint replay_from (n : nat) (journal : list Effect) (st : gmap string (list InvalidationEvent))
  : gmap string (list InvalidationEvent) :=
  match journal with
  | [] => st
  | e :: journal => replay_from (S n) journal (replay_step n e st)
  end.
Definition replay (journal : list Effect) : gmap string (list InvalidationEvent) := replay_from 0 journal ∅.

(** ** Properties *)

(** The hard stop concerns the session and branch. *)
Definition stops (sessionID branch : string) (e : Effect) : Prop :=
  match e with
  | RecordHardStop task _ _ =>
      let stopped := normalizeSessionID (firstNonEmpty [SessionID task; ID task]) in
      stopped <> "" /\
      sessionKey stopped (normalizeBranch (ContextBranch (Context_ task))) =
      sessionKey (normalizeSessionID sessionID) (normalizeBranch branch)
  | _ => False
  end.

Lemma replay_step_events n e sessionID branch st :
  let key := sessionKey (normalizeSessionID sessionID) (normalizeBranch branch) in
  exists events, invalidations_of key (replay_step n e st) = invalidations_of key st ++ events /\
    Forall (fun e => InvReason e = hardStopReason) events /\ (events = [] <-> ~ stops sessionID branch e).
Proof.
  intros key. assert (forall st', st' = st -> ~ stops sessionID branch e -> exists events,
    invalidations_of key st' = invalidations_of key st ++ events /\
    Forall (fun e => InvReason e = hardStopReason) events /\ (events = [] <-> ~ stops sessionID branch e)) as Hskip.
  { intros st' -> Hno. exists []. by rewrite app_nil_r. }
  destruct e; try (apply Hskip; [done|by intros []]). unfold replay_step, record_hard_stop in *. cbv zeta.
  set (stopped := normalizeSessionID (firstNonEmpty _)) in *. set (at_branch := normalizeBranch (ContextBranch _)) in *.
  destruct (String.eqb_spec stopped "") as [He|He].
  { apply Hskip; [done|]. intros Hs. exact (proj1 Hs He). }
  unfold RecordInvalidation, invalidations_of. destruct (decide (sessionKey stopped at_branch = key)) as [Hk|Hk].
  - rewrite Hk, lookup_insert_eq. eexists. split; [reflexivity|]. split; [by repeat constructor|].
    split; [done|]. intros Hno. destruct Hno. exact (conj He Hk).
  - rewrite lookup_insert_ne by done. exists []. rewrite app_nil_r. split_and!; [done|done|].
    split; [|done]. intros _ Hs. exact (Hk (proj2 Hs)).
Qed.

(** The events of a session and branch are the hard stops that concern it. *)
Lemma replay_from_events n journal st sessionID branch :
  let key := sessionKey (normalizeSessionID sessionID) (normalizeBranch branch) in
  exists events, invalidations_of key (replay_from n journal st) = invalidations_of key st ++ events /\
    Forall (fun e => InvReason e = hardStopReason) events /\ (events = [] <-> Forall (fun e => ~ stops sessionID branch e) journal).
Proof.
  intros key. revert n st. induction journal as [|e journal IH]; intros n st.
  { exists []. rewrite app_nil_r. split_and!; done || by constructor. }
  destruct (replay_step_events n e sessionID branch st) as (ev & H1 & H2 & H3). fold key in H1.
  destruct (IH (S n) (replay_step n e st)) as (events & H4 & H5 & H6). exists (ev ++ events).
  cbn [replay_from]. rewrite H4, H1, <- app_assoc. split_and!; [done|by apply Forall_app|].
  rewrite app_nil, Forall_cons. tauto.
Qed.

Lemma marked_hard_stop events snapshot : Forall (fun e => InvReason e = hardStopReason) events -> events <> [] ->
  let snapshot := foldl mark_hard_stop snapshot events in
  aget snapshot "blocked" = Some (ABool true) /\ aget snapshot "reason" = Some (AString hardStopReason).
Proof.
  intros Hf Hne. cbv zeta. destruct (exists_last Hne) as (before & last & ->).
  apply Forall_app in Hf as [_ Hl]. apply Forall_inv in Hl. rewrite foldl_app. cbn [foldl].
  unfold mark_hard_stop, is_hard_stop. rewrite Hl.
  assert (EqualFold (TrimSpace hardStopReason) hardStopReason = true) as -> by (vm_compute; reflexivity).
  split; [do 3 (rewrite aget_aset_ne by done)|do 1 (rewrite aget_aset_ne by done)]; by rewrite aget_aset_eq.
Qed.

Definition blocked (guard : anymap) : bool := match aget guard "blocked" with Some (ABool b) => b | _ => false end.

(** The guard blocks exactly the sessions and branches with a hard stop, however long ago. *)
Lemma guard_blocked journal sessionID branch : normalizeSessionID sessionID <> "" ->
  let guard := CacheGuardSnapshot None sessionID branch (replay journal) in
  (Exists (stops sessionID branch) journal -> blocked guard = true /\ aget guard "reason" = Some (AString hardStopReason)) /\
  (Forall (fun e => ~ stops sessionID branch e) journal -> blocked guard = false).
Proof.
  intros Hne. cbv zeta. unfold CacheGuardSnapshot. rewrite (proj2 (String.eqb_neq _ _) Hne).
  destruct (replay_from_events 0 journal ∅ sessionID branch) as (events & H1 & H2 & H3). cbv zeta in H1.
  fold (replay journal) in H1. unfold RecentInvalidations. rewrite H1.
  change (invalidations_of _ ∅) with (@nil InvalidationEvent). cbn [app].
  match goal with |- context [foldl mark_hard_stop _ ?l] => set (recent := l) end.
  assert (Forall (fun e => InvReason e = hardStopReason) recent) as Hf.
  { subst recent. case_match; [|done]. by apply Forall_drop. }
  assert (recent = [] <-> events = []) as Hnil.
  { subst recent. destruct (0 <? 10)%nat; cbn [andb]; [|done]. destruct (Nat.ltb_spec 10 (length events)) as [Hl|Hl]; [|done].
    split; intros E; apply (f_equal length) in E; [rewrite length_drop in E; cbn in E; lia|rewrite E in Hl; cbn in Hl; lia]. }
  split.
  - intros Hex. assert (recent <> []) as Hr.
    { rewrite Hnil, H3. intros Hall. apply Exists_exists in Hex as (e & He & Hs). by apply (proj1 (Forall_forall _ _) Hall e He). }
    match goal with |- context [foldl mark_hard_stop ?s recent] => destruct (marked_hard_stop recent s Hf Hr) as [Hb Hre] end.
    unfold blocked. do 2 (rewrite aget_aset_ne by done). rewrite Hb, Hre. done.
  - intros Hall. apply H3, Hnil in Hall. by rewrite Hall.
Qed.
End Replay.
