(* ===== verification/Workflows.v ===== *)
(** * The stored workflows (kernel/orchestrator.go)

    The state of the orchestrator around the kernel: the workflows in the store and the sessions of
    the external coding runtime.  The workflow store is a map from task ids; saving may fail. *)
From S2P Require Import Prelude Bus Supervisor GoLib GoJSON Domain TaskPolicy StateMonad AgentRegistry RuntimeManager.
From S2P Require Import LiveRealtime Router TraceParser ExecutionEffects Reasoning PeerExecution.

(** [codingRuntimeSessionMapper] *)
Record SessionMapper : Type := mkSessionMapper {
  byTaskID : gmap string string;
  bySessionID : gmap string string;
  sessionMetadata : gmap string CodingRuntimeSession }.
Definition newCodingRuntimeSessionMapper : SessionMapper := mkSessionMapper ∅ ∅ ∅.
Definition bind (taskID : string) (session : CodingRuntimeSession) (m : SessionMapper) : SessionMapper :=
  mkSessionMapper (<[taskID := CrsSessionID session]> (byTaskID m)) (<[CrsSessionID session := taskID]> (bySessionID m))
    (<[CrsSessionID session := session]> (sessionMetadata m)).
Definition unbind (taskID sessionID : string) (m : SessionMapper) : SessionMapper :=
  let drop_session {A} (sessions : gmap string A) := if String.eqb sessionID "" then sessions else delete sessionID sessions in
  mkSessionMapper (if String.eqb taskID "" then byTaskID m else delete taskID (byTaskID m))
    (drop_session (bySessionID m)) (drop_session (sessionMetadata m)).

Record Core (B : Type) : Type := mkCore {
  co_kernel : Kernel B;
  co_workflows : gmap string WorkflowRecord;
  co_sessions : SessionMapper }.
Arguments mkCore {B}. Arguments co_kernel {B}. Arguments co_workflows {B}. Arguments co_sessions {B}.
#[export] Instance eta_Core {B} : Updatable (Core B) := fun c => mkCore (co_kernel c) (co_workflows c) (co_sessions c).

(** The workflow store, an interface: saving gives an error or none, reading an error or the record if
    there is one, both by the moment of the call. *)
Record Store : Type := mkStore {
  store_save : nat -> WorkflowRecord -> gmap string WorkflowRecord -> option string * gmap string WorkflowRecord;
  store_get : nat -> string -> gmap string WorkflowRecord -> string + option WorkflowRecord }.
(** What the orchestrator relies on.  A store that fails may have kept the record all the same. *)
Class StoreLaws (store : Store) : Prop := {
  store_saved : forall n record m m', store_save store n record m = (None, m') -> m' = <[ID (WfTask record) := record]> m;
  store_not_saved : forall n record m err m', store_save store n record m = (Some err, m') ->
    m' = m \/ m' = <[ID (WfTask record) := record]> m;
  store_gotten : forall n taskID m found, store_get store n taskID m = inr found -> found = m !! taskID }.

(** The file store keeps the record in memory and then writes the file; [persistLocked] is the error of writing. *)
Definition FileStore (persistLocked : nat -> option string) : Store :=
  mkStore (fun n record workflows => (persistLocked n, <[ID (WfTask record) := record]> workflows))
    (fun _ workflowID workflows => inr (workflows !! workflowID)).
#[export] Instance FileStore_laws persistLocked : StoreLaws (FileStore persistLocked).
Proof.
  split; cbn; intros.
  - by simplify_eq.
  - right. by simplify_eq.
  - by simplify_eq.
Qed.

Section Workflows.
Context {B : Type} `{Bus B} (nowAt : nat -> Time) (store : Store).
Abbreviation KT := (ST (Kernel B)).
Abbreviation CT := (ST (Core B)).

Definition on_kernel {A} (f : KT A) : CT A :=
  fun c => let '(k, x) := f (co_kernel c) in (c <| co_kernel := k |>, x).
Definition core_Now : CT Time := on_kernel (kernel_Now nowAt).
Definition core_moment : CT nat := on_kernel moment.
Definition core_journal (e : Effect) : CT () := on_kernel (journal e).
Definition SaveWorkflow (record : WorkflowRecord) : CT (option string) :=
  n ← core_moment;
  (fun c => let '(err, workflows) := store_save store n record (co_workflows c) in
            (c <| co_workflows := workflows |>, err)) : CT (option string).
(** The error, or the record if there is one. *)
Definition GetWorkflow (taskID : string) : CT (string + option WorkflowRecord) :=
  n ← core_moment;
  gets (fun c => store_get store n taskID (co_workflows c)).

(** What a task that is closed tells: an event, the inventory and, for some, its waiters. *)
Definition announce (kind taskID : string) (payload : list (string * event_value)) : CT () :=
  on_kernel (publish "tasks" kind taskID payload);; core_journal PublishInventorySnapshot.
Definition notifyWorkflowWaiters (record : WorkflowRecord) : CT () := core_journal (NotifyWorkflowWaiters record).
(** Saves the record and, once it is stored, goes on. *)
Definition save_then (record : WorkflowRecord) (next : CT ()) : CT (string + WorkflowRecord) :=
  err ← SaveWorkflow record;
  match err with
  | Some err => mret (inl err)
  | None => next;; mret (inr record)
  end.
End Workflows.
