(* ===== verification/CodingDelegate.v ===== *)
(** * Delegation to an external coding runtime (kernel/opencode_delegate.go)

    Coding tasks go to an external runtime when one is attached: the orchestrator builds a request,
    starts a session, waits for its result and stores the workflow.  The runtime is an interface of
    the source; starting and waiting may do anything to the orchestrator, which a runtime inside this
    process shares. *)
From S2P Require Import Prelude Bus Supervisor GoLib GoJSON Domain TaskPolicy StateMonad AgentRegistry RuntimeManager.
From S2P Require Import SubmissionScheduler LiveRealtime Router Planner PlanScheduling TraceParser ExecutionEffects Reasoning.
From S2P Require Import ExecutionRecords PeerExecution Workflows.
From Stdlib Require Import PrimFloat.

(** ** Requests *)
Inductive CodingRuntimeMode : Type := CodingRuntimeModePlan | CodingRuntimeModeBuild | CodingRuntimeModeReview.
Definition mode_string (mode : CodingRuntimeMode) : string :=
  match mode with
  | CodingRuntimeModePlan => "plan" | CodingRuntimeModeBuild => "build" | CodingRuntimeModeReview => "review"
  end.
Record CodingRuntimeRequest : Type := mkCodingRuntimeRequest {
  CrqTask : Task;
  CrqPlan : ExecutionPlan;
  Mode : CodingRuntimeMode;
  AllowedTools : list string;
  AllowedSubagents : list string;
  RAGResults : list RAGResult;
  CrqMetadata : anymap }.
Record CodingRuntimeEvent : Type := mkCodingRuntimeEvent {
  EventKind : string;
  EventMessage : string;
  EventProgress : float;
  EventMetadata : anymap }.

(** [domain.ExternalCodingRuntime], as far as the orchestrator calls it: a session or an error, a result
    or an error, and the events to come if the session has any. *)
Record CodingRuntime (B : Type) : Type := mkCodingRuntime {
  RuntimeName : string;
  Supports : Task -> bool;
  StartTask : CodingRuntimeRequest -> ST (Core B) (string + CodingRuntimeSession);
  WaitTask : CodingRuntimeSession -> ST (Core B) (string + AgentResult);
  Events : nat -> string -> option (list CodingRuntimeEvent) }.
Arguments RuntimeName {B}. Arguments Supports {B}. Arguments StartTask {B}. Arguments WaitTask {B}. Arguments Events {B}.

Definition codingRuntimeModeFromHints (task : Task) : CodingRuntimeMode :=
  let by_type := match Type_ task with
    | TaskTypePlan => CodingRuntimeModePlan
    | TaskTypeReview => CodingRuntimeModeReview
    | _ => CodingRuntimeModeBuild
    end in
  let hint := ToLower (TrimSpace (routingHintString (RoutingHints task) "coding_mode")) in
  if String.eqb hint "plan" then CodingRuntimeModePlan
  else if String.eqb hint "review" then CodingRuntimeModeReview
  else if String.eqb hint "build" then CodingRuntimeModeBuild
  else by_type.

Definition trimmed_non_blank (items : list string) : list string :=
  filter (fun text => negb (String.eqb text "")) (map TrimSpace items).
Definition stringListFromAny (value : any) : list string :=
  match value with
  | AStrings typed => typed
  | AList typed => trimmed_non_blank (map Sprint typed)
  | AString typed => if String.eqb (TrimSpace typed) "" then [] else trimmed_non_blank (Split typed ",")
  | _ => []
  end.
Fixpoint firstNonEmptyList (lists : list (list string)) : list string :=
  match lists with
  | [] => []
  | l :: lists => match trimmed_non_blank l with [] => firstNonEmptyList lists | items => items end
  end.
Fixpoint firstNonEmptyComplexity (values : list Complexity) : Complexity :=
  match values with
  | [] => ComplexityMedium
  | value :: values => if String.eqb (complexity_string value) "" then firstNonEmptyComplexity values else value
  end.
Definition routingHintInt (task : Task) (key : string) (fallback : Z) : Z :=
  match aget (RoutingHints task) key with
  | Some (AInt n) => n
  | Some (AFloat f) => int_of_float f
  | _ => fallback
  end.

Definition repository (task : Task) : string :=
  firstNonEmptyString [RepoPath (Context_ task); Project (Context_ task)].
Definition rag_query_text (task : Task) : string :=
  let query := TrimSpace (Description (Input task)) in
  let query := if String.eqb query "" then Join (InputFiles (Input task)) " " else query in
  if String.eqb query "" then firstNonEmptyString [RequiredCapability task; Project (Context_ task)] else query.
Definition request_metadata (mode : CodingRuntimeMode) (task : Task) (plan : ExecutionPlan) (ragResults : list RAGResult)
  : anymap :=
  let metadata := cloneMap (ExecutionContract task) in
  let metadata := aset metadata "project" (AString (Project (Context_ task))) in
  let metadata := aset metadata "repo" (AString (repository task)) in
  let metadata := aset metadata "session_id" (AString (SessionID task)) in
  let metadata := aset metadata "routing_mode" (AString (mode_string mode)) in
  let metadata := aset metadata "orchestrator" (AString "go-core") in
  let metadata := aset metadata "plan_step_count" (AInt (len (Steps plan))) in
  let metadata := aset metadata "plan_primary_capability" (AString (PrimaryCapability plan)) in
  match ragResults with [] => metadata | _ => aset metadata "rag_context" (AString (formatRAGResults ragResults)) end.
(** The list a contract or, failing that, a hint allows. *)
Definition allowed (task : Task) (key : string) : list string :=
  firstNonEmptyList [stringListFromAny (aget_any (ExecutionContract task) key); stringListFromAny (aget_any (RoutingHints task) key)].

(** ** Results *)

(** RFC 3339 without fractions of a second, of an instant in UTC. *)
Definition format_rfc3339 (t : Time) : string := format_time (t / second * second).
Definition attachCodingRuntimeTaskContext (now : Time) (task : Task) (session : CodingRuntimeSession)
  (req : CodingRuntimeRequest) : Task :=
  let contract := cloneMap (ExecutionContract task) in
  let contract := aset contract "coding_runtime" (AString (firstNonEmptyString [CrsRuntime session; CrsProvider session])) in
  let contract := aset contract "coding_runtime_session_id" (AString (CrsSessionID session)) in
  let contract := aset contract "coding_runtime_mode" (AString (mode_string (Mode req))) in
  let accepted := default zero_time (firstNonZeroTime [CrsAcceptedAt session; now]) in
  let contract := aset contract "coding_runtime_accepted_at" (AString (format_rfc3339 accepted)) in
  let contract := match RAGResults req with
    | [] => contract
    | results => aset contract "coding_runtime_rag_results" (AString (formatRAGResults results))
    end in
  task <| ExecutionContract := contract |>.
Definition newCodingRuntimeAcceptance (now : Time) (task : Task) : TaskAcceptance :=
  mkTaskAcceptance (ID task) TaskStatusAccepted "" (firstNonEmptyComplexity [Complexity_ task; ComplexityMedium])
    "delegated to coding runtime" (RequiredCapability task) (firstNonEmptyString [AssignedProvider task])
    (firstNonEmptyString [AssignedModel task]) false now.
Definition normalizeTaskStatusResult (result : AgentResult) (task : Task) : AgentResult :=
  let result := result <| ResStatus ::= normalizeTaskStatus |> in
  if String.eqb (ResTaskID result) "" then result <| ResTaskID := ID task |> else result.
Definition isFailureStatus (status : TaskStatus) : bool :=
  match normalizeTaskStatus status with
  | TaskStatusFailed | TaskStatusRejected | TaskStatusDeadLettered => true
  | _ => false
  end.
(** What happened to a delegated task: the status of its result and the reason that goes with it. *)
Definition settled_acceptance (acceptance : TaskAcceptance) (result : AgentResult) : TaskAcceptance :=
  let acceptance := acceptance <| AccStatus := normalizeTaskStatus (ResStatus result) |> in
  if bool_decide (AccStatus acceptance = TaskStatusCompleted)
  then acceptance <| AccReason := firstNonEmptyString [AccReason acceptance; "coding runtime execution completed"] |>
  else match Errors result with
  | [] => acceptance
  | errors => acceptance <| AccReason := firstNonEmptyString [Join errors "; "; AccReason acceptance] |>
  end.
Definition or_else (value fallback : string) : string := if non_blank value then value else fallback.
(** The names a result lacks. *)
Definition complete_result (runtimeName : string) (task : Task) (session : CodingRuntimeSession) (result : AgentResult)
  : AgentResult :=
  result <| ResTaskID ::= fun id => or_else id (ID task) |>
         <| ResAgentID ::= fun id => or_else id runtimeName |>
         <| ResProvider ::= fun provider => or_else provider (firstNonEmptyString [CrsProvider session; runtimeName]) |>
         <| ResModelName ::= fun model => or_else model (CrsModel session) |>.

(** ** Delegation *)
Section Delegate.
Context {B : Type} `{Bus B} (nowAt : nat -> Time) (store : Store) (selfLearn : SelfLearning).
Abbreviation CT := (ST (Core B)).
Abbreviation core_Now := (core_Now nowAt).

Definition delegated_capability (task : Task) : bool :=
  mem_string (ToLower (TrimSpace (RequiredCapability task))) ["sourcecraft"; "code"; "review"].
Definition shouldDelegateToCodingRuntime (codingRuntime : option (CodingRuntime B)) (task : Task) : bool :=
  match codingRuntime with
  | None => false
  | Some runtime =>
      if negb (Supports runtime task) then false
      else
        let hint := TrimSpace (routingHintString (RoutingHints task) "coding_runtime") in
        let word := ToLower hint in
        if negb (String.eqb hint "") && mem_string word ["disable"; "disabled"; "false"; "off"; "none"] then false
        else if negb (String.eqb hint "") && mem_string word ["force"; "forced"; "true"; "on"; ToLower (RuntimeName runtime)] then true
        else if isSourcecraftWork task then true
        else match Type_ task with
        | TaskTypeCode | TaskTypeFix | TaskTypeTest | TaskTypeReview | TaskTypePlan => true
        | _ => (0 <? len (InputFiles (Input task))) || delegated_capability task
        end
  end.
Definition codingRuntimeName (runtime : CodingRuntime B) : string :=
  let name := TrimSpace (RuntimeName runtime) in if String.eqb name "" then "opencode" else name.

(** A retriever that fails returns nothing. *)
Definition retrieveCodingRuntimeRAGContext (task : Task) : CT (list RAGResult) :=
  match sl_retriever selfLearn with
  | None => mret []
  | Some Retrieve =>
      let query := rag_query_text task in
      if String.eqb query "" then mret []
      else
        n ← core_moment;
        mret (Retrieve n (mkRagQuery query (SessionID task) (ID task) (routingHintInt task "coding_rag_limit" 6)
                           [("repository", AString (repository task)); ("task_type", AString (task_type_string (Type_ task)))]))
  end.
Definition buildCodingRuntimeRequest (task : Task) (plan : ExecutionPlan) : CT CodingRuntimeRequest :=
  let mode := codingRuntimeModeFromHints task in
  ragResults ← retrieveCodingRuntimeRAGContext task;
  mret (mkCodingRuntimeRequest task plan mode (allowed task "allowed_tools") (allowed task "allowed_subagents") ragResults
          (request_metadata mode task plan ragResults)).

Definition failedCodingRuntimeResult (runtime : CodingRuntime B) (task : Task) (err : string) : CT AgentResult :=
  now ← core_Now;
  mret (mkAgentResult (ID task) (codingRuntimeName runtime) TaskStatusFailed 0%float [err]
          ["retry_with_fallback_model"; "inspect_coding_runtime"] (codingRuntimeName runtime) ""
          (mkResultOutput "" [] [] [] []) now).
(** A session that could not be started. *)
Definition unstarted_workflow (runtime : CodingRuntime B) (task : Task) (plan : ExecutionPlan) (err : string)
  : CT WorkflowRecord :=
  result ← failedCodingRuntimeResult runtime task err;
  accepted ← core_Now;
  updated ← core_Now;
  mret (mkWorkflowRecord task plan (newCodingRuntimeAcceptance accepted task) (Some result) updated).
Definition pending_workflow (task : Task) (plan : ExecutionPlan) (session : CodingRuntimeSession)
  (req : CodingRuntimeRequest) : CT WorkflowRecord :=
  attached ← core_Now;
  accepted ← core_Now;
  updated ← core_Now;
  mret (mkWorkflowRecord (attachCodingRuntimeTaskContext attached task session req) plan
          (newCodingRuntimeAcceptance accepted task) None updated).
Definition finalizeCodingRuntimeWorkflow (runtime : CodingRuntime B) (task : Task) (plan : ExecutionPlan)
  (req : CodingRuntimeRequest) (session : CodingRuntimeSession) (result : AgentResult) : CT WorkflowRecord :=
  let result := complete_result (codingRuntimeName runtime) task session result in
  result ← (if IsZero (CompletedAtResult result)
            then now ← core_Now; mret (result <| CompletedAtResult := now |>) else mret result);
  accepted ← core_Now;
  let acceptance := settled_acceptance (newCodingRuntimeAcceptance accepted task) result in
  attached ← core_Now;
  updated ← core_Now;
  mret (mkWorkflowRecord (attachCodingRuntimeTaskContext attached task session req) plan acceptance (Some result) updated).

(** The events are forwarded by a goroutine of their own. *)
Definition startCodingRuntimeEventPump (runtime : CodingRuntime B) (session : CodingRuntimeSession) (taskID : string) : CT () :=
  n ← core_moment;
  match Events runtime n (CrsSessionID session) with
  | None => mret ()
  | Some _ => core_journal (StartCodingRuntimeEventPump session taskID)
  end.
(** What the goroutine publishes for an event. *)
Definition pump_event (runtime : CodingRuntime B) (session : CodingRuntimeSession) (taskID : string)
  (event : CodingRuntimeEvent) : Effect :=
  let metadata := cloneMap (EventMetadata event) in
  let metadata := aset metadata "session_id" (AString (CrsSessionID session)) in
  let metadata := aset metadata "task_id" (AString taskID) in
  let metadata := aset metadata "runtime" (AString (firstNonEmptyString [CrsRuntime session; codingRuntimeName runtime])) in
  let metadata := if String.eqb (EventMessage event) "" then metadata
                  else aset metadata "message" (AString (EventMessage event)) in
  let metadata := if (0 <? EventProgress event)%float then aset metadata "progress" (AFloat (EventProgress event))
                  else metadata in
  PublishRuntimeEvent "tasks" (firstNonEmptyString [EventKind event; "task.progress"]) taskID
    (map (fun kv => (kv.1, EvAny kv.2)) metadata).

Definition bind_session (taskID : string) (session : CodingRuntimeSession) : CT () :=
  modify (fun c => c <| co_sessions ::= bind taskID session |>).
Definition unbind_session (taskID sessionID : string) : CT () := modify (fun c => c <| co_sessions ::= unbind taskID sessionID |>).
(** Waits for the session and closes the workflow with what came of it. *)
Definition await_session (runtime : CodingRuntime B) (task : Task) (plan : ExecutionPlan) (req : CodingRuntimeRequest)
  (session : CodingRuntimeSession) : CT (WorkflowRecord * AgentResult) :=
  waited ← WaitTask runtime session;
  result ← match waited with
           | inl err => failedCodingRuntimeResult runtime task err
           | inr result => mret (normalizeTaskStatusResult result task)
           end;
  record ← finalizeCodingRuntimeWorkflow runtime task plan req session result;
  mret (record, result).
Definition announce_outcome (record : WorkflowRecord) (taskID : string) (result : AgentResult) : CT () :=
  announce (if isFailureStatus (AccStatus (Acceptance record)) then "task.failed" else "task.completed") taskID
    [("task", EvTask (WfTask record)); ("plan", EvPlan (WfPlan record)); ("acceptance", EvAcceptance (Acceptance record));
     ("result", EvResult result)].

Definition dispatchCodingRuntimeTaskSync (runtime : CodingRuntime B) (task : Task) (plan : ExecutionPlan)
  : CT (string + WorkflowRecord) :=
  req ← buildCodingRuntimeRequest task plan;
  started ← StartTask runtime req;
  match started with
  | inl err => record ← unstarted_workflow runtime task plan err; save_then store record (mret ())
  | inr session =>
      bind_session (ID task) session;;
      pending ← pending_workflow task plan session req;
      err ← SaveWorkflow store pending;
      match err with
      | Some err => unbind_session (ID task) (CrsSessionID session);; mret (inl err)
      | None =>
          startCodingRuntimeEventPump runtime session (ID task);;
          waited ← await_session runtime task plan req session;
          let '(record, result) := waited in
          closed ← save_then store record (announce_outcome record (ID task) result;; notifyWorkflowWaiters record);
          unbind_session (ID task) (CrsSessionID session);;
          mret closed
      end
  end.

(** The part up to the goroutine that waits; the session to wait for, if there is one. *)
Definition dispatchCodingRuntimeTaskAsync (runtime : CodingRuntime B) (task : Task) (plan : ExecutionPlan)
  : CT ((string + WorkflowRecord) * option (CodingRuntimeRequest * CodingRuntimeSession)) :=
  req ← buildCodingRuntimeRequest task plan;
  started ← StartTask runtime req;
  match started with
  | inl err =>
      record ← unstarted_workflow runtime task plan err;
      closed ← save_then store record (notifyWorkflowWaiters record);
      mret (closed, None)
  | inr session =>
      bind_session (ID task) session;;
      record ← pending_workflow task plan session req;
      err ← SaveWorkflow store record;
      match err with
      | Some err => unbind_session (ID task) (CrsSessionID session);; mret (inl err, None)
      | None =>
          startCodingRuntimeEventPump runtime session (ID task);;
          mret (inr record, Some (req, session))
      end
  end.
(** The goroutine that waits. *)
Definition finish_delegated (runtime : CodingRuntime B) (task : Task) (plan : ExecutionPlan) (req : CodingRuntimeRequest)
  (session : CodingRuntimeSession) : CT () :=
  waited ← await_session runtime task plan req session;
  let '(record, result) := waited in
  save_then store record (announce_outcome record (ID task) result);;
  notifyWorkflowWaiters record;;
  unbind_session (ID task) (CrsSessionID session).
End Delegate.
