(* ===== verification/JournalProps.v ===== *)
(** * The journal only grows

    Whatever the kernel does, the effects written before stay written, in order, and no waiter for a
    workflow is woken: that is for the orchestrator around it. *)
From S2P Require Import Prelude Bus Supervisor GoLib GoJSON Domain TaskPolicy StateMonad AgentRegistry RuntimeManager.
From S2P Require Import LiveRealtime Router PlanScheduling TraceParser ExecutionEffects Reasoning ReasoningProps ExecutionRecords.
From S2P Require Import PeerExecution ModelBudget.

(** Walks through a computation whose branches are chosen by what was read. *)
Ltac walk := repeat first [progress cbv zeta | apply _ | apply moves_bind; [|intros ?|apply _] | case_match].

#[export] Typeclasses Opaque time_Now record_effect log_call ObserveLiveRealtimeDelta call_number call_Execute
  publishRuntimeEvent publishAgentDelta stream_failed stream_loop executeStreamingAgent evaluate_trace
  scoreReasoningCandidate parseReasoningCandidate reasoning_rounds critic_rounds completed_result executeAgentWithReasoning
  persistSessionState persistExecutionState.
#[export] Typeclasses Opaque on_io on_runtime on_delivery kernel_Now journal publish moment agent_count preparePeerDelivery
  refreshRuntimeCapacity record_failure record_success persist_execution executeDeliveredTask peer_attempt
  attachRuntimeContext routePeerFallback peer_attempts executeTaskP2P RouteWithin budget_fallback enforceModelBudgetPolicy.

(** An effect that wakes no waiter. *)
Definition silent (e : Effect) : bool := match e with NotifyWorkflowWaiters _ => false | _ => true end.
(** [l'] is [l] with silent effects after it. *)
Definition continues (l l' : list Effect) : Prop := exists more, l' = l ++ more /\ Forall (fun e => silent e = true) more.
#[export] Instance continues_preorder : PreOrder continues.
Proof.
  split.
  - intros l. exists []. by rewrite app_nil_r.
  - intros l1 l2 l3 (m1 & -> & H1) (m2 & -> & H2). exists (m1 ++ m2). rewrite app_assoc. split; [done|by apply Forall_app].
Qed.
Lemma continues_prefix l l' : continues l l' -> l `prefix_of` l'.
Proof. intros (m & -> & _). by exists m. Qed.
Definition logged : relation AgentIO := fun s s' => continues (io_journal s) (io_journal s').
#[export] Instance logged_preorder : PreOrder logged.
Proof. unfold logged. split; [by intros s|intros s1 s2 s3 H1 H2; by etransitivity]. Qed.

Section AgentJournal.
Context (nowAt : nat -> Time) (worker : string -> Worker) (selfLearn : SelfLearning).

#[export] Instance logged_now : Moves logged (time_Now nowAt).
Proof. intros s. exists []. by rewrite app_nil_r. Qed.
#[export] Instance logged_record e : TCEq (silent e) true -> Moves logged (record_effect e).
Proof. intros He s. exists [e]. split; [done|]. constructor; [by apply TCEq_eq|done]. Qed.
#[export] Instance logged_call id task result : Moves logged (log_call id task result).
Proof. intros s. exists []. by rewrite app_nil_r. Qed.
#[export] Instance logged_delta delta : Moves logged (ObserveLiveRealtimeDelta delta).
Proof. intros s. exists []. by rewrite app_nil_r. Qed.
#[export] Instance logged_number : Moves logged call_number.
Proof. unfold call_number. apply _. Qed.
#[export] Instance logged_execute id task : Moves logged (call_Execute worker id task).
Proof. unfold call_Execute. apply _. Qed.
#[export] Instance logged_publish topic kind id payload : Moves logged (publishRuntimeEvent topic kind id payload).
Proof. unfold publishRuntimeEvent. apply _. Qed.
#[export] Instance logged_agent_delta task delta : Moves logged (publishAgentDelta nowAt task delta).
Proof. unfold publishAgentDelta. apply _. Qed.
#[export] Instance logged_failed task agent message : Moves logged (stream_failed nowAt task agent message).
Proof. unfold stream_failed. apply _. Qed.
#[export] Instance logged_stream task agent items final : Moves logged (stream_loop nowAt task agent items final).
Proof. revert final. induction items as [|[] items IH]; intros final; cbn; [destruct final|..]; apply _. Qed.
#[export] Instance logged_streaming task agent stream : Moves logged (executeStreamingAgent nowAt task agent stream).
Proof. unfold executeStreamingAgent. walk. Qed.
#[export] Instance logged_evaluate Evaluate trace : Moves logged (evaluate_trace nowAt Evaluate trace).
Proof. unfold evaluate_trace. walk. Qed.
#[export] Instance logged_score task acc agent result response rags :
  Moves logged (scoreReasoningCandidate nowAt selfLearn task acc agent result response rags).
Proof. unfold scoreReasoningCandidate. walk. Qed.
#[export] Instance logged_parse base reasoning acc agent result round queries feedback :
  Moves logged (parseReasoningCandidate nowAt selfLearn base reasoning acc agent result round queries feedback).
Proof. unfold parseReasoningCandidate. walk. Qed.
#[export] Instance logged_rounds rounds round total acc agent task queries best :
  Moves logged (reasoning_rounds nowAt worker selfLearn rounds round total acc agent task queries best).
Proof. revert round task queries best. induction rounds as [|rounds IH]; intros; cbn [reasoning_rounds]; walk. Qed.
#[export] Instance logged_critics rounds round total acc agent queries feedback current :
  Moves logged (critic_rounds nowAt worker selfLearn rounds round total acc agent queries feedback current).
Proof. revert round feedback current. induction rounds as [|rounds IH]; intros; cbn [critic_rounds]; walk. Qed.
#[export] Instance logged_completed task acc agent result : Moves logged (completed_result nowAt task acc agent result).
Proof. unfold completed_result. walk. Qed.
#[export] Instance logged_agent task acc agent : Moves logged (executeAgentWithReasoning nowAt worker selfLearn task acc agent).
Proof. unfold executeAgentWithReasoning. walk. Qed.

Context (getSession : nat -> string -> string -> option StoredSession).
#[export] Instance logged_session task acc agent extra :
  Moves logged (persistSessionState nowAt getSession task acc agent extra).
Proof. unfold persistSessionState. walk. Qed.
#[export] Instance logged_execution task acc agent result latency :
  Moves logged (persistExecutionState nowAt getSession selfLearn task acc agent result latency).
Proof. unfold persistExecutionState, scheduleSelfLearningFeedback. walk. Qed.
End AgentJournal.

Section KernelJournal.
Context {B : Type} `{Bus B}.
Context (deliveryNow nowAt : nat -> Time) (worker : string -> Worker) (selfLearn : SelfLearning) (env : Surroundings).

Definition kernel_logged : relation (Kernel B) := fun k k' => logged (kn_io k) (kn_io k').
#[export] Instance kernel_logged_preorder : PreOrder kernel_logged.
Proof. unfold kernel_logged. split; [intros k; reflexivity|intros k1 k2 k3 H1 H2; by etransitivity]. Qed.
#[export] Instance logged_on_io {A} (f : AT A) : Moves logged f -> Moves kernel_logged (on_io f).
Proof. intros Hf k. specialize (Hf (kn_io k)). unfold kernel_logged, on_io, exec in *. by destruct (f (kn_io k)). Qed.
#[export] Instance logged_on_runtime {A} (f : RT A) : Moves kernel_logged (on_runtime f).
Proof. intros k. unfold kernel_logged, on_runtime, exec. destruct (f (kn_runtime k)). reflexivity. Qed.
#[export] Instance logged_on_delivery {A} (f : Supervisor B -> A * Supervisor B) : Moves kernel_logged (on_delivery f).
Proof. intros k. unfold kernel_logged, on_delivery, exec. destruct (f (kn_delivery k)). reflexivity. Qed.
#[export] Instance logged_kernel_now : Moves kernel_logged (kernel_Now nowAt).
Proof. unfold kernel_Now. apply _. Qed.
#[export] Instance logged_journal e : TCEq (silent e) true -> Moves kernel_logged (journal e).
Proof. unfold journal. apply _. Qed.
#[export] Instance logged_kernel_publish topic kind id payload : Moves kernel_logged (publish topic kind id payload).
Proof. unfold publish. apply _. Qed.
#[export] Instance logged_moment : Moves kernel_logged moment.
Proof. unfold moment. apply _. Qed.
#[export] Instance logged_count : Moves kernel_logged agent_count.
Proof. unfold agent_count. apply _. Qed.
#[export] Instance logged_prepare envelope id : Moves kernel_logged (preparePeerDelivery deliveryNow envelope id).
Proof.
  unfold preparePeerDelivery, DispatchEnvelope, PeerExecution.FetchAgentMailbox, AckDelivery, ConfirmDeliveryPayload, EstablishDeliveryHandshake,
    RefreshDelivery. walk.
Qed.
#[export] Instance logged_capacity agent : Moves kernel_logged (refreshRuntimeCapacity nowAt env agent).
Proof. unfold refreshRuntimeCapacity. walk. Qed.
#[export] Instance logged_failure task id summary : Moves kernel_logged (record_failure nowAt task id summary).
Proof. unfold record_failure. walk. Qed.
#[export] Instance logged_persist task acc agent r lat : Moves kernel_logged (persist_execution nowAt selfLearn env task acc agent r lat).
Proof. unfold persist_execution. walk. Qed.
#[export] Instance logged_success id : Moves kernel_logged (record_success nowAt id).
Proof. unfold record_success. walk. Qed.
#[export] Instance logged_ack taskID status by_ reason : Moves kernel_logged (AckDelivery deliveryNow taskID status by_ reason).
Proof. unfold AckDelivery. walk. Qed.
#[export] Instance logged_delivered task acc agent envelope :
  Moves kernel_logged (executeDeliveredTask deliveryNow nowAt worker selfLearn env task acc agent envelope).
Proof. unfold executeDeliveredTask. walk. Qed.
#[export] Instance logged_attempt attempt task plan acc agent excluded :
  Moves kernel_logged (peer_attempt deliveryNow nowAt worker selfLearn env attempt task plan acc agent excluded).
Proof. unfold peer_attempt. walk. Qed.
#[export] Instance logged_attach task acc agent : Moves kernel_logged (attachRuntimeContext nowAt env task acc agent).
Proof. unfold attachRuntimeContext. walk. Qed.
#[export] Instance logged_fallback task plan excluded id : Moves kernel_logged (routePeerFallback nowAt env task plan excluded id).
Proof. unfold routePeerFallback. walk. Qed.
#[export] Instance logged_attempts more attempt task plan acc agent excluded :
  Moves kernel_logged (peer_attempts deliveryNow nowAt worker selfLearn env more attempt task plan acc agent excluded).
Proof. revert attempt task acc agent excluded. induction more as [|more IH]; intros; cbn [peer_attempts]; walk. Qed.
#[export] Instance logged_peers task plan acc agent :
  Moves kernel_logged (executeTaskP2P deliveryNow nowAt worker selfLearn env task plan acc agent).
Proof. unfold executeTaskP2P. walk. Qed.
#[export] Instance logged_route_within task plan providers exclude : Moves kernel_logged (RouteWithin nowAt env task plan providers exclude).
Proof. unfold RouteWithin. walk. Qed.
#[export] Instance logged_budget_fallback fuel mem task plan tokens providers exclude :
  Moves kernel_logged (budget_fallback nowAt env fuel mem task plan tokens providers exclude).
Proof. revert exclude. induction fuel as [|fuel IH]; intros; cbn [budget_fallback]; walk. Qed.
#[export] Instance logged_budget mem task plan acc agent :
  Moves kernel_logged (enforceModelBudgetPolicy nowAt env mem task plan acc agent).
Proof. unfold enforceModelBudgetPolicy. walk. Qed.
End KernelJournal.
