(* ===== verification/WorkflowProps.v ===== *)
(** * Steps of the orchestrator around its kernel

    What the computations of submission leave as it was: the order of the runtime, the calls and
    deliveries, the journal, the workflows of other tasks. *)
From S2P Require Import Prelude Bus Supervisor GoLib GoJSON Domain TaskPolicy Policy StateMonad AgentRegistry RuntimeManager.
From S2P Require Import RuntimeViews RuntimeManagerProps SubmissionScheduler AdaptiveRuntime LiveRealtime Router RouterProps Planner PlanScheduling.
From S2P Require Import TraceParser ExecutionEffects Reasoning ReasoningProps ExecutionRecords PeerExecution PeerExecutionProps.
From S2P Require Import ModelBudget Workflows CodingDelegate JournalProps.

(** ** The runtime *)
Section RuntimeMoves.
Context (ags : gmap string Agent).
Definition runtime_keeps : relation Runtime := fun m m' => runtime_ok ags m -> runtime_ok ags m'.
#[export] Instance runtime_keeps_preorder : PreOrder runtime_keeps.
Proof. unfold runtime_keeps. split; [by intros m|by intros m1 m2 m3 H1 H2 H3; auto]. Qed.

Lemma runtime_keeps_view {A} (f : RT A) now : (forall m, ready m -> same_view now m (exec f m)) -> Moves runtime_keeps f.
Proof. intros Hf m Hm. eapply same_view_ok; [apply Hf, Hm|done]. Qed.
Lemma State_keeps now id : is_Some (ags !! id) -> Moves runtime_keeps (State now id).
Proof. intros Hid m Hm. by apply State_ok. Qed.
Lemma State_or_zero_keeps now id : is_Some (ags !! id) -> Moves runtime_keeps (State_or_zero now id).
Proof.
  intros Hid. pose proof (State_keeps now id Hid). unfold State_or_zero. apply moves_bind; [done|intros ?; apply _|apply _].
Qed.
Lemma SuppressLane_keeps now id why secs : is_Some (ags !! id) -> Moves runtime_keeps (SuppressLane now id why secs).
Proof.
  intros Hid m Hm. pose proof (run_op_ok ags now id (OpSuppress why secs) m Hm) as H. cbn [run_op] in H.
  rewrite exec_bind, exec_ret in H. apply H. split; [|done]. cbn. by rewrite (ro_agents _ _ Hm).
Qed.
#[export] Instance Refresh_keeps now : Moves runtime_keeps (RefreshRoutingWeights now).
Proof.
  intros m [Ha [lanes Ht] Hr]. split; [by rewrite Refresh_agents|exists (fun j => tick now (lanes j)); by apply Refresh_tracks|].
  by eapply refreshed_ready.
Qed.
#[export] Instance route_keeps ParseFloat providers hasRuntime routeMemory retriever live now task plan exclude :
  Moves runtime_keeps (route ParseFloat providers hasRuntime routeMemory retriever live now task plan exclude).
Proof. apply (runtime_keeps_view _ now). intros m Hm. eapply route_reads, ready_settled, Hm. Qed.

(** *** The adaptive policy *)
Lemma diagnose_loop_keeps now weights infos acc : Forall (fun info => is_Some (ags !! InfoID info)) infos ->
  Moves runtime_keeps (diagnose_loop now weights infos acc).
Proof.
  revert acc. induction infos as [|info infos IH]; intros acc Hf; cbn [diagnose_loop]; [apply _|].
  apply Forall_cons in Hf as [Hi Hf]. pose proof (State_keeps now _ Hi). apply moves_bind; [done|intros [state|]|apply _].
  - destruct acc as [[d total] states]. apply moves_bind; [|intros r; by apply IH|apply _].
    unfold diagnose_state. destruct (count_lane _ _) as [d' issue]. apply moves_if; [|apply moves_if; apply _].
    apply moves_bind; [by apply SuppressLane_keeps|intros ?; apply _|apply _].
  - by apply IH.
Qed.
#[export] Instance Apply_keeps now attached hasMemory task plan : Moves runtime_keeps (Apply now attached hasMemory task plan).
Proof.
  unfold Apply, Decide. apply moves_bind; [|intros ?; apply _|apply _]. apply moves_bind; [|intros ?; apply _|apply _].
  unfold collectDiagnostics. apply moves_if; [apply _|]. apply moves_bind; [apply _|intros weights|apply _].
  intros m Hm. rewrite exec_bind, eval_gets, exec_gets, exec_bind. set (f := diagnose_loop _ _ _ _).
  assert (Moves runtime_keeps f) as Hf.
  { apply diagnose_loop_keeps. apply Forall_forall. intros info Hin.
    rewrite <- (ro_agents _ _ Hm). apply AgentInfos_registered; [|exact Hin]. apply Hm. }
  specialize (Hf m Hm). destruct (eval f m) as [[d total] states]. rewrite exec_ret. exact Hf.
Qed.
End RuntimeMoves.

(** ** The kernel and the orchestrator around it *)
Section CoreMoves.
Context {B : Type} `{Bus B} (nowAt : nat -> Time) (selfLearn : SelfLearning) (env : Surroundings) (store : Store) `{!StoreLaws store}.
Context (ags : gmap string Agent).
Abbreviation CT := (ST (Core B)).
Abbreviation kernel_ok := (PeerExecutionProps.kernel_ok (B := B) ags).
Definition journal_of (c : Core B) : list Effect := io_journal (kn_io (co_kernel c)).
Definition called (c : Core B) : list (string * Task * AgentResult) := io_calls (kn_io (co_kernel c)).

(** No call, no delivery, no waiter woken, and the runtime stays in order. *)
Definition kernel_still : relation (Kernel B) := fun k k' =>
  (kernel_ok k -> kernel_ok k') /\ kernel_logged k k' /\ calls_of k' = calls_of k /\ kn_delivery k' = kn_delivery k.
#[export] Instance kernel_still_preorder : PreOrder kernel_still.
Proof.
  unfold kernel_still. split; [by intros k; split_and!|]. intros k1 k2 k3 (H1 & H2 & H3 & H4) (H5 & H6 & H7 & H8).
  split; [auto|]. split; [by etransitivity|]. split; congruence.
Qed.
#[export] Instance still_io {A} (f : AT A) : Moves logged f -> Quiet f -> Moves kernel_still (on_io f).
Proof.
  intros Hl Hq k. split; [|split; [by apply logged_on_io|]].
  - unfold on_io, exec. by destruct (f (kn_io k)).
  - specialize (Hq (kn_io k)). unfold calls_of, on_io, exec in *. by destruct (f (kn_io k)).
Qed.
#[export] Instance still_runtime {A} (f : RT A) : Moves (runtime_keeps ags) f -> Moves kernel_still (on_runtime f).
Proof.
  intros Hf k. specialize (Hf (kn_runtime k)). split; [|split; [by apply logged_on_runtime|]];
    unfold PeerExecutionProps.kernel_ok, calls_of, on_runtime, exec in *; by destruct (f (kn_runtime k)).
Qed.
#[export] Instance still_now : Moves kernel_still (kernel_Now nowAt).
Proof. unfold kernel_Now. apply _. Qed.
#[export] Instance still_moment : Moves kernel_still moment.
Proof. unfold moment. apply _. Qed.
#[export] Instance still_journal e : TCEq (silent e) true -> Moves kernel_still (journal e).
Proof. intros He. unfold journal. apply _. Qed.
#[export] Instance still_publish topic kind id payload : Moves kernel_still (publish topic kind id payload).
Proof. unfold publish, publishRuntimeEvent. apply _. Qed.
#[export] Instance still_attach task acc agent : Moves kernel_still (attachRuntimeContext nowAt env task acc agent).
Proof. unfold attachRuntimeContext. apply _. Qed.

(** Only the workflow [id] may change. *)
Definition own (id : string) : relation (Core B) := fun c c' =>
  (kernel_ok (co_kernel c) -> kernel_ok (co_kernel c')) /\ journal_of c `prefix_of` journal_of c' /\
  forall other, other <> id -> co_workflows c' !! other = co_workflows c !! other.
Definition still (id : string) : relation (Core B) := fun c c' =>
  own id c c' /\ continues (journal_of c) (journal_of c') /\ called c' = called c /\
  kn_delivery (co_kernel c') = kn_delivery (co_kernel c).
Definition kept : relation (Core B) := fun c c' => co_workflows c' = co_workflows c.
#[export] Instance own_preorder id : PreOrder (own id).
Proof.
  unfold own. split; [by intros c; split_and!|]. intros c1 c2 c3 (H1 & H2 & H3) (H4 & H5 & H6).
  split; [auto|]. split; [by etransitivity|]. intros other Hne. by rewrite H6, H3.
Qed.
#[export] Instance still_preorder id : PreOrder (still id).
Proof.
  unfold still. split; [intros c; by split_and!|]. intros c1 c2 c3 (H1 & H2 & H3 & H4) (H5 & H6 & H7 & H8).
  split; [by etransitivity|]. split; [by etransitivity|]. split; congruence.
Qed.
#[export] Instance kept_preorder : PreOrder kept.
Proof. unfold kept. split; [by intros c|]. intros c1 c2 c3 H1 H2. congruence. Qed.

#[export] Instance still_kernel id {A} (f : ST (Kernel B) A) : Moves kernel_still f -> Moves (still id) (on_kernel f).
Proof.
  intros Hf c. destruct (Hf (co_kernel c)) as (H1 & H2 & H3 & H4). pose proof (continues_prefix _ _ H2) as Hp.
  unfold still, own, journal_of, called, calls_of, on_kernel, exec in *. destruct (f (co_kernel c)). by split_and!.
Qed.
#[export] Instance kept_kernel {A} (f : ST (Kernel B) A) : Moves kept (on_kernel f).
Proof. intros c. unfold kept, on_kernel, exec. by destruct (f (co_kernel c)). Qed.
#[export] Instance still_core_now id : Moves (still id) (core_Now (B := B) nowAt).
Proof. unfold core_Now. apply _. Qed.
#[export] Instance still_core_moment id : Moves (still id) (core_moment (B := B)).
Proof. unfold core_moment. apply _. Qed.
#[export] Instance still_core_journal id e : TCEq (silent e) true -> Moves (still id) (core_journal (B := B) e).
Proof. intros He. unfold core_journal. apply _. Qed.
#[export] Instance still_announce id kind taskID payload : Moves (still id) (announce (B := B) kind taskID payload).
Proof. unfold announce. apply _. Qed.
#[export] Instance kept_announce kind taskID payload : Moves kept (announce (B := B) kind taskID payload).
Proof. unfold announce, core_journal. apply _. Qed.
#[export] Instance kept_notify record : Moves kept (notifyWorkflowWaiters (B := B) record).
Proof. unfold notifyWorkflowWaiters, core_journal. apply _. Qed.
#[export] Instance own_notify id record : Moves (own id) (notifyWorkflowWaiters (B := B) record).
Proof. intros c. split; [done|]. split; [|done]. by exists [NotifyWorkflowWaiters record]. Qed.
(** No call and no waiter woken, while messages may be sent. *)
Definition unasked (id : string) : relation (Core B) := fun c c' =>
  own id c c' /\ continues (journal_of c) (journal_of c') /\ called c' = called c.
#[export] Instance unasked_preorder id : PreOrder (unasked id).
Proof.
  unfold unasked. split; [intros c; by split_and!|]. intros c1 c2 c3 (H1 & H2 & H3) (H4 & H5 & H6).
  split; [by etransitivity|]. split; [by etransitivity|congruence].
Qed.
Lemma unasked_still id {A} (f : CT A) : Moves (still id) f -> Moves (unasked id) f.
Proof. intros Hf c. destruct (Hf c) as (H1 & H2 & H3 & _). by split_and!. Qed.
#[export] Instance unasked_delivery id {A} (f : Supervisor B -> A * Supervisor B) : Moves (unasked id) (on_kernel (on_delivery f)).
Proof.
  intros c. unfold unasked, own, journal_of, called, on_kernel, on_delivery, exec. by destruct (f (kn_delivery (co_kernel c))).
Qed.
Lemma own_still id {A} (f : CT A) : Moves (still id) f -> Moves (own id) f.
Proof. intros Hf c. apply Hf. Qed.

Lemma exec_core_moment (c : Core B) : exec core_moment c = c.
Proof. by destruct c. Qed.
Lemma SaveWorkflow_spec record c :
  still (ID (WfTask record)) c (exec (SaveWorkflow (B := B) store record) c) /\
  (eval (SaveWorkflow store record) c = None ->
   co_workflows (exec (SaveWorkflow store record) c) = <[ID (WfTask record) := record]> (co_workflows c)).
Proof.
  unfold SaveWorkflow. rewrite exec_bind, eval_bind. set (n := eval core_moment c). rewrite exec_core_moment.
  unfold exec, eval. cbv beta. destruct (store_save store n record (co_workflows c)) as [[err|] m] eqn:E; cbn.
  - split; [|done]. split; [|done]. split; [done|]. split; [done|]. intros other Hne. cbn.
    apply store_not_saved in E as [-> | ->]; [done|]. by rewrite lookup_insert_ne.
  - apply store_saved in E as ->. split; [|done]. split; [|done]. split; [done|]. split; [done|]. intros other Hne. cbn.
    by rewrite lookup_insert_ne.
Qed.
Lemma still_save record id : ID (WfTask record) = id -> Moves (still id) (SaveWorkflow (B := B) store record).
Proof. intros <- c. apply SaveWorkflow_spec. Qed.

(** A record that was stored is returned and found under its id. *)
Definition returns (id : string) (record : WorkflowRecord) (res : string + WorkflowRecord) (c : Core B) : Prop :=
  match res with inl _ => True | inr r => r = record /\ co_workflows c !! id = Some record end.
Lemma save_then_spec (R : relation (Core B)) id c0 record next : Transitive R -> ID (WfTask record) = id ->
  Moves R (SaveWorkflow store record) -> Moves R next -> Moves kept next ->
  triple (R c0) (save_then store record next) (fun res c => R c0 c /\ returns id record res c).
Proof.
  intros HR Hid Hs Hn Hk c Hc. destruct (SaveWorkflow_spec record c) as [_ Hw]. specialize (Hs c).
  unfold save_then. rewrite exec_bind, eval_bind. set (c1 := exec (SaveWorkflow store record) c) in *.
  destruct (eval (SaveWorkflow store record) c) as [err|].
  - rewrite exec_ret, eval_ret. split; [by etransitivity|done].
  - specialize (Hw eq_refl). rewrite exec_bind, eval_bind, exec_ret, eval_ret. split; [do 2 (etransitivity; [eassumption|]); apply Hn|].
    split; [done|]. rewrite (Hk c1 : co_workflows _ = _), Hw, Hid. by rewrite lookup_insert_eq.
Qed.
End CoreMoves.
#[export] Typeclasses Opaque core_Now core_moment core_journal announce notifyWorkflowWaiters SaveWorkflow GetWorkflow save_then
  on_kernel.
