(* ===== verification/Submission.v ===== *)
(** * Submission (kernel/orchestrator.go)

    [SubmitTask] takes a task through its checks (policy, cache guard, routing, assignment, model
    budget), executes it on its peers and stores the workflow; [SubmitTaskAsync] stores it as queued
    and puts it in the queue. *)
From S2P Require Import Prelude Bus Supervisor GoLib GoJSON Domain TaskPolicy Policy StateMonad AgentRegistry RuntimeManager.
From S2P Require Import SubmissionScheduler AdaptiveRuntime LiveRealtime Router Planner PlanScheduling TraceParser.
From S2P Require Import ExecutionEffects Reasoning ExecutionRecords PeerExecution ModelBudget CacheGuard Workflows CodingDelegate.
From Stdlib Require Import PrimFloat.

(** What stands around submission; what depends on the moment is indexed by the number of clock
    readings. *)
Record Desk (B : Type) : Type := mkDesk {
  dk_newTaskID : nat -> string;
  dk_getenv : string -> string;
  dk_selector : nat -> ModelSelector;
  dk_adaptive : bool;
  dk_memory : Memory;
  dk_guard_error : nat -> option string;
  dk_loggedAt : nat -> Time;
  dk_storageMode : string;
  dk_store : Store;
  dk_codingRuntime : option (CodingRuntime B) }.
Arguments mkDesk {B}. Arguments dk_newTaskID {B}. Arguments dk_getenv {B}. Arguments dk_selector {B}.
Arguments dk_adaptive {B}. Arguments dk_memory {B}. Arguments dk_guard_error {B}. Arguments dk_loggedAt {B}.
Arguments dk_storageMode {B}. Arguments dk_store {B}. Arguments dk_codingRuntime {B}.

(** [domain.TaskAcceptance] of a task that is turned down before it is routed. *)
Definition rejection (now : Time) (task : Task) (reason : string) : TaskAcceptance :=
  mkTaskAcceptance (ID task) TaskStatusRejected "" ComplexityLow reason "" "" "" false now.
Definition guard_summary (task : Task) : string := "Task blocked by cache guard for session " +:+ SessionID task.

Section Submission.
Context {B : Type} `{Bus B}.
Context (deliveryNow nowAt : nat -> Time) (worker : string -> Worker) (selfLearn : SelfLearning) (env : Surroundings)
  (desk : Desk B).
Abbreviation CT := (ST (Core B)).
Abbreviation core_Now := (core_Now nowAt).
Abbreviation save_then := (save_then (dk_store desk)).

(** The workflow of a task that is turned down is stored and announced. *)
Definition reject (record : WorkflowRecord) (payload : list (string * event_value)) : CT (string + WorkflowRecord) :=
  save_then record (announce "task.rejected" (ID (WfTask record)) payload).

(** ** The checks *)
Definition with_defaults (task : Task) : CT Task :=
  n ← core_moment;
  created ← (if IsZero (CreatedAt task) then core_Now else mret (CreatedAt task));
  let task := if String.eqb (ID task) "" then task <| ID := dk_newTaskID desk n |> else task in
  let task := if String.eqb (SessionID task) "" then task <| SessionID := ID task |> else task in
  let task := task <| CreatedAt := created |> in
  let task := if bool_decide (Priority_ task = PriorityOther "") then task <| Priority_ := PriorityNormal |> else task in
  let task := if String.eqb (MemoryScope task) "" then task <| MemoryScope := "session" |> else task in
  mret (if String.eqb (CachePolicy task) "" then task <| CachePolicy := "read_write" |> else task).

Definition cache_guard (task : Task) : CT anymap :=
  n ← core_moment;
  gets (fun c => CacheGuardSnapshot (dk_guard_error desk n) (SessionID task) (ContextBranch (Context_ task))
                   (replay (dk_loggedAt desk) (dk_storageMode desk) (io_journal (kn_io (co_kernel c))))).

Definition reject_untyped (task : Task) : CT (string + WorkflowRecord) :=
  now ← core_Now;
  let acceptance := rejection now task "task type is required" in
  on_kernel (publish "tasks" "task.rejected" (ID task) [("task", EvTask task); ("acceptance", EvAcceptance acceptance)]);;
  mret (inl "task type is required").
Definition reject_by_policy (task : Task) (decision : PolicyDecision) : CT (string + WorkflowRecord) :=
  now ← core_Now;
  let acceptance := rejection now task (firstNonEmptyString [Join (PolReasons decision) "; "; "task rejected by policy"]) in
  updated ← core_Now;
  reject (mkWorkflowRecord task zero_plan acceptance None updated)
    [("task", EvTask task); ("acceptance", EvAcceptance acceptance); ("policy", EvPolicy decision)].
Definition reject_by_guard (task : Task) (guard : anymap) : CT (string + WorkflowRecord) :=
  let reason := firstNonEmptyString [kernelString (aget_any guard "reason"); "cache guard blocked task execution"] in
  let action := firstNonEmptyString [kernelString (aget_any guard "action"); "cache_guard_blocked"] in
  core_journal (RecordHardStop task action reason);;
  now ← core_Now;
  let acceptance := rejection now task reason in
  completed ← core_Now;
  let result := mkAgentResult (ID task) "" TaskStatusRejected 0%float [reason] [] "" ""
    (mkResultOutput (guard_summary task) [] [] [] [("cache_guard", AMap guard); ("validation_context", AMap guard)]) completed in
  updated ← core_Now;
  reject (mkWorkflowRecord task zero_plan acceptance (Some result) updated)
    [("task", EvTask task); ("acceptance", EvAcceptance acceptance); ("result", EvResult result);
     ("validation", EvAny (AMap guard))].

Definition applyAdaptivePolicy (task : Task) (plan : ExecutionPlan) : CT Task :=
  if negb (dk_adaptive desk) then mret task
  else
    now ← core_Now;
    adapted ← on_kernel (on_runtime (Apply now (su_hasRuntime env) true task plan));
    let '(adapted, _, recorded) := adapted in
    match recorded with
    | Some (task, decision) => on_kernel (journal (RecordAdaptiveDecision task decision))
    | None => mret ()
    end;;
    mret adapted.
Definition route_task (task : Task) (plan : ExecutionPlan) : CT (TaskAcceptance * option Agent) :=
  n ← core_moment;
  now ← core_Now;
  live ← gets (fun c => io_live (kn_io (co_kernel c)));
  on_kernel (on_runtime (Route (su_ParseFloat env) (su_providerRegistry env) (su_hasRuntime env) (su_routeMemory env n)
                           (su_retriever env n) live now task plan)).
(** The reason of the assignment policy against the agent; none without a runtime manager. *)
Definition assignment_check (task : Task) (acceptance : TaskAcceptance) (agent : AgentInfo) : CT (option PolicyDecision) :=
  if negb (su_hasRuntime env) then mret None
  else
    now ← core_Now;
    state ← on_kernel (on_runtime (State_or_zero now (InfoID agent)));
    let decision := assignmentPolicy task acceptance agent state in
    mret (if decisionBlocks decision then Some decision else None).

(** ** Execution *)
Definition final_acceptance (acceptance : TaskAcceptance) (result : AgentResult) : TaskAcceptance :=
  let acceptance := acceptance <| AccStatus := normalizeTaskStatus (ResStatus result) |> in
  if bool_decide (AccStatus acceptance = TaskStatusCompleted) && negb (non_blank (AccReason acceptance))
  then acceptance <| AccReason := "execution completed" |> else acceptance.
Definition outcome_kind (status : TaskStatus) : string :=
  match status with TaskStatusFailed | TaskStatusDeadLettered => "task.failed" | _ => "task.completed" end.

Definition execute_routed (task : Task) (plan : ExecutionPlan) (acceptance : TaskAcceptance) (agent : Agent)
  : CT (string + WorkflowRecord) :=
  enforced ← on_kernel (enforceModelBudgetPolicy nowAt env (Some (dk_memory desk)) task plan acceptance agent);
  let '(task, acceptance, agent, budgetFailure) := enforced in
  match budgetFailure with
  | Some failure =>
      updated ← core_Now;
      save_then (mkWorkflowRecord task plan acceptance (Some failure) updated)
        (announce "task.failed" (ID task)
          [("task", EvTask task); ("plan", EvPlan plan); ("acceptance", EvAcceptance acceptance); ("result", EvResult failure)])
  | None =>
      task ← on_kernel (attachRuntimeContext nowAt env task acceptance (Info agent));
      on_kernel (publish "tasks" "task.accepted" (ID task)
        [("task", EvTask task); ("plan", EvPlan plan); ("acceptance", EvAcceptance acceptance)]);;
      executed ← on_kernel (executeTaskP2P deliveryNow nowAt worker selfLearn env task plan acceptance agent);
      let '(finalAcceptance, finalTask, result) := executed in
      let acceptance := final_acceptance finalAcceptance result in
      updated ← core_Now;
      let record := mkWorkflowRecord finalTask plan acceptance (Some result) updated in
      save_then record
        (announce (outcome_kind (AccStatus acceptance)) (ID task)
           [("task", EvTask finalTask); ("plan", EvPlan plan); ("acceptance", EvAcceptance acceptance); ("result", EvResult result)];;
         notifyWorkflowWaiters record)
  end.

Definition submit_planned (task : Task) (plan : ExecutionPlan) : CT (string + WorkflowRecord) :=
  routed ← route_task task plan;
  core_Now;;
  match routed with
  | (acceptance, None) =>
      let acceptance := acceptance <| AccStatus := TaskStatusRejected |> in
      updated ← core_Now;
      reject (mkWorkflowRecord task plan acceptance None updated)
        [("task", EvTask task); ("plan", EvPlan plan); ("acceptance", EvAcceptance acceptance)]
  | (acceptance, Some agent) =>
      refused ← assignment_check task acceptance (Info agent);
      match refused with
      | Some decision =>
          let acceptance := acceptance <| AccStatus := TaskStatusRejected |>
            <| AccReason := firstNonEmptyString [Join (PolReasons decision) "; "; "assignment rejected by runtime policy"] |> in
          updated ← core_Now;
          reject (mkWorkflowRecord task plan acceptance None updated)
            [("task", EvTask task); ("plan", EvPlan plan); ("acceptance", EvAcceptance acceptance); ("policy", EvPolicy decision)]
      | None => execute_routed task plan acceptance agent
      end
  end.

(** The runtime the task is delegated to, if it is. *)
Definition delegate (task : Task) : option (CodingRuntime B) :=
  if shouldDelegateToCodingRuntime (dk_codingRuntime desk) task then dk_codingRuntime desk else None.
Definition submitTaskSync (task : Task) : CT (string + WorkflowRecord) :=
  task ← with_defaults task;
  if String.eqb (task_type_string (Type_ task)) "" then reject_untyped task
  else if decisionBlocks (preflightPolicy task) then reject_by_policy task (preflightPolicy task)
  else
    guard ← cache_guard task;
    if blocked guard then reject_by_guard task guard
    else
      n ← core_moment;
      now ← core_Now;
      let '(task, plan) := @Prepare (dk_getenv desk) (dk_selector desk n) now task in
      task ← applyAdaptivePolicy task plan;
      match delegate task with
      | Some runtime => dispatchCodingRuntimeTaskSync nowAt (dk_store desk) selfLearn runtime task plan
      | None => submit_planned task plan
      end.

(** ** The queue *)

(** [EnqueueTask] of a bus that is a [TaskSubmissionQueue]: the error, and the bus. *)
Context (queue : option (Task -> B -> option string * B)).
Definition SubmissionTopic : string := "scheduler.submit".
Definition SubmitTaskAsync (task : Task) : CT (string + WorkflowRecord) :=
  defaulted ← with_defaults task;
  match queue with
  | None => submitTaskSync defaulted
  | Some EnqueueTask =>
      let task := defaulted in
      let complexity := if bool_decide (Complexity_ task = ComplexityOther "") then ComplexityLow else Complexity_ task in
      now ← core_Now;
      let acceptance := mkTaskAcceptance (ID task) TaskStatusQueued "" complexity "queued_for_async_submission" "" "" "" false now in
      updated ← core_Now;
      let record := mkWorkflowRecord task zero_plan acceptance None updated in
      err ← SaveWorkflow (dk_store desk) record;
      match err with
      | Some err => mret (inl err)
      | None =>
          err ← on_kernel (on_delivery (fun s => let '(err, b) := EnqueueTask task (messageBus s) in (err, s <| messageBus := b |>)));
          match err with
          | Some err => mret (inl err)
          | None =>
              announce "task.queued" (ID task)
                [("task", EvTask task); ("acceptance", EvAcceptance acceptance); ("queue", ev_string SubmissionTopic)];;
              mret (inr record)
          end
      end
  end.
Definition submissionModeEnabled : bool := EqualFold (TrimSpace (dk_getenv desk "GO_CORE_SUBMIT_MODE")) "async".
Definition SubmitTask (task : Task) : CT (string + WorkflowRecord) :=
  if submissionModeEnabled then SubmitTaskAsync task else submitTaskSync task.
End Submission.
