(* ===== verification/SubmissionProps.v ===== *)
(** * Properties of submission

    How a submission ends, what it leaves alone, and what a hard stop does to the session. *)
From S2P Require Import Prelude Bus MessageBus Supervisor GoLib GoJSON Domain TaskPolicy Policy StateMonad AgentRegistry RuntimeManager.
From S2P Require Import RuntimeViews RuntimeManagerProps SubmissionScheduler AdaptiveRuntime LiveRealtime Router RouterProps.
From S2P Require Import Planner PlannerProps PlanScheduling TraceParser ExecutionEffects Reasoning ReasoningProps ExecutionRecords.
From S2P Require Import PeerExecution PeerExecutionProps ModelBudget ModelBudgetProps CacheGuard Workflows CodingDelegate.
From S2P Require Import JournalProps WorkflowProps Submission.

#[export] Typeclasses Opaque applyAdaptivePolicy route_task assignment_check cache_guard with_defaults
  retrieveCodingRuntimeRAGContext buildCodingRuntimeRequest startCodingRuntimeEventPump bind_session unbind_session
  pending_workflow unstarted_workflow await_session finalizeCodingRuntimeWorkflow failedCodingRuntimeResult announce_outcome.

(** ** Tasks keep their ids *)
Lemma Prepare_id getenv (sel : ModelSelector) now task : ID (@Prepare getenv sel now task).1 = ID task.
Proof. pose proof (prepare_identity getenv sel now task) as Hp. by destruct (Prepare getenv now task), Hp. Qed.

(** ** Trimming twice *)
Lemma strip_any_complete ps p r : p ∈ ps -> strip_any ps (p +:+ r) <> None.
Proof.
  induction 1 as [p ps|p q ps Hp IH]; cbn.
  - assert (strip_prefix p (p +:+ r) = Some r) as ->; [|done].
    induction p as [|c p IH]; [done|]. change (String c p +:+ r) with (String c (p +:+ r)). cbn.
    by rewrite Ascii.eqb_refl.
  - by destruct (strip_prefix q (p +:+ r)).
Qed.
Lemma trim_fuel_stop n ps s : strip_any ps s = None -> trim_fuel n ps s = s.
Proof. destruct n; [done|]. intros E. cbn. by rewrite E. Qed.
Lemma trim_fuel_settled n ps s : strip_any ps s = None \/ s = "" -> (forall p, p ∈ ps -> p <> "") -> trim_fuel n ps s = s.
Proof.
  intros [E| ->] Hps; [by apply trim_fuel_stop|]. apply trim_fuel_stop. destruct (strip_any ps "") as [r|] eqn:E; [|done].
  apply strip_any_app in E as (p & Hp & E). apply Hps in Hp. by destruct p.
Qed.
Lemma TrimSpace_idem s : TrimSpace (TrimSpace s) = TrimSpace s.
Proof.
  assert (forall p, p ∈ space_runes -> p <> "") as Hl.
  { intros p Hp ->. revert Hp. apply (bool_decide_unpack (_ ∉ _)). vm_compute. exact I. }
  assert (forall p, p ∈ map String.rev space_runes -> p <> "") as Hr.
  { intros p Hp ->. revert Hp. apply (bool_decide_unpack (_ ∉ _)). vm_compute. exact I. }
  destruct (TrimSpace_prefix s) as [x Hx]. set (t := TrimSpace s) in *.
  assert (trim_left t = t) as Hleft.
  { apply trim_fuel_settled; [|done]. destruct (strip_any space_runes t) as [r|] eqn:E; [|by left]. exfalso.
    apply strip_any_app in E as (p & Hp & E). rewrite E, string_app_assoc in Hx.
    destruct (trim_fuel_done (String.length s) space_runes s Hl ltac:(lia)) as [H|H];
      change (trim_fuel (String.length s) space_runes s) with (trim_left s) in H; rewrite Hx in H.
    - by apply strip_any_complete in H.
    - apply Hl in Hp. by destruct p. }
  unfold TrimSpace at 1. rewrite Hleft. unfold trim_right.
  assert (trim_fuel (String.length t) (map String.rev space_runes) (String.rev t) = String.rev t) as ->;
    [|apply string_rev_involutive].
  apply trim_fuel_settled; [|done]. subst t. unfold TrimSpace, trim_right. rewrite string_rev_involutive.
  apply trim_fuel_done; [done|]. set (u := trim_left s).
  assert (forall a, String.length (String.rev a) = String.length a) as Hlen.
  { induction a as [|c a IH]; [done|]. rewrite string_rev_cons, string_length_app, IH. cbn. lia. }
  by rewrite Hlen.
Qed.

Section SubmissionProps.
Context {B : Type} `{Bus B}.
Context (deliveryNow nowAt : nat -> Time) (worker : string -> Worker) (selfLearn : SelfLearning) (env : Surroundings)
  (desk : Desk B) `{!StoreLaws (dk_store desk)}.
Context (ags : gmap string Agent)
  (Htrim : forall a, ags !! InfoID (Info a) = Some a -> TrimSpace (InfoID (Info a)) = InfoID (Info a)).
Abbreviation CT := (ST (Core B)).
Abbreviation kernel_ok := (PeerExecutionProps.kernel_ok (B := B) ags).
Abbreviation own := (own (B := B) ags).
Abbreviation still := (still (B := B) ags).
Abbreviation unasked := (unasked (B := B) ags).

(** ** The checks leave everything alone *)
#[export] Instance still_defaults id task : Moves (still id) (with_defaults nowAt desk task).
Proof. unfold with_defaults. apply _. Qed.
Lemma with_defaults_id task c : ID task <> "" -> ID (eval (with_defaults nowAt desk task) c) = ID task.
Proof.
  intros Hid. unfold with_defaults. rewrite !eval_bind. apply String.eqb_neq in Hid. rewrite eval_ret, Hid.
  repeat (case_match; cbn [ID field_map]); done.
Qed.
#[export] Instance still_guard id task : Moves (still id) (cache_guard desk task).
Proof. unfold cache_guard. apply _. Qed.
#[export] Instance still_adaptive id task plan : Moves (still id) (applyAdaptivePolicy nowAt env desk task plan).
Proof. unfold applyAdaptivePolicy. walk. Qed.
#[export] Instance still_route id task plan : Moves (still id) (route_task nowAt env task plan).
Proof. unfold route_task, Route. apply _. Qed.

(** ** Routing *)
Lemma route_task_spec id task plan c0 : kernel_ok (co_kernel c0) ->
  triple (still id c0) (route_task nowAt env task plan) (fun routed c => still id c0 c /\
    match routed with
    | (acc, Some agent) => ags !! InfoID (Info agent) = Some agent /\ AccStatus acc = TaskStatusAccepted /\ AccAgentID acc = InfoID (Info agent)
    | (acc, None) => True
    end).
Proof.
  intros Hk c Hc. split.
  { etransitivity; [exact Hc|]. apply (moves (R := still id)). }
  unfold route_task. rewrite !eval_bind, exec_core_moment.
  set (n := eval core_moment c). set (c1 := exec (core_Now nowAt) c). set (now := eval (core_Now nowAt) c).
  rewrite eval_gets, exec_gets. set (live := io_live _).
  assert (kernel_ok (co_kernel c1)) as H1.
  { assert (still id c c1) as Hs by apply moves. apply Hs, Hc, Hk. }
  set (m := kn_runtime (co_kernel c1)). pose proof (ro_ready _ _ H1) as Hr. fold m in Hr.
  pose proof (route_promise (su_ParseFloat env) (su_providerRegistry env) (su_hasRuntime env) (su_routeMemory env n)
    (su_retriever env n) live now task plan ∅ m Hr) as Hp.
  unfold Route. set (f := route _ _ _ _ _ _ _ task plan ∅) in *. clearbody f.
  assert (eval (on_kernel (on_runtime f)) c1 = eval f m) as ->.
  { unfold on_kernel, on_runtime, eval. subst m. by destruct (f (kn_runtime (co_kernel c1))). }
  destruct (eval f m) as [acc [a|]]; [|done].
  pose proof (ro_agents _ _ H1) as Hags. fold m in Hags. rewrite Hags in Hp. split_and!; apply Hp.
Qed.

Lemma still_assignment id task acc agent : ags !! InfoID (Info agent) = Some agent ->
  Moves (still id) (assignment_check nowAt env task acc (Info agent)).
Proof.
  intros Hreg. unfold assignment_check. apply moves_if; [apply _|].
  assert (forall now, Moves (still id) (on_kernel (B := B) (on_runtime (State_or_zero now (InfoID (Info agent)))))) as Hz.
  { intros now. apply still_kernel, still_runtime, State_or_zero_keeps. eauto. }
  walk.
Qed.
Lemma run_core {A} (f : ST (Kernel B) A) (c : Core B) : exec (on_kernel f) c = c <| co_kernel := exec f (co_kernel c) |> /\
  eval (on_kernel f) c = eval f (co_kernel c).
Proof. unfold on_kernel, exec, eval. by destruct (f (co_kernel c)). Qed.
Lemma attached task acc info c : exists context,
  eval (on_kernel (B := B) (attachRuntimeContext nowAt env task acc info)) c = with_runtime_context context task.
Proof.
  destruct (run_core (attachRuntimeContext nowAt env task acc info) c) as [_ ->]. unfold attachRuntimeContext.
  rewrite !eval_bind, eval_ret. by eexists.
Qed.
Lemma attached_id id c0 task acc info : ID task = id ->
  triple (still id c0) (on_kernel (attachRuntimeContext nowAt env task acc info)) (fun t c => still id c0 c /\ ID t = id).
Proof.
  intros Hid c Hc. split; [etransitivity; [exact Hc|apply (moves (R := still id))]|].
  by destruct (attached task acc info c) as [context ->].
Qed.
Lemma adapted_id task plan c : ID (eval (applyAdaptivePolicy nowAt env desk task plan) c) = ID task.
Proof.
  unfold applyAdaptivePolicy. destruct (dk_adaptive desk); cbn [negb]; [|done]. rewrite eval_bind, eval_bind.
  set (c1 := exec _ c). destruct (run_core (on_runtime (Apply (eval (core_Now nowAt) c) (su_hasRuntime env) true task plan)) c1) as [_ ->].
  set (k := co_kernel c1). rewrite on_runtime_eval. unfold Apply. rewrite eval_bind, eval_ret. cbv beta iota zeta.
  by rewrite eval_bind, eval_ret.
Qed.

(** ** Execution *)
Definition keeps_id (id : string) {S A} (f : ST S A) (task_of : A -> Task) : Prop := forall s, ID (task_of (eval f s)) = id.
Lemma attempts_id more attempt task plan acc agent excluded (k : Kernel B) :
  ID (eval (peer_attempts deliveryNow nowAt worker selfLearn env more attempt task plan acc agent excluded) k).1.2 = ID task.
Proof.
  revert attempt task acc agent excluded k. induction more as [|more IH]; intros attempt task acc agent excluded k;
    cbn [peer_attempts]; rewrite eval_bind; set (k1 := exec _ _); clearbody k1;
    (assert (ID (eval (peer_attempt deliveryNow nowAt worker selfLearn env attempt task plan acc agent excluded) k).1.1 = ID task) as E
     by (unfold peer_attempt; rewrite !eval_bind; case_match; rewrite ?eval_bind; by rewrite eval_ret));
    destruct (eval (peer_attempt _ _ _ _ _ _ _ _ _ _ _) k) as [[t r] lat]; cbn [fst] in E;
    (case_match; [by rewrite eval_ret|]); rewrite eval_bind; set (k2 := exec _ _); clearbody k2;
    destruct (eval (routePeerFallback _ _ _ _ _ _) k1) as [acc2 [a2|]]; try by rewrite eval_ret.
  rewrite eval_bind, IH. unfold attachRuntimeContext. rewrite !eval_bind, eval_ret. by rewrite <- E.
Qed.
Lemma peers_id task plan acc agent (k : Kernel B) :
  ID (eval (executeTaskP2P deliveryNow nowAt worker selfLearn env task plan acc agent) k).1.2 = ID task.
Proof. unfold executeTaskP2P. rewrite eval_bind. apply attempts_id. Qed.
Lemma final_status acc result : AccStatus (final_acceptance acc result) = normalizeTaskStatus (ResStatus result).
Proof. unfold final_acceptance. cbv zeta. case_match; done. Qed.

Lemma enforce_still task plan acc agent k : kernel_ok k -> ags !! InfoID (Info agent) = Some agent ->
  let f := enforceModelBudgetPolicy nowAt env (Some (dk_memory desk)) task plan acc agent in
  kernel_still ags k (exec f k) /\
  let '(task', acc', agent', failure) := eval f k in
  ags !! InfoID (Info agent') = Some agent' /\ ID task' = ID task /\
  match failure with Some result => acc' = acc /\ ResStatus result = TaskStatusFailed
    | None => AccAgentID acc = InfoID (Info agent) -> AccAgentID acc' = InfoID (Info agent') end.
Proof.
  intros Hk Hreg f. pose proof (budget_promise nowAt env (dk_memory desk) ags task plan acc agent k Hk Hreg) as Hb. cbv zeta in Hb.
  fold f in Hb. clearbody f. destruct (eval f k) as [[[task' acc'] agent'] failure]. destruct Hb as (H1 & H2 & H3 & H4). split.
  - split; [done|]. unfold kernel_logged, logged, calls_of. rewrite H2. cbn. by split_and!.
  - destruct failure as [result|].
    + destruct H4 as (-> & -> & [h ->] & Hf & _). done.
    + destruct H4 as (Ha & _ & [(-> & -> & [h ->])|(_ & Hacc & _ & (h & p & m & ->) & _)]); done.
Qed.

(** ** How a submission ends *)

(** Turned down: nothing but the task's own workflow has changed. *)
Definition turned_down (id : string) (c0 c : Core B) (record : WorkflowRecord) : Prop :=
  AccStatus (Acceptance record) = TaskStatusRejected /\ still id c0 c.
(** Stored with a failed result, but as accepted. *)
Definition left_open (record : WorkflowRecord) : Prop :=
  AccStatus (Acceptance record) = TaskStatusAccepted /\ exists r, Result record = Some r /\ ResStatus r = TaskStatusFailed.
(** Carried out: the workflow has the status of its result, and its waiters are told last of all. *)
Definition carried_out (record : WorkflowRecord) (c : Core B) : Prop :=
  (exists r, Result record = Some r /\ AccStatus (Acceptance record) = normalizeTaskStatus (ResStatus r)) /\
  exists before, journal_of c = before ++ [NotifyWorkflowWaiters record].
(** What is returned is what is stored under the id of the task. *)
Definition ends (id : string) (c0 : Core B) (res : string + WorkflowRecord) (c : Core B) : Prop :=
  own id c0 c /\
  match res with
  | inl _ => True
  | inr record =>
      ID (WfTask record) = id /\ co_workflows c !! id = Some record /\
      (turned_down id c0 c record \/ left_open record \/ carried_out record c)
  end.

Lemma reject_ends id c0 record payload : ID (WfTask record) = id -> AccStatus (Acceptance record) = TaskStatusRejected ->
  triple (still id c0) (reject desk record payload) (ends id c0).
Proof.
  intros Hid Hst. unfold reject. eapply triple_weaken; [done| |].
  2: { apply (save_then_spec (dk_store desk) ags (still id) id c0); try apply _; [exact Hid|].
       by apply still_save. }
  intros [err|r] c [Hs Hr]; (split; [apply Hs|]); [done|]. destruct Hr as [-> Hr]. split; [done|]. split; [done|]. by left.
Qed.
Lemma reject_untyped_ends id c0 task : triple (still id c0) (reject_untyped nowAt task) (ends id c0).
Proof.
  intros c Hc. assert (Moves (still id) (reject_untyped nowAt task)) as Hm by (unfold reject_untyped; apply _).
  unfold ends. unfold reject_untyped at 2. rewrite !eval_bind, eval_ret. split; [|done].
  assert (still id c0 (exec (reject_untyped nowAt task) c)) as Hs by (etransitivity; [exact Hc|apply Hm]). apply Hs.
Qed.

(** Steps that are still, then a computation that ends what was begun. *)
Lemma ends_after {A A'} id c0 (f : CT A) (g : A -> CT A') (post : A' -> Core B -> Prop) :
  Moves (still id) f -> (forall x, triple (still id c0) (g x) post) -> triple (still id c0) (f ≫= g) post.
Proof. intros Hf Hg. eapply triple_bind; [apply triple_moves; apply _|exact Hg]. Qed.
Lemma reject_by_policy_ends c0 task decision : triple (still (ID task) c0) (reject_by_policy nowAt desk task decision) (ends (ID task) c0).
Proof.
  unfold reject_by_policy. apply ends_after; [apply _|intros now]. cbv zeta. apply ends_after; [apply _|intros updated].
  by apply reject_ends.
Qed.
Lemma reject_by_guard_ends c0 task guard : triple (still (ID task) c0) (reject_by_guard nowAt desk task guard) (ends (ID task) c0).
Proof.
  unfold reject_by_guard. cbv zeta. apply ends_after; [apply _|intros _]. apply ends_after; [apply _|intros now].
  apply ends_after; [apply _|intros completed]. apply ends_after; [apply _|intros updated]. by apply reject_ends.
Qed.

(** A workflow with a result, stored, announced and told to its waiters. *)
Lemma carried_out_ends id c0 record (say : CT ()) : ID (WfTask record) = id ->
  (exists r, Result record = Some r /\ AccStatus (Acceptance record) = normalizeTaskStatus (ResStatus r)) ->
  Moves (still id) say -> Moves kept say ->
  triple (own id c0) (save_then (dk_store desk) record (say;; notifyWorkflowWaiters record)) (ends id c0).
Proof.
  intros Hid Hst Hsay Hkept c Hc.
  assert (Moves (own id) (SaveWorkflow (dk_store desk) record)) as Hsave by (by apply own_still, still_save).
  assert (Moves (own id) (say;; notifyWorkflowWaiters record)) as Hnext.
  { apply moves_bind; [by apply own_still|intros _; apply _|apply _]. }
  assert (Moves kept (say;; notifyWorkflowWaiters record)) as Hk by (apply moves_bind; [done|intros _; apply _|apply _]).
  destruct (save_then_spec (dk_store desk) ags (own id) id c0 record (say;; notifyWorkflowWaiters record) _ Hid Hsave Hnext Hk c Hc)
    as [Ho Hr]. split; [exact Ho|]. unfold save_then in *. rewrite exec_bind, eval_bind in *.
  destruct (eval (SaveWorkflow (dk_store desk) record) c); [by rewrite eval_ret|].
  rewrite exec_bind, eval_bind, exec_ret, eval_ret in *. destruct Hr as [_ Hr]. split; [done|]. split; [done|]. right; right.
  split; [done|]. rewrite exec_bind. by eexists.
Qed.

(** The budget policy and the execution on the peers, in the orchestrator. *)
Lemma enforced_ends c0 id task plan acc agent : kernel_ok (co_kernel c0) -> ags !! InfoID (Info agent) = Some agent -> ID task = id ->
  triple (still id c0) (on_kernel (enforceModelBudgetPolicy nowAt env (Some (dk_memory desk)) task plan acc agent))
    (fun x c => still id c0 c /\ let '(task', acc', agent', failure) := x in
       ags !! InfoID (Info agent') = Some agent' /\ ID task' = id /\
       match failure with Some result => acc' = acc /\ ResStatus result = TaskStatusFailed
    | None => AccAgentID acc = InfoID (Info agent) -> AccAgentID acc' = InfoID (Info agent') end).
Proof.
  intros Hk Hreg <- c Hc. assert (kernel_ok (co_kernel c)) as Hkc by (apply Hc, Hk).
  destruct (enforce_still task plan acc agent (co_kernel c) Hkc Hreg) as [Hs He]. cbv zeta in Hs, He.
  set (f := enforceModelBudgetPolicy _ _ _ _ _ _ _) in *. destruct (run_core f c) as [E1 E2]. rewrite E1, E2.
  split; [|exact He]. etransitivity; [exact Hc|]. destruct Hs as (H1 & H2 & H3 & H4). split_and!; try done.
  split; [exact H1|]. split; [by apply continues_prefix|done].
Qed.
Lemma peers_ends c0 id task plan acc agent : kernel_ok (co_kernel c0) -> ags !! InfoID (Info agent) = Some agent -> ID task = id ->
  triple (still id c0) (on_kernel (executeTaskP2P deliveryNow nowAt worker selfLearn env task plan acc agent))
    (fun x c => own id c0 c /\ ID x.1.2 = id).
Proof.
  intros Hk Hreg <- c Hc. assert (kernel_ok (co_kernel c)) as Hkc by (apply Hc, Hk).
  pose proof (peer_promise deliveryNow nowAt worker selfLearn env ags Htrim task plan acc agent (co_kernel c) Hkc Hreg) as Hp.
  pose proof (peers_id task plan acc agent (co_kernel c)) as Hid.
  pose proof (moves (R := kernel_logged) (f := executeTaskP2P deliveryNow nowAt worker selfLearn env task plan acc agent) (co_kernel c)) as Hl.
  set (f := executeTaskP2P _ _ _ _ _ _ _ _ _) in *. destruct (run_core f c) as [E1 E2]. rewrite E1, E2.
  split; [|exact Hid]. etransitivity; [apply Hc|]. clearbody f. destruct (eval f (co_kernel c)) as [[acc' task'] r].
  destruct Hp as (failed & last & _ & Hat). split; [intros _; by destruct Hat|].
  split; [by apply continues_prefix|done].
Qed.

Lemma execute_routed_ends c0 id task plan acc agent : kernel_ok (co_kernel c0) -> ags !! InfoID (Info agent) = Some agent ->
  AccStatus acc = TaskStatusAccepted -> ID task = id ->
  triple (still id c0) (execute_routed deliveryNow nowAt worker selfLearn env desk task plan acc agent) (ends id c0).
Proof.
  intros Hk Hreg Hacc Hid. unfold execute_routed. eapply triple_bind; [by apply enforced_ends|].
  intros [[[task' acc'] agent'] [failure|]] c [Hc (Hag & Hid' & Hf)]; revert c Hc.
  - destruct Hf as [-> Hf]. apply ends_after; [apply _|intros updated]. eapply triple_weaken; [done| |].
    2: { apply (save_then_spec (dk_store desk) ags (still id) id c0); try apply _; [exact Hid'|]. by apply still_save. }
    intros [err|r] c [Hs Hr]; (split; [apply Hs|]); [done|]. destruct Hr as [-> Hr]. split; [done|]. split; [done|].
    right; left. split; [done|]. by exists failure.
  - apply (triple_bind _ _ _ (fun t c => still id c0 c /\ ID t = id)); [by apply attached_id|].
    intros t c [Hc Ht]; revert c Hc. apply ends_after; [apply _|intros _].
    eapply triple_bind; [by apply peers_ends|]. intros [[facc ftask] r] c [Hc Hft]; revert c Hc. cbn [fst snd] in Hft. cbv zeta.
    eapply triple_bind; [apply triple_moves; [apply _|]; apply (own_still ags id); apply _|]. intros updated. cbv beta.
    apply carried_out_ends; [done|..|apply _|apply _]. exists r. split; [done|]. apply final_status.
Qed.

Lemma submit_planned_ends c0 id task plan : kernel_ok (co_kernel c0) -> ID task = id ->
  triple (still id c0) (submit_planned deliveryNow nowAt worker selfLearn env desk task plan) (ends id c0).
Proof.
  intros Hk Hid. unfold submit_planned. eapply triple_bind; [by apply route_task_spec|].
  intros [acc [agent|]] c [Hc Hr]; revert c Hc; (apply ends_after; [apply _|intros _]).
  - destruct Hr as (Hreg & Hacc & _). apply ends_after; [by apply still_assignment|]. intros [decision|].
    + cbv zeta. apply ends_after; [apply _|intros updated]. by apply reject_ends.
    + by apply execute_routed_ends.
  - cbv zeta. apply ends_after; [apply _|intros updated]. by apply reject_ends.
Qed.

(** ** Delegation *)

(** What the orchestrator relies on: starting and waiting keep the kernel in order, add to the journal
    and leave the stored workflows alone. *)
Class RuntimeLaws (runtime : CodingRuntime B) : Prop := {
  starts : forall id req, Moves (own id) (StartTask runtime req) /\ Moves kept (StartTask runtime req);
  waits : forall id session, Moves (own id) (WaitTask runtime session) /\ Moves kept (WaitTask runtime session) }.

Section Delegation.
Context (runtime : CodingRuntime B) `{!RuntimeLaws runtime}.
#[export] Instance own_start id req : Moves (own id) (StartTask runtime req).
Proof. apply (starts id req). Qed.
#[export] Instance own_wait id session : Moves (own id) (WaitTask runtime session).
Proof. apply (waits id session). Qed.
#[export] Instance own_bind_session id taskID session : Moves (own id) (bind_session (B := B) taskID session).
Proof. intros c. split; [done|]. split; [done|done]. Qed.
#[export] Instance own_unbind_session id taskID sessionID : Moves (own id) (unbind_session (B := B) taskID sessionID).
Proof. intros c. split; [done|]. split; [done|done]. Qed.
#[export] Instance own_core_now id : Moves (own id) (core_Now (B := B) nowAt).
Proof. apply own_still, _. Qed.
#[export] Instance own_core_moment id : Moves (own id) (core_moment (B := B)).
Proof. apply own_still, _. Qed.
#[export] Instance own_request id task plan : Moves (own id) (buildCodingRuntimeRequest (B := B) selfLearn task plan).
Proof. unfold buildCodingRuntimeRequest, retrieveCodingRuntimeRAGContext. walk. Qed.
#[export] Instance own_pending id task plan session req : Moves (own id) (pending_workflow (B := B) nowAt task plan session req).
Proof. unfold pending_workflow. walk. Qed.
#[export] Instance own_pump id session taskID : Moves (own id) (startCodingRuntimeEventPump runtime session taskID).
Proof.
  unfold startCodingRuntimeEventPump. apply moves_bind; [apply _|intros n|apply _].
  destruct (Events _ _ _); [apply own_still, _|apply _].
Qed.
#[export] Instance still_outcome id record taskID result : Moves (still id) (announce_outcome (B := B) record taskID result).
Proof. unfold announce_outcome. apply _. Qed.
#[export] Instance kept_outcome record taskID result : Moves kept (announce_outcome (B := B) record taskID result).
Proof. unfold announce_outcome. apply _. Qed.

(** Unbinding a session changes nothing of what a submission is about. *)
Lemma ends_unbound id c0 (f : CT (string + WorkflowRecord)) taskID sessionID (pre : Core B -> Prop) :
  triple pre f (ends id c0) -> triple pre (r ← f; unbind_session taskID sessionID;; mret r) (ends id c0).
Proof.
  intros Hf c Hc. specialize (Hf c Hc). rewrite exec_bind, eval_bind, exec_bind, eval_bind, exec_ret, eval_ret.
  set (c1 := exec f c) in *. set (r := eval f c) in *. clearbody c1 r. destruct Hf as [Ho Hr].
  split; [etransitivity; [exact Ho|apply (moves (R := own id))]|]. destruct r as [err|record]; [done|].
  destruct Hr as (H1 & H2 & H3). split; [done|]. split; [done|].
  destruct H3 as [[H3 H4]|[H3|H3]]; [left|right; by left|right; by right]. split; [done|]. exact H4.
Qed.
Lemma finalized_spec id c0 task plan req session result : ID task = id ->
  triple (own id c0) (finalizeCodingRuntimeWorkflow nowAt runtime task plan req session result)
    (fun record c => own id c0 c /\ ID (WfTask record) = id /\
       exists r, Result record = Some r /\ AccStatus (Acceptance record) = normalizeTaskStatus (ResStatus r)).
Proof.
  intros Hid c Hc. assert (Moves (own id) (finalizeCodingRuntimeWorkflow nowAt runtime task plan req session result)) as Hm.
  { unfold finalizeCodingRuntimeWorkflow. walk. }
  split; [etransitivity; [exact Hc|apply Hm]|]. unfold finalizeCodingRuntimeWorkflow. rewrite !eval_bind, eval_ret.
  split; [exact Hid|]. eexists. split; [reflexivity|]. cbn [Acceptance]. unfold settled_acceptance. cbv zeta.
  destruct (bool_decide _); [done|]. by case_match.
Qed.
Lemma awaited_spec id c0 task plan req session : ID task = id ->
  triple (own id c0) (await_session nowAt runtime task plan req session)
    (fun x c => own id c0 c /\ ID (WfTask x.1) = id /\
       exists r, Result x.1 = Some r /\ AccStatus (Acceptance x.1) = normalizeTaskStatus (ResStatus r)).
Proof.
  intros Hid. unfold await_session. eapply triple_bind; [apply triple_moves; apply _|intros waited; cbv beta].
  eapply triple_bind; [apply triple_moves; [apply _|]; unfold failedCodingRuntimeResult; walk|intros result; cbv beta].
  eapply triple_bind; [by apply finalized_spec|intros record]. by apply triple_ret.
Qed.

Lemma delegated_ends c0 id task plan : ID task = id ->
  triple (own id c0) (dispatchCodingRuntimeTaskSync nowAt (dk_store desk) selfLearn runtime task plan) (ends id c0).
Proof.
  intros Hid. unfold dispatchCodingRuntimeTaskSync. eapply triple_bind; [apply triple_moves; apply _|intros req; cbv beta].
  eapply triple_bind; [apply triple_moves; apply _|intros [err|session]; cbv beta].
  - apply (triple_bind _ _ _ (fun record c => own id c0 c /\ ID (WfTask record) = id /\ left_open record)).
    { intros c Hc. assert (Moves (own id) (unstarted_workflow nowAt runtime task plan err)) as Hm.
      { unfold unstarted_workflow, failedCodingRuntimeResult. walk. }
      split; [etransitivity; [exact Hc|apply Hm]|]. unfold unstarted_workflow, failedCodingRuntimeResult.
      rewrite !eval_bind, !eval_ret. split; [exact Hid|]. split; [done|]. by eexists. }
    intros record c [Hc (Hr & Hl)]; revert c Hc. eapply triple_weaken; [done| |].
    2: { apply (save_then_spec (dk_store desk) ags (own id) id c0); try apply _; [exact Hr|]. by apply own_still, still_save. }
    intros [e|r] c [Hs Hw]; (split; [exact Hs|]); [done|]. destruct Hw as [-> Hw]. split; [done|]. split; [done|]. right; by left.
  - eapply triple_bind; [apply triple_moves; apply _|intros ?; cbv beta].
    apply (triple_bind _ _ _ (fun record c => own id c0 c /\ ID (WfTask record) = id)).
    { intros c Hc. split; [etransitivity; [exact Hc|apply (moves (R := own id))]|]. unfold pending_workflow.
      by rewrite !eval_bind, eval_ret. }
    intros pending c [Hc Hp]; revert c Hc.
    eapply triple_bind; [apply triple_moves; [apply _|by apply own_still, still_save]|intros [err|]; cbv beta].
    + intros c Hc. rewrite exec_bind, eval_bind, exec_ret, eval_ret. split; [|done].
      etransitivity; [exact Hc|apply (moves (R := own id))].
    + eapply triple_bind; [apply triple_moves; apply _|intros ?; cbv beta].
      eapply triple_bind; [by apply awaited_spec|intros [record result] c [Hc [Hr Hst]]; revert c Hc].
      apply ends_unbound, carried_out_ends; [done|done|apply _|apply _].
Qed.
End Delegation.

(** ** Submission *)
Definition runtime_trusted : Prop := forall runtime, dk_codingRuntime desk = Some runtime -> RuntimeLaws runtime.

Lemma submitTaskSync_ends c0 task : kernel_ok (co_kernel c0) -> ID task <> "" -> runtime_trusted ->
  triple (still (ID task) c0) (submitTaskSync deliveryNow nowAt worker selfLearn env desk task) (ends (ID task) c0).
Proof.
  intros Hk Hid Hrt. unfold submitTaskSync.
  apply (triple_bind _ _ _ (fun t c => still (ID task) c0 c /\ ID t = ID task)).
  { intros c Hc. split; [|by apply with_defaults_id]. etransitivity; [exact Hc|]. apply (moves (R := still (ID task))). }
  intros t c [Hc Ht]; revert c Hc. destruct (String.eqb _ _); [apply reject_untyped_ends|].
  destruct (decisionBlocks _); [rewrite <- Ht; apply reject_by_policy_ends|].
  apply ends_after; [apply _|intros guard]. destruct (blocked guard); [rewrite <- Ht; apply reject_by_guard_ends|].
  apply ends_after; [apply _|intros n]. apply ends_after; [apply _|intros now].
  pose proof (Prepare_id (dk_getenv desk) (dk_selector desk n) now t) as Hp. rewrite Ht in Hp.
  destruct (@Prepare _ _ now t) as [t' plan]. cbn [fst] in Hp.
  apply (triple_bind _ _ _ (fun t c => still (ID task) c0 c /\ ID t = ID task)).
  { intros c Hc. split; [etransitivity; [exact Hc|apply (moves (R := still (ID task)))]|]. by rewrite adapted_id. }
  intros u c [Hc Hu]; revert c Hc. unfold delegate.
  destruct (shouldDelegateToCodingRuntime _ u); [|by apply submit_planned_ends].
  destruct (dk_codingRuntime desk) as [runtime|] eqn:E; [|by apply submit_planned_ends].
  pose proof (Hrt runtime E). eapply triple_weaken; [|done|by apply delegated_ends]. intros c Hc. apply Hc.
Qed.

(** The queue: nothing is asked, and the bus is the only part of the kernel that changes. *)
Definition queued (c0 c : Core B) (record : WorkflowRecord) : Prop :=
  AccStatus (Acceptance record) = TaskStatusQueued /\ Result record = None /\ called c = called c0.
Context (queue : option (Task -> B -> option string * B)).
Abbreviation SubmitTaskAsync := (SubmitTaskAsync deliveryNow nowAt worker selfLearn env desk queue).
Abbreviation SubmitTask := (SubmitTask deliveryNow nowAt worker selfLearn env desk queue).

(** How any submission ends. *)
Definition answers (id : string) (c0 : Core B) (res : string + WorkflowRecord) (c : Core B) : Prop :=
  own id c0 c /\
  match res with
  | inl _ => True
  | inr record =>
      ID (WfTask record) = id /\ co_workflows c !! id = Some record /\
      (queued c0 c record \/ turned_down id c0 c record \/ left_open record \/ carried_out record c)
  end.
Lemma ends_answers id c0 res c : ends id c0 res c -> answers id c0 res c.
Proof. intros [Ho Hr]. split; [done|]. destruct res; [done|]. naive_solver. Qed.

Lemma SubmitTaskAsync_answers c0 task : kernel_ok (co_kernel c0) -> ID task <> "" -> runtime_trusted ->
  triple (still (ID task) c0) (SubmitTaskAsync task) (answers (ID task) c0).
Proof.
  intros Hk Hid Hrt. unfold Submission.SubmitTaskAsync.
  apply (triple_bind _ _ _ (fun t c => still (ID task) c0 c /\ ID t = ID task)).
  { intros c Hc. split; [|by apply with_defaults_id]. etransitivity; [exact Hc|]. apply (moves (R := still (ID task))). }
  intros t c [Hc Ht]; revert c Hc. destruct queue as [EnqueueTask|].
  2: { intros c Hc. apply ends_answers. revert c Hc. rewrite <- Ht. apply submitTaskSync_ends; [done|congruence|done]. }
  cbv zeta. eapply (triple_weaken _ (unasked (ID task) c0)); [intros c Hc; destruct Hc as (H1 & H2 & H3 & _); by split_and!|done|].
  eapply triple_bind; [apply triple_moves; [apply _|apply unasked_still; apply _]|intros now; cbv beta].
  eapply triple_bind; [apply triple_moves; [apply _|apply unasked_still; apply _]|intros updated; cbv beta].
  set (record := mkWorkflowRecord _ _ _ _ _). intros c Hc.
  destruct (SaveWorkflow_spec (dk_store desk) ags record c) as [Hs Hw]. rewrite exec_bind, eval_bind.
  set (c1 := exec (SaveWorkflow (dk_store desk) record) c) in *. replace (ID (WfTask record)) with (ID task) in Hs, Hw by done.
  assert (unasked (ID task) c0 c1) as H1 by (etransitivity; [exact Hc|]; destruct Hs as (? & ? & ? & _); by split_and!). clearbody c1.
  destruct (eval (SaveWorkflow (dk_store desk) record) c) as [err|]; [split; [apply H1|done]|]. specialize (Hw eq_refl).
  rewrite exec_bind, eval_bind.
  match goal with |- context [exec (on_kernel (on_delivery ?g)) c1] => set (f := g) end.
  pose proof (moves (R := unasked (ID task)) (f := on_kernel (on_delivery f)) c1) as H2.
  assert (co_workflows (exec (on_kernel (on_delivery f)) c1) = co_workflows c1) as W2 by apply (moves (R := kept)).
  set (c2 := exec (on_kernel (on_delivery f)) c1) in *. assert (unasked (ID task) c0 c2) as H3 by (by etransitivity).
  destruct (eval (on_kernel (on_delivery f)) c1) as [err|]; [split; [apply H3|done]|]. clearbody c2.
  rewrite exec_bind, eval_bind, exec_ret, eval_ret. set (c3 := exec (announce _ _ _) c2).
  assert (still (ID task) c2 c3) as H4 by apply moves. assert (co_workflows c3 = co_workflows c2) as W3 by apply (moves (R := kept)).
  destruct H3 as (Ho & _ & Hcalls). split; [etransitivity; [exact Ho|apply H4]|]. split; [exact Ht|].
  split; [rewrite W3, W2, Hw; by rewrite lookup_insert_eq|]. left. split; [done|]. split; [done|]. rewrite <- Hcalls. apply H4.
Qed.

(** C38: How a submission ends, directly or through the queue.  Whatever the store, the bus, the agents and the
    memory do, it keeps the runtime in order, only adds to the journal and changes no workflow but its
    own; without an error the workflow it returns is the one of its task and the one in the store.  This
    workflow is queued, and no agent was called; or rejected, and then no agent was called, no delivery
    made and no waiter woken; or it has the status of the result it was carried out with, and its
    waiters are told of it last of all; or it is left open: its result is failed, its status accepted. *)
Theorem submission_ends task c : kernel_ok (co_kernel c) -> ID task <> "" -> runtime_trusted ->
  answers (ID task) c (eval (SubmitTask task) c) (exec (SubmitTask task) c).
Proof.
  intros Hk Hid Hrt. unfold Submission.SubmitTask. destruct (submissionModeEnabled desk).
  - apply SubmitTaskAsync_answers; done || apply reflexivity.
  - apply ends_answers, submitTaskSync_ends; done || apply reflexivity.
Qed.

(** ** Hard stops *)
Lemma firstNonEmpty_session sessionID id : TrimSpace sessionID <> "" ->
  normalizeSessionID (firstNonEmpty [sessionID; id]) = normalizeSessionID sessionID.
Proof.
  intros Hs. cbn. unfold non_blank. apply String.eqb_neq in Hs. rewrite Hs. cbn. apply TrimSpace_idem.
Qed.
(** A failed answer to a delivered task is recorded as a hard stop of its session and branch. *)
Lemma failed_answer_stops task acc (agent : Agent) envelope (k : Kernel B) :
  (forall n, su_slot_error env n (Info agent) (AccModelName acc) = None) -> TrimSpace (SessionID task) <> "" ->
  let f := executeDeliveredTask deliveryNow nowAt worker selfLearn env task acc agent envelope in
  ResStatus (eval f k).1 = TaskStatusFailed ->
  Exists (stops (SessionID task) (ContextBranch (Context_ task))) (io_journal (kn_io (exec f k))).
Proof.
  intros Hslot Hs. cbv zeta. unfold executeDeliveredTask. rewrite exec_bind, eval_bind, Hslot.
  change (exec moment k) with k. rewrite exec_bind, eval_bind. set (k1 := exec (refreshRuntimeCapacity _ _ _) k). clearbody k1.
  rewrite exec_bind, eval_bind. pose proof (agent_answers_spec nowAt worker selfLearn task acc agent (kn_io k1)) as Ha.
  destruct (on_io_spec (executeAgentWithReasoning nowAt worker selfLearn task acc agent) k1) as [-> ->].
  set (f := executeAgentWithReasoning nowAt worker selfLearn task acc agent) in *.
  rewrite (surjective_pairing (f (kn_io k1)) : f (kn_io k1) = (exec f (kn_io k1), eval f (kn_io k1))) in Ha.
  set (io := exec f (kn_io k1)) in *. destruct (eval f (kn_io k1)) as [[task' r] lat]. clearbody io. clear f.
  destruct Ha as ([hints ->] & _). cbv beta iota zeta. rewrite exec_bind, eval_bind.
  set (k2 := exec (journal _) _). clearbody k2. set (r' := if bool_decide (ResStatus r = TaskStatusOther "") then _ else r).
  clearbody r'. rewrite exec_bind, eval_bind. set (t := task <| RoutingHints := hints |>).
  assert (forall k3 k4 : Kernel B, kernel_logged k3 k4 ->
    Exists (stops (SessionID task) (ContextBranch (Context_ task))) (io_journal (kn_io k3)) ->
    Exists (stops (SessionID task) (ContextBranch (Context_ task))) (io_journal (kn_io k4))) as Hlater.
  { intros k3 k4 (more & -> & _) He. apply Exists_app. by left. }
  match goal with |- context [eval ?g ?k3] => set (rest := g); set (kr := k3) end.
  assert (ResStatus (eval rest kr).1 = ResStatus r') as ->.
  { subst rest. by rewrite !eval_bind, eval_ret. }
  intros Hr. apply (Hlater kr); [subst rest; apply (moves (R := kernel_logged)); walk|]. subst kr. rewrite Hr.
  rewrite bool_decide_eq_true_2 by done. rewrite exec_bind.
  eapply Hlater; [apply (moves (R := kernel_logged)); walk|].
  match goal with |- context [exec (journal ?e) k2] =>
    change (io_journal (kn_io (exec (journal e) k2))) with (io_journal (kn_io k2) ++ [e]) end.
  apply Exists_app. right. apply Exists_cons_hd. cbn [stops]. subst t.
  change (SessionID (task <| RoutingHints := hints |>)) with (SessionID task).
  change (ID (task <| RoutingHints := hints |>)) with (ID task).
  change (Context_ (task <| RoutingHints := hints |>)) with (Context_ task).
  rewrite (firstNonEmpty_session _ _ Hs). done.
Qed.

Lemma save_then_returns record next (c : Core B) :
  match eval (save_then (dk_store desk) record next) c with
  | inr r => r = record
  | inl err => exists n r m, (store_save (dk_store desk) n r m).1 = Some err
  end.
Proof.
  unfold save_then. rewrite eval_bind. destruct (eval (SaveWorkflow (dk_store desk) record) c) as [err|] eqn:E.
  - rewrite eval_ret. exists (eval core_moment c), record, (co_workflows c). rewrite <- E. unfold SaveWorkflow.
    rewrite eval_bind, exec_core_moment. unfold eval at 2. by destruct (store_save _ _ _ _).
  - by rewrite eval_bind, eval_ret.
Qed.
(** What a submission checks before the cache guard. *)
Definition well_formed (task : Task) : Prop :=
  ID task <> "" /\ TrimSpace (SessionID task) <> "" /\ task_type_string (Type_ task) <> "" /\
  TrimSpace (Description (Input task)) <> "".
Lemma defaults_keep task c : ID task <> "" -> TrimSpace (SessionID task) <> "" ->
  let t := eval (with_defaults nowAt desk task) c in
  SessionID t = SessionID task /\ Type_ t = Type_ task /\ Input t = Input task /\ Context_ t = Context_ task.
Proof.
  intros Hid Hs. assert (SessionID task <> "") as Hs' by (intros E; apply Hs; rewrite E; reflexivity).
  apply String.eqb_neq in Hid, Hs'. unfold with_defaults. rewrite !eval_bind, eval_ret, Hid, Hs'.
  repeat match goal with |- context [if ?b then _ else _] => destruct b end; done.
Qed.
(** Turned away at the cache guard; without a record, the store could not save it. *)
Definition locked_out (task : Task) (c : Core B) : Prop :=
  let f := submitTaskSync deliveryNow nowAt worker selfLearn env desk task in
  still (ID task) c (exec f c) /\
  match eval f c with
  | inr record => AccStatus (Acceptance record) = TaskStatusRejected /\ AccReason (Acceptance record) = hardStopReason
  | inl err => exists n record m, (store_save (dk_store desk) n record m).1 = Some err
  end.
Lemma guard_locks_out task c : (forall n, dk_guard_error desk n = None) -> well_formed task ->
  Exists (stops (SessionID task) (ContextBranch (Context_ task))) (journal_of c) -> locked_out task c.
Proof.
  intros Hguard (Hid & Hs & Hty & Hd) Hstop. unfold locked_out. cbv zeta. unfold submitTaskSync.
  rewrite exec_bind, eval_bind. set (t := eval (with_defaults nowAt desk task) c).
  assert (still (ID task) c (exec (with_defaults nowAt desk task) c)) as H1 by apply moves.
  destruct (defaults_keep task c Hid Hs) as (E1 & E2 & E3 & E4). cbv zeta in E1, E2, E3, E4. fold t in E1, E2, E3, E4.
  pose proof (with_defaults_id task c Hid) as E0. fold t in E0. set (c1 := exec (with_defaults nowAt desk task) c) in *. clearbody c1 t.
  assert (decisionBlocks (preflightPolicy t) = false) as Hp.
  { unfold preflightPolicy. rewrite E2, E3. apply String.eqb_neq in Hty, Hd. by rewrite Hty, Hd. }
  assert (String.eqb (task_type_string (Type_ t)) "" = false) as Hty' by (rewrite E2; by apply String.eqb_neq).
  rewrite Hty', Hp, exec_bind, eval_bind.
  assert (Exists (stops (SessionID t) (ContextBranch (Context_ t))) (journal_of c1)) as Hstop1.
  { rewrite E1, E4. destruct H1 as (_ & (more & -> & _) & _). apply Exists_app. by left. }
  assert (exec (cache_guard desk t) c1 = c1) as -> by (unfold cache_guard; by rewrite exec_bind, exec_gets, exec_core_moment).
  assert (normalizeSessionID (SessionID t) <> "") as Hs' by (unfold normalizeSessionID; by rewrite E1).
  destruct (guard_blocked (dk_loggedAt desk) (dk_storageMode desk) (journal_of c1) _ (ContextBranch (Context_ t)) Hs') as [Hb _].
  destruct (Hb Hstop1) as [Hb1 Hb2]. set (guard := eval (cache_guard desk t) c1).
  assert (guard = CacheGuardSnapshot None (SessionID t) (ContextBranch (Context_ t))
    (replay (dk_loggedAt desk) (dk_storageMode desk) (journal_of c1))) as Hg.
  { subst guard. unfold cache_guard. rewrite eval_bind, eval_gets, exec_core_moment. by rewrite Hguard. }
  rewrite <- Hg in Hb1, Hb2. clearbody guard. clear Hg Hb Hstop1. rewrite Hb1. unfold reject_by_guard. cbv zeta.
  assert (firstNonEmptyString [kernelString (aget_any guard "reason"); "cache guard blocked task execution"] = hardStopReason) as ->
    by (unfold aget_any; rewrite Hb2; reflexivity).
  set (e := RecordHardStop t _ hardStopReason). rewrite !exec_bind, !eval_bind.
  match goal with |- context [exec (reject desk ?r ?p) ?c'] => set (record := r); set (payload := p); set (c2 := c') end.
  assert (still (ID task) c c2) as H2.
  { etransitivity; [exact H1|]. subst c2. do 3 (etransitivity; [|apply (moves (R := still (ID task)))]). apply moves. }
  assert (AccStatus (Acceptance record) = TaskStatusRejected /\ AccReason (Acceptance record) = hardStopReason) as Hr by done.
  assert (ID (WfTask record) = ID task) as Hid' by exact E0. clearbody record payload c2.
  pose proof (save_then_spec (dk_store desk) ags (still (ID task)) (ID task) c record (announce "task.rejected" (ID (WfTask record)) payload)
    _ Hid' (still_save (dk_store desk) ags record (ID task) Hid') _ _ c2 H2) as [H3 H4].
  split; [exact H3|]. pose proof (save_then_returns record (announce "task.rejected" (ID (WfTask record)) payload) c2) as H5.
  unfold reject. destruct (eval _ c2); [done|]. by rewrite H5.
Qed.

(** C39: A failed answer locks its session.  When a delivered task's agent was given a free slot and its result is
    failed, then from then on (the journal only grows), whatever came of the task in the end and however
    much later, every well-formed submission with the same session and branch is turned away with the
    reason of the hard stop: no agent is called, nothing is delivered, and its own journal still holds
    the stop, so the next one is turned away, too. *)
Theorem failed_answer_locks_session task acc (agent : Agent) envelope (k : Kernel B) c next :
  (forall n, su_slot_error env n (Info agent) (AccModelName acc) = None) -> (forall n, dk_guard_error desk n = None) ->
  let f := executeDeliveredTask deliveryNow nowAt worker selfLearn env task acc agent envelope in
  ResStatus (eval f k).1 = TaskStatusFailed -> io_journal (kn_io (exec f k)) `prefix_of` journal_of c ->
  well_formed next -> SessionID next = SessionID task ->
  ContextBranch (Context_ next) = ContextBranch (Context_ task) ->
  locked_out next c /\
  io_journal (kn_io (exec f k)) `prefix_of`
    journal_of (exec (submitTaskSync deliveryNow nowAt worker selfLearn env desk next) c).
Proof.
  intros Hslot Hguard f Hr [more Hc] Hw Es Eb. pose proof Hw as (_ & Hs & _ & _). rewrite Es in Hs.
  pose proof (failed_answer_stops task acc agent envelope k Hslot Hs Hr) as Hstop. cbv zeta in Hstop. fold f in Hstop.
  assert (locked_out next c) as Hl.
  { apply guard_locks_out; [done|done|]. rewrite Es, Eb, Hc. apply Exists_app. by left. }
  split; [exact Hl|]. destruct Hl as [(_ & [more2 [E _]] & _) _]. cbv zeta in E. rewrite E, Hc, <- app_assoc. by eexists.
Qed.

(** A budget failure leaves the workflow open.  When every model's budget forbids it and the store can be
    written, a task that was routed to an agent is stored and returned with a failed result but the
    status of its acceptance, accepted, which is not terminal; no waiter is woken, then or before, and no agent is called. *)
Theorem budget_failure_stays_open task plan acc (agent : Agent) c :
  kernel_ok (co_kernel c) -> ags !! InfoID (Info agent) = Some agent -> AccStatus acc = TaskStatusAccepted ->
  (forall n t model tokens, budget_action (EvaluateModelBudget (dk_memory desk) n t model tokens) = "error") ->
  (forall n record m, (store_save (dk_store desk) n record m).1 = None) ->
  let f := execute_routed deliveryNow nowAt worker selfLearn env desk task plan acc agent in
  exists record, eval f c = inr record /\ co_workflows (exec f c) !! ID task = Some record /\ left_open record /\
    isTerminalTaskStatus (AccStatus (Acceptance record)) = false /\ still (ID task) c (exec f c).
Proof.
  intros Hk Hreg Hacc Hbudget Hstore f.
  pose proof (budget_promise nowAt env (dk_memory desk) ags task plan acc agent (co_kernel c) Hk Hreg) as Hb. cbv zeta in Hb.
  destruct (enforced_ends c (ID task) task plan acc agent Hk Hreg eq_refl c ltac:(reflexivity)) as [H1 H2].
  subst f. unfold execute_routed. rewrite exec_bind, eval_bind.
  destruct (run_core (enforceModelBudgetPolicy nowAt env (Some (dk_memory desk)) task plan acc agent) c) as [_ E2].
  set (c1 := exec (on_kernel (enforceModelBudgetPolicy _ _ _ _ _ _ _)) c) in *. rewrite E2 in *. clearbody c1.
  destruct (eval (enforceModelBudgetPolicy _ _ _ _ _ _ _) (co_kernel c)) as [[[task' acc'] agent'] [failure|]].
  2: { exfalso. destruct Hb as (_ & _ & _ & _ & (b & (n & t & _ & ->) & Hne & _) & _). by apply Hne. }
  destruct H2 as (_ & Hid & -> & Hf). clear Hb. rewrite exec_bind, eval_bind.
  set (c2 := exec (core_Now nowAt) c1). set (record := mkWorkflowRecord _ _ _ _ _).
  assert (still (ID task) c c2) as H3 by (etransitivity; [exact H1|apply (moves (R := still (ID task)))]). clearbody c2.
  match goal with |- context [save_then _ record ?n] => set (next := n) end.
  destruct (save_then_spec (dk_store desk) ags (still (ID task)) (ID task) c record next _ Hid
    (still_save (dk_store desk) ags record (ID task) Hid) _ _ c2 H3) as [H4 H5].
  pose proof (save_then_returns record next c2) as H6. destruct (eval (save_then _ record next) c2) as [err|r].
  { destruct H6 as (n & r & m & E). by rewrite Hstore in E. }
  destruct H5 as [-> H5]. exists record. split_and!; try done; [split; [done|by exists failure]|].
  cbn [Acceptance record]. by rewrite Hacc.
Qed.
End SubmissionProps.

(** ** Examples *)
Definition clock (n : nat) : Time := 100 + Z.of_nat n.
Definition no_selection : ModelSelector := fun _ => zero_selection.
Definition open_desk (memory : Memory) : Desk MessageBus :=
  mkDesk (fun _ => "generated") (fun _ => "") (fun _ => no_selection) false memory (fun _ => None) clock "file"
    (FileStore (fun _ => None)) None.
Definition no_budgets : Memory := mkMemory (fun _ => 0) (fun _ _ _ _ => []).
Definition coders_core : Core MessageBus := mkCore (coders_kernel NewMessageBus) ∅ newCodingRuntimeSessionMapper.
Definition coding_request (id : string) : Task :=
  zero_task <| ID := id |> <| SessionID := "s1" |> <| AssignedProvider := "openai" |> <| Type_ := TaskTypeCode |> <| RequiredCapability := "implementation" |>
    <| Input := mkTaskInput "Count words." [] [] [] |>.
Definition submit (task : Task) : ST (Core MessageBus) (string + WorkflowRecord) :=
  SubmitTask clock clock coders_workers no_self_learning coders_env (open_desk no_budgets) None task.
Definition outcome_of (res : string + WorkflowRecord) : string + (TaskStatus * string) :=
  match res with
  | inl err => inl err
  | inr record => inr (AccStatus (Acceptance record), AccReason (Acceptance record))
  end.

(** The cloud coder fails, the local one takes over and the task is completed; the next task of the
    session is turned away. *)
Example recovered_task_locks_session :
  let first := submit (coding_request "t1") coders_core in
  let second := submit (coding_request "t2") first.1 in
  (map (fun c => (c.1.1, ResStatus c.2)) (called second.1), outcome_of first.2, outcome_of second.2) =
  ([("cloud-coder", TaskStatusFailed); ("local-coder", TaskStatusCompleted)],
   inr (TaskStatusCompleted, "policy routing"), inr (TaskStatusRejected, "CACHE_GUARD_HARD_STOP")).
Proof. vm_compute. reflexivity. Qed.

Lemma coders_core_ok : PeerExecutionProps.kernel_ok (agents (register_all 1 coders)) (co_kernel coders_core).
Proof. exact (coders_kernel_ok NewMessageBus). Qed.
Lemma first_answer : eval (submit (coding_request "t1")) coders_core =
  inr (default (mkWorkflowRecord zero_task zero_plan coders_acceptance None 0)
         (co_workflows (exec (submit (coding_request "t1")) coders_core) !! "t1")) /\
  AccStatus (Acceptance (default (mkWorkflowRecord zero_task zero_plan coders_acceptance None 0)
         (co_workflows (exec (submit (coding_request "t1")) coders_core) !! "t1"))) = TaskStatusCompleted.
Proof. vm_compute. split; reflexivity. Qed.

Lemma submission_ends_witness : exists record,
  eval (submit (coding_request "t1")) coders_core = inr record /\
  carried_out record (exec (submit (coding_request "t1")) coders_core).
Proof.
  pose proof (submission_ends clock clock coders_workers no_self_learning coders_env (open_desk no_budgets)
    (agents (register_all 1 coders)) coders_trimmed None (coding_request "t1") coders_core coders_core_ok ltac:(discriminate)
    ltac:(discriminate)) as H.
  pose proof first_answer as [E1 E2].
  set (f := SubmitTask _ _ _ _ _ _ _ _) in H. assert (f = submit (coding_request "t1")) as E by (unfold f, submit; reflexivity).
  clearbody f. subst f. rewrite E1 in H |- *. destruct H as [_ (_ & _ & H)].
  eexists. split; [reflexivity|]. set (record := default _ _) in *. clearbody record.
  destruct H as [(H & _)|[(H & _)|[(H & _)|H]]]; [congruence..|exact H].
Defined.

(** A core whose cloud coder has just failed a task. *)
Definition failed_attempt : ST (Kernel MessageBus) (AgentResult * Z) :=
  executeDeliveredTask clock clock coders_workers no_self_learning coders_env (coding_request "t1") coders_acceptance
    cloud_coder zero_envelope.
Definition failed_core : Core MessageBus :=
  mkCore (exec failed_attempt (coders_kernel NewMessageBus)) ∅ newCodingRuntimeSessionMapper.
Lemma attempt_failed : ResStatus (eval failed_attempt (coders_kernel NewMessageBus)).1 = TaskStatusFailed.
Proof. vm_compute. reflexivity. Qed.
Lemma request_well_formed : well_formed (coding_request "t2").
Proof. split_and!; vm_compute; discriminate. Qed.

Lemma failed_answer_locks_session_witness :
  well_formed (coding_request "t2") /\
  locked_out clock clock coders_workers no_self_learning coders_env (open_desk no_budgets) (agents (register_all 1 coders))
    (coding_request "t2") failed_core.
Proof.
  split; [exact request_well_formed|]. pose proof attempt_failed as Hf. unfold failed_attempt in Hf.
  apply (failed_answer_locks_session clock clock coders_workers no_self_learning coders_env (open_desk no_budgets)
    (agents (register_all 1 coders)) (coding_request "t1") coders_acceptance cloud_coder zero_envelope
    (coders_kernel NewMessageBus) failed_core (coding_request "t2"));
    [reflexivity|reflexivity|exact Hf|exists []; symmetry; apply app_nil_r|exact request_well_formed|reflexivity|reflexivity].
Defined.

Definition no_tokens : Memory := mkMemory (fun _ => 1) (fun _ _ _ _ => [("action", AString "error")]).
Lemma budget_failure_stays_open_witness :
  (forall n t model tokens, budget_action (EvaluateModelBudget no_tokens n t model tokens) = "error") /\
  exists record, left_open record /\ isTerminalTaskStatus (AccStatus (Acceptance record)) = false /\
    eval (execute_routed clock clock coders_workers no_self_learning coders_env (open_desk no_tokens)
            (coding_request "t1") coding_plan coders_acceptance cloud_coder) coders_core = inr record.
Proof.
  split; [reflexivity|].
  destruct (budget_failure_stays_open clock clock coders_workers no_self_learning coders_env (open_desk no_tokens)
    (agents (register_all 1 coders)) (coding_request "t1") coding_plan coders_acceptance cloud_coder coders_core
    coders_core_ok eq_refl eq_refl) as (record & H1 & _ & H2 & H3 & _); [reflexivity|reflexivity|].
  exists record. split; [exact H2|]. split; [exact H3|exact H1].
Defined.
