(* ===== verification/AsyncWorkflow.v ===== *)
(** * Asynchronous workflows (kernel/orchestrator.go)

    A worker of the submission queue dispatches a task: it is checked and routed as in a direct submission
    and sent to its agent.  The result comes back through the result queue; a failed one sends the
    task to another agent, any other closes the workflow and tells its waiters. *)
From S2P Require Import Prelude Bus MessageBus Supervisor GoLib GoJSON Domain TaskPolicy Policy StateMonad AgentRegistry RuntimeManager.
From S2P Require Import SubmissionScheduler AdaptiveRuntime LiveRealtime Router Planner PlanScheduling TraceParser.
From S2P Require Import ExecutionEffects Reasoning ExecutionRecords PeerExecution ModelBudget CacheGuard Workflows CodingDelegate.
From S2P Require Import Submission.
From Stdlib Require Import PrimFloat.

(** The agents that have been tried, as the hints list them. *)
Definition excludedAgentsFromTask (task : Task) : gset string :=
  match aget (RoutingHints task) "p2p_excluded_agents" with
  | Some (AStrings ids) => list_to_set ids
  | Some (AList items) =>
      list_to_set (omap (fun item => match item with
        | AString id => if String.eqb id "" then None else Some id
        | _ => None end) items)
  | _ => ∅
  end.

Definition named_agent_info (id provider modelName : string) : AgentInfo :=
  mkAgentInfo id "" provider modelName [] (AgentStatusOther "").
(** The workflow of a result nobody has stored a workflow for. *)
Definition unknown_workflow (result : TaskResultEnvelope) : WorkflowRecord :=
  mkWorkflowRecord
    (zero_task <| ID := ReTaskID result |> <| ParentTaskID := ReParentTaskID result |>
               <| SessionID := firstNonEmptyString [ReCorrelationID result; ReTaskID result] |>)
    zero_plan (mkTaskAcceptance "" (TaskStatusOther "") "" (ComplexityOther "") "" "" "" "" false zero_time) None zero_time.
(** The workflow with a result. *)
Definition with_result (accepted updated : Time) (result : TaskResultEnvelope) (workflow : WorkflowRecord) : WorkflowRecord :=
  let status := normalizeTaskStatus (ReStatus result) in
  workflow <| Result := Some (ReResult result) |> <| WfUpdatedAt := updated |>
    <| Acceptance ::= fun acceptance =>
         if String.eqb (AccTaskID acceptance) ""
         then mkTaskAcceptance (ReTaskID result) status (ReTargetAgent result) (ComplexityOther "") "" "" "" "" false accepted
         else acceptance <| AccStatus := status |> |>.

Section Async.
Context {B : Type} `{Bus B}.
Context (deliveryNow nowAt : nat -> Time) (selfLearn : SelfLearning) (env : Surroundings) (desk : Desk B).
Abbreviation CT := (ST (Core B)).
Abbreviation core_Now := (core_Now nowAt).
Abbreviation save_then := (save_then (dk_store desk)).

(** ** Dispatch *)

(** A workflow that ends here is stored and its waiters are told. *)
Definition turn_away (record : WorkflowRecord) : CT (string + WorkflowRecord) :=
  save_then record (notifyWorkflowWaiters record).
Definition send_to_agent (task : Task) (acceptance : TaskAcceptance) (plan : ExecutionPlan) (agent : AgentInfo) (attempt : Z) : CT () :=
  count ← on_kernel agent_count;
  now ← core_Now;
  on_kernel (DispatchEnvelope deliveryNow (buildPeerEnvelope count now task acceptance plan agent attempt));;
  mret ().

Definition turn_away_by_policy (task : Task) (updated : Time) (decision : PolicyDecision) : CT (string + WorkflowRecord) :=
  now ← core_Now;
  turn_away (mkWorkflowRecord task zero_plan
    (rejection now task (firstNonEmptyString [Join (PolReasons decision) "; "; "task rejected by policy"])) None updated).
Definition turn_away_by_guard (task : Task) (guard : anymap) : CT (string + WorkflowRecord) :=
  let reason := firstNonEmptyString [kernelString (aget_any guard "reason"); "cache guard blocked task execution"] in
  now ← core_Now;
  completed ← core_Now;
  let result := mkAgentResult (ID task) "" TaskStatusRejected 0%float [reason] [] "" ""
    (mkResultOutput reason [] [] [] [("cache_guard", AMap guard)]) completed in
  updated ← core_Now;
  turn_away (mkWorkflowRecord task zero_plan (rejection now task reason) (Some result) updated).

Definition dispatch_routed (task : Task) (plan : ExecutionPlan) (acceptance : TaskAcceptance) (agent : Agent)
  : CT (string + WorkflowRecord) :=
  enforced ← on_kernel (enforceModelBudgetPolicy nowAt env (Some (dk_memory desk)) task plan acceptance agent);
  let '(task, acceptance, agent, budgetFailure) := enforced in
  match budgetFailure with
  | Some failure =>
      updated ← core_Now;
      turn_away (mkWorkflowRecord task plan (acceptance <| AccStatus := normalizeTaskStatus (ResStatus failure) |>)
                   (Some failure) updated)
  | None =>
      task ← on_kernel (attachRuntimeContext nowAt env task acceptance (Info agent));
      let acceptance := acceptance <| AccStatus := TaskStatusRunning |> in
      updated ← core_Now;
      save_then (mkWorkflowRecord task plan acceptance None updated)
        (send_to_agent task acceptance plan (Info agent) (routingHintInt task "p2p_attempt" 1);;
         announce "task.running" (ID task)
           [("task", EvTask task); ("plan", EvPlan plan); ("acceptance", EvAcceptance acceptance);
            ("agent_id", ev_string (InfoID (Info agent)))])
  end.
Definition dispatch_planned (task : Task) (plan : ExecutionPlan) (updated : Time) : CT (string + WorkflowRecord) :=
  routed ← route_task nowAt env task plan;
  match routed with
  | (acceptance, None) =>
      updated ← core_Now;
      turn_away (mkWorkflowRecord task plan (acceptance <| AccStatus := TaskStatusRejected |>) None updated)
  | (acceptance, Some agent) =>
      refused ← assignment_check nowAt env task acceptance (Info agent);
      match refused with
      | Some decision =>
          let acceptance := acceptance <| AccStatus := TaskStatusRejected |>
            <| AccReason := firstNonEmptyString [Join (PolReasons decision) "; "; "assignment rejected by runtime policy"] |> in
          updated ← core_Now;
          turn_away (mkWorkflowRecord task plan acceptance None updated)
      | None => dispatch_routed task plan acceptance agent
      end
  end.

(** What a goroutine of its own goes on to wait for, when the task was delegated. *)
Record Background : Type := mkBackground {
  bg_task : Task;
  bg_plan : ExecutionPlan;
  bg_request : CodingRuntimeRequest;
  bg_session : CodingRuntimeSession }.
Definition dispatchTaskAsync (task : Task) : CT ((string + WorkflowRecord) * option Background) :=
  let in_front (f : CT (string + WorkflowRecord)) : CT ((string + WorkflowRecord) * option Background) :=
    res ← f; mret (res, None) in
  task ← with_defaults nowAt desk task;
  if String.eqb (task_type_string (Type_ task)) "" then mret (inl "task type is required", None)
  else
    updated ← core_Now;
    if decisionBlocks (preflightPolicy task) then in_front (turn_away_by_policy task updated (preflightPolicy task))
    else
      guard ← cache_guard desk task;
      if blocked guard then in_front (turn_away_by_guard task guard)
      else
        n ← core_moment;
        now ← core_Now;
        let '(task, plan) := @Prepare (dk_getenv desk) (dk_selector desk n) now task in
        task ← applyAdaptivePolicy nowAt env desk task plan;
        match delegate desk task with
        | Some runtime =>
            dispatched ← dispatchCodingRuntimeTaskAsync nowAt (dk_store desk) selfLearn runtime task plan;
            mret (dispatched.1, (fun s => mkBackground task plan s.1 s.2) <$> dispatched.2)
        | None => in_front (dispatch_planned task plan updated)
        end.

(** A worker's turn with a task from the queue: whether it is acknowledged; otherwise it goes back to the queue. *)
Definition process_submission (workerID : Z) (groupKey : string) (task : Task) : CT (bool * option Background) :=
  on_kernel (publish "tasks" "task.dequeued" (ID task)
    [("task", EvTask task); ("worker_id", ev_int workerID); ("queue", ev_string SubmissionTopic);
     ("group_key", ev_string groupKey); ("fair_queue", EvAny (ABool true))]);;
  dispatched ← dispatchTaskAsync task;
  match dispatched.1 with
  | inl err =>
      on_kernel (publish "tasks" "task.failed" (ID task)
        [("task", EvTask task); ("worker_id", ev_int workerID); ("error", ev_string err)]);;
      mret (false, None)
  | inr _ => mret (true, dispatched.2)
  end.

(** ** Results *)

(** The task is sent to another agent. *)
Definition reroute (result : TaskResultEnvelope) (workflow : WorkflowRecord) (failedAgentID : string) (excluded : gset string)
  (fallbackAcceptance : TaskAcceptance) (fallbackAgent : Agent) : CT (option string) :=
  let body := ReResult result in
  let attempt := routingHintInt (WfTask workflow) "p2p_attempt" 1 + 1 in
  let task := withFailureContext (WfTask workflow) (named_agent_info failedAgentID (ResProvider body) (ResModelName body))
                body (attempt - 1) 0 in
  let task := rebindTaskAssignment task fallbackAcceptance in
  let task := annotatePeerAttempt task fallbackAcceptance attempt (su_range env excluded) in
  task ← on_kernel (attachRuntimeContext nowAt env task fallbackAcceptance (Info fallbackAgent));
  let acceptance := fallbackAcceptance <| AccStatus := TaskStatusRunning |> in
  updated ← core_Now;
  err ← SaveWorkflow (dk_store desk) (mkWorkflowRecord task (WfPlan workflow) acceptance None updated);
  match err with
  | Some err => mret (Some err)
  | None =>
      send_to_agent task acceptance (WfPlan workflow) (Info fallbackAgent) attempt;;
      on_kernel (publish "tasks" "task.rerouted" (ID task)
        [("task", EvTask task); ("acceptance", EvAcceptance acceptance); ("previous_agent_id", ev_string failedAgentID);
         ("next_agent_id", ev_string (InfoID (Info fallbackAgent))); ("attempt", ev_int attempt)]);;
      mret None
  end.

(** A workflow with its last result. *)
Definition settle (result : TaskResultEnvelope) (workflow : WorkflowRecord) : CT (option string) :=
  err ← SaveWorkflow (dk_store desk) workflow;
  match err with
  | Some err => mret (Some err)
  | None =>
      match ReStatus result with
      | TaskStatusQueued | TaskStatusRunning => mret None
      | status =>
          announce (outcome_kind status) (ID (WfTask workflow))
            [("task", EvTask (WfTask workflow)); ("plan", EvPlan (WfPlan workflow)); ("acceptance", EvAcceptance (Acceptance workflow));
             ("result", EvResult (ReResult result))];;
          notifyWorkflowWaiters workflow;;
          mret None
      end
  end.

Definition failed_agent (result : TaskResultEnvelope) (workflow : WorkflowRecord) : string :=
  firstNonEmptyString [ResAgentID (ReResult result); ReTargetAgent result; AccAgentID (Acceptance workflow)].
Definition excluded_after (result : TaskResultEnvelope) (workflow : WorkflowRecord) : gset string :=
  let failedAgentID := failed_agent result workflow in
  let excluded := excludedAgentsFromTask (WfTask workflow) in
  if String.eqb failedAgentID "" then excluded else {[failedAgentID]} ∪ excluded.
(** A result and the workflow it is for; the error, if there is one. *)
Definition take_result (result : TaskResultEnvelope) (workflow : WorkflowRecord) : CT (option string) :=
  updated ← core_Now;
  accepted ← (if String.eqb (AccTaskID (Acceptance workflow)) "" then core_Now else mret zero_time);
  let workflow := with_result accepted updated result workflow in
  if bool_decide (ReStatus result = TaskStatusFailed) then
    let failedAgentID := failed_agent result workflow in
    let excluded := excluded_after result workflow in
    routed ← on_kernel (routePeerFallback nowAt env (WfTask workflow) (WfPlan workflow) excluded failedAgentID);
    match routed with
    | (fallbackAcceptance, Some fallbackAgent) =>
        reroute result workflow failedAgentID excluded fallbackAcceptance fallbackAgent
    | (_, None) => settle result workflow
    end
  else settle result workflow.
Definition handleTaskResult (result : TaskResultEnvelope) : CT (option string) :=
  stored ← GetWorkflow (dk_store desk) (ReTaskID result);
  match stored with
  | inl err => mret (Some err)
  | inr stored => take_result result (default (unknown_workflow result) stored)
  end.

(** A result worker's turn: whether the result is acknowledged; otherwise it goes back to the queue. *)
Definition process_result (workerID : Z) (result : TaskResultEnvelope) : CT bool :=
  on_kernel (publish "tasks" "task.result_received" (ReTaskID result)
    [("task_id", ev_string (ReTaskID result)); ("worker_id", ev_int workerID);
     ("status", ev_string (task_status_string (ReStatus result))); ("agent_id", ev_string (ReTargetAgent result))]);;
  err ← handleTaskResult result;
  match err with
  | Some err =>
      on_kernel (publish "tasks" "task.result_failed" (ReTaskID result)
        [("task_id", ev_string (ReTaskID result)); ("worker_id", ev_int workerID); ("error", ev_string err)]);;
      mret false
  | None => mret true
  end.
End Async.

(** ** Workers on the in-memory bus *)
Section OnMessageBus.
Context (deliveryNow nowAt : nat -> Time) (selfLearn : SelfLearning) (env : Surroundings) (desk : Desk MessageBus).
Abbreviation CT := (ST (Core MessageBus)).

Definition on_bus {A} (f : MessageBus -> A * MessageBus) : CT A :=
  on_kernel (on_delivery (fun s => let '(x, b) := f (messageBus s) in (x, s <| messageBus := b |>))).
(** A worker takes the task at the front of the queue; one that is not acknowledged goes back to the front. *)
Definition submission_turn (workerID : Z) : CT (option Background) :=
  taken ← on_bus takeTask;
  match taken with
  | None => mret None
  | Some task =>
      processed ← process_submission deliveryNow nowAt selfLearn env desk workerID (submissionGroupKey task) task;
      (if processed.1 : bool then mret () else on_bus (fun b => ((), requeueTaskFront task b)));;
      mret processed.2
  end.
Definition result_turn (workerID : Z) : CT () :=
  taken ← on_bus takeResult;
  match taken with
  | None => mret ()
  | Some result =>
      acknowledged ← process_result deliveryNow nowAt env desk workerID result;
      if acknowledged : bool then mret () else on_bus (fun b => ((), requeueResultFront result b))
  end.
End OnMessageBus.
