(* ===== verification/AsyncWorkflowProps.v ===== *)
(** * Properties of asynchronous workflows

    What handling a result does to its workflow, and where failed results lead. *)
From S2P Require Import Prelude Bus MessageBus Supervisor GoLib GoJSON Domain TaskPolicy Policy StateMonad AgentRegistry RuntimeManager.
From S2P Require Import RuntimeViews RuntimeManagerProps SubmissionScheduler AdaptiveRuntime LiveRealtime Router RouterProps.
From S2P Require Import Planner PlannerProps PlanScheduling TraceParser ExecutionEffects Reasoning ReasoningProps ExecutionRecords.
From S2P Require Import PeerExecution PeerExecutionProps ModelBudget ModelBudgetProps CacheGuard Workflows CodingDelegate.
From S2P Require Import JournalProps WorkflowProps Submission SubmissionProps AsyncWorkflow.
From Stdlib Require Import PrimFloat.

(** A store whose calls succeed. *)
Class StoreWorks (store : Store) : Prop := {
  store_saves : forall n record m, store_save store n record m = (None, <[ID (WfTask record) := record]> m);
  store_gets : forall n taskID m, store_get store n taskID m = inr (m !! taskID) }.
#[export] Instance StoreWorks_laws store : StoreWorks store -> StoreLaws store.
Proof.
  intros [Hs Hg]. split.
  - intros n record m m' E. rewrite Hs in E. congruence.
  - intros n record m err m' E. by rewrite Hs in E.
  - intros n taskID m found E. rewrite Hg in E. congruence.
Qed.
#[export] Instance FileStore_works persistLocked : (forall n, TCEq (persistLocked n) None) -> StoreWorks (FileStore persistLocked).
Proof. intros Hp. split; intros; [|done]. cbn. by rewrite (proj1 (TCEq_eq _ _) (Hp n)). Qed.

(** Two relations at once. *)
Definition both {S} (R R' : relation S) : relation S := fun s s' => R s s' /\ R' s s'.
#[export] Instance both_preorder {S} (R R' : relation S) : PreOrder R -> PreOrder R' -> PreOrder (both R R').
Proof.
  intros H1 H2. split; [by intros s; split|]. intros s1 s2 s3 [] []. split; by etransitivity.
Qed.
#[export] Instance moves_both {S} (R R' : relation S) {A} (f : ST S A) : Moves R f -> Moves R' f -> Moves (both R R') f.
Proof. intros H1 H2 s. by split. Qed.

(** ** The agents tried *)
Lemma tried_attached context task :
  excludedAgentsFromTask (with_runtime_context context task) = excludedAgentsFromTask task.
Proof.
  unfold excludedAgentsFromTask, with_runtime_context. cbv zeta. rewrite hints_of_update.
  assert (forall hints k (v : any), k <> "p2p_excluded_agents" -> aget (aset hints k v) "p2p_excluded_agents" = aget hints "p2p_excluded_agents")
    as Hne by (intros; by apply aget_aset_ne).
  assert (forall hints k (o : option any), k <> "p2p_excluded_agents" ->
    aget (match o with Some v => aset hints k v | None => hints end) "p2p_excluded_agents" = aget hints "p2p_excluded_agents") as Hopt
    by (intros ? ? [] ?; [by apply Hne|done]).
  repeat first [rewrite Hne by done | rewrite Hopt by done]. done.
Qed.
Lemma tried_annotated task acc attempt tried : tried <> [] ->
  excludedAgentsFromTask (annotatePeerAttempt task acc attempt tried) = list_to_set tried.
Proof.
  intros Ht. unfold excludedAgentsFromTask, annotatePeerAttempt. cbv zeta. rewrite hints_of_update.
  destruct tried; [done|]. by rewrite aget_aset_eq.
Qed.
Lemma recorded_named task id provider model body attempt :
  failed_peers (withFailureContext task (named_agent_info id provider model) body attempt 0) = failed_peers task ++ [Some (AString id)].
Proof. apply recorded_failure. Qed.

Section AsyncProps.
Context {B : Type} `{Bus B}.
Context (deliveryNow nowAt : nat -> Time) (selfLearn : SelfLearning) (env : Surroundings)
  (desk : Desk B) `{!StoreWorks (dk_store desk)}.
Context (ags : gmap string Agent) (Hrange : forall s, list_to_set (su_range env s) = s).
Abbreviation CT := (ST (Core B)).
Abbreviation kernel_ok := (PeerExecutionProps.kernel_ok (B := B) ags).
Abbreviation own := (own (B := B) ags).
Abbreviation still := (still (B := B) ags).
Abbreviation unasked := (unasked (B := B) ags).
Abbreviation handleTaskResult := (handleTaskResult deliveryNow nowAt env desk).

(** Steps before the workflow is stored: no call, no delivery, no waiter woken, nothing stored. *)
Abbreviation aside id := (both (still id) kept).
(** Steps after it is stored: messages may be sent. *)
Abbreviation sending id := (both (unasked id) kept).

#[export] Instance sending_delivery id {A} (f : Supervisor B -> A * Supervisor B) : Moves (sending id) (on_kernel (on_delivery f)).
Proof. apply _. Qed.
#[export] Instance sending_still id {A} (f : ST (Kernel B) A) : Moves (kernel_still ags) f -> Moves (sending id) (on_kernel f).
Proof. intros Hf. apply moves_both; [apply unasked_still|]; apply _. Qed.
#[export] Instance still_fallback task plan excluded id : Moves (kernel_still (B := B) ags) (routePeerFallback nowAt env task plan excluded id).
Proof. unfold routePeerFallback, RouteExcluding, moment. apply _. Qed.
#[export] Instance sending_agent id task acc plan agent attempt :
  Moves (sending id) (send_to_agent deliveryNow nowAt task acc plan agent attempt).
Proof.
  unfold send_to_agent, agent_count, DispatchEnvelope, core_Now.
  apply moves_bind; [apply _|intros n|apply _]. apply moves_bind; [|intros now|apply _]; [apply _|].
  apply moves_bind; [apply _|intros ?; apply _|apply _].
Qed.

Lemma still_unasked id c c' : still id c c' -> unasked id c c'.
Proof. intros (H1 & H2 & H3 & _). by split_and!. Qed.
Lemma GetWorkflow_spec id (c : Core B) : exec (GetWorkflow (dk_store desk) id) c = c /\ eval (GetWorkflow (dk_store desk) id) c = inr (co_workflows c !! id).
Proof. unfold GetWorkflow. rewrite exec_bind, eval_bind, exec_core_moment, exec_gets, eval_gets, store_gets. done. Qed.
Lemma saved record (c : Core B) : eval (SaveWorkflow (dk_store desk) record) c = None.
Proof. unfold SaveWorkflow. rewrite eval_bind, exec_core_moment. unfold eval at 1. by rewrite store_saves. Qed.

(** Stored, then no more than messages. *)
Lemma stored_then id c0 record (next : CT (option string)) : ID (WfTask record) = id ->
  Moves (sending id) next -> (forall c, eval next c = None) ->
  triple (still id c0) (err ← SaveWorkflow (dk_store desk) record; match err with Some err => mret (Some err) | None => next end)
    (fun err c => err = None /\ unasked id c0 c /\ co_workflows c !! id = Some record).
Proof.
  intros Hid Hn Hnone c Hc. destruct (SaveWorkflow_spec (dk_store desk) ags record c) as [Hs Hw]. rewrite Hid in Hs, Hw.
  rewrite exec_bind, eval_bind. specialize (Hw (saved record c)). rewrite saved. set (c1 := exec (SaveWorkflow _ record) c) in *.
  split; [apply Hnone|]. destruct (Hn c1) as [Hu Hk]. split.
  - do 2 (etransitivity; [apply still_unasked; eassumption|]). exact Hu.
  - rewrite (Hk : co_workflows _ = _), Hw. by rewrite lookup_insert_eq.
Qed.

(** ** One result *)

(** The task has gone on to another agent, who is registered and untried. *)
Record passed_on (id : string) (workflow : WorkflowRecord) (failed : string) (c0 c : Core B) (record : WorkflowRecord) (agent : Agent)
  : Prop := mkPassedOn {
  po_steps : unasked id c0 c;
  po_task : ID (WfTask record) = id;
  po_open : AccStatus (Acceptance record) = TaskStatusRunning /\ Result record = None;
  po_agent : AccAgentID (Acceptance record) = InfoID (Info agent) /\ ags !! InfoID (Info agent) = Some agent;
  po_untried : InfoID (Info agent) ∉ ({[failed]} ∪ excludedAgentsFromTask (WfTask workflow) : gset string);
  po_plan : WfPlan record = WfPlan workflow;
  po_tried : excludedAgentsFromTask (WfTask record) = {[failed]} ∪ excludedAgentsFromTask (WfTask workflow);
  po_history : failed_peers (WfTask record) = failed_peers (WfTask workflow) ++ [Some (AString failed)] }.
Definition rerouted (id : string) (workflow : WorkflowRecord) (failed : string) (agent : Agent) (c0 : Core B) (err : option string) (c : Core B)
  : Prop := err = None /\ exists record, co_workflows c !! id = Some record /\ passed_on id workflow failed c0 c record agent.
Lemma rerouted_spec id c0 result workflow failed acc agent : failed <> "" -> ID (WfTask workflow) = id ->
  ags !! InfoID (Info agent) = Some agent -> AccAgentID acc = InfoID (Info agent) ->
  InfoID (Info agent) ∉ ({[failed]} ∪ excludedAgentsFromTask (WfTask workflow) : gset string) ->
  triple (still id c0)
    (reroute deliveryNow nowAt env desk result workflow failed ({[failed]} ∪ excludedAgentsFromTask (WfTask workflow)) acc agent)
    (rerouted id workflow failed agent c0).
Proof.
  intros Hf Hid Hreg Hacc Hnew. unfold reroute. cbv zeta. set (tried := {[failed]} ∪ _) in *.
  assert (su_range env tried <> []) as Hne.
  { intros E. pose proof (Hrange tried) as Hr. rewrite E in Hr. subst tried. set_solver. }
  set (t := withFailureContext _ _ _ _ _). assert (failed_peers t = failed_peers (WfTask workflow) ++ [Some (AString failed)]) as Ht
    by apply recorded_named.
  assert (ID t = id) as Hti by done. clearbody t.
  set (u := annotatePeerAttempt _ _ _ _).
  assert (excludedAgentsFromTask u = tried /\ failed_peers u = failed_peers t /\ ID u = id) as (Hu1 & Hu2 & Hu3).
  { subst u. rewrite tried_annotated, Hrange by done. split; [done|]. split; [|exact Hti].
    unfold failed_peers. by rewrite recorded_annotated, recorded_rebound. }
  clearbody u.
  apply (triple_bind _ _ _ (fun v c => still id c0 c /\ excludedAgentsFromTask v = tried /\ failed_peers v = failed_peers t /\ ID v = id)).
  { intros c Hc. split; [etransitivity; [exact Hc|apply (moves (R := still id))]|].
    destruct (attached nowAt env u acc (Info agent) c) as [context ->]. rewrite tried_attached. split; [done|].
    split; [|exact Hu3]. rewrite <- Hu2. unfold failed_peers. by rewrite recorded_attached. }
  intros v c [Hc (Hv1 & Hv2 & Hv3)]; revert c Hc.
  eapply triple_bind; [apply triple_moves; [apply _|]; apply _|intros updated; cbv beta].
  match goal with |- context [SaveWorkflow _ ?r] => set (record := r) end.
  eapply triple_weaken; [done| |].
  2: { apply (stored_then id c0 record); [exact Hv3| |].
       - apply moves_bind; [apply _|intros ?|apply _]. apply moves_bind; [apply _|intros ?; apply _|apply _].
       - intros c. by rewrite !eval_bind, eval_ret. }
  intros err c (-> & Hc & Hw). split; [done|]. exists record. split; [exact Hw|]. split; try done.
  by rewrite <- Ht, <- Hv2.
Qed.

(** The workflow is stored and its waiters are told of it last of all; no agent was called. *)
Record told (id : string) (c0 c : Core B) (record : WorkflowRecord) : Prop := mkTold {
  to_steps : own id c0 c;
  to_calls : called c = called c0;
  to_stored : co_workflows c !! id = Some record;
  to_last : exists before, continues (journal_of c0) before /\ journal_of c = before ++ [NotifyWorkflowWaiters record] }.
(** The workflow is stored and nobody is told. *)
Definition noted (id : string) (c0 c : Core B) (record : WorkflowRecord) : Prop :=
  still id c0 c /\ co_workflows c !! id = Some record.
(** A result that says that its task goes on. *)
Definition ongoing (status : TaskStatus) : bool := match status with TaskStatusQueued | TaskStatusRunning => true | _ => false end.

Lemma settle_spec id c0 result workflow : ID (WfTask workflow) = id ->
  triple (still id c0) (settle desk result workflow)
    (fun err c => err = None /\ if ongoing (ReStatus result) then noted id c0 c workflow else told id c0 c workflow).
Proof.
  intros Hid c Hc. destruct (SaveWorkflow_spec (dk_store desk) ags workflow c) as [Hs Hw]. rewrite Hid in Hs, Hw.
  unfold settle. rewrite exec_bind, eval_bind. specialize (Hw (saved workflow c)). rewrite saved.
  set (c1 := exec (SaveWorkflow _ workflow) c) in *. assert (still id c0 c1) as H1 by (by etransitivity). clearbody c1.
  assert (co_workflows c1 !! id = Some workflow) as Hw1 by (rewrite Hw; by rewrite lookup_insert_eq). clear Hw Hs Hc.
  assert (forall kind taskID payload, let f := announce kind taskID payload;; notifyWorkflowWaiters workflow;; mret (None : option string) in
    eval f c1 = None /\ told id c0 (exec f c1) workflow) as Hsay.
  { intros kind taskID payload f. subst f. rewrite !exec_bind, !eval_bind, exec_ret, eval_ret. split; [done|].
    set (c2 := exec (announce kind taskID payload) c1). assert (still id c1 c2) as H2 by apply moves.
    assert (kept c1 c2) as K2 by apply (moves (R := kept)). clearbody c2. assert (still id c0 c2) as H3 by (by etransitivity).
    set (c3 := exec (notifyWorkflowWaiters workflow) c2). assert (own id c2 c3) as H4 by apply moves.
    assert (kept c2 c3) as K3 by apply (moves (R := kept)).
    assert (journal_of c3 = journal_of c2 ++ [NotifyWorkflowWaiters workflow]) as J3 by done.
    assert (called c3 = called c2) as C3 by done. clearbody c3. destruct H3 as (Ho & Hj & Hcl & _). split.
    - by etransitivity.
    - congruence.
    - by rewrite (K3 : _ = _), (K2 : _ = _).
    - by exists (journal_of c2). }
  destruct (ReStatus result); cbn [ongoing]; first [apply Hsay | by rewrite exec_ret, eval_ret].
Qed.

(** The agent a result comes from. *)
Definition sender (result : TaskResultEnvelope) : string := firstNonEmptyString [ResAgentID (ReResult result); ReTargetAgent result].
Lemma failed_agent_sender result workflow : sender result <> "" -> failed_agent result workflow = sender result.
Proof.
  unfold sender, failed_agent. cbn. destruct (String.eqb _ _) eqn:E1; [|done]. by destruct (String.eqb (ReTargetAgent result) "") eqn:E2.
Qed.
(** The workflow a result is for. *)
Definition workflow_of (result : TaskResultEnvelope) (c : Core B) : WorkflowRecord :=
  default (unknown_workflow result) (co_workflows c !! ReTaskID result).

(** What a result does to the workflow of its task.  One that says that the task goes on is noted; a failed
    one passes the task on, or closes the workflow when nobody else would take the task; any other closes it. *)
Definition handled (result : TaskResultEnvelope) (c0 : Core B) (err : option string) (c : Core B) : Prop :=
  let id := ReTaskID result in
  let workflow := workflow_of result c0 in
  err = None /\ exists accepted updated, let closed := with_result accepted updated result workflow in
  if ongoing (ReStatus result) then noted id c0 c closed
  else if bool_decide (ReStatus result = TaskStatusFailed) then
    (exists record agent, co_workflows c !! id = Some record /\ passed_on id workflow (sender result) c0 c record agent) \/
    (told id c0 c closed /\
     nobody_left env ags (WfTask workflow) (WfPlan workflow) ({[sender result]} ∪ excludedAgentsFromTask (WfTask workflow)))
  else told id c0 c closed.

Lemma handle_spec result c0 : kernel_ok (co_kernel c0) -> ID (WfTask (workflow_of result c0)) = ReTaskID result -> sender result <> "" ->
  handled result c0 (eval (handleTaskResult result) c0) (exec (handleTaskResult result) c0).
Proof.
  intros Hk Hid Hsender. unfold AsyncWorkflow.handleTaskResult. rewrite exec_bind, eval_bind.
  destruct (GetWorkflow_spec (ReTaskID result) c0) as [-> ->]. fold (workflow_of result c0). unfold take_result.
  unfold handled. cbv zeta. set (workflow := workflow_of result c0) in *. clearbody workflow. set (id := ReTaskID result) in *.
  rewrite exec_bind, eval_bind. set (updated := eval (core_Now nowAt) c0). set (c1 := exec (core_Now nowAt) c0).
  assert (still id c0 c1) as H1 by apply moves. clearbody c1 updated. rewrite exec_bind, eval_bind.
  match goal with |- context [exec ?f c1] => set (g := f) end. set (accepted := eval g c1). set (c2 := exec g c1).
  assert (still id c1 c2) as H2 by (subst c2 g; destruct (String.eqb _ _); apply moves). clearbody accepted c2. clear g.
  assert (still id c0 c2) as H3 by (by etransitivity). clear H1 H2 c1.
  set (closed := with_result accepted updated result workflow). assert (WfTask closed = WfTask workflow) as Ht by done.
  assert (WfPlan closed = WfPlan workflow) as Hp by done.
  rewrite (failed_agent_sender result closed Hsender).
  assert (excluded_after result closed = {[sender result]} ∪ excludedAgentsFromTask (WfTask workflow)) as ->.
  { unfold excluded_after. rewrite (failed_agent_sender result closed Hsender), Ht. apply String.eqb_neq in Hsender. by rewrite Hsender. }
  rewrite Ht, Hp. assert (ID (WfTask closed) = id) as Hid' by (by rewrite Ht).
  assert (forall c, still id c0 c -> let f := settle desk result closed in
    eval f c = None /\ if ongoing (ReStatus result) then noted id c0 (exec f c) closed else told id c0 (exec f c) closed) as Hsettle.
  { intros c Hc. by apply settle_spec. }
  case_bool_decide as Hf.
  2: { destruct (Hsettle c2 H3) as [-> Hn]. split; [done|]. exists accepted, updated. exact Hn. }
  rewrite exec_bind, eval_bind. set (tried := {[sender result]} ∪ _) in *.
  assert (kernel_ok (co_kernel c2)) as Hk2 by (apply H3, Hk).
  pose proof (routePeerFallback_spec nowAt env ags (WfTask workflow) (WfPlan workflow) tried (sender result) (co_kernel c2) Hk2) as (_ & _ & Hr).
  replace ({[sender result]} ∪ tried) with tried in Hr by set_solver.
  destruct (run_core (routePeerFallback nowAt env (WfTask workflow) (WfPlan workflow) tried (sender result)) c2) as [_ E].
  set (c3 := exec (on_kernel (routePeerFallback _ _ _ _ _ _)) c2). assert (still id c2 c3) as H4 by apply moves. clearbody c3.
  assert (still id c0 c3) as H5 by (by etransitivity). rewrite E.
  destruct (eval (routePeerFallback _ _ _ _ _ _) (co_kernel c2)) as [acc [agent|]].
  - destruct Hr as (Hreg & Hnew & Hacc).
    assert (reroute deliveryNow nowAt env desk result closed (sender result) tried acc agent =
            reroute deliveryNow nowAt env desk result workflow (sender result) tried acc agent) as -> by done.
    destruct (rerouted_spec id c0 result workflow (sender result) acc agent Hsender Hid Hreg Hacc Hnew c3 H5) as [Hnone Hpo].
    split; [exact Hnone|]. exists accepted, updated. cbv zeta. rewrite Hf. cbn [ongoing]. left.
    destruct Hpo as (record & Hw & Hpo). by exists record, agent.
  - destruct (Hsettle c3 H5) as [Hnone Hn]. split; [exact Hnone|]. exists accepted, updated. cbv zeta. rewrite Hf in *. cbn [ongoing] in *.
    by right.
Qed.

(** C35: What a result from an agent does, when the store works.  Handling it gives no error, changes no other
    workflow, calls no agent and keeps the runtime in order.  A result that says that its task goes
    on is stored, and nobody is told.  A failed one sends the task on to an agent that is registered and
    has not been tried: the workflow is running again, without a result, its hints list the failed
    agent with those tried before and its history ends with it, and no waiter is told; or, when routing finds
    nobody untried who can take the task and scores above the floor, the workflow is closed.  Any other result closes it: it is stored with
    the result and its status, and its waiters are told of it once, last of all. *)
Theorem result_handled result c : kernel_ok (co_kernel c) -> ID (WfTask (workflow_of result c)) = ReTaskID result -> sender result <> "" ->
  handled result c (eval (handleTaskResult result) c) (exec (handleTaskResult result) c).
Proof. exact (handle_spec result c). Qed.

(** ** Round after round *)

(** The task is with an agent who has not been tried before. *)
Record waiting (id : string) (c : Core B) (workflow : WorkflowRecord) : Prop := mkWaiting {
  wa_kernel : kernel_ok (co_kernel c);
  wa_stored : co_workflows c !! id = Some workflow;
  wa_task : ID (WfTask workflow) = id;
  wa_running : AccStatus (Acceptance workflow) = TaskStatusRunning;
  wa_agent : AccAgentID (Acceptance workflow) ∈ dom ags;
  wa_untried : AccAgentID (Acceptance workflow) ∉ excludedAgentsFromTask (WfTask workflow) }.
Context (Hblank : ags !! "" = None).

(** As long as the workflow is running, the agent that has the task answers with [reply]. *)
Fixpoint rounds (n : nat) (reply : WorkflowRecord -> TaskResultEnvelope) (id : string) : CT () :=
  match n with
  | O => mret ()
  | S n =>
      stored ← gets (fun c => co_workflows c !! id);
      match stored with
      | Some workflow =>
          if bool_decide (AccStatus (Acceptance workflow) = TaskStatusRunning)
          then handleTaskResult (reply workflow);; rounds n reply id else mret ()
      | None => mret ()
      end
  end.
(** Every agent fails. *)
Definition fails (id : string) (reply : WorkflowRecord -> TaskResultEnvelope) : Prop :=
  forall workflow, ReTaskID (reply workflow) = id /\ ReStatus (reply workflow) = TaskStatusFailed /\
    sender (reply workflow) = AccAgentID (Acceptance workflow).

(** The workflow is closed as failed: the agents of [failed] had the task in turn, then [last]. *)
Record given_up (id : string) (c0 : Core B) (workflow : WorkflowRecord) (c : Core B) (record : WorkflowRecord)
  (failed : list string) (last : string) : Prop := mkGivenUp {
  gu_told : told id c0 c record;
  gu_failed : AccStatus (Acceptance record) = TaskStatusFailed /\ is_Some (Result record);
  gu_first : head (failed ++ [last]) = Some (AccAgentID (Acceptance workflow));
  gu_once : NoDup (failed ++ [last]);
  gu_agents : Forall (fun id => id ∈ dom ags /\ id ∉ excludedAgentsFromTask (WfTask workflow)) (failed ++ [last]);
  gu_history : failed_peers (WfTask record) = failed_peers (WfTask workflow) ++ map (fun id => Some (AString id)) failed;
  gu_nobody : nobody_left env ags (WfTask record) (WfPlan record)
                (list_to_set (failed ++ [last]) ∪ excludedAgentsFromTask (WfTask workflow)) }.

Lemma told_after id c0 c1 c record : unasked id c0 c1 -> told id c1 c record -> told id c0 c record.
Proof.
  intros (Ho & Hj & Hc) [Ho' Hc' Hs (before & Hb & E)]. split; [by etransitivity|congruence|done|].
  exists before. split; [by etransitivity|done].
Qed.
Lemma given_up_after id c0 c1 c workflow workflow1 record agent failed last : AccAgentID (Acceptance workflow) ∈ dom ags ->
  AccAgentID (Acceptance workflow) ∉ excludedAgentsFromTask (WfTask workflow) ->
  passed_on id workflow (AccAgentID (Acceptance workflow)) c0 c1 workflow1 agent -> given_up id c1 workflow1 c record failed last ->
  given_up id c0 workflow c record (AccAgentID (Acceptance workflow) :: failed) last.
Proof.
  intros Hreg Hnew [] []. set (first := AccAgentID (Acceptance workflow)) in *. rewrite po_tried0 in *. split; try done.
  - by eapply told_after.
  - cbn. constructor; [|done]. intros Hin. apply (proj1 (Forall_forall _ _) gu_agents0) in Hin. set_solver.
  - cbn. constructor; [done|]. eapply Forall_impl; [exact gu_agents0|]. cbn. set_solver.
  - by rewrite gu_history0, po_history0, <- app_assoc.
  - by replace (list_to_set ((first :: failed) ++ [last]) ∪ excludedAgentsFromTask (WfTask workflow))
      with (list_to_set (failed ++ [last]) ∪ ({[first]} ∪ excludedAgentsFromTask (WfTask workflow)) : gset string) by set_solver.
Qed.

Lemma rounds_settle n reply id c workflow : fails id reply -> waiting id c workflow ->
  (size (dom ags ∖ excludedAgentsFromTask (WfTask workflow)) <= n)%nat ->
  exists record failed last, given_up id c workflow (exec (rounds n reply id) c) record failed last.
Proof.
  intros Hreply. revert c workflow. induction n as [|n IH]; intros c workflow [Hk Hw Hid Hrun Hreg Hnew] Hsize.
  { exfalso. apply Nat.le_0_r, size_empty_inv in Hsize. set_solver. }
  destruct (Hreply workflow) as (Htask & Hfail & Hsender). cbn [rounds]. rewrite exec_bind, eval_gets, exec_gets, Hw.
  rewrite bool_decide_eq_true_2 by done. rewrite exec_bind. assert (workflow_of (reply workflow) c = workflow) as Hof.
  { unfold workflow_of. by rewrite Htask, Hw. }
  destruct (handle_spec (reply workflow) c Hk) as [_ (accepted & updated & Hh)].
  { by rewrite Hof, Htask. }
  { rewrite Hsender. intros E. rewrite E in Hreg. apply elem_of_dom in Hreg. rewrite Hblank in Hreg. by destruct Hreg. }
  cbv zeta in Hh. rewrite Hof, Htask, Hsender, Hfail in Hh. cbn [ongoing] in Hh. rewrite bool_decide_eq_true_2 in Hh by done.
  set (c1 := exec (handleTaskResult (reply workflow)) c) in *. clearbody c1.
  destruct Hh as [(record & agent & Hr & Hpo)|[Htold Hnobody]].
  - pose proof Hpo as [Hu Hidr [Hst _] [Hag Hagr] Hnewr _ Htried _].
    destruct (IH c1 record) as (closed & failed & last & Hgu).
    + split; [by apply Hu|done|done|done|rewrite Hag; apply elem_of_dom; eauto|by rewrite Hag, Htried].
    + rewrite Htried. assert (size (dom ags ∖ ({[AccAgentID (Acceptance workflow)]} ∪ excludedAgentsFromTask (WfTask workflow)))
        < size (dom ags ∖ excludedAgentsFromTask (WfTask workflow)))%nat; [|lia]. apply subset_size. set_solver.
    + exists closed, (AccAgentID (Acceptance workflow) :: failed), last. by eapply given_up_after.
  - set (closed := with_result accepted updated (reply workflow) workflow) in *. assert (AccStatus (Acceptance closed) = TaskStatusFailed) as Hst.
    { subst closed. unfold with_result. cbn. destruct (String.eqb _ _); cbn; by rewrite Hfail. }
    assert (exec (rounds n reply id) c1 = c1) as ->.
    { destruct n; [done|]. cbn [rounds]. rewrite exec_bind, eval_gets, exec_gets, (to_stored _ _ _ _ Htold), Hst. done. }
    exists closed, [], (AccAgentID (Acceptance workflow)). split; cbn; auto using NoDup_singleton.
    + by rewrite app_nil_r.
    + by rewrite union_empty_r_L.
Qed.

(** C30: Failed results come to an end.  When a task is with a registered agent who has not been tried before and
    every agent that has the task in turn answers with a failed result, then after at most as many rounds
    as there are agents its workflow is closed as failed and its waiters are told of it, once and last of all.
    The agents that had it are distinct, registered and were not tried before, the first of them
    is the one the task was with, all but the last are in its history, in order, and at the end
    routing finds nobody else who can take the task and scores above the floor. *)
Theorem failures_end reply id c workflow : fails id reply -> waiting id c workflow ->
  exists record failed last, given_up id c workflow (exec (rounds (size ags) reply id) c) record failed last.
Proof.
  intros Hf Hw. apply rounds_settle; [done|done|]. rewrite <- size_dom. apply subseteq_size. set_solver.
Qed.

(** ** The status of the stored workflow *)

(** A computation that does not look at the stored workflows. *)
Class Blind {A} (f : CT A) : Prop := blind : forall c m, f (c <| co_workflows := m |>) = (exec f c <| co_workflows := m |>, eval f c).
#[export] Instance blind_ret {A} (x : A) : Blind (mret x).
Proof. done. Qed.
#[export] Instance blind_kernel {A} (f : ST (Kernel B) A) : Blind (on_kernel f).
Proof. intros c m. unfold on_kernel, exec, eval. cbn. by destruct (f (co_kernel c)). Qed.
#[export] Instance blind_now : Blind (core_Now (B := B) nowAt).
Proof. unfold core_Now. apply _. Qed.
#[export] Instance kept_now : Moves kept (core_Now (B := B) nowAt).
Proof. unfold core_Now. apply _. Qed.
(** A computation that overwrites the workflow [id] without a look at it. *)
Definition overwrites (id : string) {A} (f : CT A) : Prop :=
  forall c m, delete id m = delete id (co_workflows c) -> f (c <| co_workflows := m |>) = f c.
Lemma pair_run {A} (f : CT A) c : f c = (exec f c, eval f c).
Proof. unfold exec, eval. by destruct (f c). Qed.
Lemma overwrites_bind id {A A'} (f : CT A) (g : A -> CT A') : Blind f -> Moves kept f -> (forall c, overwrites id (g (eval f c))) ->
  overwrites id (f ≫= g).
Proof.
  intros Hf Hk Hg c m Hm. unfold mbind, st_bind. rewrite Hf, (pair_run f c). apply Hg. by rewrite (Hk c : co_workflows _ = _).
Qed.
Lemma overwrites_save id {A} record (g : option string -> CT A) : ID (WfTask record) = id ->
  overwrites id (SaveWorkflow (dk_store desk) record ≫= g).
Proof.
  intros <- c m Hm.
  assert (SaveWorkflow (dk_store desk) record (c <| co_workflows := m |>) = SaveWorkflow (dk_store desk) record c) as E.
  { unfold SaveWorkflow, mbind, st_bind, core_moment, on_kernel, moment, gets. cbn. rewrite !store_saves. cbn.
    rewrite <- (insert_delete_eq m), Hm, insert_delete_eq. done. }
  unfold mbind, st_bind in *. by rewrite E.
Qed.

Lemma overwrites_take id result workflow : ID (WfTask workflow) = id -> overwrites id (take_result deliveryNow nowAt env desk result workflow).
Proof.
  intros Hid. unfold take_result. apply overwrites_bind; [apply _|apply _|intros c1].
  apply overwrites_bind; [destruct (String.eqb _ _); apply _|destruct (String.eqb _ _); apply _|intros c2]. cbv zeta.
  set (closed := with_result _ _ result workflow). assert (ID (WfTask closed) = id) as Hc by done. clearbody closed.
  assert (overwrites id (settle desk result closed)) as Hs by (by apply overwrites_save).
  case_match; [|done]. apply overwrites_bind; [apply _|apply _|intros c3].
  destruct (eval _ c3) as [acc [agent|]]; [|done]. unfold reroute. cbv zeta.
  apply overwrites_bind; [apply _|apply _|intros c4]. apply overwrites_bind; [apply _|apply _|intros c5].
  apply overwrites_save. cbn [WfTask]. set (u := annotatePeerAttempt _ _ _ _). assert (ID u = id) as Hu by exact Hc.
  by destruct (attached nowAt env u acc (Info agent) c4) as [context ->].
Qed.

(** The workflow with another outcome. *)
Definition with_outcome (status : TaskStatus) (body : option AgentResult) (updated : Time) (workflow : WorkflowRecord) : WorkflowRecord :=
  workflow <| Acceptance ::= fun acceptance => acceptance <| AccStatus := status |> |> <| Result := body |> <| WfUpdatedAt := updated |>.

(** C36: A result is handled whatever has become of the workflow before.  When the store works, the outcome of the
    stored workflow, its status, result and time, has no influence: the state after handling a result
    is the same, in every part, as if the task were still running.  So a failed result that is late or comes twice sends a
    task that is completed, and whose waiters were told so, to another agent, and replaces the stored workflow by a
    running one without a result. *)
Theorem outcome_ignored result c workflow status body updated :
  co_workflows c !! ReTaskID result = Some workflow -> ID (WfTask workflow) = ReTaskID result ->
  let c' := c <| co_workflows ::= <[ReTaskID result := with_outcome status body updated workflow]> |> in
  eval (handleTaskResult result) c' = eval (handleTaskResult result) c /\
  exec (handleTaskResult result) c' = exec (handleTaskResult result) c.
Proof.
  intros Hw Hid c'. assert (co_workflows c' !! ReTaskID result = Some (with_outcome status body updated workflow)) as Hw'
    by apply lookup_insert_eq. unfold AsyncWorkflow.handleTaskResult. rewrite !exec_bind, !eval_bind.
  destruct (GetWorkflow_spec (ReTaskID result) c) as [-> ->]. destruct (GetWorkflow_spec (ReTaskID result) c') as [-> ->].
  rewrite Hw, Hw'. cbn [default from_option id].
  assert (take_result deliveryNow nowAt env desk result (with_outcome status body updated workflow) =
    take_result deliveryNow nowAt env desk result workflow) as ->.
  { unfold take_result. cbn. destruct (String.eqb (AccTaskID (Acceptance workflow)) "") eqn:E; [done|].
    unfold with_outcome. done. }
  pose proof (overwrites_take (ReTaskID result) result workflow Hid c
    (<[ReTaskID result := with_outcome status body updated workflow]> (co_workflows c)) ltac:(by rewrite delete_insert_eq)) as E.
  unfold eval, exec. change c' with (c <| co_workflows := <[ReTaskID result := with_outcome status body updated workflow]> (co_workflows c) |>).
  by rewrite E.
Qed.
End AsyncProps.

(** ** Examples *)
Definition running_workflow : WorkflowRecord :=
  mkWorkflowRecord (coding_request "t1") coding_plan (coders_acceptance <| AccStatus := TaskStatusRunning |>) None 90.
(** The cloud coder has the task. *)
Definition running_core : Core MessageBus :=
  mkCore (coders_kernel NewMessageBus) {["t1" := running_workflow]} newCodingRuntimeSessionMapper.
Definition failure (workflow : WorkflowRecord) : TaskResultEnvelope :=
  mkTaskResultEnvelope "t1" "" "" "" "orchestrator" (AccAgentID (Acceptance workflow)) TaskStatusFailed
    (mkAgentResult "t1" "" TaskStatusFailed 0%float ["no"] [] "" "" (mkResultOutput "no" [] [] [] []) 95) 95.
Definition handle_failure : ST (Core MessageBus) (option string) :=
  handleTaskResult clock clock coders_env (open_desk no_budgets) (failure running_workflow).
Definition stored_status (c : Core MessageBus) : option (TaskStatus * string * bool) :=
  (fun w => (AccStatus (Acceptance w), AccAgentID (Acceptance w), bool_decide (is_Some (Result w)))) <$> co_workflows c !! "t1".

(** The cloud coder fails and the local one gets the task; when it fails, too, the workflow is closed. *)
Example two_failures :
  map (fun n => stored_status (exec (rounds clock clock coders_env (open_desk no_budgets) n failure "t1") running_core)) [0; 1; 2]%nat =
  [Some (TaskStatusRunning, "cloud-coder", false); Some (TaskStatusRunning, "local-coder", false);
   Some (TaskStatusFailed, "local-coder", true)].
Proof. vm_compute. reflexivity. Qed.

Lemma coders_range s : list_to_set (su_range coders_env s) = s.
Proof. apply list_to_set_elements_L. Qed.
Lemma running_core_ok : PeerExecutionProps.kernel_ok (agents (register_all 1 coders)) (co_kernel running_core).
Proof. exact (coders_kernel_ok NewMessageBus). Qed.
Lemma after_failure : stored_status (exec handle_failure running_core) = Some (TaskStatusRunning, "local-coder", false).
Proof. vm_compute. reflexivity. Qed.
Lemma failure_fails : fails "t1" failure.
Proof. intros workflow. split; [done|]. split; [done|]. unfold sender. cbn. by destruct (String.eqb_spec (AccAgentID (Acceptance workflow)) ""). Qed.
Lemma running_waits : waiting (agents (register_all 1 coders)) "t1" running_core running_workflow.
Proof. split; [exact running_core_ok|reflexivity|reflexivity|reflexivity|apply elem_of_dom; by eexists|set_solver]. Qed.

Lemma result_handled_witness : exists record agent, co_workflows (exec handle_failure running_core) !! "t1" = Some record /\
  passed_on (agents (register_all 1 coders)) "t1" running_workflow "cloud-coder" running_core (exec handle_failure running_core) record agent.
Proof.
  pose proof (result_handled clock clock coders_env (open_desk no_budgets) (agents (register_all 1 coders)) coders_range
    (failure running_workflow) running_core running_core_ok eq_refl ltac:(discriminate)) as [_ (accepted & updated & Hh)].
  fold handle_failure in Hh. destruct Hh as [Hh|[Htold _]]; [exact Hh|]. exfalso.
  pose proof after_failure as E. unfold stored_status in E.
  set (c := exec handle_failure running_core) in *. clearbody c.
  rewrite (to_stored _ _ _ _ _ Htold : co_workflows c !! "t1" = _) in E. discriminate E.
Defined.
Lemma failures_end_witness : exists record failed last,
  given_up coders_env (agents (register_all 1 coders)) "t1" running_core running_workflow
    (exec (rounds clock clock coders_env (open_desk no_budgets) 2 failure "t1") running_core) record failed last.
Proof.
  exact (failures_end clock clock coders_env (open_desk no_budgets) (agents (register_all 1 coders)) coders_range eq_refl
    failure "t1" running_core running_workflow failure_fails running_waits).
Defined.
(** The task was completed by the cloud coder; then a failure comes late. *)
Definition completed_core : Core MessageBus :=
  running_core <| co_workflows ::= <["t1" := with_outcome TaskStatusCompleted
    (Some (mkAgentResult "t1" "cloud-coder" TaskStatusCompleted 1%float [] [] "" "" (mkResultOutput "done" [] [] [] []) 92)) 92 running_workflow]> |>.
Lemma outcome_ignored_witness :
  stored_status completed_core = Some (TaskStatusCompleted, "cloud-coder", true) /\
  stored_status (exec handle_failure completed_core) = Some (TaskStatusRunning, "local-coder", false).
Proof.
  split; [reflexivity|]. rewrite <- after_failure.
  destruct (outcome_ignored clock clock coders_env (open_desk no_budgets) (failure running_workflow) running_core running_workflow
    TaskStatusCompleted (Some (mkAgentResult "t1" "cloud-coder" TaskStatusCompleted 1%float [] [] "" "" (mkResultOutput "done" [] [] [] []) 92)) 92
    eq_refl eq_refl) as [_ E]. exact (f_equal stored_status E).
Defined.
