(* ===== verification/DispatchProps.v ===== *)
(** * Properties of the dispatch of queued tasks

    How a worker's dispatch of a task ends, and when the worker gives the task back to the queue. *)
From S2P Require Import Prelude Bus MessageBus Supervisor GoLib GoJSON Domain TaskPolicy Policy StateMonad AgentRegistry RuntimeManager.
From S2P Require Import RuntimeViews RuntimeManagerProps SubmissionScheduler AdaptiveRuntime LiveRealtime Router RouterProps.
From S2P Require Import Planner PlannerProps PlanScheduling TraceParser ExecutionEffects Reasoning ReasoningProps ExecutionRecords.
From S2P Require Import PeerExecution PeerExecutionProps ModelBudget ModelBudgetProps CacheGuard Workflows CodingDelegate.
From S2P Require Import JournalProps WorkflowProps Submission SubmissionProps AsyncWorkflow AsyncWorkflowProps.

Section DispatchProps.
Context {B : Type} `{Bus B}.
Context (deliveryNow nowAt : nat -> Time) (selfLearn : SelfLearning) (env : Surroundings)
  (desk : Desk B) `{!StoreLaws (dk_store desk)}.
Context (ags : gmap string Agent).
Abbreviation CT := (ST (Core B)).
Abbreviation kernel_ok := (PeerExecutionProps.kernel_ok (B := B) ags).
Abbreviation own := (own (B := B) ags).
Abbreviation still := (still (B := B) ags).
Abbreviation unasked := (unasked (B := B) ags).
Abbreviation told := (told (B := B) ags).
Abbreviation dispatchTaskAsync := (dispatchTaskAsync deliveryNow nowAt selfLearn env desk).

(** Closed before an agent had it: no agent was called, nothing sent, and the waiters are told last of all. *)
Definition closed_early (id : string) (c0 c : Core B) (record : WorkflowRecord) : Prop :=
  isTerminalTaskStatus (AccStatus (Acceptance record)) = true /\ told id c0 c record /\
  kn_delivery (co_kernel c) = kn_delivery (co_kernel c0).
(** On its way to a registered agent; none was called yet and nobody is told. *)
Definition sent (id : string) (c0 c : Core B) (record : WorkflowRecord) : Prop :=
  AccStatus (Acceptance record) = TaskStatusRunning /\ Result record = None /\
  AccAgentID (Acceptance record) ∈ dom ags /\ unasked id c0 c.
(** With the coding runtime: to be waited for; or the session was not started, and then the result is
    failed and the waiters are told, but the status is accepted. *)
Definition delegated (id : string) (c : Core B) (record : WorkflowRecord) (background : option Background) : Prop :=
  AccStatus (Acceptance record) = TaskStatusAccepted /\
  match background with
  | Some waiting => Result record = None /\ ID (bg_task waiting) = id
  | None => left_open record /\ exists before, journal_of c = before ++ [NotifyWorkflowWaiters record]
  end.
Definition dispatched (id : string) (c0 : Core B) (res : (string + WorkflowRecord) * option Background) (c : Core B) : Prop :=
  own id c0 c /\
  match res with
  | (inl _, background) => background = None
  | (inr record, background) =>
      ID (WfTask record) = id /\ co_workflows c !! id = Some record /\
      ((background = None /\ (closed_early id c0 c record \/ sent id c0 c record)) \/
       (is_Some (dk_codingRuntime desk) /\ delegated id c record background))
  end.
Definition in_front (id : string) (c0 : Core B) (res : string + WorkflowRecord) (c : Core B) : Prop := dispatched id c0 (res, None) c.
Lemma in_front_spec id c0 pre (f : CT (string + WorkflowRecord)) : triple pre f (in_front id c0) ->
  triple pre (res ← f; mret (res, None)) (dispatched id c0).
Proof. intros Hf. eapply triple_bind; [exact Hf|intros res]. by apply triple_ret. Qed.

(** ** In front of the agents *)
Lemma turn_away_spec id c0 record : ID (WfTask record) = id -> isTerminalTaskStatus (AccStatus (Acceptance record)) = true ->
  triple (still id c0) (turn_away desk record) (in_front id c0).
Proof.
  intros Hid Hst c Hc. destruct (SaveWorkflow_spec (dk_store desk) ags record c) as [Hs Hw]. rewrite Hid in Hs, Hw.
  unfold turn_away, save_then. rewrite exec_bind, eval_bind. set (c1 := exec (SaveWorkflow _ record) c) in *.
  assert (still id c0 c1) as H1 by (by etransitivity). clearbody c1.
  destruct (eval (SaveWorkflow _ record) c) as [err|]; [rewrite exec_ret, eval_ret; split; [apply H1|done]|].
  specialize (Hw eq_refl). rewrite exec_bind, eval_bind, exec_ret, eval_ret.
  assert (co_workflows c1 !! id = Some record) as Hr by (rewrite Hw; by rewrite lookup_insert_eq).
  destruct H1 as (Ho & Hj & Hcl & Hd). pose proof (moves (R := own id) (f := notifyWorkflowWaiters record) c1) as Hn.
  split; [by etransitivity|]. split; [done|]. split; [exact Hr|]. left. split; [done|]. left. split; [done|]. split; [|exact Hd].
  split; [by etransitivity|exact Hcl|exact Hr|]. by exists (journal_of c1).
Qed.
Lemma sent_spec id c0 record (next : CT ()) : ID (WfTask record) = id -> AccStatus (Acceptance record) = TaskStatusRunning ->
  Result record = None -> AccAgentID (Acceptance record) ∈ dom ags -> Moves (unasked id) next -> Moves kept next ->
  triple (still id c0) (save_then (dk_store desk) record next) (in_front id c0).
Proof.
  intros Hid Hst Hres Hag Hn Hk. eapply (triple_weaken _ (unasked id c0)).
  3: { apply (save_then_spec (dk_store desk) ags (unasked id) id c0 record next); [apply _|exact Hid| |done|done].
       by apply unasked_still, still_save. }
  - intros c Hc. by apply still_unasked.
  - intros [err|r] c [Hu Hr]; (split; [apply Hu|]); [done|]. destruct Hr as [-> Hr]. split; [done|]. split; [done|]. left. split; [done|].
    by right.
Qed.

Lemma by_policy_spec c0 task updated decision :
  triple (still (ID task) c0) (turn_away_by_policy nowAt desk task updated decision) (in_front (ID task) c0).
Proof. unfold turn_away_by_policy. apply ends_after; [apply _|intros now]. by apply turn_away_spec. Qed.
Lemma by_guard_spec c0 task guard : triple (still (ID task) c0) (turn_away_by_guard nowAt desk task guard) (in_front (ID task) c0).
Proof.
  unfold turn_away_by_guard. cbv zeta. apply ends_after; [apply _|intros now]. apply ends_after; [apply _|intros completed].
  apply ends_after; [apply _|intros updated]. by apply turn_away_spec.
Qed.

Lemma dispatch_routed_spec c0 id task plan acc agent : kernel_ok (co_kernel c0) -> ags !! InfoID (Info agent) = Some agent ->
  AccAgentID acc = InfoID (Info agent) -> ID task = id ->
  triple (still id c0) (dispatch_routed deliveryNow nowAt env desk task plan acc agent) (in_front id c0).
Proof.
  intros Hk Hreg Hacc Hid. unfold dispatch_routed. eapply triple_bind; [by apply enforced_ends|].
  intros [[[task' acc'] agent'] [failure|]] c [Hc (Hag & Hid' & Hf)]; revert c Hc.
  - destruct Hf as [-> Hf]. apply ends_after; [apply _|intros updated]. apply turn_away_spec; [done|].
    cbn. by rewrite Hf.
  - specialize (Hf Hacc). apply (triple_bind _ _ _ (fun t c => still id c0 c /\ ID t = id)); [by apply attached_id|].
    intros t c [Hc Ht]; revert c Hc. cbv zeta. apply ends_after; [apply _|intros updated]. apply sent_spec; try done.
    + cbn. rewrite Hf. apply elem_of_dom. eauto.
    + apply moves_bind; [|intros ?|apply _]; [|apply unasked_still, _].
      intros c1. by eapply proj1, sending_agent.
    + apply moves_bind; [|intros ?; apply _|apply _]. intros c1. by eapply proj2, (sending_agent deliveryNow nowAt ags id).
Qed.

Lemma dispatch_planned_spec c0 id task plan updated : kernel_ok (co_kernel c0) -> ID task = id ->
  triple (still id c0) (dispatch_planned deliveryNow nowAt env desk task plan updated) (in_front id c0).
Proof.
  intros Hk Hid. unfold dispatch_planned. eapply triple_bind; [by apply route_task_spec|].
  intros [acc [agent|]] c [Hc Hr]; revert c Hc.
  - destruct Hr as (Hreg & _ & Hacc). apply ends_after; [by apply still_assignment|]. intros [decision|].
    + cbv zeta. apply ends_after; [apply _|intros now]. by apply turn_away_spec.
    + by apply dispatch_routed_spec.
  - apply ends_after; [apply _|intros now]. by apply turn_away_spec.
Qed.

(** ** With the coding runtime *)
Section Delegation.
Context (runtime : CodingRuntime B) `{!RuntimeLaws ags runtime} (Hruntime : dk_codingRuntime desk = Some runtime).

#[export] Instance kept_pump session taskID : Moves kept (startCodingRuntimeEventPump runtime session taskID).
Proof. unfold startCodingRuntimeEventPump, core_moment, core_journal. walk. Qed.
Definition handed_over (id : string) (c0 : Core B) (task : Task) (plan : ExecutionPlan)
  (res : (string + WorkflowRecord) * option (CodingRuntimeRequest * CodingRuntimeSession)) (c : Core B) : Prop :=
  dispatched id c0 (res.1, (fun s => mkBackground task plan s.1 s.2) <$> res.2) c.

(** A session that was not started. *)
Lemma unstarted_spec c0 id task plan err : ID task = id ->
  triple (own id c0)
    (record ← unstarted_workflow nowAt runtime task plan err;
     closed ← save_then (dk_store desk) record (notifyWorkflowWaiters record); mret (closed, None))
    (handed_over id c0 task plan).
Proof.
  intros Hid. apply (triple_bind _ _ _ (fun record c => own id c0 c /\ ID (WfTask record) = id /\ left_open record)).
  { intros c Hc. assert (Moves (own id) (unstarted_workflow nowAt runtime task plan err)) as Hm.
    { unfold unstarted_workflow, failedCodingRuntimeResult. walk. }
    split; [etransitivity; [exact Hc|apply Hm]|]. unfold unstarted_workflow, failedCodingRuntimeResult.
    rewrite !eval_bind, !eval_ret. split; [exact Hid|]. split; [done|]. by eexists. }
  intros record c [Hc (Hr & Hl)]. destruct (SaveWorkflow_spec (dk_store desk) ags record c) as [Hs Hw]. rewrite Hr in Hs, Hw.
  unfold save_then. rewrite !exec_bind, !eval_bind. set (c1 := exec (SaveWorkflow _ record) c) in *.
  assert (own id c0 c1) as H1 by (etransitivity; [exact Hc|apply Hs]). clearbody c1.
  destruct (eval (SaveWorkflow _ record) c) as [e|]; [by rewrite !exec_ret, !eval_ret|].
  specialize (Hw eq_refl). rewrite !exec_bind, !eval_bind, !exec_ret, !eval_ret.
  split; [etransitivity; [exact H1|apply (moves (R := own id))]|]. cbn [fst snd fmap option_fmap option_map].
  split; [exact Hr|]. split; [change (co_workflows c1 !! id = Some record); rewrite Hw; by rewrite lookup_insert_eq|].
  right. split; [by eexists|]. split; [apply Hl|]. split; [exact Hl|]. by exists (journal_of c1).
Qed.
Lemma delegated_spec c0 id task plan : ID task = id ->
  triple (own id c0) (dispatchCodingRuntimeTaskAsync nowAt (dk_store desk) selfLearn runtime task plan) (handed_over id c0 task plan).
Proof.
  intros Hid. unfold dispatchCodingRuntimeTaskAsync.
  eapply triple_bind; [apply triple_moves; apply _|intros req; cbv beta].
  eapply triple_bind; [apply triple_moves; apply _|intros [err|session]; cbv beta]; [by apply unstarted_spec|].
  eapply triple_bind; [apply triple_moves; apply _|intros ?; cbv beta].
  apply (triple_bind _ _ _ (fun record c => own id c0 c /\ ID (WfTask record) = id /\ AccStatus (Acceptance record) = TaskStatusAccepted /\
    Result record = None)).
  { intros c Hc. split; [etransitivity; [exact Hc|apply (moves (R := own id))]|]. unfold pending_workflow.
    by rewrite !eval_bind, eval_ret. }
  intros record c [Hc (Hr & Hst & Hres)]. destruct (SaveWorkflow_spec (dk_store desk) ags record c) as [Hs Hw]. rewrite Hr in Hs, Hw.
  rewrite !exec_bind, !eval_bind. set (c1 := exec (SaveWorkflow _ record) c) in *.
  assert (own id c0 c1) as H1 by (etransitivity; [exact Hc|apply Hs]). clearbody c1.
  destruct (eval (SaveWorkflow _ record) c) as [e|]; rewrite exec_bind, eval_bind, exec_ret, eval_ret.
  { split; [etransitivity; [exact H1|apply (moves (R := own id))]|done]. }
  specialize (Hw eq_refl). split; [etransitivity; [exact H1|apply (moves (R := own id))]|]. split; [exact Hr|].
  split; [|right; split; [by eexists|]; split; [exact Hst|split; [exact Hres|exact Hid]]].
  assert (co_workflows (exec (startCodingRuntimeEventPump runtime session (ID task)) c1) = co_workflows c1) as ->
    by apply (moves (R := kept)). rewrite Hw. by rewrite lookup_insert_eq.
Qed.
End Delegation.

(** C31: How the dispatch of a queued task ends.  Whatever the store, the memory and the bus do, it keeps the
    runtime in order, only adds to the journal and changes no workflow but its own; with an error nobody waits
    for the task; without one the workflow it returns is the one of its task and the one in the store.  This workflow is
    closed as rejected or failed, no agent was called and nothing sent, and its waiters are told of it,
    once and last of all; or it is running with a registered agent, and no agent was called yet and nobody told; or, with a
    coding runtime, it is accepted there and waited for, or its session was not started, and then
    the result is failed and the waiters are told, but the status is still accepted. *)
Theorem dispatch_ends task c : kernel_ok (co_kernel c) -> ID task <> "" -> runtime_trusted desk ags ->
  dispatched (ID task) c (eval (dispatchTaskAsync task) c) (exec (dispatchTaskAsync task) c).
Proof.
  intros Hk Hid Hrt. cut (triple (still (ID task) c) (dispatchTaskAsync task) (dispatched (ID task) c)).
  { intros Hd. apply Hd. reflexivity. }
  unfold AsyncWorkflow.dispatchTaskAsync. cbv zeta. apply (triple_bind _ _ _ (fun t c' => still (ID task) c c' /\ ID t = ID task)).
  { intros c' Hc. split; [|by apply with_defaults_id]. etransitivity; [exact Hc|]. apply (moves (R := still (ID task))). }
  intros t c' [Hc Ht]; revert c' Hc. destruct (String.eqb _ _).
  { apply triple_ret. intros c' Hc. by split; [apply Hc|]. }
  apply ends_after; [apply _|intros updated].
  destruct (decisionBlocks _); [apply in_front_spec; rewrite <- Ht; apply by_policy_spec|].
  apply ends_after; [apply _|intros guard]. destruct (blocked guard); [apply in_front_spec; rewrite <- Ht; apply by_guard_spec|].
  apply ends_after; [apply _|intros n]. apply ends_after; [apply _|intros now].
  pose proof (Prepare_id (dk_getenv desk) (dk_selector desk n) now t) as Hp. rewrite Ht in Hp.
  destruct (@Prepare _ _ now t) as [t' plan]. cbn [fst] in Hp.
  apply (triple_bind _ _ _ (fun t c' => still (ID task) c c' /\ ID t = ID task)).
  { intros c' Hc. split; [etransitivity; [exact Hc|apply (moves (R := still (ID task)))]|]. by rewrite adapted_id. }
  intros u c' [Hc Hu]; revert c' Hc. unfold delegate.
  destruct (shouldDelegateToCodingRuntime _ u); [|by apply in_front_spec, dispatch_planned_spec].
  destruct (dk_codingRuntime desk) as [runtime|] eqn:E; [|by apply in_front_spec, dispatch_planned_spec].
  pose proof (Hrt runtime E). eapply triple_weaken; [| |].
  3: { eapply triple_bind; [by apply (delegated_spec runtime E)|intros res]. by apply triple_ret. }
  - intros c' Hc. apply Hc.
  - done.
Qed.
End DispatchProps.

(** ** A task without a type *)
Section Untyped.
Context (deliveryNow nowAt : nat -> Time) (worker : string -> Worker) (selfLearn : SelfLearning) (env : Surroundings)
  (desk : Desk MessageBus) `{!StoreWorks (dk_store desk)}.
Abbreviation CT := (ST (Core MessageBus)).
Abbreviation still := (still (B := MessageBus) ∅).
Abbreviation unasked := (unasked (B := MessageBus) ∅).
(** The bus as a queue of submissions. *)
Definition submission_queue : option (Task -> MessageBus -> option string * MessageBus) := Some (fun task b => (None, EnqueueTask task b)).
Definition queue_of_tasks (c : Core MessageBus) : list Task := tasks (messageBus (kn_delivery (co_kernel c))).
Fixpoint submission_turns (n : nat) (workerID : Z) : CT () :=
  match n with
  | O => mret ()
  | S n => submission_turn deliveryNow nowAt selfLearn env desk workerID;; submission_turns n workerID
  end.

(** Steps that leave the bus and the workflows alone. *)
Abbreviation quiet id := (both (still id) kept).
#[export] Instance quiet_publish id topic kind entity payload : Moves (quiet id) (on_kernel (publish topic kind entity payload)).
Proof. apply _. Qed.
#[export] Instance quiet_defaults id task : Moves (quiet id) (with_defaults nowAt desk task).
Proof. apply moves_both; [apply _|]. unfold with_defaults, core_moment, core_Now. walk. Qed.
Lemma defaulted_type task c : Type_ (eval (with_defaults nowAt desk task) c) = Type_ task.
Proof. unfold with_defaults. rewrite !eval_bind, eval_ret. repeat match goal with |- context [if ?b then _ else _] => destruct b end; done. Qed.
Lemma quiet_queue id c c' : quiet id c c' -> queue_of_tasks c' = queue_of_tasks c.
Proof. intros [(_ & _ & _ & Hd) _]. unfold queue_of_tasks. by rewrite Hd. Qed.
Lemma sending_bus id {A} (f : MessageBus -> A * MessageBus) c : both (unasked id) kept c (exec (on_bus f) c) /\
  queue_of_tasks (exec (on_bus f) c) = tasks (f (messageBus (kn_delivery (co_kernel c)))).2 /\
  eval (on_bus f) c = (f (messageBus (kn_delivery (co_kernel c)))).1.
Proof.
  split; [apply (moves (R := both (unasked id) kept))|]. unfold queue_of_tasks, on_bus, on_kernel, on_delivery, exec, eval.
  by destruct (f (messageBus (kn_delivery (co_kernel c)))).
Qed.

Lemma refused_dispatch id task c : task_type_string (Type_ task) = "" ->
  let f := dispatchTaskAsync deliveryNow nowAt selfLearn env desk task in
  eval f c = (inl "task type is required", None) /\ quiet id c (exec f c).
Proof.
  intros Hty f. subst f. unfold AsyncWorkflow.dispatchTaskAsync. cbv zeta. rewrite exec_bind, eval_bind.
  rewrite (defaulted_type task c), Hty, String.eqb_refl, exec_ret. split; [done|]. apply (moves (R := quiet id)).
Qed.
Lemma refused_process id workerID groupKey task c : task_type_string (Type_ task) = "" ->
  let f := process_submission deliveryNow nowAt selfLearn env desk workerID groupKey task in
  eval f c = (false, None) /\ quiet id c (exec f c).
Proof.
  intros Hty f. subst f. unfold process_submission. rewrite exec_bind, eval_bind.
  set (c1 := exec (on_kernel _) c). assert (quiet id c c1) as H1 by apply moves. clearbody c1. rewrite exec_bind, eval_bind.
  destruct (refused_dispatch id task c1 Hty) as [-> H2]. set (c2 := exec (dispatchTaskAsync _ _ _ _ _ task) c1) in *. clearbody c2.
  cbn [fst snd]. rewrite exec_bind, eval_bind, exec_ret, eval_ret. split; [done|].
  etransitivity; [exact H1|]. etransitivity; [exact H2|apply moves].
Qed.
Lemma refused_turn id workerID task c : task_type_string (Type_ task) = "" -> queue_of_tasks c = [task] ->
  let f := submission_turn deliveryNow nowAt selfLearn env desk workerID in
  both (unasked id) kept c (exec f c) /\ queue_of_tasks (exec f c) = [task].
Proof.
  intros Hty Hq f. subst f. unfold submission_turn. rewrite exec_bind. destruct (sending_bus id takeTask c) as (H1 & Q1 & E1).
  assert (takeTask (messageBus (kn_delivery (co_kernel c))) =
    (Some task, messageBus (kn_delivery (co_kernel c)) <| tasks := [] |>)) as E.
  { unfold takeTask. unfold queue_of_tasks in Hq. by rewrite Hq. }
  rewrite E in E1, Q1. rewrite E1. set (c1 := exec (on_bus takeTask) c) in *. clearbody c1. cbn [fst].
  destruct (refused_process id workerID (submissionGroupKey task) task c1 Hty) as [E2 H2]. rewrite exec_bind, E2.
  pose proof (quiet_queue _ _ _ H2) as Q2. set (c2 := exec (process_submission _ _ _ _ _ _ _ _) c1) in *. clearbody c2.
  rewrite exec_bind, exec_ret. cbn [fst].
  destruct (sending_bus id (fun b => ((), requeueTaskFront task b)) c2) as (H3 & Q3 & _). split.
  - etransitivity; [exact H1|]. etransitivity; [|exact H3]. split; [apply still_unasked|]; apply H2.
  - rewrite Q3. cbn. unfold queue_of_tasks in Q1, Q2. by rewrite Q2, Q1.
Qed.
Lemma refused_turns id n workerID task c : task_type_string (Type_ task) = "" -> queue_of_tasks c = [task] ->
  both (unasked id) kept c (exec (submission_turns n workerID) c) /\ queue_of_tasks (exec (submission_turns n workerID) c) = [task].
Proof.
  intros Hty. revert c. induction n as [|n IH]; intros c Hq; [by split|]. cbn [submission_turns]. rewrite exec_bind.
  destruct (refused_turn id workerID task c Hty Hq) as [H1 Q1]. destruct (IH _ Q1) as [H2 Q2]. split; [by etransitivity|exact Q2].
Qed.

(** C37: A task without a type never leaves the submission queue.  Submitted to the empty queue of the
    in-memory bus it is accepted as queued, although a direct submission of it is an error; whenever a worker then takes it, the dispatch fails and
    the task goes back to the front of the queue.  After any number of turns it is still the only task there and its workflow
    still the one stored as queued; no agent was called and no waiter told. *)
Theorem untyped_never_leaves n workerID task c : ID task <> "" -> task_type_string (Type_ task) = "" -> queue_of_tasks c = [] ->
  let submit := SubmitTaskAsync deliveryNow nowAt worker selfLearn env desk submission_queue task in
  let c' := exec (submission_turns n workerID) (exec submit c) in
  exists record, eval submit c = inr record /\ AccStatus (Acceptance record) = TaskStatusQueued /\
    co_workflows c' !! ID task = Some record /\ queue_of_tasks c' = [WfTask record] /\ unasked (ID task) c c'.
Proof.
  intros Hid Hty Hq submit. subst submit. unfold SubmitTaskAsync, submission_queue. cbv beta iota zeta. rewrite ?exec_bind, ?eval_bind.
  pose proof (defaulted_type task c) as Ht. pose proof (with_defaults_id nowAt desk task c Hid) as Hd.
  pose proof (moves (R := quiet (ID task)) (f := with_defaults nowAt desk task) c) as H1.
  set (t := eval (with_defaults nowAt desk task) c) in *. set (c1 := exec (with_defaults nowAt desk task) c) in *.
  pose proof (quiet_queue _ _ _ H1) as Q1. rewrite Hq in Q1. clearbody t c1. cbv zeta. rewrite ?exec_bind, ?eval_bind.
  match goal with |- context [exec (SaveWorkflow _ ?r) ?k] => set (record := r); set (c2 := k) end.
  assert (quiet (ID task) c c2) as H2.
  { etransitivity; [exact H1|]. subst c2. etransitivity; apply (moves (R := quiet (ID task)) (f := core_Now nowAt)). }
  assert (queue_of_tasks c2 = []) as Q2 by (rewrite (quiet_queue _ _ _ H2); exact Hq).
  assert (ID (WfTask record) = ID task) as Hr by exact Hd. assert (AccStatus (Acceptance record) = TaskStatusQueued) as Hs by done.
  assert (WfTask record = t) as Hwt by done. clearbody c2. rewrite (saved desk record c2).
  destruct (SaveWorkflow_spec (dk_store desk) ∅ record c2) as [H3 W3]. specialize (W3 (saved desk record c2)). rewrite Hr in H3, W3.
  set (c3 := exec (SaveWorkflow (dk_store desk) record) c2) in *. clearbody record c3.
  assert (queue_of_tasks c3 = []) as Q3 by (destruct H3 as (_ & _ & _ & Hdel); unfold queue_of_tasks; by rewrite Hdel).
  rewrite ?exec_bind, ?eval_bind. change (on_kernel (on_delivery _)) with (on_bus (fun b => (None : option string, EnqueueTask t b))).
  destruct (sending_bus (ID task) (fun b => (None : option string, EnqueueTask t b)) c3) as (H4 & Q4 & E4). rewrite E4. cbn [fst].
  set (c4 := exec (on_bus _) c3) in *. assert (queue_of_tasks c4 = [t]) as Q5 by (rewrite Q4; cbn; unfold queue_of_tasks in Q3; by rewrite Q3).
  clearbody c4. rewrite ?exec_bind, ?eval_bind, exec_ret, eval_ret. set (c5 := exec (announce _ _ _) c4).
  assert (quiet (ID task) c4 c5) as H5 by apply moves. assert (queue_of_tasks c5 = [t]) as Q6 by (rewrite (quiet_queue _ _ _ H5); exact Q5).
  clearbody c5. destruct (refused_turns (ID task) n workerID t c5 ltac:(by rewrite Ht) Q6) as [[H6 K6] Q7].
  exists record. split; [done|]. split; [exact Hs|]. split; [|split; [by rewrite Hwt|]].
  - rewrite (K6 : _ = _), (proj2 H5 : _ = _), (proj2 H4 : _ = _), W3. by rewrite lookup_insert_eq.
  - etransitivity; [apply still_unasked, H2|]. etransitivity; [by apply still_unasked|]. etransitivity; [apply H4|].
    etransitivity; [apply still_unasked, H5|exact H6].
Qed.
End Untyped.

(** ** Examples *)
Definition dispatch (task : Task) : ST (Core MessageBus) ((string + WorkflowRecord) * option Background) :=
  dispatchTaskAsync clock clock no_self_learning coders_env (open_desk no_budgets) task.
Definition sent_record : WorkflowRecord :=
  default (mkWorkflowRecord zero_task zero_plan coders_acceptance None 0) (co_workflows (exec (dispatch (coding_request "t1")) coders_core) !! "t1").
Lemma first_dispatch : eval (dispatch (coding_request "t1")) coders_core = (inr sent_record, None) /\
  AccStatus (Acceptance sent_record) = TaskStatusRunning /\ AccAgentID (Acceptance sent_record) = "cloud-coder".
Proof. vm_compute. split_and!; reflexivity. Qed.
Lemma dispatch_ends_witness : exists record, eval (dispatch (coding_request "t1")) coders_core = (inr record, None) /\
  AccAgentID (Acceptance record) = "cloud-coder" /\
  sent (agents (register_all 1 coders)) "t1" coders_core (exec (dispatch (coding_request "t1")) coders_core) record.
Proof.
  pose proof (dispatch_ends clock clock no_self_learning coders_env (open_desk no_budgets) (agents (register_all 1 coders))
    (coding_request "t1") coders_core coders_core_ok ltac:(discriminate) ltac:(discriminate)) as Hd.
  pose proof first_dispatch as (E1 & E2 & E3).
  set (f := dispatchTaskAsync _ _ _ _ _ _) in Hd. assert (f = dispatch (coding_request "t1")) as E by (unfold f, dispatch; reflexivity).
  clearbody f. subst f. rewrite E1 in Hd |- *. exists sent_record. split; [reflexivity|]. split; [exact E3|].
  set (record := sent_record) in *. set (c := exec (dispatch (coding_request "t1")) coders_core) in *. clearbody record c. clear E1 E3.
  destruct Hd as [_ (_ & _ & [[_ [(H & _)|H]]|[[runtime H] _]])]; [rewrite E2 in H; discriminate H|exact H|discriminate H].
Defined.

Definition untyped : Task := coding_request "t1" <| Type_ := TaskTypeOther "" |>.
(** Submitted directly it is an error; through the queue it is accepted, and is still queued after five turns. *)
Example untyped_turns :
  let direct := submitTaskSync clock clock coders_workers no_self_learning coders_env (open_desk no_budgets) untyped coders_core in
  let queued := SubmitTaskAsync clock clock coders_workers no_self_learning coders_env (open_desk no_budgets) submission_queue untyped coders_core in
  let later := exec (submission_turns clock clock no_self_learning coders_env (open_desk no_budgets) 5 1) queued.1 in
  (outcome_of direct.2, outcome_of queued.2, stored_status later, map ID (queue_of_tasks later)) =
  (inl "task type is required", inr (TaskStatusQueued, "queued_for_async_submission"), Some (TaskStatusQueued, "", false), ["t1"]).
Proof. vm_compute. reflexivity. Qed.
Lemma untyped_never_leaves_witness : exists record,
  co_workflows (exec (submission_turns clock clock no_self_learning coders_env (open_desk no_budgets) 5 1)
    (exec (SubmitTaskAsync clock clock coders_workers no_self_learning coders_env (open_desk no_budgets) submission_queue untyped) coders_core))
    !! "t1" = Some record /\ AccStatus (Acceptance record) = TaskStatusQueued.
Proof.
  destruct (untyped_never_leaves clock clock coders_workers no_self_learning coders_env (open_desk no_budgets) 5 1 untyped coders_core
    ltac:(discriminate) eq_refl eq_refl) as (record & _ & Hs & Hw & _). exists record. split; [exact Hw|exact Hs].
Defined.
