(* ===== verification/Waiters.v ===== *)
(** * Waiting for a workflow to be closed (kernel/orchestrator.go)

    [WaitWorkflowTerminal] looks at the store, registers a channel of capacity one and receives from it;
    [notifyWorkflowWaiters] takes the registered channels under the lock and sends without waiting.
    The small-step system interleaves any number of both with the writers of the store, which succeed
    and come before the notification of what they wrote.  A waiter has one channel, which goes by the
    number of the waiter.  Records that are not closed may be told as well: they can fill a channel and keep the
    closing one out of it. *)
From S2P Require Import Prelude GoLib Domain TaskPolicy PlanScheduling ExecutionEffects.

(** Where a call of [WaitWorkflowTerminal] stands; the answer is the workflow, or none when the
    context ended. *)
Inductive WaiterAt : Type :=
  | Checking                                   (* about to look at the store *)
  | Registering                                (* about to lock and register *)
  | Receiving (inbox : option WorkflowRecord)  (* at the select; what the channel holds *)
  | Leaving (answer : option WorkflowRecord)   (* about to lock and remove the channel *)
  | Returned (answer : option WorkflowRecord).
(** Where a call of [notifyWorkflowWaiters] stands. *)
Inductive NotifierAt : Type :=
  | Telling                                    (* about to lock *)
  | Sending (waiters : list nat).              (* the channels that are still to be sent to *)

(** [saved] is the history of the store. *)
Record WaitSystem : Type := mkWaitSystem {
  workflows : gmap string WorkflowRecord;
  resultWaiters : gmap string (list nat);
  waiters : list (string * WaiterAt);
  notifiers : list (WorkflowRecord * NotifierAt);
  saved : list WorkflowRecord }.
#[export] Instance eta_WaitSystem : Updatable WaitSystem := fun y =>
  mkWaitSystem (workflows y) (resultWaiters y) (waiters y) (notifiers y) (saved y).

Definition workflowID (record : WorkflowRecord) : string := ID (WfTask record).
Definition closed (record : WorkflowRecord) : bool := isTerminalTaskStatus (AccStatus (Acceptance record)).

(** ** The critical sections *)
Definition registered (id : string) (m : gmap string (list nat)) : list nat := default [] (m !! id).
Definition register (id : string) (ch : nat) (m : gmap string (list nat)) : gmap string (list nat) :=
  <[id := registered id m ++ [ch]]> m.
(** The waiters to send to. *)
Definition take_waiters (record : WorkflowRecord) (m : gmap string (list nat)) : list nat * gmap string (list nat) :=
  (registered (workflowID record) m, if closed record then delete (workflowID record) m else m).
Fixpoint remove_first (ch : nat) (l : list nat) : list nat :=
  match l with
  | [] => []
  | waiter :: l => if Nat.eqb waiter ch then l else waiter :: remove_first ch l
  end.
Definition removeWorkflowWaiter (id : string) (ch : nat) (m : gmap string (list nat)) : gmap string (list nat) :=
  match remove_first ch (registered id m) with
  | [] => delete id m
  | rest => <[id := rest]> m
  end.
(** A send that does not wait: a full channel keeps what it holds, and nobody reads one that was left. *)
Definition deliver (record : WorkflowRecord) (w : string * WaiterAt) : string * WaiterAt :=
  match w with (id, Receiving None) => (id, Receiving (Some record)) | _ => w end.

(** ** The system *)
Definition set_waiter (i : nat) (id : string) (w : WaiterAt) (y : WaitSystem) : WaitSystem := y <| waiters ::= <[i := (id, w)]> |>.
Definition set_notifier (p : nat) (record : WorkflowRecord) (n : NotifierAt) (y : WaitSystem) : WaitSystem :=
  y <| notifiers ::= <[p := (record, n)]> |>.
Definition save (record : WorkflowRecord) (y : WaitSystem) : WaitSystem :=
  y <| workflows ::= <[workflowID record := record]> |> <| saved ::= fun l => l ++ [record] |>.

(** What starts a step: the environment (a call, a write, the end of a context) or the code itself. *)
Inductive Origin : Type := FromOutside | ByItself.
Inductive wait_step : Origin -> WaitSystem -> WaitSystem -> Prop :=
  | WsWait y id : id <> "" -> wait_step FromOutside y (y <| waiters ::= fun l => l ++ [(id, Checking)] |>)
  | WsSave y record : wait_step FromOutside y (save record y)
  | WsNotify y record : record ∈ saved y -> wait_step FromOutside y (y <| notifiers ::= fun l => l ++ [(record, Telling)] |>)
  | WsCancel y i id inbox : waiters y !! i = Some (id, Receiving inbox) -> wait_step FromOutside y (set_waiter i id (Leaving None) y)
  | WsFound y i id record : waiters y !! i = Some (id, Checking) -> workflows y !! id = Some record -> closed record = true ->
      wait_step ByItself y (set_waiter i id (Returned (Some record)) y)
  | WsOpen y i id : waiters y !! i = Some (id, Checking) ->
      (forall record, workflows y !! id = Some record -> closed record = false) -> wait_step ByItself y (set_waiter i id Registering y)
  | WsRegister y i id : waiters y !! i = Some (id, Registering) ->
      wait_step ByItself y (set_waiter i id (Receiving None) (y <| resultWaiters ::= register id i |>))
  | WsReceive y i id record : waiters y !! i = Some (id, Receiving (Some record)) ->
      wait_step ByItself y (set_waiter i id (if closed record then Leaving (Some record) else Receiving None) y)
  | WsLeave y i id answer : waiters y !! i = Some (id, Leaving answer) ->
      wait_step ByItself y (set_waiter i id (Returned answer) (y <| resultWaiters ::= removeWorkflowWaiter id i |>))
  | WsTake y p record : notifiers y !! p = Some (record, Telling) ->
      wait_step ByItself y (set_notifier p record (Sending (take_waiters record (resultWaiters y)).1)
                              (y <| resultWaiters := (take_waiters record (resultWaiters y)).2 |>))
  | WsSend y p record ch rest : notifiers y !! p = Some (record, Sending (ch :: rest)) ->
      wait_step ByItself y (set_notifier p record (Sending rest) (y <| waiters ::= alter (deliver record) ch |>)).
Definition wait_steps (y y' : WaitSystem) : Prop := exists o, wait_step o y y'.
Definition wait_init (y : WaitSystem) : Prop := y = mkWaitSystem ∅ ∅ [] [] [].
(** Nothing happens any more by itself. *)
Definition at_rest (y : WaitSystem) : Prop := forall y', ~ wait_step ByItself y y'.

(** ** Invariant *)
Definition waits (w : WaiterAt) : Prop := match w with Receiving _ | Leaving _ => True | _ => False end.
Definition told (y : WaitSystem) (record : WorkflowRecord) : Prop := record ∈ (notifiers y).*1.
(** Every record of the workflow that anyone was told is closed. *)
Definition told_closed (id : string) (y : WaitSystem) : Prop :=
  forall record, told y record -> workflowID record = id -> closed record = true.
(** Some record of the workflow that was told is not closed. *)
Definition told_open (id : string) (y : WaitSystem) : Prop :=
  exists record, told y record /\ workflowID record = id /\ closed record = false.
Lemma told_open_or_closed id y : told_open id y \/ told_closed id y.
Proof.
  destruct (decide (Exists (fun record => workflowID record = id /\ closed record = false) (notifiers y).*1)) as [Hex|Hn].
  - left. apply Exists_exists in Hex as (record & Hin & ? & ?). by exists record.
  - right. intros record Hin Hid. destruct (closed record) eqn:E; [done|]. exfalso. apply Hn, Exists_exists. by exists record.
Qed.
Definition to_be_told (y : WaitSystem) (i : nat) : Prop :=
  exists p record l, notifiers y !! p = Some (record, Sending l) /\ i ∈ l.
Definition waiter_ok (y : WaitSystem) (i : nat) (id : string) (w : WaiterAt) : Prop :=
  match w with
  | Receiving (Some record) => told y record /\ workflowID record = id
  | Receiving None => told_closed id y -> i ∈ registered id (resultWaiters y) \/ to_be_told y i
  | Leaving (Some record) | Returned (Some record) => closed record = true /\ workflowID record = id /\ record ∈ saved y
  | _ => True
  end.
(** No key is left without waiters. *)
Definition tidy (m : gmap string (list nat)) : Prop := forall id, m !! id <> Some [].
Record wait_ok (y : WaitSystem) : Prop := mkWaitOk {
  wo_waiters : forall i id w, waiters y !! i = Some (id, w) -> waiter_ok y i id w;
  wo_tidy : tidy (resultWaiters y);
  wo_once : forall id, NoDup (registered id (resultWaiters y));
  wo_registered : forall id i, i ∈ registered id (resultWaiters y) -> exists w, waiters y !! i = Some (id, w) /\ waits w;
  wo_store : forall id record, workflows y !! id = Some record -> workflowID record = id /\ record ∈ saved y;
  wo_told : forall record, told y record -> record ∈ saved y;
  wo_sending : forall p record l i, notifiers y !! p = Some (record, Sending l) -> i ∈ l ->
    exists w, waiters y !! i = Some (workflowID record, w) }.

Lemma in_remove_first ch l i : NoDup l -> i ∈ remove_first ch l <-> i ∈ l /\ i <> ch.
Proof.
  induction 1 as [|w l Hw Hl IH]; cbn; [set_solver|]. destruct (Nat.eqb_spec w ch) as [->|Hne]; set_solver.
Qed.
Lemma remove_first_NoDup ch l : NoDup l -> NoDup (remove_first ch l).
Proof.
  induction 1 as [|w l Hw Hl IH]; cbn; [constructor|]. destruct (Nat.eqb_spec w ch); [done|]. constructor; [|done].
  rewrite in_remove_first by done. tauto.
Qed.
Lemma registered_register id ch m id' :
  registered id' (register id ch m) = if decide (id' = id) then registered id m ++ [ch] else registered id' m.
Proof.
  unfold register, registered at 1. case_decide as E; [subst; by rewrite lookup_insert_eq|by rewrite lookup_insert_ne by done].
Qed.
Lemma registered_removed id ch m id' : registered id' (removeWorkflowWaiter id ch m) =
  if decide (id' = id) then remove_first ch (registered id m) else registered id' m.
Proof.
  unfold removeWorkflowWaiter. destruct (remove_first _ _) as [|w rest]; unfold registered; case_decide as E; subst;
    by rewrite ?lookup_delete_eq, ?lookup_delete_ne, ?lookup_insert_eq, ?lookup_insert_ne.
Qed.
Lemma registered_taken record m id : registered id (take_waiters record m).2 =
  if decide (closed record = true /\ id = workflowID record) then [] else registered id m.
Proof.
  unfold take_waiters, registered. cbn. destruct (closed record); [|by rewrite decide_False by naive_solver].
  case_decide as E; [destruct E as [_ ->]; by rewrite lookup_delete_eq|]. rewrite lookup_delete_ne; naive_solver.
Qed.
Lemma register_tidy id ch m : tidy m -> tidy (register id ch m).
Proof.
  intros Hm id'. unfold register. rewrite lookup_insert_Some. intros [[_ E]|[_ E]]; [by apply app_nil in E as [_ ?]|by apply Hm in E].
Qed.
Lemma removed_tidy id ch m : tidy m -> tidy (removeWorkflowWaiter id ch m).
Proof.
  intros Hm id'. unfold removeWorkflowWaiter. destruct (remove_first _ _).
  - rewrite lookup_delete_Some. intros [_ E]. by apply Hm in E.
  - rewrite lookup_insert_Some. intros [[_ E]|[_ E]]; [done|by apply Hm in E].
Qed.
Lemma taken_tidy record m : tidy m -> tidy (take_waiters record m).2.
Proof. intros Hm id. cbn. destruct (closed record); [|apply Hm]. rewrite lookup_delete_Some. intros [_ E]. by apply Hm in E. Qed.

(** ** The steps keep the invariant *)
Lemma lookup_set i id w y j : is_Some (waiters y !! i) ->
  waiters (set_waiter i id w y) !! j = if decide (j = i) then Some (id, w) else waiters y !! j.
Proof.
  intros Hi%lookup_lt_is_Some. cbn. case_decide as E; [subst; by apply list_lookup_insert_eq|by apply list_lookup_insert_ne].
Qed.
(** What a waiter relies on. *)
Lemma waiter_ok_mono y y' i id w : waiter_ok y i id w -> (forall r, told y r -> told y' r) -> saved y ⊆ saved y' ->
  (i ∈ registered id (resultWaiters y) \/ to_be_told y i -> told_closed id y' -> i ∈ registered id (resultWaiters y') \/ to_be_told y' i) ->
  waiter_ok y' i id w.
Proof.
  intros Hok Ht Hs Hr. destruct w as [| |[r|]|[r|]|[r|]]; cbn in *; try done.
  - destruct Hok. split; auto.
  - intros Hc. apply Hr; [|done]. apply Hok. intros r Htr. auto.
  - destruct Hok as (? & ? & ?). split_and!; auto.
  - destruct Hok as (? & ? & ?). split_and!; auto.
Qed.

Lemma set_waiter_ok y i id w0 w m : wait_ok y -> waiters y !! i = Some (id, w0) -> tidy m -> (forall id', NoDup (registered id' m)) ->
  (forall id' j, j ∈ registered id' m -> (j = i /\ id' = id /\ waits w) \/ (j <> i /\ j ∈ registered id' (resultWaiters y))) ->
  (forall id' j, j <> i -> j ∈ registered id' (resultWaiters y) -> j ∈ registered id' m) ->
  let y' := set_waiter i id w (y <| resultWaiters := m |>) in
  waiter_ok y' i id w -> wait_ok y'.
Proof.
  intros [Hw Ht Ho Hr Hs Htold Hsend] Hi Hm Hn Hin Hkeep y' Hok.
  assert (forall j, waiters y' !! j = if decide (j = i) then Some (id, w) else waiters y !! j) as Hl.
  { intros j. subst y'. by rewrite lookup_set by (cbn; eauto). }
  split; try done.
  - intros j idj wj Hj. rewrite Hl in Hj. case_decide as E; [simplify_eq; exact Hok|].
    apply (waiter_ok_mono y); [by apply Hw|done|done|]. intros [Hreg|Hto] _; [left; by apply Hkeep|by right].
  - intros id' j Hj. rewrite Hl. destruct (Hin id' j Hj) as [(-> & -> & Hww)|[Hne Hj']].
    + rewrite decide_True by done. eauto.
    + rewrite decide_False by done. by apply Hr.
  - intros p record l j Hp Hj. rewrite Hl. destruct (Hsend p record l j Hp Hj) as [wj Hwj].
    case_decide as E; [subst j; rewrite Hi in Hwj; simplify_eq; eauto|eauto].
Qed.
(** The registry stays as it is. *)
Lemma same_registry_ok y i id w0 w : wait_ok y -> waiters y !! i = Some (id, w0) -> (waits w0 -> waits w) ->
  waiter_ok (set_waiter i id w y) i id w -> wait_ok (set_waiter i id w y).
Proof.
  intros Hy Hi Hww Hok. destruct (Hy) as [Hw Ht Ho Hr Hs Htold Hsend].
  apply (set_waiter_ok y i id w0 w (resultWaiters y) Hy Hi Ht Ho); [|done|exact Hok].
  intros id' j Hj. destruct (decide (j = i)) as [->|Hne]; [|by right]. left. destruct (Hr id' i Hj) as (w' & Hw' & Hwaits).
  rewrite Hi in Hw'. simplify_eq. auto.
Qed.

Lemma take_ok y p record : wait_ok y -> notifiers y !! p = Some (record, Telling) ->
  wait_ok (set_notifier p record (Sending (take_waiters record (resultWaiters y)).1)
             (y <| resultWaiters := (take_waiters record (resultWaiters y)).2 |>)).
Proof.
  intros [Hw Ht Ho Hr Hs Htold Hsend] Hp. set (y' := set_notifier _ _ _ _).
  pose proof (lookup_lt_Some _ _ _ Hp) as Hlt.
  assert ((notifiers y').*1 = (notifiers y).*1) as Hn.
  { subst y'. cbn. rewrite list_fmap_insert. apply list_insert_id. by rewrite list_lookup_fmap, Hp. }
  assert (forall r, told y' r <-> told y r) as Htl by (intros r; unfold told; by rewrite Hn).
  assert (forall q, notifiers y' !! q = if decide (q = p) then Some (record, Sending (registered (workflowID record) (resultWaiters y)))
    else notifiers y !! q) as Hq.
  { intros q. subst y'. cbn. case_decide as E; [subst; by apply list_lookup_insert_eq|by apply list_lookup_insert_ne]. }
  assert (resultWaiters y' = (take_waiters record (resultWaiters y)).2) as Hm by done.
  assert (waiters y' = waiters y /\ workflows y' = workflows y /\ saved y' = saved y) as (Ew & Ef & Es) by done. clearbody y'.
  split; rewrite ?Ew, ?Ef, ?Es, ?Hm.
  - intros i id w Hi. apply (waiter_ok_mono y); [by apply Hw|by intros r; rewrite Htl|by rewrite Es|].
    intros [Hreg|(q & r & l & Hl & Hil)] _.
    + rewrite Hm, registered_taken. case_decide as E; [|by left]. destruct E as [_ ->]. right.
      exists p, record, (registered (workflowID record) (resultWaiters y)). split; [|done]. rewrite Hq. by rewrite decide_True.
    + right. exists q, r, l. split; [|done]. rewrite Hq. rewrite decide_False; [done|]. intros ->. by rewrite Hp in Hl.
  - by apply taken_tidy.
  - intros id. rewrite registered_taken. case_decide; [constructor|apply Ho].
  - intros id i Hi. rewrite registered_taken in Hi. case_decide; [by apply not_elem_of_nil in Hi|by apply Hr].
  - done.
  - intros r. rewrite Htl. apply Htold.
  - intros q r l i Hl Hil. rewrite Hq in Hl. case_decide as E.
    + simplify_eq. destruct (Hr _ _ Hil) as (w & Hwi & _). eauto.
    + by eapply Hsend.
Qed.
Lemma send_ok y p record ch rest : wait_ok y -> notifiers y !! p = Some (record, Sending (ch :: rest)) ->
  wait_ok (set_notifier p record (Sending rest) (y <| waiters ::= alter (deliver record) ch |>)).
Proof.
  intros [Hw Ht Ho Hr Hs Htold Hsend] Hp. set (y' := set_notifier _ _ _ _).
  assert ((notifiers y').*1 = (notifiers y).*1) as Hn.
  { subst y'. cbn. rewrite list_fmap_insert. apply list_insert_id. by rewrite list_lookup_fmap, Hp. }
  assert (forall r, told y' r <-> told y r) as Htl by (intros r; unfold told; by rewrite Hn).
  assert (forall q, notifiers y' !! q = if decide (q = p) then Some (record, Sending rest) else notifiers y !! q) as Hq.
  { intros q. subst y'. cbn. pose proof (lookup_lt_Some _ _ _ Hp).
    case_decide as E; [subst; by apply list_lookup_insert_eq|by apply list_lookup_insert_ne]. }
  assert (forall j, waiters y' !! j = if decide (j = ch) then deliver record <$> waiters y !! j else waiters y !! j) as Hl.
  { intros j. subst y'. cbn. case_decide as E; [subst; by apply list_lookup_alter_eq|by apply list_lookup_alter_ne]. }
  assert (forall j id w, waiters y !! j = Some (id, w) -> exists w', waiters y' !! j = Some (id, w') /\ (waits w -> waits w')) as Hkeep.
  { intros j id w Hj. rewrite Hl, Hj. case_decide; [|eauto]. destruct w as [| |[]| |]; cbn; eauto. }
  assert (forall j, j <> ch -> to_be_told y j -> to_be_told y' j) as Hto.
  { intros j Hne (q & r & l & Hql & Hj). destruct (decide (q = p)) as [->|Hqp].
    - rewrite Hp in Hql. simplify_eq. exists p, r, rest. rewrite Hq, decide_True by done. set_solver.
    - exists q, r, l. by rewrite Hq, decide_False. }
  assert (resultWaiters y' = resultWaiters y /\ workflows y' = workflows y /\ saved y' = saved y) as (Em & Ef & Es) by done.
  destruct (Hsend p record _ ch Hp ltac:(by left)) as [wch Hch]. clearbody y'. split; rewrite ?Em, ?Ef, ?Es; try done.
  - intros j id w Hj. rewrite Hl in Hj. case_decide as E.
    + subst j. pose proof (Hw _ _ _ Hch) as Hok. rewrite Hch in Hj.
      destruct wch as [| |[r|]|[r|]|[r|]]; cbn in Hj; simplify_eq; cbn in *; rewrite ?Htl, ?Es; try done.
      split; [|done]. apply list_elem_of_fmap. exists (record, Sending (ch :: rest)). split; [done|]. by eapply list_elem_of_lookup_2.
    + apply (waiter_ok_mono y); [by apply Hw|by intros r; rewrite Htl|by rewrite Es|]. rewrite Em. intros [Hreg|Htb] _; [by left|right; auto].
  - intros id j Hj. destruct (Hr id j Hj) as (w & Hwj & Hwaits). destruct (Hkeep j id w Hwj) as (w' & ? & ?). eauto.
  - intros r. rewrite Htl. apply Htold.
  - intros q r l j Hql Hj. assert (exists w, waiters y !! j = Some (workflowID r, w)) as (w & Hwj).
    { rewrite Hq in Hql. case_decide; [simplify_eq; eapply Hsend; [exact Hp|by right]|by eapply Hsend]. }
    destruct (Hkeep j _ w Hwj) as (w' & ? & _). eauto.
Qed.

Lemma new_waiter_ok y id : wait_ok y -> wait_ok (y <| waiters ::= fun l => l ++ [(id, Checking)] |>).
Proof.
  intros [Hw Ht Ho Hr Hs Htold Hsend].
  assert (forall j id' w, waiters y !! j = Some (id', w) -> (waiters y ++ [(id, Checking)]) !! j = Some (id', w)) as Hkeep.
  { intros j id' w Hj. by apply lookup_app_l_Some. }
  split; cbn; try done.
  - intros j id' w [Hj|[_ Hj]]%lookup_app_Some; [by apply (waiter_ok_mono y); [apply Hw| | |auto]|].
    apply list_lookup_singleton_Some in Hj as [_ Hj]. by simplify_eq.
  - intros id' j Hj. destruct (Hr id' j Hj) as (w & Hwj & ?). eauto.
  - intros p record l j Hp Hj. destruct (Hsend p record l j Hp Hj) as [w Hwj]. eauto.
Qed.
Lemma save_ok y record : wait_ok y -> wait_ok (save record y).
Proof.
  intros [Hw Ht Ho Hr Hs Htold Hsend]. assert (saved y ⊆ saved (save record y)) as Hsub by (cbn; set_solver).
  split; try done.
  - intros j id w Hj. apply (waiter_ok_mono y); [by apply Hw|done|done|auto].
  - intros id r. cbn. rewrite lookup_insert_Some. intros [[<- <-]|[_ Hr']]; [split; [done|set_solver]|].
    apply Hs in Hr' as [? ?]. split; [done|set_solver].
  - intros r Hr'. by apply Hsub, Htold.
Qed.
Lemma notify_ok y record : wait_ok y -> record ∈ saved y -> wait_ok (y <| notifiers ::= fun l => l ++ [(record, Telling)] |>).
Proof.
  intros [Hw Ht Ho Hr Hs Htold Hsend] Hrec. set (y' := y <| notifiers ::= _ |>).
  assert (forall r, told y' r <-> told y r \/ r = record) as Htl.
  { intros r. unfold told, y'. cbn. rewrite fmap_app, elem_of_app. cbn. by rewrite list_elem_of_singleton. }
  assert (forall q r l, notifiers y' !! q = Some (r, Sending l) <-> notifiers y !! q = Some (r, Sending l)) as Hq.
  { intros q r l. subst y'. cbn. split; [|by apply lookup_app_l_Some]. intros [Hq|[_ Hq]]%lookup_app_Some; [done|].
    by apply list_lookup_singleton_Some in Hq as [_ ?]. }
  assert (waiters y' = waiters y /\ resultWaiters y' = resultWaiters y /\ workflows y' = workflows y /\ saved y' = saved y)
    as (Ew & Em & Ef & Es) by done. clearbody y'. split; rewrite ?Ew, ?Em, ?Ef, ?Es; try done.
  - intros j id w Hj. apply (waiter_ok_mono y); [by apply Hw|intros r ?; apply Htl; by left|by rewrite Es|]. rewrite Em.
    intros [?|(q & r & l & Hl & ?)] _; [by left|right]. exists q, r, l. by rewrite Hq.
  - intros r [Hr'| ->]%Htl; auto.
  - intros q r l j Hl Hj. apply Hq in Hl. by eapply Hsend.
Qed.

Lemma wait_step_ok o y y' : wait_step o y y' -> wait_ok y -> wait_ok y'.
Proof.
  intros Hstep Hy. pose proof Hy as [Hw Ht Ho Hr Hs Htold Hsend].
  destruct Hstep as [y id _|y record|y record Hrec|y i id inbox Hi|y i id record Hi Hf Hc|y i id Hi Hopen|y i id Hi|y i id record Hi
    |y i id answer Hi|y p record Hp|y p record ch rest Hp].
  - by apply new_waiter_ok.
  - by apply save_ok.
  - by apply notify_ok.
  - by eapply same_registry_ok.
  - eapply same_registry_ok; [done|done|done|]. cbn. destruct (Hs _ _ Hf). done.
  - by eapply same_registry_ok.
  - pose proof (Hw _ _ _ Hi) as Hok. assert (forall id', i ∉ registered id' (resultWaiters y)) as Hnew.
    { intros id' Hin. destruct (Hr _ _ Hin) as (w & Hw' & Hwaits). rewrite Hi in Hw'. by simplify_eq. }
    apply (set_waiter_ok y i id Registering (Receiving None) _ Hy Hi).
    + by apply register_tidy.
    + intros id'. rewrite registered_register. case_decide; [|done]. apply NoDup_app. split; [done|]. split; [|apply NoDup_singleton].
      intros j Hj ->%list_elem_of_singleton. by apply Hnew in Hj.
    + intros id' j. rewrite registered_register. case_decide; [subst|]; rewrite ?elem_of_app, ?list_elem_of_singleton; intros Hj.
      * destruct (decide (j = i)) as [->|]; [by left|right]. destruct Hj; [done|congruence].
      * right. split; [|done]. intros ->. by apply Hnew in Hj.
    + intros id' j _ Hj. rewrite registered_register. case_decide; [subst|done]. apply elem_of_app. by left.
    + intros _. left. cbn. rewrite registered_register, decide_True by done. set_solver.
  - destruct (Hw _ _ _ Hi) as [Htr Hid]. eapply same_registry_ok; [done|done|by destruct (closed record)|].
    destruct (closed record) eqn:E; cbn; [split_and!; auto|]. intros Hc. specialize (Hc record Htr Hid). congruence.
  - apply (set_waiter_ok y i id (Leaving answer) (Returned answer) _ Hy Hi).
    + by apply removed_tidy.
    + intros id'. rewrite registered_removed. case_decide; [by apply remove_first_NoDup|done].
    + intros id' j. rewrite registered_removed. case_decide; [subst; rewrite in_remove_first by done; tauto|]. intros Hj. right.
      split; [|done]. intros ->. destruct (Hr _ _ Hj) as (w & Hw' & _). rewrite Hi in Hw'. by simplify_eq.
    + intros id' j Hne Hj. rewrite registered_removed. case_decide; [subst; by apply in_remove_first|done].
    + pose proof (Hw _ _ _ Hi) as Hok. by destruct answer.
  - by apply take_ok.
  - by apply send_ok.
Qed.
Lemma reachable_ok y : reachable wait_init wait_steps y -> wait_ok y.
Proof.
  apply invariant_reachable. split; [|by intros y1 y2 Hy [o Hstep]; eapply wait_step_ok]. intros _ ->.
  split; cbn; try done; unfold registered; intros id; rewrite ?lookup_empty; cbn; try done; [constructor|].
  by intros i ?%not_elem_of_nil.
Qed.

(** A waiter whose channel was taken out of the registry is never in it again. *)
Definition out (i : nat) (idi : string) (y : WaitSystem) : Prop :=
  (exists w, waiters y !! i = Some (idi, w) /\ w <> Checking /\ w <> Registering) /\ forall id, i ∉ registered id (resultWaiters y).
Lemma out_set i idi y j id w0 w m : out i idi y -> waiters y !! j = Some (id, w0) -> (w0 <> Checking /\ w0 <> Registering -> w <> Checking /\ w <> Registering) ->
  (forall id', i ∈ registered id' m -> exists id'', i ∈ registered id'' (resultWaiters y)) -> out i idi (set_waiter j id w (y <| resultWaiters := m |>)).
Proof.
  intros [(wi & Hi & Hwi) Hout] Hj Hw Hm. split; [|intros id' Hin; by destruct (Hm id' Hin) as [id'' ?%Hout]].
  rewrite lookup_set by (cbn; eauto). case_decide as E; [subst j|by eauto]. rewrite Hi in Hj. simplify_eq. eauto.
Qed.
Lemma out_step i idi o y y' : wait_step o y y' -> wait_ok y -> out i idi y -> out i idi y'.
Proof.
  intros Hstep [Hw Ht Ho Hr Hs Htold Hsend] Hout.
  assert (forall id', i ∈ registered id' (resultWaiters y) -> exists id'', i ∈ registered id'' (resultWaiters y)) as Hsame by eauto.
  destruct Hstep as [y id _|y record|y record Hrec|y j id inbox Hj|y j id record Hj Hf Hc|y j id Hj Hopen|y j id Hj|y j id record Hj
    |y j id answer Hj|y p record Hp|y p record ch rest Hp].
  - destruct Hout as [(w & Hi & ?) Hn]. split; [|done]. exists w. split; [by apply lookup_app_l_Some|done].
  - exact Hout.
  - exact Hout.
  - by apply (out_set i idi y j id (Receiving inbox) (Leaving None) (resultWaiters y)).
  - by apply (out_set i idi y j id Checking (Returned (Some record)) (resultWaiters y)).
  - apply (out_set i idi y j id Checking Registering (resultWaiters y)); naive_solver.
  - destruct (decide (j = i)) as [->|Hne].
    { destruct Hout as [(w & Hi & ? & ?) Hn]. rewrite Hi in Hj. by simplify_eq. }
    apply (out_set i idi y j id Registering (Receiving None)); [done|done|done|]. intros id'. rewrite registered_register.
    case_decide; [|eauto]. rewrite elem_of_app, list_elem_of_singleton. intros [?|?]; [eauto|congruence].
  - apply (out_set i idi y j id (Receiving (Some record)) _ (resultWaiters y)); [done|done|by destruct (closed record)|done].
  - apply (out_set i idi y j id (Leaving answer) (Returned answer)); [done|done|done|]. intros id'. rewrite registered_removed.
    case_decide; [|eauto]. rewrite in_remove_first by done. naive_solver.
  - destruct Hout as [Hi Hn]. split; [exact Hi|]. intros id. change (i ∉ registered id (take_waiters record (resultWaiters y)).2).
    rewrite registered_taken. case_decide; [apply not_elem_of_nil|apply Hn].
  - destruct Hout as [(w & Hi & Hw') Hn]. split; [|exact Hn]. cbn. destruct (decide (i = ch)) as [->|Hne].
    + rewrite list_lookup_alter_eq, Hi. cbn. destruct w as [| |[]| |]; destruct Hw'; eexists; (split; [reflexivity|]); done.
    + rewrite list_lookup_alter_ne by done. eauto.
Qed.

(** Who is still there when nothing happens any more. *)
Lemma rest_position y i id w : at_rest y -> waiters y !! i = Some (id, w) ->
  (exists answer, w = Returned answer) \/ w = Receiving None.
Proof.
  intros Hrest Hi. destruct w as [| |[record|]|answer|answer].
  - exfalso. destruct (workflows y !! id) as [record|] eqn:E; [destruct (closed record) eqn:Ec|].
    + eapply Hrest. by eapply WsFound.
    + eapply Hrest, WsOpen; [done|]. intros r Hr'. rewrite E in Hr'. by simplify_eq.
    + eapply Hrest, WsOpen; [done|]. intros r Hr'. by rewrite E in Hr'.
  - exfalso. by eapply Hrest, WsRegister.
  - exfalso. by eapply Hrest, WsReceive.
  - by right.
  - exfalso. by eapply Hrest, WsLeave.
  - by left; eexists.
Qed.
Lemma rest_waiters y i id w : wait_ok y -> told_closed id y -> at_rest y -> waiters y !! i = Some (id, w) ->
  (exists answer, w = Returned answer) \/ (w = Receiving None /\ i ∈ registered id (resultWaiters y)).
Proof.
  intros Hok Hclosed Hrest Hi. destruct (rest_position y i id w Hrest Hi) as [?| ->]; [by left|right]. split; [done|].
  destruct (wo_waiters y Hok _ _ _ Hi Hclosed) as [Hin|(p & record & l & Hp & Hl)]; [exact Hin|]. exfalso.
  destruct l as [|ch rest]; [by apply not_elem_of_nil in Hl|]. by eapply Hrest, WsSend.
Qed.

(** C32: Waiting for a workflow.  In every interleaving of calls of WaitWorkflowTerminal and notifyWorkflowWaiters, writes of the
    store and contexts that end, a waiter only returns workflows that are closed, are the ones it waited for and were
    stored; when all waiters have returned, the registry is empty; and a waiter that was registered when a
    notifier took the waiters of its workflow, closed, has returned once nothing happens any more, unless some
    record of that workflow that is not closed was told too.  (Such a record can fill the channel when the closing
    one is sent: [open_record_hides_close].) *)
Theorem waiters_answered y : reachable wait_init wait_steps y ->
  (forall i id record, waiters y !! i = Some (id, Returned (Some record)) ->
     closed record = true /\ workflowID record = id /\ record ∈ saved y) /\
  ((forall i id w, waiters y !! i = Some (id, w) -> exists answer, w = Returned answer) -> resultWaiters y = ∅) /\
  (forall i p record later, notifiers y !! p = Some (record, Telling) -> closed record = true ->
     i ∈ registered (workflowID record) (resultWaiters y) ->
     rtc wait_steps (set_notifier p record (Sending (take_waiters record (resultWaiters y)).1)
                       (y <| resultWaiters := (take_waiters record (resultWaiters y)).2 |>)) later ->
     at_rest later ->
     (exists answer, waiters later !! i = Some (workflowID record, Returned answer)) \/
     (waiters later !! i = Some (workflowID record, Receiving None) /\ told_open (workflowID record) later)).
Proof.
  intros Hy. pose proof (reachable_ok y Hy) as Hok. pose proof Hok as [Hw Ht Ho Hr Hs Htold Hsend]. split; [|split].
  - intros i id record Hi. apply (Hw _ _ _ Hi).
  - intros Hall. apply map_empty. intros id. destruct (resultWaiters y !! id) as [[|i l]|] eqn:E; [by apply Ht in E| |done]. exfalso.
    assert (i ∈ registered id (resultWaiters y)) as Hin by (unfold registered; rewrite E; by left).
    destruct (Hr _ _ Hin) as (w & Hi & Hwaits). by destruct (Hall _ _ _ Hi) as [answer ->].
  - intros i p record later Hp Hc Hin Hsteps Hrest. set (id := workflowID record) in *.
    set (y1 := set_notifier _ _ _ _) in *. assert (wait_ok y1) as Hok1 by (by apply take_ok).
    assert (out i id y1) as Hout.
    { destruct (Hr _ _ Hin) as (w & Hi & Hwaits). split; [exists w; split; [exact Hi|by destruct w]|]. intros id' Hin'.
      change (i ∈ registered id' (take_waiters record (resultWaiters y)).2) in Hin'. rewrite registered_taken in Hin'.
      case_decide as E; [by apply not_elem_of_nil in Hin'|]. destruct (Hr _ _ Hin') as (w' & Hi' & _).
      rewrite Hi in Hi'. simplify_eq. by apply E. }
    clearbody y1. assert (wait_ok later /\ out i id later) as [Hok2 [(w & Hi & _) Hn]].
    { induction Hsteps as [|ya yb yc [o Hstep] _ IH]; [done|]. apply IH; [done|by eapply wait_step_ok|by eapply out_step]. }
    destruct (told_open_or_closed id later) as [Hopen|Hclosed].
    + destruct (rest_position later i id w Hrest Hi) as [[answer ->]| ->]; [left; by exists answer|right; by split].
    + destruct (rest_waiters later i id w Hok2 Hclosed Hrest Hi) as [[answer ->]|[_ Hreg]]; [left; by exists answer|by apply Hn in Hreg].
Qed.

(** ** A wakeup that is lost *)
Definition closed_record : WorkflowRecord :=
  mkWorkflowRecord (zero_task <| ID := "t1" |>) zero_plan
    (mkTaskAcceptance "t1" TaskStatusCompleted "" ComplexityLow "" "" "" "" false 0) None 0.
(** The waiter looked at the store before the workflow was closed there and registered after its
    waiters were told. *)
Definition late_waiter : WaitSystem :=
  mkWaitSystem {["t1" := closed_record]} {["t1" := [0%nat]]} [("t1", Receiving None)] [(closed_record, Sending [])] [closed_record].
(** A waiter who is told: the notifier is about to lock. *)
Definition waiting_system (w : WaiterAt) (n : NotifierAt) : WaitSystem :=
  mkWaitSystem {["t1" := closed_record]} {["t1" := [0%nat]]} [("t1", w)] [(closed_record, n)] [closed_record].

Lemma wait_steps_l o y y' z : wait_step o y y' -> rtc wait_steps y' z -> rtc wait_steps y z.
Proof. intros Hs Hr. eapply rtc_l; [by exists o|exact Hr]. Qed.
(** The state computed by a run is the one expected. *)
Ltac run_ends := match goal with |- rtc _ ?a ?b => assert (a = b) as -> by (vm_compute; reflexivity) end; apply rtc_refl.
Lemma late_waiter_reachable : reachable wait_init wait_steps late_waiter.
Proof.
  eexists. split; [reflexivity|]. eapply wait_steps_l; [apply (WsWait _ "t1"); discriminate|]. cbn.
  eapply wait_steps_l; [apply (WsOpen _ 0 "t1"); [reflexivity|by intros ? ?]|]. eapply wait_steps_l; [apply (WsSave _ closed_record)|].
  eapply wait_steps_l; [apply (WsNotify _ closed_record); by left|]. eapply wait_steps_l; [apply (WsTake _ 0 closed_record); reflexivity|].
  eapply wait_steps_l; [apply (WsRegister _ 0 "t1"); reflexivity|]. run_ends.
Qed.
(** The workflow is closed in the store, its waiters were told, and nothing happens any more; but one waits. *)
Theorem wait_wakeup_lost : exists y, reachable wait_init wait_steps y /\ at_rest y /\ told_closed "t1" y /\
  workflows y !! "t1" = Some closed_record /\ closed closed_record = true /\ notifiers y = [(closed_record, Sending [])] /\
  waiters y !! 0%nat = Some ("t1", Receiving None).
Proof.
  exists late_waiter. split; [exact late_waiter_reachable|]. split_and!; try done.
  - intros y' Hs. inversion Hs as [| | | |y i id record Hi|y i id Hi|y i id Hi|y i id record Hi|y i id answer Hi|y p record Hp|y p record ch rest Hp]; subst.
    all: try (destruct i as [|i]; cbn in Hi; simplify_eq). all: destruct p as [|p]; cbn in Hp; simplify_eq.
  - by intros record ->%list_elem_of_singleton _.
Qed.

(** ** A closing that is not heard *)
Definition open_record : WorkflowRecord := closed_record <| Acceptance ::= fun a => a <| AccStatus := TaskStatusRunning |> |>.
(** The waiter was told of the running workflow, and the channel was still full when its closing was sent. *)
Definition deaf_waiter : WaitSystem :=
  mkWaitSystem {["t1" := closed_record]} ∅ [("t1", Receiving None)]
    [(open_record, Sending []); (closed_record, Sending [])] [open_record; closed_record].
Lemma deaf_waiter_reachable : exists y, reachable wait_init wait_steps y /\
  notifiers y !! 1%nat = Some (closed_record, Telling) /\ 0%nat ∈ registered "t1" (resultWaiters y) /\
  rtc wait_steps (set_notifier 1 closed_record (Sending (take_waiters closed_record (resultWaiters y)).1)
                    (y <| resultWaiters := (take_waiters closed_record (resultWaiters y)).2 |>)) deaf_waiter.
Proof.
  exists (mkWaitSystem {["t1" := closed_record]} {["t1" := [0%nat]]} [("t1", Receiving (Some open_record))]
    [(open_record, Sending []); (closed_record, Telling)] [open_record; closed_record]).
  split; [|split; [done|split; [by left|]]].
  - eexists. split; [reflexivity|]. eapply wait_steps_l; [apply (WsWait _ "t1"); discriminate|]. cbn.
    eapply wait_steps_l; [apply (WsOpen _ 0 "t1"); [reflexivity|by intros ? ?]|]. eapply wait_steps_l; [apply (WsRegister _ 0 "t1"); reflexivity|].
    eapply wait_steps_l; [apply (WsSave _ open_record)|]. eapply wait_steps_l; [apply (WsNotify _ open_record); by left|].
    eapply wait_steps_l; [apply (WsTake _ 0 open_record); reflexivity|].
    eapply wait_steps_l; [apply (WsSend _ 0 open_record 0 []); reflexivity|].
    eapply wait_steps_l; [apply (WsSave _ closed_record)|].
    eapply wait_steps_l; [apply (WsNotify _ closed_record); right; by left|]. run_ends.
  - eapply wait_steps_l; [apply (WsSend _ 1 closed_record 0 []); reflexivity|].
    eapply wait_steps_l; [apply (WsReceive _ 0 "t1" open_record); reflexivity|]. run_ends.
Qed.
(** A waiter that was registered when its workflow was closed and told can still wait for ever: the record of the
    running workflow, not yet read, kept the closing one out of its channel. *)
Theorem open_record_hides_close : exists y later, reachable wait_init wait_steps y /\
  notifiers y !! 1%nat = Some (closed_record, Telling) /\ closed closed_record = true /\
  0%nat ∈ registered "t1" (resultWaiters y) /\
  rtc wait_steps (set_notifier 1 closed_record (Sending (take_waiters closed_record (resultWaiters y)).1)
                    (y <| resultWaiters := (take_waiters closed_record (resultWaiters y)).2 |>)) later /\
  at_rest later /\ waiters later !! 0%nat = Some ("t1", Receiving None) /\ workflows later !! "t1" = Some closed_record.
Proof.
  destruct deaf_waiter_reachable as (y & Hy & Hn & Hr & Hsteps). exists y, deaf_waiter. split_and!; try done.
  intros y' Hs. inversion Hs as [| | | |? i id record Hi|? i id Hi|? i id Hi|? i id record Hi|? i id answer Hi|? p record Hp|? p record ch rest Hp]; subst.
  all: try (destruct i as [|i]; cbn in Hi; simplify_eq). all: destruct p as [|[|p]]; cbn in Hp; simplify_eq.
Qed.
Lemma told_waiter_reachable : reachable wait_init wait_steps (waiting_system (Receiving None) Telling).
Proof.
  eexists. split; [reflexivity|]. eapply wait_steps_l; [apply (WsWait _ "t1"); discriminate|]. cbn.
  eapply wait_steps_l; [apply (WsOpen _ 0 "t1"); [reflexivity|by intros ? ?]|]. eapply wait_steps_l; [apply (WsRegister _ 0 "t1"); reflexivity|].
  eapply wait_steps_l; [apply (WsSave _ closed_record)|]. eapply wait_steps_l; [apply (WsNotify _ closed_record); by left|].
  run_ends.
Qed.

(** The waiter has the workflow and has left. *)
Definition answered_waiter : WaitSystem :=
  mkWaitSystem {["t1" := closed_record]} ∅ [("t1", Returned (Some closed_record))] [(closed_record, Sending [])] [closed_record].
Lemma answered_at_rest : at_rest answered_waiter.
Proof.
  intros y' Hs. inversion Hs as [| | | |y i id record Hi|y i id Hi|y i id Hi|y i id record Hi|y i id answer Hi|y p record Hp|y p record ch rest Hp]; subst.
  all: try (destruct i as [|i]; cbn in Hi; simplify_eq). all: destruct p as [|p]; cbn in Hp; simplify_eq.
Qed.
Lemma told_answered : rtc wait_steps (waiting_system (Receiving None) (Sending [0%nat]) <| resultWaiters := ∅ |>) answered_waiter.
Proof.
  eapply wait_steps_l; [apply (WsSend _ 0 closed_record 0 []); reflexivity|].
  eapply wait_steps_l; [apply (WsReceive _ 0 "t1" closed_record); reflexivity|].
  eapply wait_steps_l; [apply (WsLeave _ 0 "t1" (Some closed_record)); reflexivity|].
  run_ends.
Qed.
Lemma waiters_answered_witness :
  (exists answer, waiters answered_waiter !! 0%nat = Some ("t1", Returned answer)) \/
  (waiters answered_waiter !! 0%nat = Some ("t1", Receiving None) /\ told_open "t1" answered_waiter).
Proof.
  apply (proj2 (proj2 (waiters_answered (waiting_system (Receiving None) Telling) told_waiter_reachable)) 0%nat 0%nat closed_record).
  - reflexivity.
  - reflexivity.
  - by left.
  - match goal with |- rtc _ ?a ?b => assert (a = waiting_system (Receiving None) (Sending [0%nat]) <| resultWaiters := ∅ |>) as ->
      by (vm_compute; reflexivity) end. exact told_answered.
  - exact answered_at_rest.
Defined.
