(* ===== verification/AgentEnvelope.v ===== *)
(** * The side of the agents (kernel/orchestrator.go)

    A worker pool hands the envelopes of an agent's mailbox to [handleAgentEnvelope]: the agent is asked
    and a result is published for [handleTaskResult]; [publishEnvelopeDeadLetter] publishes one for an
    envelope that the pool gives up. *)
From S2P Require Import Prelude Bus Supervisor GoLib GoJSON Domain TaskPolicy Policy StateMonad AgentRegistry RuntimeManager.
From S2P Require Import SubmissionScheduler AdaptiveRuntime LiveRealtime Router Planner PlanScheduling TraceParser.
From S2P Require Import ExecutionEffects Reasoning ExecutionRecords PeerExecution Workflows.
From Stdlib Require Import PrimFloat.

Section AgentEnvelope.
Context {B : Type} `{Bus B}.
(** [unmarshal] is [json.Unmarshal] of [json.Marshal] into a [domain.Task]: the error or the task. *)
Context (nowAt : nat -> Time) (worker : string -> Worker) (selfLearn : SelfLearning) (env : Surroundings) (store : Store)
  (unmarshal : any -> string + Task).
Abbreviation CT := (ST (Core B)).
Abbreviation core_Now := (core_Now nowAt).

(** The error, or the task. *)
Definition decodeTaskFromEnvelope (envelope : TaskEnvelope) : string + Task :=
  match aget (InputData (Payload envelope)) "task" with
  | None => inl "task payload is missing"
  | Some rawTask =>
      match unmarshal rawTask with
      | inl err => inl err
      | inr task =>
          let task := if String.eqb (ID task) "" then task <| ID := EnvTaskID envelope |> else task in
          let task := if String.eqb (ParentTaskID task) "" then task <| ParentTaskID := EnvParentTaskID envelope |> else task in
          inr (if String.eqb (SessionID task) ""
               then task <| SessionID := firstNonEmptyString [CorrelationID envelope; ID task] |> else task)
      end
  end.
(** The task of an envelope whose payload cannot be read. *)
Definition envelope_task (envelope : TaskEnvelope) : Task :=
  match decodeTaskFromEnvelope envelope with
  | inr task => task
  | inl _ => zero_task <| ID := EnvTaskID envelope |> <| ParentTaskID := EnvParentTaskID envelope |>
               <| SessionID := firstNonEmptyString [CorrelationID envelope; EnvTaskID envelope] |>
  end.
Definition buildTaskResultEnvelope (now : Time) (task : Task) (envelope : TaskEnvelope) (acceptance : TaskAcceptance)
  (result : AgentResult) : TaskResultEnvelope :=
  mkTaskResultEnvelope (ID task) (ParentTaskID task) (TraceID envelope)
    (firstNonEmptyString [SessionID task; CorrelationID envelope; ID task]) (SourceAgent envelope)
    (firstNonEmptyString [ResAgentID result; AccAgentID acceptance; TargetAgent envelope])
    (normalizeTaskStatus (ResStatus result)) result now.

(** [PublishResult] of a bus that is a [TaskResultQueue]: the error, and the bus. *)
Context (queue : option (TaskResultEnvelope -> B -> option string * B)).
Definition publish_result (task : Task) (envelope : TaskEnvelope) (acceptance : TaskAcceptance) (result : AgentResult)
  : CT (option string) :=
  match queue with
  | None => mret (Some "result queue is unavailable")
  | Some PublishResult =>
      now ← core_Now;
      on_kernel (on_delivery (fun s =>
        let '(err, b) := PublishResult (buildTaskResultEnvelope now task envelope acceptance result) (messageBus s) in
        (err, s <| messageBus := b |>)))
  end.

Definition publishEnvelopeFailure (envelope : TaskEnvelope) (agent : AgentInfo) (reason : string) : CT (option string) :=
  match queue with
  | None => mret (Some "result queue is unavailable")
  | Some _ =>
      let task := envelope_task envelope in
      accepted ← core_Now;
      let acceptance := mkTaskAcceptance (ID task) TaskStatusFailed (InfoID agent) (ComplexityOther "") "" ""
                          (InfoProvider agent) (InfoModelName agent) false accepted in
      completed ← core_Now;
      publish_result task envelope acceptance (failedAttemptResult completed task acceptance agent reason)
  end.

(** The acceptance of the stored workflow, if it has one. *)
Definition stored_acceptance (stored : string + option WorkflowRecord) : option TaskAcceptance :=
  match stored with
  | inr (Some workflow) =>
      if String.eqb (AccTaskID (Acceptance workflow)) "" then None else Some (Acceptance workflow)
  | _ => None
  end.
Definition publishEnvelopeDeadLetter (envelope : TaskEnvelope) (reason : string) : CT (option string) :=
  match queue with
  | None => mret (Some "result queue is unavailable")
  | Some _ =>
      let task := envelope_task envelope in
      accepted ← core_Now;
      stored ← GetWorkflow store (ID task);
      let acceptance := default (mkTaskAcceptance (ID task) TaskStatusDeadLettered (TargetAgent envelope) (ComplexityOther "") "" ""
                          "" "" false accepted) (stored_acceptance stored) in
      let acceptance := acceptance <| AccAgentID ::= fun id => firstNonEmptyString [id; TargetAgent envelope] |>
                          <| AccStatus := TaskStatusDeadLettered |> in
      completed ← core_Now;
      publish_result task envelope acceptance
        (mkAgentResult (ID task) (AccAgentID acceptance) TaskStatusDeadLettered 0%float [reason] [] (AccProvider acceptance)
           (AccModelName acceptance) (mkResultOutput reason [] [] [] []) completed)
  end.

(** What is recorded once the agent has answered. *)
Definition record_answer (task : Task) (envelope : TaskEnvelope) (acceptance : TaskAcceptance) (agent : AgentInfo)
  (result : AgentResult) (latency : Z) : CT () :=
  let summary := Summary (Output result) in
  core_journal (RecordModelUsage task (AccModelName acceptance) result);;
  (if bool_decide (ResStatus result = TaskStatusFailed) then
     core_journal (RecordHardStop task "agent_execute" summary);;
     (if su_hasRuntime env then on_kernel (record_failure nowAt task (InfoID agent) summary) else mret ())
   else if su_hasRuntime env then on_kernel (record_success nowAt (InfoID agent)) else mret ());;
  on_kernel (persist_execution nowAt selfLearn env task acceptance agent result latency);;
  core_journal (RecordPeerExchange envelope acceptance result summary).
(** The slots are acquired at once or refused; the capacity is published when they are held and again when they
    are given back, on return. *)
Definition handleAgentEnvelope (agent : Agent) (envelope : TaskEnvelope) : CT (option string) :=
  let info := Info agent in
  match decodeTaskFromEnvelope envelope with
  | inl err => publishEnvelopeFailure envelope info err
  | inr task =>
      stored ← GetWorkflow store (ID task);
      acceptance ← match stored_acceptance stored with
                   | Some acceptance => mret acceptance
                   | None =>
                       now ← core_Now;
                       mret (mkTaskAcceptance (ID task) TaskStatusRunning (TargetAgent envelope) (Complexity_ task) ""
                               (RequiredCapability task) (AssignedProvider task) (AssignedModel task) false now)
                   end;
      let acceptance := if String.eqb (AccAgentID acceptance) "" then acceptance <| AccAgentID := InfoID info |> else acceptance in
      n ← core_moment;
      match su_slot_error env n info (AccModelName acceptance) with
      | Some err => publishEnvelopeFailure envelope info err
      | None =>
          on_kernel (refreshRuntimeCapacity nowAt env info);;
          executed ← on_kernel (on_io (executeAgentWithReasoning nowAt worker selfLearn task acceptance agent));
          let '(task, result, latency) := executed in
          let result := result <| ResTaskID := ID task |> <| ResAgentID := InfoID info |>
            <| ResProvider ::= fun provider => firstNonEmptyString [provider; AccProvider acceptance] |>
            <| ResModelName ::= fun model => firstNonEmptyString [model; AccModelName acceptance] |> in
          result ← (if IsZero (CompletedAtResult result)
                    then now ← core_Now; mret (result <| CompletedAtResult := now |>) else mret result);
          record_answer task envelope acceptance info result latency;;
          err ← publish_result task envelope acceptance result;
          on_kernel (refreshRuntimeCapacity nowAt env info);;
          mret err
      end
  end.
End AgentEnvelope.
