(* ===== verification/AgentEnvelopeProps.v ===== *)
(** * Properties of the side of the agents

    Every envelope that is handled is answered by one result. *)
From S2P Require Import Prelude Bus MessageBus Supervisor GoLib GoJSON Domain TaskPolicy Policy StateMonad AgentRegistry RuntimeManager.
From S2P Require Import RuntimeViews RuntimeManagerProps SubmissionScheduler AdaptiveRuntime LiveRealtime Router RouterProps.
From S2P Require Import Planner PlannerProps PlanScheduling TraceParser ExecutionEffects Reasoning ReasoningProps ExecutionRecords.
From S2P Require Import PeerExecution PeerExecutionProps Workflows JournalProps WorkflowProps Submission SubmissionProps.
From S2P Require Import AsyncWorkflow AsyncWorkflowProps DispatchProps AgentEnvelope.
From Stdlib Require Import PrimFloat.

(** Steps that send nothing. *)
Definition unsent {B} : relation (Kernel B) := fun k k' => kn_delivery k' = kn_delivery k.
#[export] Instance unsent_preorder {B} : PreOrder (unsent (B := B)).
Proof. unfold unsent. split; [by intros k|]. intros k1 k2 k3 H1 H2. congruence. Qed.
#[export] Instance unsent_io {B A} (f : AT A) : Moves (unsent (B := B)) (on_io f).
Proof. intros k. unfold unsent, on_io, exec. by destruct (f (kn_io k)). Qed.
#[export] Instance unsent_runtime {B A} (f : RT A) : Moves (unsent (B := B)) (on_runtime f).
Proof. intros k. unfold unsent, on_runtime, exec. by destruct (f (kn_runtime k)). Qed.

Section EnvelopeProps.
Context (nowAt : nat -> Time) (worker : string -> Worker) (selfLearn : SelfLearning) (env : Surroundings) (store : Store)
  (unmarshal : any -> string + Task).
Context (ags : gmap string Agent) (agent : Agent) (Hreg : ags !! InfoID (Info agent) = Some agent)
  (Htrim : TrimSpace (InfoID (Info agent)) = InfoID (Info agent)).
Abbreviation CT := (ST (Core MessageBus)).
Abbreviation kernel_ok := (PeerExecutionProps.kernel_ok (B := MessageBus) ags).
Abbreviation bus_of c := (messageBus (kn_delivery (co_kernel c))).
(** The in-memory bus as a queue of results. *)
Definition result_queue : option (TaskResultEnvelope -> MessageBus -> option string * MessageBus) :=
  Some (fun result b => (None, PublishResult result b)).
Abbreviation handleAgentEnvelope := (handleAgentEnvelope nowAt worker selfLearn env store unmarshal result_queue).

(** Steps around the call of the agent: no call, nothing sent, nothing stored, no waiter woken. *)
Definition around : relation (Core MessageBus) := fun c c' => kernel_ok (co_kernel c) ->
  kernel_ok (co_kernel c') /\ called c' = called c /\ continues (journal_of c) (journal_of c') /\ bus_of c' = bus_of c /\
  co_workflows c' = co_workflows c.
#[export] Instance around_preorder : PreOrder around.
Proof.
  unfold around. split; [by intros c|]. intros c1 c2 c3 H1 H2 Hk. destruct (H1 Hk) as (K2 & C2 & J2 & B2 & W2).
  destruct (H2 K2) as (K3 & C3 & J3 & B3 & W3). split_and!; [done|congruence|by etransitivity|congruence|congruence].
Qed.
#[export] Instance around_kernel {A} (f : ST (Kernel MessageBus) A) : Calm ags f -> Moves kernel_logged f -> Moves unsent f ->
  Moves around (on_kernel f).
Proof.
  intros Hc Hl Hu c Hk. destruct (Hc (co_kernel c) Hk) as [H1 H2]. pose proof (Hl (co_kernel c)) as H3. pose proof (Hu (co_kernel c)) as H4.
  destruct (run_core f c) as [-> _]. split_and!; [exact H1|exact H2|exact H3|by cbn; rewrite H4|done].
Qed.
#[export] Instance around_now : Moves around (core_Now (B := MessageBus) nowAt).
Proof. unfold core_Now, kernel_Now. apply _. Qed.
#[export] Instance around_moment : Moves around (core_moment (B := MessageBus)).
Proof. unfold core_moment, moment. apply _. Qed.
#[export] Instance around_journal e : TCEq (silent e) true -> Moves around (core_journal (B := MessageBus) e).
Proof. intros He. unfold core_journal. apply around_kernel; [apply _|apply _|]. unfold journal. apply _. Qed.

#[export] Instance around_capacity : Moves around (on_kernel (B := MessageBus) (refreshRuntimeCapacity nowAt env (Info agent))).
Proof.
  apply around_kernel; [by eapply calm_capacity|apply _|]. unfold refreshRuntimeCapacity, moment, kernel_Now. walk.
Qed.

(** A result that is published for an envelope, after these calls of the agent. *)
Record published (id : string) (c : Core MessageBus) (calls : list (string * Task * AgentResult)) (c' : Core MessageBus)
  (result : TaskResultEnvelope) : Prop := mkPublished {
  pb_kernel : kernel_ok (co_kernel c');
  pb_queue : results (bus_of c') = results (bus_of c) ++ [result];
  pb_task : ReTaskID result = id /\ ResTaskID (ReResult result) = id;
  pb_status : ReStatus result = normalizeTaskStatus (ResStatus (ReResult result));
  pb_calls : called c' = called c ++ calls;
  pb_workflows : co_workflows c' = co_workflows c;
  pb_journal : continues (journal_of c) (journal_of c') }.

Lemma published_around id c0 calls c c' result : published id c0 calls c result -> around c c' -> published id c0 calls c' result.
Proof.
  intros [Hk Hq Ht Hs Hc Hw Hj] Ha. destruct (Ha Hk) as (K2 & C2 & J2 & B2 & W2).
  split; [done|by rewrite B2|done|done|congruence|congruence|by etransitivity].
Qed.

(** So far the agent was called, and nothing sent or stored. *)
Definition asked (c0 c : Core MessageBus) (calls : list (string * Task * AgentResult)) : Prop :=
  kernel_ok (co_kernel c) /\ called c = called c0 ++ calls /\ continues (journal_of c0) (journal_of c) /\ bus_of c = bus_of c0 /\
  co_workflows c = co_workflows c0.
Lemma asked_around c0 c c' calls : asked c0 c calls -> around c c' -> asked c0 c' calls.
Proof.
  intros (K1 & C1 & J1 & B1 & W1) Hc. destruct (Hc K1) as (K2 & C2 & J2 & B2 & W2).
  split_and!; [done|congruence|by etransitivity|congruence|congruence].
Qed.
Lemma asked_none c : kernel_ok (co_kernel c) -> asked c c [].
Proof. intros Hk. split_and!; try done. by rewrite app_nil_r. Qed.

Lemma publish_spec c0 c calls task envelope acc r : asked c0 c calls -> ResTaskID r = ID task ->
  let f := publish_result nowAt result_queue task envelope acc r in
  eval f c = None /\ exists result, published (ID task) c0 calls (exec f c) result /\ ReResult result = r.
Proof.
  intros Hc Hid f. subst f. unfold publish_result, result_queue. rewrite exec_bind, eval_bind.
  destruct (asked_around _ _ _ _ Hc (moves (R := around) (f := core_Now nowAt) c)) as (K & C & J & E & W).
  set (now := eval (core_Now nowAt) c). set (c2 := exec (core_Now nowAt) c) in *. clearbody now c2.
  match goal with |- context [on_kernel ?g] => destruct (run_core g c2) as [E1 E2]; rewrite E1, E2 end.
  split; [done|]. exists (buildTaskResultEnvelope now task envelope acc r). split; [|done]. split; try done.
  cbn. by rewrite E.
Qed.

(** An envelope that is not handed to its agent is answered by a failed result. *)
Lemma failure_spec c0 c envelope reason : asked c0 c [] ->
  let f := publishEnvelopeFailure nowAt unmarshal result_queue envelope (Info agent) reason in
  eval f c = None /\ exists result, published (ID (envelope_task unmarshal envelope)) c0 [] (exec f c) result /\
    ResStatus (ReResult result) = TaskStatusFailed /\ ResAgentID (ReResult result) = InfoID (Info agent).
Proof.
  intros Hc f. subst f. unfold publishEnvelopeFailure, result_queue. fold result_queue. cbv zeta. rewrite !exec_bind, !eval_bind.
  set (task := envelope_task unmarshal envelope). set (c1 := exec (core_Now nowAt) c).
  assert (asked c0 c1 []) as H1 by (eapply asked_around; [exact Hc|apply (moves (R := around))]).
  set (c2 := exec (core_Now nowAt) c1).
  assert (asked c0 c2 []) as H2 by (eapply asked_around; [exact H1|apply (moves (R := around))]).
  match goal with |- context [publish_result nowAt result_queue task envelope ?a ?r] =>
    destruct (publish_spec c0 c2 [] task envelope a r H2 eq_refl) as (He & result & Hp & Hr) end.
  split; [exact He|]. exists result. by rewrite Hr.
Qed.

Lemma around_record task envelope acc r lat : Moves around (record_answer nowAt selfLearn env task envelope acc (Info agent) r lat).
Proof.
  unfold record_answer. cbv zeta. apply moves_bind; [apply _|intros _|apply _]. apply moves_bind; [|intros _|apply _].
  - apply moves_if; [apply moves_bind; [apply _|intros _|apply _]|]; (apply moves_if; [|apply _]); apply around_kernel.
    + by eapply calm_failure.
    + apply _.
    + unfold record_failure, kernel_Now, publish. walk.
    + by eapply calm_success.
    + apply _.
    + unfold record_success, kernel_Now. walk.
  - apply moves_bind; [|intros _; apply _|apply _]. apply around_kernel; [apply _|apply _|]. unfold persist_execution. apply _.
Qed.

(** The agent is called, and its task keeps its id. *)
Lemma execute_spec c0 c task acc : asked c0 c [] ->
  let f := executeAgentWithReasoning nowAt worker selfLearn task acc agent in
  let '(task', r, _) := eval (on_kernel (on_io f)) c in
  ID task' = ID task /\ exists calls, asked c0 (exec (on_kernel (on_io f)) c) calls /\ attempt_calls selfLearn agent calls r.
Proof.
  intros (K & C & J & E & W) f. destruct (run_core (on_io f) c) as [-> ->]. destruct (on_io_spec f (co_kernel c)) as [-> ->].
  pose proof (agent_answers_spec nowAt worker selfLearn task acc agent (kn_io (co_kernel c))) as Ha.
  pose proof (moves (R := logged) (f := f) (kn_io (co_kernel c))) as Hl. fold f in Ha.
  assert (f (kn_io (co_kernel c)) = (exec f (kn_io (co_kernel c)), eval f (kn_io (co_kernel c)))) as Ef by apply surjective_pairing.
  rewrite Ef in Ha. clear Ef. set (io := exec f (kn_io (co_kernel c))) in *.
  destruct (eval f (kn_io (co_kernel c))) as [[task' r] lat]. clearbody io. clear f.
  destruct Ha as ([hints ->] & calls & reviews & Hc & Hl1 & Hl2 & Hab & _). split; [done|]. exists (calls ++ reviews). split.
  - split_and!; [exact K| |by etransitivity|exact E|exact W]. change (io_calls io = called c0 ++ calls ++ reviews). rewrite Hc.
    rewrite app_nil_r in C. unfold called in C at 1. by rewrite C.
  - split_and!.
    + eapply Forall_impl; [exact Hab|]. by intros x [Hx _].
    + etransitivity; [exact Hl2|]. by apply (call_bound_attempt selfLearn task acc).
    + intros _ Hnil. destruct calls; [revert Hl1; unfold len; cbn; lia|done].
Qed.

Lemma handle_envelope_spec c envelope : kernel_ok (co_kernel c) ->
  let f := handleAgentEnvelope agent envelope in
  eval f c = None /\ exists calls result, published (ID (envelope_task unmarshal envelope)) c calls (exec f c) result /\
    ResAgentID (ReResult result) = InfoID (Info agent) /\ attempt_calls selfLearn agent calls (ReResult result).
Proof.
  intros Hk f. subst f. pose proof (asked_none c Hk) as H0. unfold AgentEnvelope.handleAgentEnvelope. cbv zeta.
  assert (forall c1 reason, asked c c1 [] ->
    let f := publishEnvelopeFailure nowAt unmarshal result_queue envelope (Info agent) reason in
    eval f c1 = None /\ exists calls result, published (ID (envelope_task unmarshal envelope)) c calls (exec f c1) result /\
      ResAgentID (ReResult result) = InfoID (Info agent) /\ attempt_calls selfLearn agent calls (ReResult result)) as Hfail.
  { intros c1 reason H1. destruct (failure_spec c c1 envelope reason H1) as (He & result & Hp & Hst & Hag). split; [exact He|].
    exists [], result. split; [exact Hp|]. split; [exact Hag|]. by apply (no_calls selfLearn agent zero_task (mkTaskAcceptance "" TaskStatusFailed "" (ComplexityOther "") "" "" "" "" false 0)). }
  unfold envelope_task in *. destruct (decodeTaskFromEnvelope unmarshal envelope) as [err|task]; [by apply Hfail|].
  rewrite exec_bind, eval_bind. assert (exec (GetWorkflow store (ID task)) c = c) as ->.
  { unfold GetWorkflow. by rewrite exec_bind, exec_core_moment, exec_gets. }
  set (stored := stored_acceptance _). rewrite exec_bind, eval_bind.
  match goal with |- context [exec ?g c] => set (accept := g) end.
  assert (asked c (exec accept c) []) as H1.
  { eapply asked_around; [exact H0|]. subst accept. destruct stored; [reflexivity|].
    assert (Moves around (core_Now (B := MessageBus) nowAt)) as Hm by apply _. rewrite exec_bind. apply Hm. }
  set (acc := if String.eqb _ "" then _ else _). set (c1 := exec accept c) in *. clearbody acc c1. clear accept stored.
  rewrite exec_bind, eval_bind, exec_core_moment.
  destruct (su_slot_error env (eval core_moment c1) (Info agent) (AccModelName acc)) as [err|]; [by apply Hfail|].
  rewrite exec_bind, eval_bind. assert (asked c (exec (on_kernel (refreshRuntimeCapacity nowAt env (Info agent))) c1) []) as H1'
    by (eapply asked_around; [exact H1|apply (moves (R := around))]).
  set (c1' := exec _ c1) in *. clearbody c1'. clear c1 H1. rename c1' into c1, H1' into H1.
  rewrite exec_bind, eval_bind. pose proof (execute_spec c c1 task acc H1) as Hx. cbv zeta in Hx.
  set (c2 := exec (on_kernel (on_io _)) c1) in *. destruct (eval (on_kernel (on_io _)) c1) as [[task' r] lat].
  destruct Hx as (Hid & calls & H2 & Hcalls). clearbody c2. rewrite <- Hid. clear Hfail Hid task.
  rewrite exec_bind, eval_bind. match goal with |- context [exec ?g c2] => set (complete := g) end.
  set (c3 := exec complete c2). assert (asked c c3 calls) as H3.
  { eapply asked_around; [exact H2|]. subst c3 complete. destruct (IsZero _); [|reflexivity].
    assert (Moves around (core_Now (B := MessageBus) nowAt)) as Hm by apply _. rewrite exec_bind. apply Hm. }
  assert (ResTaskID (eval complete c2) = ID task' /\ ResAgentID (eval complete c2) = InfoID (Info agent) /\
    ResStatus (eval complete c2) = ResStatus r) as (Ht & Ha & Hst).
  { subst complete. by destruct (IsZero _). }
  set (r' := eval complete c2) in *. clearbody c3 r'. clear complete. rewrite exec_bind, eval_bind.
  pose proof (asked_around _ _ _ _ H3 (around_record task' envelope acc r' lat c3)) as H4. set (c4 := exec (record_answer _ _ _ _ _ _ _ _ _) c3) in *.
  clearbody c4. destruct (publish_spec c c4 calls task' envelope acc r' H4 Ht) as (He & result & Hp & Hr).
  rewrite exec_bind, eval_bind, exec_bind, eval_bind, exec_ret, eval_ret, He. split; [done|].
  exists calls, result. rewrite Hr. split; [eapply published_around; [exact Hp|apply (moves (R := around))]|]. split; [exact Ha|]. destruct Hcalls as (? & ? & Hne).
  split_and!; [done|done|]. by rewrite Hst.
Qed.

(** C34: Every envelope is answered.  Whatever the payload of the envelope, the store, the slots and the answer of
    the agent are, handling an envelope of a registered agent's mailbox on the in-memory bus ends without an
    error and puts exactly one result at the end of the result queue.  It is a result for the task of the
    envelope and from this agent, with the status of the answer; every call was made to
    this agent, there are no more of them than the rounds of reasoning and criticism allow, and without one
    the result is failed.  No workflow is stored and no waiter told. *)
Theorem envelope_answered c envelope : kernel_ok (co_kernel c) ->
  let f := handleAgentEnvelope agent envelope in
  eval f c = None /\ exists calls result, published (ID (envelope_task unmarshal envelope)) c calls (exec f c) result /\
    ResAgentID (ReResult result) = InfoID (Info agent) /\ attempt_calls selfLearn agent calls (ReResult result).
Proof. exact (handle_envelope_spec c envelope). Qed.
End EnvelopeProps.

(** ** A round: the agent answers and the result is handled *)
Section Round.
Context (deliveryNow nowAt : nat -> Time) (worker : string -> Worker) (selfLearn : SelfLearning) (env : Surroundings)
  (desk : Desk MessageBus) `{!StoreWorks (dk_store desk)} (unmarshal : any -> string + Task).
Context (ags : gmap string Agent) (Hrange : forall s, list_to_set (su_range env s) = s).

(** An agent works on the envelope and a worker takes the result. *)
Definition round (agent : Agent) (envelope : TaskEnvelope) (workerID : Z) : ST (Core MessageBus) () :=
  handleAgentEnvelope nowAt worker selfLearn env (dk_store desk) unmarshal result_queue agent envelope;;
  result_turn deliveryNow nowAt env desk workerID.

(** The workflow after the round of an agent who answered [r]. *)
Definition after_round (workflow : WorkflowRecord) (agentID : string) (r : AgentResult) (c : Core MessageBus) (record : WorkflowRecord) : Prop :=
  ID (WfTask record) = ID (WfTask workflow) /\ WfPlan record = WfPlan workflow /\
  if ongoing (normalizeTaskStatus (ResStatus r))
  then Result record = Some r /\ AccStatus (Acceptance record) = normalizeTaskStatus (ResStatus r)
  else
    (Result record = Some r /\ AccStatus (Acceptance record) = normalizeTaskStatus (ResStatus r) /\
     exists before, journal_of c = before ++ [NotifyWorkflowWaiters record]) \/
    (ResStatus r = TaskStatusFailed /\ Result record = None /\ AccStatus (Acceptance record) = TaskStatusRunning /\
     AccAgentID (Acceptance record) ∈ dom ags /\
     excludedAgentsFromTask (WfTask record) = {[agentID]} ∪ excludedAgentsFromTask (WfTask workflow) /\
     AccAgentID (Acceptance record) ∉ excludedAgentsFromTask (WfTask record)).

Lemma process_spec workerID result c : PeerExecutionProps.kernel_ok ags (co_kernel c) ->
  ID (WfTask (workflow_of result c)) = ReTaskID result -> sender result <> "" ->
  exists c1, still (B := MessageBus) ags (ReTaskID result) c c1 /\ kept c c1 /\
    let f := process_result deliveryNow nowAt env desk workerID result in
    eval f c = true /\ handled (B := MessageBus) env ags result c1 None (exec f c).
Proof.
  intros Hk Hid Hs. unfold process_result. set (say := on_kernel _). exists (exec say c).
  assert (still (B := MessageBus) ags (ReTaskID result) c (exec say c)) as H1 by apply moves.
  assert (kept c (exec say c)) as K1 by apply (moves (R := kept)). set (c1 := exec say c) in *.
  split; [exact H1|]. split; [exact K1|]. cbv zeta. rewrite exec_bind, eval_bind. fold c1. clearbody c1. rewrite exec_bind, eval_bind.
  destruct (handle_spec deliveryNow nowAt env desk ags Hrange result c1) as [He Hh]; [by apply H1| |exact Hs|].
  { unfold workflow_of in *. by rewrite (K1 : _ = _). }
  rewrite He, exec_ret, eval_ret. split; [done|]. split; [done|exact Hh].
Qed.
Lemma normalized_status_idem status : normalizeTaskStatus (normalizeTaskStatus status) = normalizeTaskStatus status.
Proof. destruct status as [| | | | | | | | |s]; try done. cbn. by destruct s. Qed.
Lemma normalized_status_failed status : normalizeTaskStatus status = TaskStatusFailed -> status = TaskStatusFailed.
Proof. destruct status as [| | | | | | | | |s]; try done. cbn. by destruct s. Qed.
Lemma result_status accepted updated result workflow :
  AccStatus (Acceptance (with_result accepted updated result workflow)) = normalizeTaskStatus (ReStatus result).
Proof. unfold with_result. cbn. by destruct (String.eqb _ _). Qed.

(** A worker's turn with the only result in the queue. *)
Lemma turn_spec workerID result c : PeerExecutionProps.kernel_ok ags (co_kernel c) -> results (messageBus (kn_delivery (co_kernel c))) = [result] ->
  ID (WfTask (workflow_of result c)) = ReTaskID result -> sender result <> "" ->
  exists c1, co_workflows c1 = co_workflows c /\ called c1 = called c /\
    handled (B := MessageBus) env ags result c1 None (exec (result_turn deliveryNow nowAt env desk workerID) c).
Proof.
  intros Hk Hq Hid Hs. unfold result_turn. rewrite exec_bind. unfold on_bus at 1 3.
  match goal with |- context [on_kernel ?g] => destruct (run_core g c) as [E1 E2]; rewrite E1, E2 end. clear E1 E2.
  assert (takeResult (messageBus (kn_delivery (co_kernel c))) =
    (Some result, messageBus (kn_delivery (co_kernel c)) <| results := [] |>)) as E by (unfold takeResult; by rewrite Hq).
  unfold on_delivery, eval, exec at 2. rewrite E. cbn [fst snd]. clear E. set (c0 := c <| co_kernel := _ |>).
  assert (PeerExecutionProps.kernel_ok ags (co_kernel c0)) as Hk0 by exact Hk.
  assert (called c0 = called c /\ co_workflows c0 = co_workflows c) as [C0 W0] by done. clearbody c0.
  destruct (process_spec workerID result c0 Hk0) as (c1 & (_ & _ & C1 & _) & K1 & He & Hh); [|exact Hs|].
  { unfold workflow_of in *. by rewrite W0. }
  exists c1. split; [by rewrite (K1 : _ = _)|]. split; [congruence|]. rewrite exec_bind, He, exec_ret. exact Hh.
Qed.

Lemma round_spec (agent : Agent) envelope workerID c workflow : let id := ID (envelope_task unmarshal envelope) in
  PeerExecutionProps.kernel_ok ags (co_kernel c) -> ags !! InfoID (Info agent) = Some agent ->
  TrimSpace (InfoID (Info agent)) = InfoID (Info agent) -> InfoID (Info agent) <> "" ->
  results (messageBus (kn_delivery (co_kernel c))) = [] -> co_workflows c !! id = Some workflow -> ID (WfTask workflow) = id ->
  let c' := exec (round agent envelope workerID) c in
  exists calls r record, called c' = called c ++ calls /\ attempt_calls selfLearn agent calls r /\ ResAgentID r = InfoID (Info agent) /\
    co_workflows c' !! id = Some record /\ after_round workflow (InfoID (Info agent)) r c' record /\
    forall other, other <> id -> co_workflows c' !! other = co_workflows c !! other.
Proof.
  intros id Hk Hreg Htrim Hne Hq Hw Hid. cbv zeta. unfold round. rewrite exec_bind.
  destruct (handle_envelope_spec nowAt worker selfLearn env (dk_store desk) unmarshal ags agent Hreg Htrim c envelope Hk)
    as (_ & calls & result & [Hk1 Hq1 [Ht1 _] Hst Hc1 Hw1 _] & Hag & Hcalls). fold id in Ht1.
  set (c1 := exec (handleAgentEnvelope _ _ _ _ _ _ _ _ _) c) in *. clearbody c1. rewrite Hq in Hq1. cbn [app] in Hq1.
  assert (workflow_of result c1 = workflow) as Hof by (unfold workflow_of; by rewrite Ht1, Hw1, Hw).
  assert (sender result = InfoID (Info agent)) as Hsender.
  { unfold sender. rewrite Hag. cbn. apply String.eqb_neq in Hne. by rewrite Hne. }
  destruct (turn_spec workerID result c1 Hk1 Hq1) as (c2 & W2 & C2 & _ & accepted & updated & Hh); [by rewrite Hof, Ht1|by rewrite Hsender|].
  set (c' := exec (result_turn _ _ _ _ _) c1) in *. clearbody c'. cbv zeta in Hh.
  assert (workflow_of result c2 = workflow) as Hof2 by (unfold workflow_of; by rewrite Ht1, W2, Hw1, Hw).
  rewrite Hof2, Ht1, Hsender, Hst in Hh. set (r := ReResult result) in *. set (closed := with_result accepted updated result workflow) in *.
  assert (AccStatus (Acceptance closed) = normalizeTaskStatus (ResStatus r)) as Hcl.
  { subst closed. by rewrite result_status, Hst, normalized_status_idem. }
  assert (ID (WfTask closed) = ID (WfTask workflow) /\ WfPlan closed = WfPlan workflow /\ Result closed = Some r) as (Hc3 & Hc4 & Hc5) by done.
  clearbody closed. clear Hof Hof2.
  assert (forall record c3, told (B := MessageBus) ags id c2 c3 record ->
    called c3 = called c ++ calls /\ co_workflows c3 !! id = Some record /\
    (exists before, journal_of c3 = before ++ [NotifyWorkflowWaiters record]) /\
    forall other, other <> id -> co_workflows c3 !! other = co_workflows c !! other) as Htold.
  { intros record c3 [(_ & _ & Ho) Hc Hst3 (before & _ & Hb)]. split; [congruence|]. split; [done|]. split; [by exists before|].
    intros other Hot. by rewrite (Ho other Hot), W2, Hw1. }
  assert (forall c3, unasked (B := MessageBus) ags id c2 c3 ->
    called c3 = called c ++ calls /\ forall other, other <> id -> co_workflows c3 !! other = co_workflows c !! other) as Hun.
  { intros c3 ((_ & _ & Ho) & _ & Hc). split; [congruence|]. intros other Hot. by rewrite (Ho other Hot), W2, Hw1. }
  unfold after_round. destruct (ongoing (normalizeTaskStatus (ResStatus r))) eqn:Eon.
  { destruct Hh as [Hs3 Hw3]. destruct (Hun c') as [H1 H2]; [by apply still_unasked|].
    exists calls, r, closed. rewrite ?Eon. by split_and!. }
  assert (told (B := MessageBus) ags id c2 c' closed -> exists calls r record, called c' = called c ++ calls /\
    attempt_calls selfLearn agent calls r /\ ResAgentID r = InfoID (Info agent) /\ co_workflows c' !! id = Some record /\
    after_round workflow (InfoID (Info agent)) r c' record /\ forall other, other <> id -> co_workflows c' !! other = co_workflows c !! other)
    as Hclosed.
  { intros Htd. destruct (Htold _ _ Htd) as (H1 & H2 & H3 & H4). exists calls, r, closed. unfold after_round. rewrite Eon.
    split_and!; try done. left. by split_and!. }
  unfold after_round in Hclosed. case_bool_decide as Hf; [|by apply Hclosed]. apply normalized_status_failed in Hf.
  destruct Hh as [(record & nxt & Hr & Hpo)|[Htd _]]; [|by apply Hclosed].
  destruct Hpo as [Hu Hi [Hrun Hnone] [Hna Hnr] Hnew Hplan Htried _]. destruct (Hun c' Hu) as [H1 H2].
  exists calls, r, record. rewrite Eon. split_and!; try done; [by rewrite Hi, Hid|]. right.
  split_and!; try done; [rewrite Hna; apply elem_of_dom; eauto|by rewrite Hna, Htried].
Qed.

(** C33: A round of a task on the in-memory bus.  When an agent that has a task's workflow works on an envelope for
    the task, and a worker takes the result, then the agent was called no more than allowed and nobody else,
    no other workflow has changed, and the workflow of the task holds what the agent answered: it is closed with
    the result and its status, its waiters being told last of all; or, when the answer says so, it
    goes on; or, when the agent failed, it is running again with a registered agent that has not been tried,
    after the one that failed was added to those tried. *)
Theorem agent_round (agent : Agent) envelope workerID c workflow : let id := ID (envelope_task unmarshal envelope) in
  PeerExecutionProps.kernel_ok ags (co_kernel c) -> ags !! InfoID (Info agent) = Some agent ->
  TrimSpace (InfoID (Info agent)) = InfoID (Info agent) -> InfoID (Info agent) <> "" ->
  results (messageBus (kn_delivery (co_kernel c))) = [] -> co_workflows c !! id = Some workflow -> ID (WfTask workflow) = id ->
  let c' := exec (round agent envelope workerID) c in
  exists calls r record, called c' = called c ++ calls /\ attempt_calls selfLearn agent calls r /\ ResAgentID r = InfoID (Info agent) /\
    co_workflows c' !! id = Some record /\ after_round workflow (InfoID (Info agent)) r c' record /\
    forall other, other <> id -> co_workflows c' !! other = co_workflows c !! other.
Proof. exact (round_spec agent envelope workerID c workflow). Qed.
End Round.

(** ** Examples *)
Definition request_envelope : TaskEnvelope :=
  zero_envelope <| EnvTaskID := "t1" |> <| Payload := mkTaskPayload "" [("task", AString "t1")] [] [] "" [] |>.
(** The payload is the id of the task. *)
Definition read_request (raw : any) : string + Task :=
  match raw with AString id => inr (coding_request id) | _ => inl "not a task" end.
Definition coder_round (agent : Agent) : ST (Core MessageBus) () :=
  round clock clock coders_workers no_self_learning coders_env (open_desk no_budgets) read_request agent request_envelope 1.
Definition local_coder : Agent :=
  mkAgent (mkAgentInfo "local-coder" "coder" "local" "qwen" ["implementation"] AgentStatusReady) (fun _ => true) false.

(** The cloud coder fails, the local one completes the task; an envelope without a task is answered, too. *)
Example two_rounds :
  let c1 := exec (coder_round cloud_coder) running_core in
  let c2 := exec (coder_round local_coder) c1 in
  let f := handleAgentEnvelope clock coders_workers no_self_learning coders_env (FileStore (fun _ => None)) read_request result_queue
             cloud_coder (zero_envelope <| EnvTaskID := "t2" |>) in
  (stored_status c1, stored_status c2, map (fun x => x.1.1) (called c2),
   map (fun r => (ReTaskID r, ReStatus r, Errors (ReResult r))) (results (messageBus (kn_delivery (co_kernel (exec f c2)))))) =
  (Some (TaskStatusRunning, "local-coder", false), Some (TaskStatusCompleted, "local-coder", true), ["cloud-coder"; "local-coder"],
   [("t2", TaskStatusFailed, ["task payload is missing"])]).
Proof. vm_compute. reflexivity. Qed.

Lemma envelope_answered_witness : exists result,
  results (messageBus (kn_delivery (co_kernel (exec (handleAgentEnvelope clock coders_workers no_self_learning coders_env
    (FileStore (fun _ => None)) read_request result_queue cloud_coder request_envelope) running_core)))) = [result] /\
  ReTaskID result = "t1" /\ ResAgentID (ReResult result) = "cloud-coder".
Proof.
  destruct (envelope_answered clock coders_workers no_self_learning coders_env (FileStore (fun _ => None)) read_request
    (agents (register_all 1 coders)) cloud_coder eq_refl eq_refl running_core request_envelope running_core_ok)
    as (_ & calls & result & [_ Hq [Ht _] _ _ _ _] & Ha & _). exists result. split; [exact Hq|]. split; [exact Ht|exact Ha].
Defined.
Lemma agent_round_witness : exists r record, co_workflows (exec (coder_round cloud_coder) running_core) !! "t1" = Some record /\
  after_round (agents (register_all 1 coders)) running_workflow "cloud-coder" r (exec (coder_round cloud_coder) running_core) record.
Proof.
  destruct (agent_round clock clock coders_workers no_self_learning coders_env (open_desk no_budgets) read_request
    (agents (register_all 1 coders)) coders_range cloud_coder request_envelope 1 running_core running_workflow running_core_ok
    eq_refl eq_refl ltac:(discriminate) eq_refl eq_refl eq_refl) as (calls & r & record & _ & _ & _ & Hw & Hr & _).
  exists r, record. split; [exact Hw|exact Hr].
Defined.
