(* ===== verification/PlanExecutor.v ===== *)
(** * Executing a plan (kernel/advanced_planner.go)

    [PreviewExecutionPlan] prepares a plan and stores its checkpoint; [executeParallelPlan] runs
    its tasks in parallel as their dependencies complete, saving the checkpoint after each one,
    so that [ResumeExecutionPlan] can continue from the last saved state.  The loop is a step
    relation: a round launches every schedulable task, a receive step takes the outcome of one
    running task, whichever finishes first. *)
From S2P Require Import Prelude GoLib GoJSON Domain ContractJSON JSONDecode TaskPolicy Config Planner PlanScheduling.
From Stdlib Require Import SpecFloat FloatOps.

(** ** Storage

    The session-state store and the virtual file system, either of which may be nil.  What is stored is a
    [map[string]any]; [decodeSessionState] makes a checkpoint of the map that is read.
    An operation returns its error, if any, next to the new storage. *)
Class PlanStorage (S : Type) : Type := mkPlanStorage {
  has_store : S -> bool;
  has_vfs : S -> bool;
  SaveSessionState : string -> string -> anymap -> S -> S * option string;
  GetSessionState : string -> string -> S -> string + option anymap;
  WriteCheckpoint : string -> anymap -> S -> S * option string;
  ReadCheckpoint : string -> S -> string + option anymap }.

(** The maps a storage keeps the meaning of: their whole numbers fit in a float64, since a storage that goes
    through JSON reads them back as floats; no float is a negative zero, whose sign a data base does not keep; their
    keys are valid UTF-8, and none is the one by which the file system refers to a text it stored apart. *)
Definition stored_key (k : string) : bool := String.eqb (clean_text k) k && negb (String.eqb k "$vfs_artifact").
Fixpoint storable (v : any) : bool :=
  match v with
  | AInt z => Z.abs z <=? 2 ^ 53
  | AFloat f => match Prim2SF f with S754_zero true => false | _ => true end
  | AList l => forallb storable l
  | AMaps l => forallb (forallb (fun kv => stored_key kv.1 && storable kv.2)) l
  | AMap m | AStruct m => forallb (fun kv => stored_key kv.1 && storable kv.2) m
  | _ => true
  end.

(** The map [m'] that is read stands for the same checkpoint as [m]. *)
Definition reads_as (m : anymap) (r : string + option anymap) : Prop :=
  exists m', r = inr (Some m') /\ decodeSessionState m' = decodeSessionState m.

(** What the kernel relies on.  After a write that succeeds, what is read under the key decodes as what was written,
    if that is storable: the map itself may come back changed, from JSON (numbers as floats, structs as maps) or with
    its long texts put back.  Other branches of the session and other paths are as before, where paths are compared
    without surrounding space; the two storages are independent. *)
Class StorageLaws (S : Type) `{PlanStorage S} : Prop := mkStorageLaws {
  save_keeps : forall sid b m st st', has_store st = true ->
    SaveSessionState sid b m st = (st', None) ->
    has_store st' = has_store st /\ has_vfs st' = has_vfs st /\
    (storable (AMap m) = true -> reads_as m (GetSessionState sid b st')) /\
    (forall b', b' <> b -> GetSessionState sid b' st' = GetSessionState sid b' st) /\
    (forall p, ReadCheckpoint p st' = ReadCheckpoint p st);
  write_keeps : forall p m st st', has_vfs st = true ->
    WriteCheckpoint p m st = (st', None) ->
    has_store st' = has_store st /\ has_vfs st' = has_vfs st /\
    (storable (AMap m) = true -> forall p', TrimSpace p' = TrimSpace p -> reads_as m (ReadCheckpoint p' st')) /\
    (forall p', TrimSpace p' <> TrimSpace p -> ReadCheckpoint p' st' = ReadCheckpoint p' st) /\
    (forall sid b, GetSessionState sid b st' = GetSessionState sid b st) }.

Definition checkpointBranchName (rootTaskID : string) : string := "parallel_plan:" +:+ rootTaskID.
Definition checkpointStaticBranchName (rootTaskID : string) : string :=
  "parallel_plan_static:" +:+ rootTaskID.
Definition parallelPlanRuntimePath (rootTaskID : string) : string := "parallel_plan/" +:+ rootTaskID.
Definition parallelPlanStaticPath (rootTaskID : string) : string :=
  "parallel_plan_static/" +:+ rootTaskID.

(** The runtime payload has no root task, plan and artifact, the static one no progress. *)
Definition runtime_payload (ck : ParallelPlanCheckpoint) : anymap :=
  [("kind", AString (CkKind ck)); ("root_task_id", AString (CkRootTaskID ck));
   ("session_id", AString (CkSessionID ck)); ("branch", AString (CkBranch ck));
   ("pending_task_ids", AStrings (PendingTaskIDs ck)); ("completed_task_ids", AStrings (CompletedTaskIDs ck));
   ("results_by_task_id", AMap (ResultsByTaskID ck)); ("batch_no", AInt (BatchNo ck));
   ("status", AString (plan_status_string (CkStatus ck))); ("updated_at", time_any (CkUpdatedAt ck))].
Definition static_payload (ck : ParallelPlanCheckpoint) : anymap :=
  [("kind", AString (CkKind ck)); ("root_task_id", AString (CkRootTaskID ck));
   ("session_id", AString (CkSessionID ck)); ("branch", AString (CkBranch ck));
   ("root_task", task_any (RootTask ck)); ("plan", plan_any (CkPlan ck));
   ("plan_artifact", plan_artifact_any (CkPlanArtifact ck))].

Section Executor.
Context {S : Type} `{PlanStorage S}.

Definition save_payload (branch path : string) (payload : anymap) (ck : ParallelPlanCheckpoint) (st : S)
  : S * option string :=
  if negb (has_store st) && negb (has_vfs st) then (st, None)
  else
    let '(st, err) := if has_store st then SaveSessionState (CkSessionID ck) branch payload st
                      else (st, None) in
    match err with
    | Some e => (st, Some e)
    | None => if has_vfs st then WriteCheckpoint path payload st else (st, None)
    end.

Definition saveParallelCheckpoint (ck : ParallelPlanCheckpoint) (st : S) : S * option string :=
  save_payload (CkBranch ck) (parallelPlanRuntimePath (CkRootTaskID ck)) (runtime_payload ck) ck st.
Definition saveParallelCheckpointStatic (ck : ParallelPlanCheckpoint) (st : S) : S * option string :=
  save_payload (checkpointStaticBranchName (CkRootTaskID ck))
    (parallelPlanStaticPath (CkRootTaskID ck)) (static_payload ck) ck st.

(** What is read, decoded. *)
Definition decode_record (r : string + option anymap) : string + option ParallelPlanCheckpoint :=
  match r with
  | inl e => inl e
  | inr None => inr None
  | inr (Some state) =>
      match decodeSessionState state with inl e => inl e | inr ck => inr (Some ck) end
  end.
(** Lookups in both storages, the file system first: error, absent or found. *)
Definition load_payload (sessionID branch path : string) (st : S)
  : string + option ParallelPlanCheckpoint :=
  let from_store := if has_store st then decode_record (GetSessionState sessionID branch st) else inr None in
  if has_vfs st then
    match ReadCheckpoint path st with
    | inr None => from_store
    | found => decode_record found
    end
  else from_store.

Definition loadParallelCheckpointStatic (sessionID rootTaskID : string) (st : S)
  : string + option ParallelPlanCheckpoint :=
  if String.eqb sessionID "" || String.eqb rootTaskID "" then inr None
  else load_payload sessionID (checkpointStaticBranchName rootTaskID)
         (parallelPlanStaticPath rootTaskID) st.

Definition hydrateParallelCheckpoint (ck : ParallelPlanCheckpoint) (st : S)
  : string + ParallelPlanCheckpoint :=
  if negb (String.eqb (ID (RootTask ck)) "") && (0 <? len (Tasks (CkPlanArtifact ck))) then inr ck
  else
    match loadParallelCheckpointStatic (CkSessionID ck) (CkRootTaskID ck) st with
    | inl e => inl e
    | inr None => inr ck
    | inr (Some static) =>
        let ck1 := if String.eqb (ID (RootTask ck)) "" then ck <| RootTask := RootTask static |> else ck in
        let ck2 := if String.eqb (PlanTaskID (CkPlan ck1)) "" && (length (Steps (CkPlan ck1)) =? 0)%nat
                   then ck1 <| CkPlan := CkPlan static |> else ck1 in
        inr (if (length (Tasks (CkPlanArtifact ck2)) =? 0)%nat
             then ck2 <| CkPlanArtifact := CkPlanArtifact static |> else ck2)
    end.

Definition fill_identity (sessionID rootTaskID : string) (ck : ParallelPlanCheckpoint)
  : ParallelPlanCheckpoint :=
  let ck := if String.eqb (CkRootTaskID ck) "" then ck <| CkRootTaskID := rootTaskID |> else ck in
  let ck := if String.eqb (CkSessionID ck) "" then ck <| CkSessionID := sessionID |> else ck in
  if String.eqb (CkBranch ck) "" then ck <| CkBranch := checkpointBranchName rootTaskID |> else ck.

Definition LoadParallelCheckpoint (sessionID rootTaskID : string) (st : S)
  : string + option ParallelPlanCheckpoint :=
  if String.eqb sessionID "" || String.eqb rootTaskID "" then inr None
  else
    match load_payload sessionID (checkpointBranchName rootTaskID)
            (parallelPlanRuntimePath rootTaskID) st with
    | inl e => inl e
    | inr None => inr None
    | inr (Some ck) =>
        match hydrateParallelCheckpoint (fill_identity sessionID rootTaskID ck) st with
        | inl e => inl e
        | inr ck => inr (Some ck)
        end
    end.

(** ** Preview *)

(** The defaults a task gets; [fresh] is the value of [newTaskID]. *)
Definition preview_defaults (fresh : string) (now : Time) (task : Task) : Task :=
  let task := if String.eqb (ID task) "" then task <| ID := fresh |> else task in
  let task := if String.eqb (SessionID task) "" then task <| SessionID := ID task |> else task in
  let task := if IsZero (CreatedAt task) then task <| CreatedAt := now |> else task in
  let task := if bool_decide (Priority_ task = PriorityOther "")
              then task <| Priority_ := PriorityNormal |> else task in
  let task := if String.eqb (MemoryScope task) "" then task <| MemoryScope := "session" |> else task in
  if String.eqb (CachePolicy task) "" then task <| CachePolicy := "read_write" |> else task.

Definition preview_checkpoint (now : Time) (task : Task) (plan : ExecutionPlan)
  : ParallelPlanCheckpoint :=
  let artifact := buildPlanArtifact now task plan in
  mkParallelPlanCheckpoint "parallel_plan_checkpoint" (ID task) (SessionID task)
    (checkpointBranchName (ID task)) task plan artifact (map ArtTaskID (Tasks artifact)) [] [] 1
    ParallelPlanStatusPlanned now.

Definition PreviewExecutionPlan `{ModelSelector} (getenv : string -> string) (fresh : string)
  (now : Time) (task : Task) (st : S) : S * (string + ExecutionPlanPreview) :=
  let '(task, plan) := Prepare getenv now (preview_defaults fresh now task) in
  let ck := preview_checkpoint now task plan in
  let '(st, err) := saveParallelCheckpointStatic ck st in
  match err with
  | Some e => (st, inl e)
  | None =>
      let '(st, err) := saveParallelCheckpoint ck st in
      match err with
      | Some e => (st, inl e)
      | None => (st, inr (mkExecutionPlanPreview task plan (CkPlanArtifact ck) (PendingTaskIDs ck)
                            (CkBranch ck) (CkUpdatedAt ck)))
      end
  end.

(** ** Execution

    [submitted] lists the tasks handed to [SubmitTask] by the goroutines launched so far. *)
Record ExecState : Type := mkExecState {
  checkpoint : ParallelPlanCheckpoint;
  running : gmap string PlanTaskArtifact;
  workflows : list WorkflowRecord;
  submitted : list Task;
  startedAt : Time }.
#[export] Instance eta_ExecState : Updatable ExecState := fun s =>
  mkExecState (checkpoint s) (running s) (workflows s) (submitted s) (startedAt s).

Inductive ExecPhase : Type :=
  | LoopTop (s : ExecState)
  | Awaiting (s : ExecState)
  | Returned (s : ExecState) (result : string + ExecutionPlanRun).

(** What a launched goroutine sends: the error of [SubmitTask] or [WaitWorkflowTerminal], or
    the terminal workflow record. *)
Inductive TaskOutcome : Type :=
  | OutcomeError (message : string)
  | OutcomeRecord (record : WorkflowRecord).

Definition normalize_checkpoint (now : Time) (ck : ParallelPlanCheckpoint) : ParallelPlanCheckpoint :=
  let ck := if String.eqb (CkSessionID ck) "" then ck <| CkSessionID := SessionID (RootTask ck) |> else ck in
  let ck := if String.eqb (CkSessionID ck) "" then ck <| CkSessionID := CkRootTaskID ck |> else ck in
  let ck := if String.eqb (CkBranch ck) "" then ck <| CkBranch := checkpointBranchName (CkRootTaskID ck) |> else ck in
  let ck := if String.eqb (ID (RootTask ck)) "" then
              ck <| RootTask := zero_task <| ID := CkRootTaskID ck |> <| SessionID := CkSessionID ck |>
                                          <| Type_ := TaskTypePlan |> |> else ck in
  let ck := if String.eqb (SessionID (RootTask ck)) "" then
              ck <| RootTask ::= (fun t => t <| SessionID := CkSessionID ck |>) |> else ck in
  let ck := if IsZero (CreatedAt (RootTask ck)) then
              ck <| RootTask ::= (fun t => t <| CreatedAt := now |>) |> else ck in
  if BatchNo ck <=? 0 then ck <| BatchNo := 1 |> else ck.

Definition set_status (status : ParallelPlanStatus) (now : Time) (ck : ParallelPlanCheckpoint)
  : ParallelPlanCheckpoint := ck <| CkStatus := status |> <| CkUpdatedAt := now |>.

Definition initial_state (now : Time) (ck : ParallelPlanCheckpoint) : ExecState :=
  mkExecState ck ∅ [] [] now.

(** The code before the loop; [now] is the clock there. *)
Definition begin_execution (now : Time) (ck : ParallelPlanCheckpoint) (st : S) : S * ExecPhase :=
  if String.eqb (CkRootTaskID ck) "" then
    (st, Returned (initial_state now ck) (inl "parallel checkpoint is missing root task id"))
  else
    let ck := normalize_checkpoint now ck in
    let '(st, err) := saveParallelCheckpointStatic ck st in
    match err with
    | Some e => (st, Returned (initial_state now ck) (inl e))
    | None =>
        if bool_decide (CkStatus ck = ParallelPlanStatusCompleted) then
          (st, Returned (initial_state now ck)
                 (inr (mkExecutionPlanRun (RootTask ck) (CkPlan ck) (CkPlanArtifact ck) ck [] now
                         (CkUpdatedAt ck))))
        else
          let ck := set_status ParallelPlanStatusRunning now ck in
          let '(st, err) := saveParallelCheckpoint ck st in
          match err with
          | Some e => (st, Returned (initial_state now ck) (inl e))
          | None => (st, LoopTop (initial_state now ck))
          end
    end.

Definition launch (s : ExecState) (artifact : PlanTaskArtifact) : ExecState :=
  match running s !! ArtTaskID artifact with
  | Some _ => s
  | None =>
      let ck := checkpoint s in
      s <| running ::= <[ArtTaskID artifact := artifact]> |>
        <| submitted ::= (fun l => l ++ [buildPlanTask (RootTask ck) artifact (BatchNo ck)]) |>
  end.

Definition schedulable (s : ExecState) : list PlanTaskArtifact :=
  let ck := checkpoint s in
  scheduleReadyArtifactsWithConflicts
    (readyPlanArtifacts (Tasks (CkPlanArtifact ck)) (PendingTaskIDs ck) (CompletedTaskIDs ck))
    (collectArtifactConflictKeys (running s)).

Definition run_of (s : ExecState) : ExecutionPlanRun :=
  let ck := checkpoint s in
  mkExecutionPlanRun (RootTask ck) (CkPlan ck) (CkPlanArtifact ck) ck (workflows s) (startedAt s)
    (CkUpdatedAt ck).

(** From the loop condition to the receive, or to the end of the function. *)
Definition loop_round (now : Time) (s : ExecState) (st : S) : S * ExecPhase :=
  let ck := checkpoint s in
  if (0 <? len (PendingTaskIDs ck)) || negb (bool_decide (running s = ∅)) then
    let s := foldl launch s (schedulable s) in
    if bool_decide (running s = ∅) then
      let s := s <| checkpoint := set_status ParallelPlanStatusBlocked now ck |> in
      ((saveParallelCheckpoint (checkpoint s) st).1,
       Returned s (inl ("parallel plan " +:+ CkRootTaskID ck +:+ " is blocked by unresolved dependencies")))
    else (st, Awaiting s)
  else
    let s := s <| checkpoint := set_status ParallelPlanStatusCompleted now ck |> in
    let '(st, err) := saveParallelCheckpoint (checkpoint s) st in
    match err with
    | Some e => (st, Returned s (inl e))
    | None => (st, Returned s (inr (run_of s)))
    end.

Definition failure_entry (id message : string) : any :=
  AMap [("task_id", AString id); ("status", AString "failed"); ("error", AString message)].

Definition fail_run (now : Time) (id message : string) (s : ExecState) (st : S) : S * ExecPhase :=
  let ck := checkpoint s <| ResultsByTaskID ::= (fun m => aset m id (failure_entry id message)) |> in
  let s := s <| checkpoint := set_status ParallelPlanStatusFailed now ck |> in
  ((saveParallelCheckpoint (checkpoint s) st).1, Returned s (inl message)).

(** The part of the loop after the receive. *)
Definition receive (now : Time) (artifact : PlanTaskArtifact) (outcome : TaskOutcome)
  (s : ExecState) (st : S) : S * ExecPhase :=
  let id := ArtTaskID artifact in
  let s := s <| running ::= delete id |> in
  match outcome with
  | OutcomeError message => fail_run now id message s st
  | OutcomeRecord record =>
      match validatePlanWorkflow record with
      | Some message => fail_run now id message s st
      | None =>
          let ck := checkpoint s in
          let ck := ck <| ResultsByTaskID ::= (fun m => aset m id (AMap (workflowSummary record))) |>
                       <| PendingTaskIDs ::= (fun l => removePending l id) |>
                       <| CompletedTaskIDs ::= (fun l => l ++ [id]) |>
                       <| BatchNo ::= (fun n => Int.add n 1) |>
                       <| CkUpdatedAt := now |> in
          let s := s <| workflows ::= (fun l => l ++ [record]) |> <| checkpoint := ck |> in
          let '(st, err) := saveParallelCheckpoint ck st in
          match err with
          | Some e => (st, Returned s (inl e))
          | None => (st, LoopTop s)
          end
      end
  end.

(** One step of [executeParallelPlan]: a round of the loop up to its receive, or the receipt of
    the outcome of any running task. *)
Inductive exec_step : S * ExecPhase -> S * ExecPhase -> Prop :=
  | step_round now s st : exec_step (st, LoopTop s) (loop_round now s st)
  | step_receive now s st id artifact outcome :
      running s !! id = Some artifact ->
      exec_step (st, Awaiting s) (receive now artifact outcome s st).

Definition RunExecutionPlan `{ModelSelector} (getenv : string -> string) (fresh : string)
  (now : Time) (task : Task) (st : S) : S * (string + ExecPhase) :=
  match PreviewExecutionPlan getenv fresh now task st with
  | (st, inl e) => (st, inl e)
  | (st, inr preview) =>
      let id := ID (PreviewTask preview) in
      match LoadParallelCheckpoint (SessionID (PreviewTask preview)) id st with
      | inl e => (st, inl e)
      | inr None => (st, inl ("parallel checkpoint not found: " +:+ id))
      | inr (Some ck) => let '(st, phase) := begin_execution now ck st in (st, inr phase)
      end
  end.

Definition ResumeExecutionPlan (now : Time) (sessionID rootTaskID : string) (st : S)
  : S * (string + ExecPhase) :=
  match LoadParallelCheckpoint sessionID rootTaskID st with
  | inl e => (st, inl e)
  | inr None => (st, inl ("parallel checkpoint not found: " +:+ rootTaskID))
  | inr (Some ck) => let '(st, phase) := begin_execution now ck st in (st, inr phase)
  end.
End Executor.

(** Two maps as storage, every operation succeeding; the paths of the second are trimmed. *)
Record MapStorage : Type := mkMapStorage {
  session_states : option (gmap (string * string) anymap);
  vfs_files : option (gmap string anymap) }.
#[export] Instance map_storage : PlanStorage MapStorage := {|
  has_store st := bool_decide (is_Some (session_states st));
  has_vfs st := bool_decide (is_Some (vfs_files st));
  SaveSessionState sid b m st :=
    (mkMapStorage (<[(sid, b) := m]> <$> session_states st) (vfs_files st), None);
  GetSessionState sid b st := inr (session_states st ≫= lookup (sid, b));
  WriteCheckpoint p m st := (mkMapStorage (session_states st) (<[TrimSpace p := m]> <$> vfs_files st), None);
  ReadCheckpoint p st := inr (vfs_files st ≫= lookup (TrimSpace p)) |}.
#[export] Instance map_storage_laws : StorageLaws MapStorage.
Proof.
  split.
  - intros sid b m [[f|] v] st' Hs [=<-]; cbn in *; [|done]. split_and!; try done.
    + intros _. exists m. by rewrite lookup_insert_eq.
    + intros b' Hne. by rewrite lookup_insert_ne by congruence.
  - intros p m [f [v|]] st' Hs [=<-]; cbn in *; [|done]. split_and!; try done.
    + intros _ p' Hp. exists m. by rewrite Hp, lookup_insert_eq.
    + intros p' Hne. by rewrite lookup_insert_ne.
Qed.
