(* ===== verification/PlanExecutorProps.v ===== *)
(** * Properties of plan execution

    For a checkpoint whose plan is well formed, every interleaving of completions runs each
    task once, after its dependencies and never next to a conflicting one; the loop cannot
    block and ends within a bounded number of steps. *)
From S2P Require Import Prelude GoLib GoJSON Domain TaskPolicy Config Planner PlannerProps PlanScheduling PlanSchedulingProps PlanExecutor.

(** ** Well-formed plans and checkpoints *)
Definition clean_id (id : string) : Prop := TrimSpace id = id /\ id <> "".

Record plan_wf (ts : list PlanTaskArtifact) : Prop := mkPlanWf {
  wf_nodup : NoDup (map ArtTaskID ts);
  wf_clean : forall t, t ∈ ts -> clean_id (ArtTaskID t);
  wf_deps : forall i t d, ts !! i = Some t -> d ∈ ArtDependencies t ->
    exists j t', (j < i)%nat /\ ts !! j = Some t' /\ ArtTaskID t' = d }.

Definition plan_tasks (ck : ParallelPlanCheckpoint) : list PlanTaskArtifact :=
  Tasks (CkPlanArtifact ck).
(** Every task of the plan is either pending or completed, once. *)
Definition checkpoint_wf (ck : ParallelPlanCheckpoint) : Prop :=
  plan_wf (plan_tasks ck) /\
  PendingTaskIDs ck ++ CompletedTaskIDs ck ≡ₚ map ArtTaskID (plan_tasks ck).

Lemma clean_completedSet ids :
  (forall id, id ∈ ids -> clean_id id) -> forall k, k ∈ completedSet ids <-> k ∈ ids.
Proof.
  intros Hc k. rewrite elem_of_completedSet. split.
  - intros (_ & i & Hi & <-). destruct (Hc i Hi) as [-> _]. done.
  - intros Hk. destruct (Hc k Hk) as [Ht Hne]. eauto.
Qed.

Section Wf.
Context (ck : ParallelPlanCheckpoint) (Hck : checkpoint_wf ck).

Lemma wf_pending_clean id : id ∈ PendingTaskIDs ck ++ CompletedTaskIDs ck -> clean_id id.
Proof.
  destruct Hck as [Hwf Hp]. rewrite Hp, list_elem_of_fmap. intros (t & -> & Ht).
  by apply (wf_clean _ Hwf).
Qed.

Lemma wf_pending_nodup : NoDup (PendingTaskIDs ck ++ CompletedTaskIDs ck).
Proof. destruct Hck as [Hwf Hp]. rewrite Hp. apply (wf_nodup _ Hwf). Qed.

Lemma wf_disjoint id : id ∈ PendingTaskIDs ck -> id ∉ CompletedTaskIDs ck.
Proof.
  intros Hi Hc. pose proof wf_pending_nodup as Hn. apply NoDup_app in Hn as (_ & Hn & _).
  by apply (Hn id).
Qed.

Lemma wf_ready t :
  t ∈ readyPlanArtifacts (plan_tasks ck) (PendingTaskIDs ck) (CompletedTaskIDs ck) <->
  t ∈ plan_tasks ck /\ ArtTaskID t ∈ PendingTaskIDs ck /\
  (forall d, d ∈ ArtDependencies t -> d ∈ CompletedTaskIDs ck).
Proof.
  rewrite elem_of_ready.
  assert (forall k, k ∈ completedSet (PendingTaskIDs ck) <-> k ∈ PendingTaskIDs ck) as ->.
  { apply clean_completedSet. intros id Hi. apply wf_pending_clean, elem_of_app. by left. }
  assert (forall k, k ∈ completedSet (CompletedTaskIDs ck) <-> k ∈ CompletedTaskIDs ck) as Hc.
  { apply clean_completedSet. intros id Hi. apply wf_pending_clean, elem_of_app. by right. }
  by setoid_rewrite Hc.
Qed.

(** The first pending task of the plan has all its dependencies completed. *)
Lemma wf_some_ready : PendingTaskIDs ck <> [] ->
  exists t, t ∈ readyPlanArtifacts (plan_tasks ck) (PendingTaskIDs ck) (CompletedTaskIDs ck).
Proof.
  intros Hne. destruct Hck as [Hwf Hp].
  assert (exists i t, plan_tasks ck !! i = Some t /\ ArtTaskID t ∈ PendingTaskIDs ck) as Hex.
  { destruct (PendingTaskIDs ck) as [|id l] eqn:Hl; [done|].
    assert (id ∈ map ArtTaskID (plan_tasks ck)) as Hid by (rewrite <- Hp; by left).
    apply list_elem_of_fmap in Hid as (t & -> & [i Ht]%list_elem_of_lookup).
    exists i, t. split; [done|by left]. }
  assert (exists i t, plan_tasks ck !! i = Some t /\ ArtTaskID t ∈ PendingTaskIDs ck /\
    forall j t', (j < i)%nat -> plan_tasks ck !! j = Some t' -> ArtTaskID t' ∉ PendingTaskIDs ck)
    as (i & t & Hi & Ht & Hmin).
  { destruct Hex as (i & Hex). revert Hex. induction i as [i IH] using lt_wf_ind. intros (t & Hi & Ht).
    destruct (decide (Exists (fun t' => ArtTaskID t' ∈ PendingTaskIDs ck) (take i (plan_tasks ck)))) as [He|He].
    - apply Exists_exists in He as (t' & [j Hj]%list_elem_of_lookup & Ht').
      apply lookup_take_Some in Hj as [Hj Hlt]. apply (IH j Hlt). eauto.
    - exists i, t. split_and!; [done..|]. intros j t' Hj Hl Hin. apply He, Exists_exists.
      exists t'. split; [|done]. apply list_elem_of_lookup. exists j. by rewrite lookup_take_lt. }
  exists t. apply wf_ready. split_and!; [by eapply list_elem_of_lookup_2|done|].
  intros d Hd. destruct (wf_deps _ Hwf i t d Hi Hd) as (j & t' & Hj & Hl & <-).
  assert (ArtTaskID t' ∈ PendingTaskIDs ck ++ CompletedTaskIDs ck) as Hin.
  { rewrite Hp. apply list_elem_of_fmap. exists t'. split; [done|by eapply list_elem_of_lookup_2]. }
  apply elem_of_app in Hin as [Hin|Hin]; [|done]. by apply (Hmin j t' Hj Hl) in Hin.
Qed.
End Wf.

(** ** Launching a schedule *)
Lemma launch_checkpoint l s : checkpoint (foldl launch s l) = checkpoint s.
Proof. revert s. induction l as [|a l IH]; intros s; cbn; [done|]. rewrite IH. unfold launch. by case_match. Qed.

Lemma launch_workflows l s : workflows (foldl launch s l) = workflows s /\ startedAt (foldl launch s l) = startedAt s.
Proof. revert s. induction l as [|a l IH]; intros s; cbn; [done|]. destruct (IH (launch s a)) as [-> ->]. unfold launch. by case_match. Qed.

Lemma launch_running l s :
  NoDup (map ArtTaskID l) ->
  forall id a, running (foldl launch s l) !! id = Some a <->
    running s !! id = Some a \/ (running s !! id = None /\ a ∈ l /\ ArtTaskID a = id).
Proof.
  revert s. induction l as [|b l IH]; intros s Hn id a; cbn.
  - split; [auto|]. intros [?|(_ & Ha & _)]; [done|by apply not_elem_of_nil in Ha].
  - apply NoDup_cons in Hn as [Hb Hn]. rewrite (IH _ Hn). rewrite elem_of_cons.
    assert (forall c, c ∈ l -> ArtTaskID c <> ArtTaskID b) as Hne.
    { intros c Hc Heq. apply Hb. rewrite <- Heq. by apply list_elem_of_fmap_2. }
    unfold launch. destruct (running s !! ArtTaskID b) as [b'|] eqn:Hr; cbn.
    + split; [naive_solver|]. intros [?|(? & [->|?] & <-)]; [by left|congruence|by right].
    + destruct (decide (ArtTaskID b = id)) as [<-|Hid].
      * rewrite lookup_insert_eq, Hr. split; [naive_solver|].
        intros [?|(_ & [->|Hc] & Heq)]; [done|by left|by apply Hne in Hc].
      * rewrite lookup_insert_ne by done. naive_solver.
Qed.

Definition launched_task (s : ExecState) (a : PlanTaskArtifact) : Task :=
  buildPlanTask (RootTask (checkpoint s)) a (BatchNo (checkpoint s)).

Lemma launch_submitted l s x :
  NoDup (map ArtTaskID l) ->
  x ∈ submitted (foldl launch s l) <->
    x ∈ submitted s \/ exists a, a ∈ l /\ running s !! ArtTaskID a = None /\ x = launched_task s a.
Proof.
  revert s. induction l as [|b l IH]; intros s Hn; cbn [foldl].
  - split; [auto|]. intros [?|(a & Ha & _)]; [done|by apply not_elem_of_nil in Ha].
  - apply NoDup_cons in Hn as [Hb Hn]. rewrite (IH _ Hn). setoid_rewrite elem_of_cons.
    assert (forall c, c ∈ l -> ArtTaskID b <> ArtTaskID c) as Hne.
    { intros c Hc Heq. apply Hb. rewrite Heq. by apply list_elem_of_fmap_2. }
    unfold launch, launched_task. destruct (running s !! ArtTaskID b) as [b'|] eqn:Hr.
    + split; [naive_solver|]. intros [?|(a & [->|?] & ? & ?)]; [by left|congruence|right; eauto].
    + cbn. rewrite elem_of_app, list_elem_of_singleton. split.
      * intros [[?| ->]|(a & Ha & Hr' & ->)]; [by left|right; eauto|].
        rewrite lookup_insert_ne in Hr' by auto. right. eauto.
      * intros [?|(a & [->|Ha] & Hr' & ->)]; [by left; left|by left; right|right].
        exists a. rewrite lookup_insert_ne by auto. done.
Qed.

Lemma launch_submitted_nodup l s :
  NoDup (map ArtTaskID l) -> NoDup (map ID (submitted s)) ->
  (forall a, a ∈ l -> running s !! ArtTaskID a = None -> ArtTaskID a ∉ map ID (submitted s)) ->
  NoDup (map ID (submitted (foldl launch s l))).
Proof.
  revert s. induction l as [|b l IH]; intros s Hn Hs Hnew; cbn [foldl]; [done|].
  apply NoDup_cons in Hn as [Hb Hn].
  assert (forall c, c ∈ l -> ArtTaskID b <> ArtTaskID c) as Hne.
  { intros c Hc Heq. apply Hb. rewrite Heq. by apply list_elem_of_fmap_2. }
  apply IH; [done|..]; unfold launch; destruct (running s !! ArtTaskID b) as [b'|] eqn:Hr; cbn.
  - done.
  - rewrite map_app. apply NoDup_app. split_and!; [done| |apply NoDup_singleton].
    intros x Hx ->%list_elem_of_singleton. apply (Hnew b) in Hx; [done|by left|done].
  - intros a Ha. apply Hnew. by right.
  - intros a Ha. rewrite lookup_insert_ne by auto. intros Hra.
    rewrite map_app. cbn [map]. rewrite not_elem_of_app, not_elem_of_cons. split_and!;
      [apply Hnew; [by right|done]|by apply not_eq_sym, Hne|apply not_elem_of_nil].
Qed.

(** ** The invariant of the loop *)
Section Invariant.
Context {S : Type} `{PlanStorage S}.
(** The tasks completed before this run. *)
Context (before : list string).

Record exec_ok (s : ExecState) : Prop := mkExecOk {
  ok_checkpoint : checkpoint_wf (checkpoint s);
  ok_running : forall id a, running s !! id = Some a ->
    a ∈ plan_tasks (checkpoint s) /\ ArtTaskID a = id /\ id ∈ PendingTaskIDs (checkpoint s) /\
    (forall d, d ∈ ArtDependencies a -> d ∈ CompletedTaskIDs (checkpoint s)) /\
    id ∈ map ID (submitted s);
  ok_conflict_free : forall id1 id2 a1 a2, id1 <> id2 ->
    running s !! id1 = Some a1 -> running s !! id2 = Some a2 -> conflict_keys a1 ## conflict_keys a2;
  ok_submitted : NoDup (map ID (submitted s));
  ok_submitted_of : forall x, x ∈ submitted s -> exists a, a ∈ plan_tasks (checkpoint s) /\
    ID x = ArtTaskID a /\ Dependencies x = ArtDependencies a /\ ID x ∉ before /\
    (forall d, d ∈ ArtDependencies a -> d ∈ CompletedTaskIDs (checkpoint s)) /\
    (ID x ∈ CompletedTaskIDs (checkpoint s) \/ is_Some (running s !! ID x));
  ok_before : forall id, id ∈ before -> id ∈ CompletedTaskIDs (checkpoint s);
  ok_completed : forall id, id ∈ CompletedTaskIDs (checkpoint s) ->
    id ∈ before \/ id ∈ map ID (submitted s) }.

Lemma schedulable_ready s t : t ∈ schedulable s ->
  t ∈ readyPlanArtifacts (plan_tasks (checkpoint s)) (PendingTaskIDs (checkpoint s))
        (CompletedTaskIDs (checkpoint s)).
Proof. apply schedule_elem. Qed.

Lemma schedulable_nodup s : exec_ok s -> NoDup (map ArtTaskID (schedulable s)).
Proof.
  intros [[Hwf _]]. unfold schedulable. rewrite schedule_pick_free.
  eapply sublist_NoDup; [|apply sublist_map, pick_free_sublist].
  rewrite (sort_slice_perm lighter). apply ready_nodup, Hwf.
Qed.

Lemma schedulable_free s t id a :
  t ∈ schedulable s -> running s !! id = Some a -> conflict_keys t ## conflict_keys a.
Proof.
  unfold schedulable. rewrite schedule_pick_free. intros Ht%pick_free_avoids Hr k Hk1 Hk2.
  apply (Ht k Hk1). apply elem_of_collect. eauto.
Qed.

Lemma schedulable_disjoint s t1 t2 :
  t1 ∈ schedulable s -> t2 ∈ schedulable s -> ArtTaskID t1 <> ArtTaskID t2 ->
  conflict_keys t1 ## conflict_keys t2.
Proof.
  unfold schedulable. rewrite schedule_pick_free.
  intros [i Hi]%list_elem_of_lookup [j Hj]%list_elem_of_lookup Hne.
  destruct (Nat.lt_trichotomy i j) as [Hij|[->|Hij]].
  - by eapply pick_free_disjoint.
  - congruence.
  - symmetry. by eapply pick_free_disjoint.
Qed.

Lemma launch_ok s : exec_ok s -> exec_ok (foldl launch s (schedulable s)).
Proof.
  intros Hok. pose proof (schedulable_nodup s Hok) as Hn.
  pose proof (fun t => proj1 (wf_ready _ (ok_checkpoint s Hok) t)) as Hready.
  split; rewrite ?launch_checkpoint.
  - apply Hok.
  - intros id a. rewrite launch_running by done. intros [Hr|(Hr & Ha & <-)].
    + destruct (ok_running s Hok id a Hr) as (H1 & H2 & H3 & H4 & H5). split_and!; try done.
      apply list_elem_of_fmap in H5 as (x & -> & Hx). apply list_elem_of_fmap_2.
      apply launch_submitted; auto.
    + destruct (Hready a (schedulable_ready s a Ha)) as (H1 & H2 & H3). split_and!; try done.
      apply list_elem_of_fmap. exists (launched_task s a). split; [done|].
      apply launch_submitted; eauto.
  - intros id1 id2 a1 a2 Hne. rewrite !launch_running by done.
    intros [H1|(_ & H1 & <-)] [H2|(_ & H2 & <-)].
    + by eapply (ok_conflict_free s Hok).
    + symmetry. by eapply schedulable_free.
    + by eapply schedulable_free.
    + by apply (schedulable_disjoint s).
  - apply launch_submitted_nodup; [done|apply Hok|]. intros a Ha Hr Hin.
    destruct (Hready a (schedulable_ready s a Ha)) as (_ & Hp & _).
    apply list_elem_of_fmap in Hin as (x & Heq & Hx).
    destruct (ok_submitted_of s Hok x Hx) as (b & _ & _ & _ & _ & _ & [Hc|Hs]); rewrite <- Heq in *.
    + by apply (wf_disjoint _ (ok_checkpoint s Hok)) in Hp.
    + rewrite Hr in Hs. by destruct Hs.
  - intros x. rewrite launch_submitted by done. intros [Hx|(a & Ha & Hr & ->)].
    + destruct (ok_submitted_of s Hok x Hx) as (a & H1 & H2 & H3 & H4 & H5 & H6).
      exists a. split_and!; try done. destruct H6 as [?|[b Hb]]; [by left|right].
      exists b. apply launch_running; [done|by left].
    + destruct (Hready a (schedulable_ready s a Ha)) as (H1 & H2 & H3).
      exists a. split_and!; try done.
      * intros Hb%(ok_before s Hok). by apply (wf_disjoint _ (ok_checkpoint s Hok)) in H2.
      * right. exists a. apply launch_running; [done|right]. done.
  - apply Hok.
  - intros id Hid. destruct (ok_completed s Hok id Hid) as [?|Hx]; [by left|right].
    apply list_elem_of_fmap in Hx as (x & -> & Hx). apply list_elem_of_fmap_2.
    apply launch_submitted; auto.
Qed.

Lemma removePending_cons p l id :
  removePending (p :: l) id = if decide (p = id) then removePending l id else p :: removePending l id.
Proof. unfold removePending, filter. cbn. destruct (String.eqb_spec p id), (decide (p = id)); done. Qed.

Lemma removePending_absent l id : id ∉ l -> removePending l id = l.
Proof.
  induction l as [|p l IH]; intros Hn; [done|]. apply not_elem_of_cons in Hn as [Hne Hn].
  rewrite removePending_cons, decide_False, IH; done.
Qed.

Lemma removePending_perm pending id :
  NoDup pending -> id ∈ pending -> pending ≡ₚ id :: removePending pending id.
Proof.
  induction pending as [|p l IH]; intros Hn Hid; [by apply not_elem_of_nil in Hid|].
  apply NoDup_cons in Hn as [Hp Hn]. rewrite removePending_cons. case_decide as Hd; simplify_eq.
  - by rewrite removePending_absent.
  - apply elem_of_cons in Hid as [->|Hid]; [done|]. rewrite (IH Hn Hid) at 1. apply Permutation_swap.
Qed.

(** The state after a task completed and its checkpoint was saved. *)
Definition completed_state (now : Time) (id : string) (record : WorkflowRecord) (s : ExecState) : ExecState :=
  s <| running ::= delete id |> <| workflows ::= (fun l => l ++ [record]) |>
    <| checkpoint := checkpoint s
        <| ResultsByTaskID ::= (fun m => aset m id (AMap (workflowSummary record))) |>
        <| PendingTaskIDs ::= (fun l => removePending l id) |>
        <| CompletedTaskIDs ::= (fun l => l ++ [id]) |>
        <| BatchNo ::= (fun n => Int.add n 1) |> <| CkUpdatedAt := now |> |>.

Lemma receive_cases now artifact outcome s st :
  (exists record, outcome = OutcomeRecord record /\ validatePlanWorkflow record = None /\
     let s' := completed_state now (ArtTaskID artifact) record s in
     receive now artifact outcome s st =
       let '(st', err) := saveParallelCheckpoint (checkpoint s') st in
       match err with Some e => (st', Returned s' (inl e)) | None => (st', LoopTop s') end) \/
  (exists message, receive now artifact outcome s st =
     fail_run now (ArtTaskID artifact) message (s <| running ::= delete (ArtTaskID artifact) |>) st) /\
  (forall record, outcome = OutcomeRecord record -> validatePlanWorkflow record <> None).
Proof.
  unfold receive. destruct outcome as [message|record]; [right; split; [eauto|done]|].
  destruct (validatePlanWorkflow record) as [message|] eqn:Hv; [right|left].
  - split; [eauto|]. intros ? [=<-]. congruence.
  - exists record. done.
Qed.

Lemma completed_ok now id a record s :
  running s !! id = Some a -> exec_ok s -> exec_ok (completed_state now id record s) /\
  (length (PendingTaskIDs (checkpoint (completed_state now id record s))) + 1
   = length (PendingTaskIDs (checkpoint s)))%nat.
Proof.
  intros Hr Hok. destruct (ok_running s Hok id a Hr) as (Ha & Hid & Hp & Hd & Hsub).
  pose proof (wf_pending_nodup _ (ok_checkpoint s Hok)) as Hn.
  pose proof (removePending_perm _ _ (proj1 (proj1 (NoDup_app _ _) Hn)) Hp) as Hperm.
  destruct (ok_checkpoint s Hok) as [Hwf Hpart].
  assert (forall x, x ∈ CompletedTaskIDs (checkpoint s) ->
    x ∈ CompletedTaskIDs (checkpoint s) ++ [id]) as Hmono by (intros; apply elem_of_app; by left).
  split; [|apply Permutation_length in Hperm; cbn -[removePending] in *; lia].
  split; cbn -[removePending].
  - split; [done|]. cbn -[removePending]. rewrite <- Hpart. rewrite Hperm at 2.
    rewrite (Permutation_app_comm (CompletedTaskIDs (checkpoint s)) [id]).
    symmetry. apply Permutation_middle.
  - intros id' a'. intros [Hne Hr']%lookup_delete_Some.
    destruct (ok_running s Hok id' a' Hr') as (H1 & H2 & H3 & H4 & H5).
    split_and!; auto. rewrite Hperm in H3. by apply elem_of_cons in H3 as [->|].
  - intros id1 id2 a1 a2 Hne [_ H1]%lookup_delete_Some [_ H2]%lookup_delete_Some.
    by eapply (ok_conflict_free s Hok).
  - apply Hok.
  - intros x Hx. destruct (ok_submitted_of s Hok x Hx) as (b & H1 & H2 & H3 & H4 & H5 & H6).
    exists b. split_and!; auto. destruct (decide (ID x = id)) as [->|Hne].
    + left. apply elem_of_app. right. by apply list_elem_of_singleton.
    + destruct H6 as [?|H6]; [left; auto|right]. by rewrite lookup_delete_ne.
  - intros i Hi. apply Hmono. by apply (ok_before s Hok).
  - intros i [Hi| ->%list_elem_of_singleton]%elem_of_app; [by apply (ok_completed s Hok)|by right].
Qed.

(** ** Phases *)
Definition phase_state (ph : ExecPhase) : ExecState :=
  match ph with LoopTop s | Awaiting s | Returned s _ => s end.

Definition returned_ok (s : ExecState) (result : string + ExecutionPlanRun) : Prop :=
  NoDup (map ID (submitted s)) /\
  (forall x, x ∈ submitted s -> ID x ∉ before /\ ID x ∈ map ArtTaskID (plan_tasks (checkpoint s))) /\
  CkStatus (checkpoint s) <> ParallelPlanStatusBlocked /\
  forall run, result = inr run ->
    PendingTaskIDs (checkpoint s) = [] /\ CkStatus (checkpoint s) = ParallelPlanStatusCompleted /\
    running s = ∅ /\ RunCheckpoint run = checkpoint s /\ checkpoint_wf (checkpoint s) /\
    (forall id, id ∈ map ArtTaskID (plan_tasks (checkpoint s)) -> id ∈ before \/ id ∈ map ID (submitted s)).

Definition not_blocked (s : ExecState) : Prop :=
  CkStatus (checkpoint s) <> ParallelPlanStatusBlocked.
Definition phase_ok (ph : ExecPhase) : Prop :=
  match ph with
  | LoopTop s => exec_ok s /\ not_blocked s
  | Awaiting s => exec_ok s /\ not_blocked s /\ running s <> ∅
  | Returned s result => returned_ok s result
  end.

Lemma submitted_new s : exec_ok s ->
  forall x, x ∈ submitted s -> ID x ∉ before /\ ID x ∈ map ArtTaskID (plan_tasks (checkpoint s)).
Proof.
  intros Hok x Hx. destruct (ok_submitted_of s Hok x Hx) as (a & Ha & Hid & _ & Hb & _).
  split; [done|]. rewrite Hid. by apply list_elem_of_fmap_2.
Qed.

Lemma pending_launches s : exec_ok s -> PendingTaskIDs (checkpoint s) <> [] ->
  running (foldl launch s (schedulable s)) <> ∅.
Proof.
  intros Hok Hp. pose proof (schedulable_nodup s Hok) as Hn.
  destruct (decide (running s = ∅)) as [Hr|Hr].
  - destruct (wf_some_ready _ (ok_checkpoint s Hok) Hp) as [t Ht].
    assert (schedulable s <> []) as Hs.
    { unfold schedulable. rewrite schedule_pick_free, Hr.
      change (collectArtifactConflictKeys ∅) with (∅ : gset string).
      set (l := sort_slice lighter _). assert (t ∈ l) as Hl by (by apply sort_slice_elem).
      destruct l as [|t' l']; [by apply not_elem_of_nil in Hl|]. cbn.
      by rewrite (proj2 (hasConflictKeys_false t' ∅)) by set_solver. }
    destruct (schedulable s) as [|u l] eqn:Hsch; [done|]. intros He.
    assert (running (foldl launch s (u :: l)) !! ArtTaskID u = Some u) as Hu.
    { apply launch_running; [done|]. right. rewrite Hr. split_and!; [done|by left|done]. }
    by rewrite He in Hu.
  - intros He. apply map_choose in Hr as (id & a & Hr).
    assert (running (foldl launch s (schedulable s)) !! id = Some a) as Hu
      by (apply launch_running; auto).
    by rewrite He in Hu.
Qed.

(** A round of the loop launches, or finishes when nothing is pending; it never blocks. *)
Lemma loop_round_cases now s st : exec_ok s ->
  (PendingTaskIDs (checkpoint s) <> [] /\
   loop_round now s st = (st, Awaiting (foldl launch s (schedulable s)))) \/
  (PendingTaskIDs (checkpoint s) = [] /\ running s = ∅ /\
   let s' := s <| checkpoint := set_status ParallelPlanStatusCompleted now (checkpoint s) |> in
   loop_round now s st =
     let '(st', err) := saveParallelCheckpoint (checkpoint s') st in
     match err with Some e => (st', Returned s' (inl e)) | None => (st', Returned s' (inr (run_of s'))) end).
Proof.
  intros Hok. unfold loop_round.
  destruct (PendingTaskIDs (checkpoint s)) as [|id l] eqn:Hp.
  - right. assert (running s = ∅) as Hr.
    { apply map_eq. intros id. rewrite lookup_empty. destruct (running s !! id) as [a|] eqn:Ha; [|done].
      destruct (ok_running s Hok id a Ha) as (_ & _ & Hin & _). rewrite Hp in Hin.
      by apply not_elem_of_nil in Hin. }
    rewrite (bool_decide_eq_true_2 _ Hr). cbn [len length Z.ltb negb orb]. by rewrite Hr.
  - left. split; [done|]. rewrite (proj2 (Z.ltb_lt 0 (len (id :: l)))) by (unfold len; cbn; lia).
    cbn [orb]. rewrite bool_decide_eq_false_2; [done|]. apply pending_launches; [done|by rewrite Hp].
Qed.

Lemma step_phase_ok c c' : exec_step c c' -> phase_ok c.2 -> phase_ok c'.2.
Proof.
  intros Hstep. destruct Hstep as [now s st|now s st id a outcome Hr]; cbn.
  - intros [Hok Hnb]. destruct (loop_round_cases now s st Hok) as [[Hp ->]|(Hp & Hr & ->)].
    + cbn. split_and!; [by apply launch_ok|unfold not_blocked; by rewrite launch_checkpoint|].
      by apply pending_launches.
    + cbn zeta.
      destruct (saveParallelCheckpoint _ st) as [st' [e|]]; cbn [snd phase_ok];
        (split_and!; [apply Hok|exact (submitted_new s Hok)|done|intros run Hrun]); [done|].
      injection Hrun as <-. split_and!; try done; [apply Hok..|].
      intros id Hid. destruct (ok_checkpoint s Hok) as [_ Hpart].
      change (id ∈ map ArtTaskID (plan_tasks (checkpoint s))) in Hid.
      rewrite <- Hpart, Hp in Hid. by apply (ok_completed s Hok).
  - intros (Hok & Hnb & _). destruct (ok_running s Hok id a Hr) as (_ & Hid & _). subst id.
    destruct (receive_cases now a outcome s st) as [(record & -> & Hv & Heq)|[[message ->] _]].
    + rewrite Heq. destruct (completed_ok now _ _ record s Hr Hok) as [Hok' _].
      cbn zeta. destruct (saveParallelCheckpoint _ st) as [st' [e|]]; cbn [snd phase_ok]; [|by split].
      split_and!; [apply Hok|exact (submitted_new s Hok)|done|done].
    + cbn [snd phase_ok fail_run].
      split_and!; [apply Hok|exact (submitted_new s Hok)|done|done].
Qed.

(** ** Termination *)
Definition phase_measure (ph : ExecPhase) : nat :=
  match ph with
  | LoopTop s => 2 * length (PendingTaskIDs (checkpoint s)) + 1
  | Awaiting s => 2 * length (PendingTaskIDs (checkpoint s))
  | Returned _ _ => 0
  end.

Lemma step_measure c c' : exec_step c c' -> phase_ok c.2 -> (phase_measure c'.2 < phase_measure c.2)%nat.
Proof.
  intros Hstep. destruct Hstep as [now s st|now s st id a outcome Hr]; cbn [snd phase_ok].
  - intros [Hok _]. destruct (loop_round_cases now s st Hok) as [[Hp ->]|(Hp & Hr & ->)].
    + cbn. rewrite launch_checkpoint. lia.
    + destruct (saveParallelCheckpoint _ st) as [st' [e|]]; cbn; lia.
  - intros (Hok & _ & _). destruct (ok_running s Hok id a Hr) as (_ & Hid & Hin & _). subst id.
    assert (0 < length (PendingTaskIDs (checkpoint s)))%nat as Hpos
      by (destruct (PendingTaskIDs (checkpoint s)); [by apply not_elem_of_nil in Hin|cbn; lia]).
    destruct (receive_cases now a outcome s st) as [(record & -> & Hv & Heq)|[[message ->] _]];
      [|cbn; lia].
    rewrite Heq. destruct (completed_ok now _ _ record s Hr Hok) as [_ Hlen].
    destruct (saveParallelCheckpoint _ st) as [st' [e|]]; cbn [snd phase_measure]; lia.
Qed.
End Invariant.

(** ** Runs *)
Section Runs.
Context {S : Type} `{PlanStorage S}.

Lemma normalize_keeps now ck :
  CkPlanArtifact (normalize_checkpoint now ck) = CkPlanArtifact ck /\
  CkPlan (normalize_checkpoint now ck) = CkPlan ck /\
  PendingTaskIDs (normalize_checkpoint now ck) = PendingTaskIDs ck /\
  CompletedTaskIDs (normalize_checkpoint now ck) = CompletedTaskIDs ck /\
  CkStatus (normalize_checkpoint now ck) = CkStatus ck /\
  CkRootTaskID (normalize_checkpoint now ck) = CkRootTaskID ck.
Proof.
  unfold normalize_checkpoint. cbn zeta.
  repeat match goal with |- context [if ?b then _ else _] => destruct b end; done.
Qed.

Definition running_checkpoint (now : Time) (ck : ParallelPlanCheckpoint) : ParallelPlanCheckpoint :=
  set_status ParallelPlanStatusRunning now (normalize_checkpoint now ck).

Lemma begin_loop now ck st st0 s0 :
  begin_execution now ck st = (st0, LoopTop s0) ->
  s0 = initial_state now (running_checkpoint now ck) /\ CkRootTaskID ck <> "" /\
  CkStatus ck <> ParallelPlanStatusCompleted /\
  exists st1, saveParallelCheckpointStatic (normalize_checkpoint now ck) st = (st1, None) /\
    saveParallelCheckpoint (running_checkpoint now ck) st1 = (st0, None).
Proof.
  unfold begin_execution, running_checkpoint. destruct (String.eqb_spec (CkRootTaskID ck) ""); [done|].
  cbn zeta. set (ck' := normalize_checkpoint now ck).
  assert (CkStatus ck' = CkStatus ck) as Hst by apply normalize_keeps.
  destruct (saveParallelCheckpointStatic ck' st) as [st1 [e|]]; [done|].
  case_bool_decide; [done|]. destruct (saveParallelCheckpoint _ st1) as [st2 [e|]] eqn:Hs2; [done|].
  intros [= -> <-]. rewrite Hst in *. split_and!; eauto.
Qed.

Lemma initial_ok now ck : checkpoint_wf ck ->
  phase_ok (CompletedTaskIDs ck) (LoopTop (initial_state now (running_checkpoint now ck))).
Proof.
  destruct (normalize_keeps now ck) as (H1 & H2 & H3 & H4 & H5 & _).
  intros [Hwf Hpart]. split; [|done].
  assert (plan_tasks (running_checkpoint now ck) = plan_tasks ck) as Ht by (unfold plan_tasks; cbn; by rewrite H1).
  split; cbn [checkpoint initial_state running submitted].
  - unfold checkpoint_wf. rewrite Ht. cbn. by rewrite H3, H4.
  - intros id a. by rewrite lookup_empty.
  - intros id1 id2 a1 a2 _. by rewrite lookup_empty.
  - constructor.
  - intros x Hx. by apply not_elem_of_nil in Hx.
  - intros id Hid. cbn. by rewrite H4.
  - intros id Hid. cbn in Hid. rewrite H4 in Hid. by left.
Qed.

Lemma run_phase_ok before c c' :
  rtc exec_step c c' -> phase_ok before c.2 -> phase_ok before c'.2.
Proof. induction 1; [done|]. intros Hok. by eapply IHrtc, step_phase_ok. Qed.

Lemma exec_step_plan c c' : exec_step c c' ->
  CkPlanArtifact (checkpoint (phase_state c'.2)) = CkPlanArtifact (checkpoint (phase_state c.2)).
Proof.
  intros [now s st|now s st id a outcome Hr]; cbn [snd phase_state].
  - unfold loop_round. cbn zeta. destruct ((0 <? _) || _).
    + destruct (bool_decide (running (foldl launch s (schedulable s)) = ∅)); [done|].
      cbn [snd phase_state]. by rewrite launch_checkpoint.
    + by destruct (saveParallelCheckpoint _ st) as [st' [e|]].
  - destruct (receive_cases now a outcome s st) as [(record & -> & Hv & Heq)|[[message ->] _]]; [|done].
    rewrite Heq. by destruct (saveParallelCheckpoint _ st) as [st' [e|]].
Qed.

Lemma run_plan c c' : rtc exec_step c c' ->
  CkPlanArtifact (checkpoint (phase_state c'.2)) = CkPlanArtifact (checkpoint (phase_state c.2)).
Proof. induction 1 as [|c c1 c' Hs _ IH]; [done|]. rewrite IH. by apply exec_step_plan. Qed.

(** C6: in every interleaving of completions and failures, the execution of a well-formed
    checkpoint submits each task at most once and never one that was completed before, runs two
    tasks at a time only when they share no conflict key, and starts a task only when all its
    dependencies are completed; pending and completed tasks stay a partition of the plan. *)
Theorem plan_execution_safe now ck st st0 s0 c :
  checkpoint_wf ck ->
  begin_execution now ck st = (st0, LoopTop s0) ->
  rtc exec_step (st0, LoopTop s0) c ->
  let s := phase_state c.2 in
  NoDup (map ID (submitted s)) /\
  (forall x, x ∈ submitted s -> ID x ∉ CompletedTaskIDs ck) /\
  (CkStatus (checkpoint s) <> ParallelPlanStatusBlocked) /\
  ((forall r, c.2 <> Returned s r) ->
     (forall id1 id2 a1 a2, id1 <> id2 -> running s !! id1 = Some a1 -> running s !! id2 = Some a2 ->
        conflict_keys a1 ## conflict_keys a2) /\
     (forall x, x ∈ submitted s -> exists a, a ∈ plan_tasks ck /\ ID x = ArtTaskID a /\
        Dependencies x = ArtDependencies a /\
        forall d, d ∈ ArtDependencies a -> d ∈ CompletedTaskIDs (checkpoint s)) /\
     (forall id, is_Some (running s !! id) -> id ∈ PendingTaskIDs (checkpoint s)) /\
     PendingTaskIDs (checkpoint s) ++ CompletedTaskIDs (checkpoint s) ≡ₚ map ArtTaskID (plan_tasks ck)).
Proof.
  intros Hck Hb Hrun. destruct (begin_loop _ _ _ _ _ Hb) as (-> & _).
  pose proof (run_plan _ _ Hrun) as Hplan.
  apply (run_phase_ok (CompletedTaskIDs ck)) in Hrun; [|by apply initial_ok].
  assert (plan_tasks (checkpoint (phase_state c.2)) = plan_tasks ck) as Ht.
  { unfold plan_tasks. rewrite Hplan. cbn. by destruct (normalize_keeps now ck) as [-> _]. }
  destruct c as [st' ph]; cbn [snd] in *. cbn zeta.
  assert (forall s, exec_ok (CompletedTaskIDs ck) s -> plan_tasks (checkpoint s) = plan_tasks ck ->
     (forall id1 id2 a1 a2, id1 <> id2 -> running s !! id1 = Some a1 -> running s !! id2 = Some a2 ->
        conflict_keys a1 ## conflict_keys a2) /\
     (forall x, x ∈ submitted s -> exists a, a ∈ plan_tasks ck /\ ID x = ArtTaskID a /\
        Dependencies x = ArtDependencies a /\
        forall d, d ∈ ArtDependencies a -> d ∈ CompletedTaskIDs (checkpoint s)) /\
     (forall id, is_Some (running s !! id) -> id ∈ PendingTaskIDs (checkpoint s)) /\
     PendingTaskIDs (checkpoint s) ++ CompletedTaskIDs (checkpoint s) ≡ₚ map ArtTaskID (plan_tasks ck)) as Hok.
  { intros s Hok <-. split_and!.
    - apply Hok.
    - intros x Hx. destruct (ok_submitted_of _ s Hok x Hx) as (a & ? & ? & ? & _ & ? & _). eauto.
    - intros id [a Ha]. by apply (ok_running _ s Hok id a Ha).
    - apply Hok. }
  destruct ph as [s|s|s r]; cbn [phase_state phase_ok] in *.
  - destruct Hrun as [He Hnb]. split_and!; [apply He|intros x Hx; by apply (submitted_new _ s He)|done|auto].
  - destruct Hrun as (He & Hnb & _). split_and!; [apply He|intros x Hx; by apply (submitted_new _ s He)|done|auto].
  - destruct Hrun as (H1 & H2 & H3 & _). split_and!; [done|intros x Hx; by apply H2|done|]. intros Hr. by destruct (Hr r).
Qed.

(** A step in which the received workflow, if any, succeeded. *)
Inductive good_step : S * ExecPhase -> S * ExecPhase -> Prop :=
  | good_round now s st : good_step (st, LoopTop s) (loop_round now s st)
  | good_receive now s st id artifact record :
      running s !! id = Some artifact -> validatePlanWorkflow record = None ->
      good_step (st, Awaiting s) (receive now artifact (OutcomeRecord record) s st).

(** Storage whose writes succeed. *)
Definition reliable : Prop :=
  (forall sid b ck st, (SaveSessionState sid b ck st).2 = None) /\
  (forall p ck st, (WriteCheckpoint p ck st).2 = None).

Lemma reliable_save ck st : reliable -> (saveParallelCheckpoint ck st).2 = None.
Proof.
  intros [Hs Hw]. unfold saveParallelCheckpoint, save_payload.
  destruct (_ && _); [done|].
  destruct (has_store st); [|by destruct (has_vfs st)].
  specialize (Hs (CkSessionID ck) (CkBranch ck) (runtime_payload ck) st).
  destruct (SaveSessionState _ _ _ st) as [st' err]. cbn in Hs. subst err. by destruct (has_vfs st').
Qed.

Lemma good_exec c c' : good_step c c' -> exec_step c c'.
Proof. intros [now s st|now s st id a record Hr Hv]; [constructor|by econstructor]. Qed.

Lemma good_not_failed before c c' : reliable -> good_step c c' -> phase_ok before c.2 ->
  forall s e, c'.2 <> Returned s (inl e).
Proof.
  intros Hrel [now s st|now s st id a record Hr Hv]; cbn [snd phase_ok].
  - intros [Hok _] s' e. destruct (loop_round_cases before now s st Hok) as [[Hp ->]|(Hp & _ & ->)]; [done|].
    cbn zeta. pose proof (reliable_save (checkpoint (s <| checkpoint :=
      set_status ParallelPlanStatusCompleted now (checkpoint s) |>)) st Hrel) as Hs.
    destruct (saveParallelCheckpoint _ st) as [st' err]. by destruct err.
  - intros _ s' e.
    destruct (receive_cases now a (OutcomeRecord record) s st) as [(r' & _ & _ & ->)|[_ Hbad]];
      [|by destruct (Hbad record)].
    cbn zeta. pose proof (reliable_save (checkpoint (completed_state now (ArtTaskID a) r' s)) st Hrel) as Hs.
    destruct (saveParallelCheckpoint _ st) as [st' err]. by destruct err.
Qed.

Lemma run_measure before n c c' : nsteps exec_step n c c' -> phase_ok before c.2 ->
  (n + phase_measure c'.2 <= phase_measure c.2)%nat.
Proof.
  induction 1 as [|n c c1 c' Hs _ IH]; intros Hok; [lia|].
  specialize (IH (step_phase_ok before _ _ Hs Hok)). pose proof (step_measure before _ _ Hs Hok). lia.
Qed.

Definition done_record : WorkflowRecord :=
  mkWorkflowRecord zero_task zero_plan
    (mkTaskAcceptance "" TaskStatusCompleted "" (ComplexityOther "") "" "" "" "" false 0) None 0.

Lemma exec_progress before c : phase_ok before c.2 ->
  (exists c', good_step c c') \/ exists s r, c.2 = Returned s r.
Proof.
  destruct c as [st [s|s|s r]]; cbn [snd phase_ok]; intros Hok; [left|left|right; eauto].
  - eexists. by apply (good_round 0).
  - destruct Hok as (_ & _ & Hr). apply map_choose in Hr as (id & a & Hr).
    eexists. by apply (good_receive 0 s st id a done_record).
Qed.

(** C5: every execution of a well-formed checkpoint ends: after at most two steps per pending
    task and one more it has returned, and before that a step is always possible.  A successful
    return means that every task of the plan is completed and that exactly the tasks pending at
    the start were submitted, once each; if the storage works and every workflow succeeds, the
    run does return successfully. *)
Theorem plan_execution_completes now ck st st0 s0 n c :
  checkpoint_wf ck ->
  begin_execution now ck st = (st0, LoopTop s0) ->
  nsteps exec_step n (st0, LoopTop s0) c ->
  (n <= 2 * length (PendingTaskIDs ck) + 1)%nat /\
  ((exists c', good_step c c') \/ exists s r, c.2 = Returned s r) /\
  (forall s run, c.2 = Returned s (inr run) ->
     CkStatus (RunCheckpoint run) = ParallelPlanStatusCompleted /\
     PendingTaskIDs (RunCheckpoint run) = [] /\
     CompletedTaskIDs (RunCheckpoint run) ≡ₚ map ArtTaskID (plan_tasks ck) /\
     map ID (submitted s) ≡ₚ PendingTaskIDs ck) /\
  (reliable -> rtc good_step (st0, LoopTop s0) c -> forall s e, c.2 <> Returned s (inl e)).
Proof.
  intros Hck Hb Hrun. destruct (begin_loop _ _ _ _ _ Hb) as (-> & _).
  pose proof (initial_ok now ck Hck) as Hinit.
  pose proof (rtc_nsteps_2 _ _ _ Hrun) as Hrtc. pose proof (run_plan _ _ Hrtc) as Hplan.
  pose proof (run_phase_ok (CompletedTaskIDs ck) _ _ Hrtc Hinit) as Hok.
  destruct (normalize_keeps now ck) as (Ha & _ & Hp & _ & _ & _). split_and!.
  - apply (run_measure (CompletedTaskIDs ck)) in Hrun; [|done]. cbn in Hrun. rewrite Hp in Hrun. lia.
  - by apply (exec_progress (CompletedTaskIDs ck)).
  - intros s run Hret. destruct c as [st' ph]. cbn in Hret. subst ph. cbn [snd phase_ok phase_state] in *.
    assert (plan_tasks (checkpoint s) = plan_tasks ck) as Ht
      by (unfold plan_tasks; rewrite Hplan; cbn; by rewrite Ha).
    destruct Hok as (Hn & Hnew & _ & Hr). destruct (Hr run eq_refl) as (Hpe & Hst & _ & -> & [Hwf Hpart] & Hcov).
    rewrite Hpe, Ht in Hpart. rewrite Ht in Hcov.
    split_and!; [done..|]. destruct Hck as [Hwf0 Hpart0].
    pose proof (wf_nodup _ Hwf0) as Hnd. rewrite <- Hpart0 in Hnd.
    apply NoDup_app in Hnd as (Hnd & Hdis & _).
    apply NoDup_Permutation; [done..|]. intros id. split.
    + intros (x & -> & Hx)%list_elem_of_fmap. destruct (Hnew x Hx) as [Hxb Hxt].
      rewrite Ht, <- Hpart0 in Hxt. by apply elem_of_app in Hxt as [?|?].
    + intros Hid. destruct (Hcov id) as [Hc|?]; [|by apply Hdis in Hc|done].
      rewrite <- Hpart0. apply elem_of_app. by left.
  - intros Hrel Hgood. apply rtc_inv_r in Hgood as [<-|(c1 & Hg & Hstep)]; [done|].
    assert (rtc exec_step (st0, LoopTop (initial_state now (running_checkpoint now ck))) c1) as Hg1.
    { clear -Hg. induction Hg as [|x y z Hxy _ IH]; [done|]. eapply rtc_l; [by apply good_exec|done]. }
    eapply good_not_failed; [done..|]. exact (run_phase_ok _ _ _ Hg1 Hinit).
Qed.
End Runs.
