(* ===== verification/PlanStorageProps.v ===== *)
(** * Durability of plan checkpoints

    What [LoadParallelCheckpoint] reads is, at every moment of a preview or a run, the canonical form of the
    checkpoint the kernel holds in memory: a resume continues with exactly the tasks that were
    not completed. *)
From S2P Require Import Prelude GoLib GoJSON Domain ContractJSON JSONDecode JSONDecodeProps TaskPolicy Config Planner PlannerProps PlanScheduling PlanSchedulingProps PlanExecutor PlanExecutorProps.

(** ** The two halves of a checkpoint, read back *)
Definition runtime_half (ck : ParallelPlanCheckpoint) : ParallelPlanCheckpoint :=
  mkParallelPlanCheckpoint (clean_text (CkKind ck)) (clean_text (CkRootTaskID ck)) (clean_text (CkSessionID ck))
    (clean_text (CkBranch ck)) zero_task zero_plan zero_artifact (map clean_text (PendingTaskIDs ck))
    (map clean_text (CompletedTaskIDs ck)) (generic_map (ResultsByTaskID ck)) (BatchNo ck)
    (canon_status (CkStatus ck)) (CkUpdatedAt ck).
Definition static_half (ck : ParallelPlanCheckpoint) : ParallelPlanCheckpoint :=
  mkParallelPlanCheckpoint (clean_text (CkKind ck)) (clean_text (CkRootTaskID ck)) (clean_text (CkSessionID ck))
    (clean_text (CkBranch ck)) (canon_task (RootTask ck)) (canon_plan (CkPlan ck)) (canon_artifact (CkPlanArtifact ck))
    [] [] [] 0 (ParallelPlanStatusOther "") zero_time.
(** What a checkpoint is after the round trip: every typed field as it was, apart from invalid bytes in texts; the
    values of type [any] (results, contracts, hints, traces, handoffs) in the types JSON gives them. *)
Definition canon_checkpoint (ck : ParallelPlanCheckpoint) : ParallelPlanCheckpoint :=
  runtime_half ck <| RootTask := canon_task (RootTask ck) |> <| CkPlan := canon_plan (CkPlan ck) |>
    <| CkPlanArtifact := canon_artifact (CkPlanArtifact ck) |>.

Definition runtime_writable (ck : ParallelPlanCheckpoint) : Prop :=
  Marshal (AMap (runtime_payload ck)) <> None /\ storable (AMap (runtime_payload ck)) = true /\ printable (CkUpdatedAt ck).
Definition static_writable (ck : ParallelPlanCheckpoint) : Prop :=
  Marshal (AMap (static_payload ck)) <> None /\ storable (AMap (static_payload ck)) = true /\
  printable (CreatedAt (RootTask ck)) /\ printable (PlanCreatedAt (CkPlan ck)) /\
  printable (ArtCreatedAt (CkPlanArtifact ck)).

Lemma runtime_back ck : runtime_writable ck -> decodeSessionState (runtime_payload ck) = inr (runtime_half ck).
Proof.
  intros (Hm & _ & Ht). unfold decodeSessionState. destruct (Marshal _); [|done].
  change (runtime_payload ck) with (present
    [("kind", (false, AString (CkKind ck))); ("root_task_id", (false, AString (CkRootTaskID ck)));
     ("session_id", (false, AString (CkSessionID ck))); ("branch", (false, AString (CkBranch ck)));
     ("pending_task_ids", (false, AStrings (PendingTaskIDs ck)));
     ("completed_task_ids", (false, AStrings (CompletedTaskIDs ck)));
     ("results_by_task_id", (false, AMap (ResultsByTaskID ck))); ("batch_no", (false, AInt (BatchNo ck)));
     ("status", (false, AString (plan_status_string (CkStatus ck)))); ("updated_at", (false, time_any (CkUpdatedAt ck)))]).
  unfold dec_checkpoint. cbn [dec_fields mbind option_bind]. read_fields. done.
Qed.
Lemma static_back ck : static_writable ck -> decodeSessionState (static_payload ck) = inr (static_half ck).
Proof.
  intros (Hm & _ & Ht & Hp & Ha). unfold decodeSessionState. destruct (Marshal _); [|done].
  change (static_payload ck) with (present
    [("kind", (false, AString (CkKind ck))); ("root_task_id", (false, AString (CkRootTaskID ck)));
     ("session_id", (false, AString (CkSessionID ck))); ("branch", (false, AString (CkBranch ck)));
     ("root_task", (false, task_any (RootTask ck))); ("plan", (false, plan_any (CkPlan ck)));
     ("plan_artifact", (false, plan_artifact_any (CkPlanArtifact ck)))]).
  unfold dec_checkpoint. cbn [dec_fields mbind option_bind]. read_fields.
  rewrite task_back, plan_back, artifact_back by done. done.
Qed.

(** ** Paths *)
Lemma strip_prefix_straddle p c a b r : c ∉ String.list_ascii_of_string p ->
  strip_prefix p (a +:+ String c b) = Some r -> exists a', r = a' +:+ String c b.
Proof.
  revert a. induction p as [|x p IH]; intros a Hp.
  { cbn. intros [=<-]. by exists a. }
  cbn [String.list_ascii_of_string] in Hp. apply not_elem_of_cons in Hp as [Hx Hp].
  destruct a as [|y a]; cbn [strip_prefix String.append].
  - change ("" +:+ String c b) with (String c b). cbn [strip_prefix].
    destruct (Ascii.eqb_spec x c) as [->|]; [done|done].
  - change (String y a +:+ String c b) with (String y (a +:+ String c b)). cbn [strip_prefix].
    destruct (Ascii.eqb x y); [|done]. by apply IH.
Qed.
Lemma trim_fuel_keeps n ps c a b : Forall (fun p => c ∉ String.list_ascii_of_string p) ps ->
  exists a', trim_fuel n ps (a +:+ String c b) = a' +:+ String c b.
Proof.
  intros Hps. revert a. induction n as [|n IH]; intros a; cbn [trim_fuel]; [by exists a|].
  destruct (strip_any ps (a +:+ String c b)) as [r|] eqn:Hr; [|by exists a].
  assert (exists a', r = a' +:+ String c b) as [a' ->]; [|apply IH].
  clear IH. induction Hps as [|p ps Hp Hps IH]; [done|]. cbn in Hr.
  destruct (strip_prefix p _) as [r'|] eqn:E; [|by apply IH].
  injection Hr as <-. by eapply strip_prefix_straddle.
Qed.
Definition slash : Ascii.ascii := Ascii.ascii_of_N 47.
(** Trimming keeps what stands before a slash, if it begins with no space. *)
Lemma trim_path p r : trim_left (p +:+ String slash r) = p +:+ String slash r ->
  exists x, TrimSpace (p +:+ String slash r) = p +:+ String slash x.
Proof.
  intros Hl. unfold TrimSpace, trim_right. rewrite Hl, string_rev_app, string_rev_cons, string_app_assoc.
  change (String slash "" +:+ String.rev p) with (String slash (String.rev p)).
  destruct (trim_fuel_keeps (String.length (p +:+ String slash r)) (map String.rev space_runes) slash
    (String.rev r) (String.rev p)) as [a' ->].
  { apply (bool_decide_unpack (Forall _ _)). vm_compute. exact I. }
  exists (String.rev a'). by rewrite string_rev_app, string_rev_cons, string_rev_involutive, string_app_assoc.
Qed.
Lemma paths_differ r r' : TrimSpace (parallelPlanStaticPath r) <> TrimSpace (parallelPlanRuntimePath r').
Proof.
  destruct (trim_path "parallel_plan" r' eq_refl) as [x Hx].
  destruct (trim_path "parallel_plan_static" r eq_refl) as [y Hy].
  change (TrimSpace (parallelPlanRuntimePath r') = "parallel_plan" +:+ String slash x) in Hx.
  change (TrimSpace (parallelPlanStaticPath r) = "parallel_plan_static" +:+ String slash y) in Hy.
  rewrite Hx, Hy. done.
Qed.

Section Durability.
Context {S : Type} `{StorageLaws S}.

(** A storable payload is under the key in each storage that is present. *)
Definition stored_at (sid branch path : string) (payload : anymap) (st : S) : Prop :=
  storable (AMap payload) = true ->
  (has_store st = true -> reads_as payload (GetSessionState sid branch st)) /\
  (has_vfs st = true -> reads_as payload (ReadCheckpoint path st)).

Lemma save_payload_reads branch path payload ck st st' :
  save_payload branch path payload ck st = (st', None) ->
  has_store st' = has_store st /\ has_vfs st' = has_vfs st /\
  stored_at (CkSessionID ck) branch path payload st' /\
  (forall b, b <> branch -> GetSessionState (CkSessionID ck) b st' = GetSessionState (CkSessionID ck) b st) /\
  (forall p, TrimSpace p <> TrimSpace path -> ReadCheckpoint p st' = ReadCheckpoint p st).
Proof.
  unfold save_payload, stored_at. destruct (has_store st) eqn:Hs; cbn [negb andb].
  - destruct (SaveSessionState _ _ _ st) as [st1 [e|]] eqn:Hsave; [done|].
    destruct (save_keeps _ _ _ _ _ Hs Hsave) as (S1 & S2 & S3 & S4 & S5).
    destruct (has_vfs st1) eqn:Hv; intros Hw.
    + destruct (write_keeps _ _ _ _ Hv Hw) as (W1 & W2 & W3 & W4 & W5).
      split_and!; [congruence|congruence| |..].
      * intros Hst. rewrite W5. auto.
      * intros. by rewrite W5, S4.
      * intros. by rewrite W4, S5.
    + injection Hw as <-. split_and!; [congruence|congruence| |auto|auto]. split; [auto|congruence].
  - destruct (has_vfs st) eqn:Hv; cbn [negb]; intros Hw.
    + destruct (write_keeps _ _ _ _ Hv Hw) as (W1 & W2 & W3 & W4 & W5).
      split_and!; [congruence|congruence| |auto|auto]. split; [congruence|auto].
    + injection Hw as <-. split_and!; try congruence. intros _. split; congruence.
Qed.

Lemma load_stored sid branch path payload ck st :
  stored_at sid branch path payload st -> storable (AMap payload) = true -> has_store st || has_vfs st = true ->
  decodeSessionState payload = inr ck -> load_payload sid branch path st = inr (Some ck).
Proof.
  unfold load_payload. intros Hst Hpay Hany Hck. destruct (Hst Hpay) as [Hs Hv].
  destruct (has_vfs st).
  - destruct (Hv eq_refl) as (m & -> & Hm). cbn [decode_record]. by rewrite Hm, Hck.
  - destruct (has_store st); [|done]. destruct (Hs eq_refl) as (m & -> & Hm). cbn [decode_record]. by rewrite Hm, Hck.
Qed.

(** Both halves of the checkpoint are stored. *)
Definition durable (ck : ParallelPlanCheckpoint) (st : S) : Prop :=
  has_store st || has_vfs st = true /\
  stored_at (CkSessionID ck) (checkpointStaticBranchName (CkRootTaskID ck))
    (parallelPlanStaticPath (CkRootTaskID ck)) (static_payload ck) st /\
  stored_at (CkSessionID ck) (checkpointBranchName (CkRootTaskID ck))
    (parallelPlanRuntimePath (CkRootTaskID ck)) (runtime_payload ck) st.

Record identified (ck : ParallelPlanCheckpoint) : Prop := mkIdentified {
  id_root : CkRootTaskID ck <> "";
  id_session : CkSessionID ck <> "";
  id_branch : CkBranch ck = checkpointBranchName (CkRootTaskID ck) }.

Lemma load_durable ck st :
  durable ck st -> identified ck -> runtime_writable ck -> static_writable ck ->
  clean_text (CkSessionID ck) = CkSessionID ck -> clean_text (CkRootTaskID ck) = CkRootTaskID ck ->
  LoadParallelCheckpoint (CkSessionID ck) (CkRootTaskID ck) st = inr (Some (canon_checkpoint ck)).
Proof.
  intros (Hany & Hst & Hrt) [Hr Hs Hb] Hwr Hws Hcs Hcr. unfold LoadParallelCheckpoint.
  rewrite (proj2 (String.eqb_neq _ _) Hs), (proj2 (String.eqb_neq _ _) Hr). cbn [orb].
  rewrite (load_stored _ _ _ _ (runtime_half ck) _ Hrt) by (done || apply Hwr || by apply runtime_back).
  assert (fill_identity (CkSessionID ck) (CkRootTaskID ck) (runtime_half ck) = runtime_half ck) as ->.
  { unfold fill_identity. cbn zeta. cbn [runtime_half CkRootTaskID]. rewrite Hcr, (proj2 (String.eqb_neq _ _) Hr).
    cbn [runtime_half CkSessionID]. rewrite Hcs, (proj2 (String.eqb_neq _ _) Hs). cbn [runtime_half CkBranch].
    destruct (String.eqb_spec (clean_text (CkBranch ck)) "") as [Hc%clean_text_empty|]; [|done].
    rewrite Hb in Hc. discriminate Hc. }
  unfold hydrateParallelCheckpoint, loadParallelCheckpointStatic.
  change (CkSessionID (runtime_half ck)) with (clean_text (CkSessionID ck)).
  change (CkRootTaskID (runtime_half ck)) with (clean_text (CkRootTaskID ck)).
  rewrite Hcs, Hcr, (proj2 (String.eqb_neq _ _) Hs), (proj2 (String.eqb_neq _ _) Hr). cbn [orb].
  rewrite (load_stored _ _ _ _ (static_half ck) _ Hst) by (done || apply Hws || by apply static_back). done.
Qed.

Lemma save_static_durable ck st st' :
  has_store st || has_vfs st = true -> saveParallelCheckpointStatic ck st = (st', None) ->
  has_store st' || has_vfs st' = true /\
  stored_at (CkSessionID ck) (checkpointStaticBranchName (CkRootTaskID ck))
    (parallelPlanStaticPath (CkRootTaskID ck)) (static_payload ck) st'.
Proof. intros Hany (H1 & H2 & H3 & _)%save_payload_reads. by rewrite H1, H2. Qed.

(** Saving the progress of a checkpoint keeps its static half. *)
Lemma save_runtime_durable ck ck' st st' :
  identified ck' -> static_payload ck' = static_payload ck ->
  CkSessionID ck' = CkSessionID ck -> CkRootTaskID ck' = CkRootTaskID ck ->
  has_store st || has_vfs st = true ->
  stored_at (CkSessionID ck) (checkpointStaticBranchName (CkRootTaskID ck))
    (parallelPlanStaticPath (CkRootTaskID ck)) (static_payload ck) st ->
  saveParallelCheckpoint ck' st = (st', None) -> durable ck' st'.
Proof.
  intros [Hr Hs Hb] Hp Es Er Hany Hst (H1 & H2 & H3 & H4 & H5)%save_payload_reads.
  unfold durable. rewrite H1, H2, Hp, Es, Er in *. rewrite Hb in H3, H4. split_and!; [done| |done].
  intros Hpay. destruct (Hst Hpay) as [Hst1 Hst2]. split; rewrite ?H1, ?H2; intros Hx.
  - rewrite H4; [by apply Hst1|]. intros Hc. discriminate Hc.
  - rewrite H5; [by apply Hst2|]. apply paths_differ.
Qed.

Lemma runtime_saved ck ck' st st' :
  identified ck' -> static_payload ck' = static_payload ck ->
  CkSessionID ck' = CkSessionID ck -> CkRootTaskID ck' = CkRootTaskID ck -> durable ck st ->
  saveParallelCheckpoint ck' st = (st', None) -> durable ck' st'.
Proof. intros Hi Hp Hs Hr (Hany & Hst & _). by apply (save_runtime_durable ck). Qed.

(** ** Preview *)
Lemma preview_defaults_ids fresh now task : fresh <> "" ->
  ID (preview_defaults fresh now task) <> "" /\ SessionID (preview_defaults fresh now task) <> "".
Proof.
  intros Hf. unfold preview_defaults. cbn zeta.
  destruct (String.eqb_spec (ID task) "") as [H1|H1].
  - change (SessionID (task <| ID := fresh |>)) with (SessionID task).
    destruct (String.eqb_spec (SessionID task) ""); repeat case_match; done.
  - destruct (String.eqb_spec (SessionID task) ""); repeat case_match; done.
Qed.

Lemma preview_checkpoint_wf now task plan :
  (exists getenv t sel, plan = buildPlan getenv now t sel) ->
  (forall s, s ∈ Steps plan -> clean_id (StepID s)) ->
  checkpoint_wf (preview_checkpoint now task plan).
Proof.
  intros (getenv & t & sel & Hplan) Hclean.
  destruct (plan_topological getenv now t sel) as (Hn & Hd & _). rewrite <- Hplan in Hn, Hd.
  assert (map ArtTaskID (plan_tasks (preview_checkpoint now task plan)) = map StepID (Steps plan)) as Hids.
  { unfold plan_tasks, preview_checkpoint, buildPlanArtifact. cbn. rewrite map_map.
    apply map_ext. intros s. unfold artifact_of_step. by destruct (stepAssignment task plan s). }
  assert (forall i a, plan_tasks (preview_checkpoint now task plan) !! i = Some a ->
    exists s, Steps plan !! i = Some s /\ a = artifact_of_step task plan s) as Hlook.
  { intros i a. unfold plan_tasks, preview_checkpoint, buildPlanArtifact. cbn.
    rewrite list_lookup_fmap. destruct (Steps plan !! i) as [s|]; [|done]. intros [=<-]. eauto. }
  assert (forall s, ArtTaskID (artifact_of_step task plan s) = StepID s /\
    ArtDependencies (artifact_of_step task plan s) = StepDependencies s) as Hart
    by (intros s; unfold artifact_of_step; by destruct (stepAssignment task plan s)).
  split; [split|].
  - by rewrite Hids.
  - intros a [i Ha]%list_elem_of_lookup. destruct (Hlook i a Ha) as (s & Hs & ->).
    rewrite (proj1 (Hart s)). apply Hclean. by eapply list_elem_of_lookup_2.
  - intros i a d Ha Hdep. destruct (Hlook i a Ha) as (s & Hs & ->).
    rewrite (proj2 (Hart s)) in Hdep. destruct (Hd i s d Hs Hdep) as (j & s' & Hj & Hs' & <-).
    exists j, (artifact_of_step task plan s'). split_and!; [done| |apply Hart].
    unfold plan_tasks, preview_checkpoint, buildPlanArtifact. cbn. by rewrite list_lookup_fmap, Hs'.
  - cbn. by rewrite app_nil_r.
Qed.

(** A plan that is previewed can be executed: after a successful preview, the checkpoint with every task of the plan
    pending and none completed is stored, and loading it gives its canonical form; when the step ids carry no
    surrounding space it is a well-formed checkpoint. *)
Theorem preview_load_roundtrip (selector : ModelSelector) getenv fresh now task st st' preview :
  has_store st || has_vfs st = true -> fresh <> "" ->
  PreviewExecutionPlan getenv fresh now task st = (st', inr preview) ->
  let t := PreviewTask preview in
  let ck := preview_checkpoint now t (PreviewPlan preview) in
  (runtime_writable ck -> static_writable ck -> clean_text (SessionID t) = SessionID t -> clean_text (ID t) = ID t ->
   LoadParallelCheckpoint (SessionID t) (ID t) st' = inr (Some (canon_checkpoint ck))) /\
  CkPlanArtifact ck = PreviewArtifact preview /\ PendingTaskIDs ck = PreviewPending preview /\
  PendingTaskIDs ck = map StepID (Steps (CkPlan ck)) /\ CkBranch ck = CheckpointBranch preview /\
  ((forall s, s ∈ Steps (CkPlan ck) -> clean_id (StepID s)) -> checkpoint_wf ck).
Proof.
  intros Hany Hfresh Hprev. cbn zeta. unfold PreviewExecutionPlan in Hprev.
  pose proof (prepare_identity getenv selector now (preview_defaults fresh now task)) as Hid.
  destruct (preview_defaults_ids fresh now task Hfresh) as [H1 H2].
  destruct (Prepare getenv now (preview_defaults fresh now task)) as [t plan].
  destruct Hid as (I1 & I2 & sel & Hplan). rewrite <- I1 in H1. rewrite <- I2 in H2.
  cbn zeta in Hprev. set (ck := preview_checkpoint now t plan) in *.
  destruct (saveParallelCheckpointStatic ck st) as [st1 [e|]] eqn:Hs1; [done|].
  destruct (saveParallelCheckpoint ck st1) as [st2 [e|]] eqn:Hs2; [done|].
  injection Hprev as <- <-. cbn [PreviewTask PreviewPlan PreviewArtifact PreviewPending CheckpointBranch].
  destruct (save_static_durable ck st st1 Hany Hs1) as [Hany1 Hst].
  assert (identified ck) as Hident by (split; [exact H1|exact H2|done]). fold ck.
  split_and!; try done.
  - intros Hwr Hws Hcs Hcr.
    apply (load_durable ck st2); try done. by apply (save_runtime_durable ck ck st1).
  - cbn. rewrite map_map. apply map_ext. intros s. unfold artifact_of_step.
    by destruct (stepAssignment t plan s).
  - intros Hclean. apply preview_checkpoint_wf; eauto.
Qed.

(** ** Execution *)
Lemma normalize_identity now ck : CkRootTaskID ck <> "" ->
  CkBranch ck = "" \/ CkBranch ck = checkpointBranchName (CkRootTaskID ck) ->
  identified (normalize_checkpoint now ck).
Proof.
  intros Hr Hb. unfold normalize_checkpoint. cbn zeta.
  set (ck1 := if String.eqb (CkSessionID ck) "" then _ else ck).
  set (ck2 := if String.eqb (CkSessionID ck1) "" then _ else ck1).
  set (ck3 := if String.eqb (CkBranch ck2) "" then _ else ck2).
  set (ck4 := if String.eqb (ID (RootTask ck3)) "" then _ else ck3).
  assert (CkRootTaskID ck1 = CkRootTaskID ck /\ CkBranch ck1 = CkBranch ck) as [R1 B1]
    by (subst ck1; by case_match).
  assert (CkRootTaskID ck2 = CkRootTaskID ck /\ CkBranch ck2 = CkBranch ck /\ CkSessionID ck2 <> "") as (R2 & B2 & S2).
  { subst ck2. destruct (String.eqb_spec (CkSessionID ck1) ""); [|done]. cbn. rewrite R1. done. }
  assert (identified ck3) as [R3 S3 B3].
  { subst ck3. destruct (String.eqb_spec (CkBranch ck2) "") as [He|Hne].
    - split; cbn; [by rewrite R2|done|done].
    - split; [by rewrite R2|done|]. rewrite R2, B2. destruct Hb as [Hb|Hb]; [congruence|done]. }
  assert (identified ck4) as [R4 S4 B4] by (subst ck4; case_match; by split).
  repeat match goal with |- context [if ?b then _ else _] => destruct b end; by split.
Qed.

(** The step relation keeps both halves stored while the run has not returned. *)
Definition phase_durable (c : S * ExecPhase) : Prop :=
  match c.2 with
  | LoopTop s | Awaiting s =>
      durable (checkpoint s) c.1 /\ identified (checkpoint s)
  | Returned _ _ => True
  end.

Lemma step_durable c c' : exec_step c c' -> phase_durable c -> phase_durable c'.
Proof.
  intros [now s st|now s st id a outcome Hr] (Hd & Hi); cbn [fst snd] in *.
  - unfold loop_round. cbn zeta. destruct ((0 <? _) || _).
    + destruct (bool_decide _); [done|]. unfold phase_durable. cbn [fst snd].
      by rewrite launch_checkpoint.
    + by destruct (saveParallelCheckpoint _ st) as [st' [e|]].
  - destruct (receive_cases now a outcome s st) as [(record & -> & Hv & ->)|[[message ->] _]]; [|done].
    cbn zeta. set (s' := completed_state now (ArtTaskID a) record s).
    destruct (saveParallelCheckpoint (checkpoint s') st) as [st' [e|]] eqn:Hsave; [done|].
    assert (identified (checkpoint s')) as Hi' by (destruct Hi as [I1 I2 I3]; by split).
    split; [|done]. by apply (runtime_saved (checkpoint s) (checkpoint s') st st').
Qed.

Lemma step_identity c c' : exec_step c c' ->
  CkSessionID (checkpoint (phase_state c'.2)) = CkSessionID (checkpoint (phase_state c.2)) /\
  CkRootTaskID (checkpoint (phase_state c'.2)) = CkRootTaskID (checkpoint (phase_state c.2)).
Proof.
  intros [now s st|now s st id a outcome Hr]; cbn [snd phase_state].
  - unfold loop_round. cbn zeta. destruct ((0 <? _) || _).
    + destruct (bool_decide _); cbn [snd phase_state]; [done|]. by rewrite launch_checkpoint.
    + by destruct (saveParallelCheckpoint _ st) as [st' [e|]].
  - destruct (receive_cases now a outcome s st) as [(record & -> & Hv & ->)|[[message ->] _]]; [|done].
    cbn zeta. by destruct (saveParallelCheckpoint _ st) as [st' [e|]].
Qed.

Lemma run_durable c c' : rtc exec_step c c' -> phase_durable c -> phase_durable c' /\
  CkSessionID (checkpoint (phase_state c'.2)) = CkSessionID (checkpoint (phase_state c.2)) /\
  CkRootTaskID (checkpoint (phase_state c'.2)) = CkRootTaskID (checkpoint (phase_state c.2)).
Proof.
  induction 1 as [c|c c1 c' Hs Hrest IH]; intros Hd; [done|].
  destruct (IH (step_durable _ _ Hs Hd)) as (H1 & -> & ->). split; [done|by apply step_identity].
Qed.

(** What the loop looks at to choose the next tasks. *)
Definition schedule_key (a : PlanTaskArtifact) : string * list string * list string :=
  (ArtTaskID a, ArtDependencies a, ArtConflictKeys a).
Definition schedule_view (ck : ParallelPlanCheckpoint) :=
  (PendingTaskIDs ck, CompletedTaskIDs ck, map schedule_key (Tasks (CkPlanArtifact ck))).
Definition schedule_texts (ck : ParallelPlanCheckpoint) : list string :=
  PendingTaskIDs ck ++ CompletedTaskIDs ck ++
  concat (map (fun a => ArtTaskID a :: ArtDependencies a ++ ArtConflictKeys a) (Tasks (CkPlanArtifact ck))).
Notation plain := (fun s => clean_text s = s).

Lemma clean_plain l : Forall plain l -> map clean_text l = l.
Proof. induction 1 as [|s l Hs Hl IH]; [done|]. cbn. by rewrite Hs, IH. Qed.
Lemma schedule_kept ck : Forall plain (schedule_texts ck) -> schedule_view (canon_checkpoint ck) = schedule_view ck.
Proof.
  unfold schedule_texts, schedule_view. intros [Hp [Hc Ht]%Forall_app]%Forall_app.
  cbn [canon_checkpoint]. change (PendingTaskIDs (canon_checkpoint ck)) with (map clean_text (PendingTaskIDs ck)).
  change (CompletedTaskIDs (canon_checkpoint ck)) with (map clean_text (CompletedTaskIDs ck)).
  change (Tasks (CkPlanArtifact (canon_checkpoint ck))) with (map canon_plan_task (Tasks (CkPlanArtifact ck))).
  rewrite !clean_plain by done. f_equal. rewrite map_map.
  induction (Tasks (CkPlanArtifact ck)) as [|a l IH]; [done|]. cbn in Ht |- *.
  apply Forall_cons in Ht as [Hi Ht]. apply Forall_app in Ht as [[Hd Hk]%Forall_app Hl].
  change (schedule_key (canon_plan_task a)) with (clean_text (ArtTaskID a), map clean_text (ArtDependencies a), map clean_text (ArtConflictKeys a)).
  rewrite Hi, !clean_plain by done. unfold schedule_key at 2. f_equal. apply IH. exact Hl.
Qed.

(** C7: while an execution runs, whatever tasks are in flight, loading the checkpoint gives
    the state in memory as JSON keeps it; resuming it restarts with the tasks not yet completed. *)
Theorem checkpoint_durable now ck st st0 s0 c :
  has_store st || has_vfs st = true ->
  CkBranch ck = "" \/ CkBranch ck = checkpointBranchName (CkRootTaskID ck) ->
  begin_execution now ck st = (st0, LoopTop s0) ->
  rtc exec_step (st0, LoopTop s0) c ->
  (forall s r, c.2 <> Returned s r) ->
  let memory := checkpoint (phase_state c.2) in
  runtime_writable memory -> static_writable memory -> plain (CkSessionID (checkpoint s0)) -> plain (CkRootTaskID ck) ->
  exists loaded,
    LoadParallelCheckpoint (CkSessionID (checkpoint s0)) (CkRootTaskID ck) c.1 = inr (Some loaded) /\
    loaded = canon_checkpoint memory /\
    (Forall plain (schedule_texts memory) -> schedule_view loaded = schedule_view memory).
Proof.
  intros Hany Hb Hbegin Hrun Hret. cbn zeta.
  destruct (begin_loop _ _ _ _ _ Hbegin) as (-> & Hr & _ & st1 & Hs1 & Hs2).
  pose proof (normalize_identity now ck Hr Hb) as Hi.
  destruct (save_static_durable _ _ _ Hany Hs1) as [Hany1 Hst].
  assert (identified (running_checkpoint now ck)) as Hi' by (destruct Hi as [I1 I2 I3]; by split).
  assert (phase_durable (st0, LoopTop (initial_state now (running_checkpoint now ck)))) as Hd.
  { split; [|exact Hi']. by apply (save_runtime_durable (normalize_checkpoint now ck) _ st1). }
  destruct (run_durable _ _ Hrun Hd) as (Hdc & Es & Er).
  assert (CkRootTaskID (checkpoint (phase_state c.2)) = CkRootTaskID ck) as Er'.
  { rewrite Er. cbn. by destruct (normalize_keeps now ck) as (_ & _ & _ & _ & _ & ->). }
  cbn [snd phase_state checkpoint initial_state] in Es. cbn [checkpoint initial_state].
  rewrite <- Es, <- Er'. intros Hwr Hws Hcs Hcr. exists (canon_checkpoint (checkpoint (phase_state c.2))).
  split; [|split; [done|apply schedule_kept]].
  destruct c as [st' ph]. destruct ph as [s|s|s r]; [..|by destruct (Hret s r)];
    destruct Hdc as (D1 & D2); by apply load_durable.
Qed.
End Durability.

(** ** Task ids with surrounding space

    [completedSet] trims the ids it collects, the plan's own ids are compared as they are. *)

(** a task whose id begins with a space yields a plan that can never start: the first round
    of its execution finds nothing ready and returns the "blocked" error, without having
    submitted any task. *)
Theorem leading_space_id_blocks {ST : Type} `{PlanStorage ST} (selector : ModelSelector) getenv now now' task rest (st : ST) :
  ID task = String blank rest ->
  let '(t, plan) := Prepare getenv now task in
  forall st0 s0 c, begin_execution now' (preview_checkpoint now t plan) st = (st0, LoopTop s0) ->
    exec_step (st0, LoopTop s0) c ->
    exists s, submitted s = [] /\ c.2 = Returned s
      (inl ("parallel plan " +:+ ID task +:+ " is blocked by unresolved dependencies")).
Proof.
  intros Hid. pose proof (prepare_identity getenv selector now task) as Hprep.
  destruct (Prepare getenv now task) as [t plan]. destruct Hprep as (Ht & _ & sel & Hplan).
  intros st0 s0 c Hb Hstep. destruct (begin_loop _ _ _ _ _ Hb) as (-> & _).
  set (ck := preview_checkpoint now t plan) in *.
  destruct (normalize_keeps now' ck) as (N1 & _ & N2 & N3 & _ & N4).
  set (s := initial_state now' (running_checkpoint now' ck)) in *.
  assert (readyPlanArtifacts (Tasks (CkPlanArtifact (checkpoint s))) (PendingTaskIDs (checkpoint s))
    (CompletedTaskIDs (checkpoint s)) = []) as Hready.
  { cbn [checkpoint s initial_state]. change (CkPlanArtifact (running_checkpoint now' ck)) with
      (CkPlanArtifact (normalize_checkpoint now' ck)). rewrite N1.
    apply elem_of_nil_inv. intros a Ha. apply elem_of_ready in Ha as (Ha & Hp & _).
    apply elem_of_completedSet in Hp as (_ & i & _ & Hi).
    unfold ck, preview_checkpoint, buildPlanArtifact in Ha. cbn in Ha.
    apply list_elem_of_fmap in Ha as (step & -> & Hs). rewrite Hplan in Hs. cbn in Hs.
    apply step_ids_prefixed in Hs as [suffix Hs]. rewrite Ht, Hid in Hs.
    apply (TrimSpace_no_space i (rest +:+ suffix)). rewrite Hi.
    unfold artifact_of_step. destruct (stepAssignment t plan step). exact Hs. }
  inversion Hstep as [now2 s2 st2 E1 E2|]; subst; clear Hstep. exists
    (s <| checkpoint := set_status ParallelPlanStatusBlocked now2 (checkpoint s) |>). split; [done|].
  unfold loop_round. cbn zeta. unfold schedulable. rewrite Hready. cbn [foldl scheduleReadyArtifactsWithConflicts].
  assert (0 <? len (PendingTaskIDs (checkpoint s)) = true) as ->.
  { cbn [checkpoint s initial_state]. change (PendingTaskIDs (running_checkpoint now' ck)) with
      (PendingTaskIDs (normalize_checkpoint now' ck)). rewrite N2.
    set (plan := buildPlan getenv now t sel) in *.
    change (PendingTaskIDs ck) with (map ArtTaskID (map (artifact_of_step t plan) (Steps plan))).
    unfold len. rewrite !length_map. cbn [Steps buildPlan plan].
    destruct (defaultSteps_ordered getenv t) as (r0 & r1 & -> & _). cbn [length]. apply Z.ltb_lt. lia. }
  cbn [orb]. change (running s) with (∅ : gmap string PlanTaskArtifact).
  rewrite bool_decide_eq_true_2 by done. cbn [snd]. do 3 f_equal.
  change (CkRootTaskID (checkpoint s)) with (CkRootTaskID (normalize_checkpoint now' ck)).
  by rewrite N4, <- Ht.
Qed.

(** ** A concrete plan *)
#[local] Instance sample_selector : ModelSelector := fun _ =>
  mkModelSelection "openai" "gpt" ComplexityMedium false "code_specialist_path" [] [] [] [] [].
Definition no_env : string -> string := fun _ => "".
Definition empty_storage : MapStorage := mkMapStorage (Some ∅) (Some ∅).
Definition sample_prepared : Task * ExecutionPlan := Prepare no_env 5 (sample_code_task 4).
Definition sample_checkpoint : ParallelPlanCheckpoint :=
  preview_checkpoint 5 sample_prepared.1 sample_prepared.2.
Definition sample_begin : MapStorage * ExecPhase := begin_execution 6 sample_checkpoint empty_storage.
Definition sample_state : ExecState := phase_state sample_begin.2.

#[export] Instance clean_id_dec id : Decision (clean_id id).
Proof. unfold clean_id. apply _. Defined.

Lemma sample_wf : checkpoint_wf sample_checkpoint.
Proof.
  apply preview_checkpoint_wf.
  { pose proof (prepare_identity no_env sample_selector 5 (sample_code_task 4)) as Hp.
    fold sample_prepared in Hp. destruct sample_prepared as [t plan].
    destruct Hp as (_ & _ & sel & Hp). by exists no_env, t, sel. }
  apply (Forall_forall (fun s => clean_id (StepID s))).
  apply (bool_decide_unpack (Forall _ _)). vm_compute. exact I.
Qed.

Lemma sample_begins :
  begin_execution 6 sample_checkpoint empty_storage = (sample_begin.1, LoopTop sample_state).
Proof. vm_compute. reflexivity. Qed.

Definition sample_round : MapStorage * ExecPhase := loop_round 7 sample_state sample_begin.1.
Lemma sample_step : exec_step (sample_begin.1, LoopTop sample_state) sample_round.
Proof. apply step_round. Qed.
#[local] Strategy opaque [sample_begin sample_state sample_round sample_checkpoint].

Lemma plan_execution_safe_witness : checkpoint_wf sample_checkpoint /\
  NoDup (map ID (submitted (phase_state sample_round.2))).
Proof.
  split; [exact sample_wf|].
  exact (proj1 (plan_execution_safe 6 sample_checkpoint empty_storage sample_begin.1 sample_state
    sample_round sample_wf sample_begins (rtc_once _ _ sample_step))).
Defined.

Lemma plan_execution_completes_witness : checkpoint_wf sample_checkpoint /\
  (1 <= 2 * length (PendingTaskIDs sample_checkpoint) + 1)%nat.
Proof.
  split; [exact sample_wf|].
  exact (proj1 (plan_execution_completes 6 sample_checkpoint empty_storage sample_begin.1 sample_state
    1 sample_round sample_wf sample_begins (nsteps_once _ _ sample_step))).
Defined.

Lemma sample_has_storage : has_store empty_storage || has_vfs empty_storage = true.
Proof. reflexivity. Qed.

(** The first task has completed. *)
Definition first_task : PlanTaskArtifact := default zero_plan_task (head (plan_tasks sample_checkpoint)).
Definition first_record : WorkflowRecord :=
  mkWorkflowRecord (zero_task <| ID := ArtTaskID first_task |>) zero_plan
    (mkTaskAcceptance (ArtTaskID first_task) TaskStatusCompleted "coder" ComplexityMedium "" "" "openai" "gpt" false 7)
    None 7.
Definition sample_received : MapStorage * ExecPhase :=
  receive 8 first_task (OutcomeRecord first_record) (phase_state sample_round.2) sample_round.1.
Definition received_memory : ParallelPlanCheckpoint := checkpoint (phase_state sample_received.2).
Lemma sample_run : rtc exec_step (sample_begin.1, LoopTop sample_state) sample_received.
Proof.
  eapply rtc_l; [exact sample_step|]. apply rtc_once.
  assert (sample_round = (sample_round.1, Awaiting (phase_state sample_round.2))) as -> by (vm_compute; reflexivity).
  apply (step_receive 8 _ _ (ArtTaskID first_task)). vm_compute. reflexivity.
Qed.
Lemma sample_not_returned s r : sample_received.2 <> Returned s r.
Proof.
  intros Hr. assert (match sample_received.2 with Returned _ _ => false | _ => true end = true) as Ht
    by (vm_compute; reflexivity).
  rewrite Hr in Ht. discriminate Ht.
Qed.
Lemma received_writable : runtime_writable received_memory /\ static_writable received_memory.
Proof.
  assert (forall v, bool_decide (is_Some (Marshal v)) = true -> Marshal v <> None) as Hm.
  { intros v Hv. apply bool_decide_eq_true in Hv as [x Hx]. congruence. }
  split; split_and!; first [apply Hm; vm_compute; reflexivity|apply (bool_decide_unpack _); vm_compute; exact I].
Qed.

Lemma checkpoint_durable_witness : exists loaded,
  LoadParallelCheckpoint (CkSessionID (checkpoint sample_state)) (CkRootTaskID sample_checkpoint) sample_received.1
    = inr (Some loaded) /\
  CompletedTaskIDs loaded = [ArtTaskID first_task] /\ ResultsByTaskID loaded <> ResultsByTaskID received_memory.
Proof.
  destruct (checkpoint_durable 6 sample_checkpoint empty_storage sample_begin.1 sample_state sample_received
    sample_has_storage (or_intror eq_refl) sample_begins sample_run sample_not_returned (proj1 received_writable)
    (proj2 received_writable) ltac:(vm_compute; reflexivity) ltac:(vm_compute; reflexivity))
    as (loaded & Hload & Hcanon & Hview).
  exists loaded. split; [exact Hload|]. split; [|rewrite Hcanon; vm_compute; discriminate].
  rewrite Hcanon. vm_compute. reflexivity.
Defined.

Definition sample_preview : MapStorage * (string + ExecutionPlanPreview) :=
  PreviewExecutionPlan no_env "task_1" 5 (sample_code_task 4) empty_storage.
Lemma preview_load_roundtrip_witness : exists preview loaded,
  sample_preview.2 = inr preview /\
  LoadParallelCheckpoint (SessionID (PreviewTask preview)) (ID (PreviewTask preview)) sample_preview.1
    = inr (Some loaded).
Proof.
  destruct sample_preview as [st [e|preview]] eqn:He; [vm_compute in He; discriminate He|].
  assert (preview = match sample_preview.2 with inr p => p | inl _ => preview end) as Hp by by rewrite He.
  destruct (preview_load_roundtrip sample_selector no_env "task_1" 5 (sample_code_task 4) empty_storage st
    preview sample_has_storage ltac:(discriminate) He) as [Hck _].
  exists preview, (canon_checkpoint (preview_checkpoint 5 (PreviewTask preview) (PreviewPlan preview))).
  split; [reflexivity|]. apply Hck; rewrite Hp;
    first [split_and!; first [intros Hm; vm_compute in Hm; discriminate Hm|apply (bool_decide_unpack _); vm_compute; exact I]
          |vm_compute; reflexivity].
Defined.

Definition spaced_task : Task := sample_code_task 1 <| ID := String blank "t" |>.
Definition spaced_prepared : Task * ExecutionPlan := Prepare no_env 5 spaced_task.
Definition spaced_begin : MapStorage * ExecPhase :=
  begin_execution 6 (preview_checkpoint 5 spaced_prepared.1 spaced_prepared.2) empty_storage.
Lemma spaced_begins :
  begin_execution 6 (preview_checkpoint 5 spaced_prepared.1 spaced_prepared.2) empty_storage
    = (spaced_begin.1, LoopTop (phase_state spaced_begin.2)).
Proof. vm_compute. reflexivity. Qed.

Lemma leading_space_id_blocks_witness : exists s,
  submitted s = [] /\ (loop_round 7 (phase_state spaced_begin.2) spaced_begin.1).2 = Returned s
    (inl ("parallel plan " +:+ String blank "t" +:+ " is blocked by unresolved dependencies")).
Proof.
  pose proof (leading_space_id_blocks sample_selector no_env 5 6 spaced_task "t" empty_storage eq_refl) as H.
  rewrite (surjective_pairing (Prepare no_env 5 spaced_task)) in H.
  exact (H _ _ _ spaced_begins (step_round 7 _ _)).
Defined.
